(* ===== verification/_CoqProject ===== *)
-Q . S2P
Prelude.v
GoStrings.v
GoPath.v
Sha256.v
Errors.v
Naming.v
Policy.v
FileSystem.v
Observer.v
Fixtures.v
Topology.v
Procfs.v
Decisions.v
Io.v
Image.v
Write.v
Sharing.v
Stage.v
Execute.v
System.v
Flags.v
Engine.v
Version.v
Cli.v
