(* ===== verification/Prelude.v ===== *)
(** * Diskforge: a verification development

    Diskforge ([github.com/ioplane/diskforge], Go) inspects a Linux host, verifies a disk image by
    its SHA-256, binds the operator's consent to both in a confirmation token, and overwrites a
    whole block device with the expanded image; a staging command downloads an image.  This
    library models all the Go packages of the program and proves what makes them safe.  This file
    is its prelude; the rest of this comment is the guide to the whole.

    ** Parts of the program, and where they are

    - the Go standard library as far as the program uses it, as executable functions on byte
      strings and byte lists: [GoStrings.v] ([strings], [strconv], [encoding/hex]), [GoPath.v]
      ([path/filepath]), [Sha256.v] ([crypto/sha256]), [Flags.v] ([flag]), [Io.v] ([io], [os.File],
      [context]), [FileSystem.v] ([os.ReadFile] and its like, [bufio.Scanner]);
    - [Errors.v]: [errors.go], the error values of all packages, [errors.Is] and [errors.As];
    - [Naming.v]: [internal/naming/naming.go], artifact names;
    - [Policy.v]: [internal/policy/{model,confirmation,inspect}.go], the token and the decision;
    - [Observer.v]: [internal/linux/observer.go], what is read from procfs and sysfs.  Its theorems
      are in [Topology.v] (the device graph), [Procfs.v] (the parsers) and [Decisions.v] (the
      answers); [Fixtures.v] holds the snapshots of the program's own tests;
    - [Image.v], [Write.v], [Stage.v]: [internal/image/{verified,write,stage}.go]; [Sharing.v] runs
      concurrent calls of [Close] and [Write] on one image under any scheduler;
    - [Execute.v]: [internal/linux/execute.go], the guarded sequence over any boundary;
    - [System.v]: [internal/linux/system.go], the boundary of the real system over any kernel;
    - [Engine.v]: [diskforge.go] and [types.go], the public API; module [Public] has its types;
    - [Version.v]: [internal/version/version.go];
    - [Cli.v]: [cmd/diskforge/main.go], the commands, their reports and exit codes, and [main].

    A definition has the name of the Go function or type it translates; a method [T.m] is [m] or
    [T_m], record fields carry a prefix ([tgt_KName] is [TargetIdentity.KName]).

    ** How code is modelled

    A pure Go function with an error result gives a [result]: [Ok], [Err] for a returned error, and
    [Panic] for a run-time panic, so that the absence of panics is a theorem and not a convention.
    Code with state is in the monad [M E S], with [finally] for a deferred call that reports its
    error and [on_failure] for a cleanup when an error is returned.  An [int64] is a [Z] and wraps
    where the code can overflow ([wrap64]).  A [map[string]bool] is a [gmap], and the order of its
    iteration is explicit where it could matter ([Policy.intersects_in]).

    What the program does not decide is an argument, never an assumption: the contents of procfs and
    sysfs are snapshots ([FileSystem.FS]; one method call reads one snapshot, two calls may read
    unrelated ones); the system calls are the class [System.Kernel], over an arbitrary state; an
    open file is a script of the outcomes of its operations, which may be short, fail at any point,
    or change between two passes ([Io.OsFile]); the network and the staging directory are
    [Stage.Client] and [Stage.StageEnv]; the Zstandard decoder gives, for the reader under it, any
    script of reads; [url.ParseRequestURI] is any function.

    Interfaces are classes.  [Execute.Boundary] is Go's [linux.Boundary]: the sequence and its
    theorems are proved for every instance; [Execute.traced] logs the calls of one, and
    [System.system_boundary] is the real one.  [Io.Reader], [Io.Writer] and [Write.SyncWriter] are
    Go's interfaces, with the laws that the transfer needs as [ReaderSize], [Received], [Content]
    and [SyncWriterLaws].  [Cli.engineAPI] is the interface that the command line is written
    against, and [Cli.engine_api] the engine as an instance.

    ** What the theorems show

    - The whole program ([Cli.write_command_end_to_end], [System.Execute_writes_image]): exit code 0
      of [diskforge write] means a well-formed request, an accepted inspection whose token was
      repeated, a target opened and validated under the confirmed identity, and the whole expanded
      image of the promised source, of exactly the promised length, durably on that target.
    - Safety before the first byte: [Execute_opens_only_gated] (the target is opened only with an
      image that agrees field by field with the inspection), [Execute_follows_plan] (every run is a
      prefix of one fixed plan, followed by the deferred closes), [OpenTarget_validated],
      [dry_run_touches_nothing], [Inspect_spares_used_devices], [RemountReadOnly_proof].
    - The decision: [Inspect_accepts_iff_safe] and [Inspect_first_gate] against a declarative
      specification; what a token binds and what it does not ([ConfirmationToken_*]).
    - The observation: the walk of the device graph ends and computes the closure of the dependency
      relation; the root disk, the mount of a path, the memory and the identity mean what the
      snapshot says; the parsers invert the kernel's format as far as [strings.Fields] allows;
      nothing panics.  What is in use is stated against an account that the code does not see,
      [lies_on], of the devices on which the file system of each mount lies: [devices_in_use],
      [BlockMountsReadOnly_meaning] and [Inspect_spares_used_devices] hold for the snapshots that
      account for it ([Decisions.accounted]: device numbers lead to those devices).  That is so for
      a file system on one block device and not for btrfs, which has device numbers of its own;
      what then goes unseen is part of [BlockMountsReadOnly_meaning] and of the examples there.
    - The image: verification is sound and complete for stable sources; a transfer is exact,
      bounded, and honest in its progress; staging is all or nothing; goroutines that share a
      verified image see a sequential order, without deadlock ([sharing_linearizable]).
    - The interface: [validateWriteRequest_accepts], [publicError_spec], [New_invariant],
      [run_reports] (one report per run, matching the exit code), [write_args_roundtrip]; artifact
      names are those of the grammar and determine their parts.

    Every theorem with a hypothesis is applied to a concrete input next to it; [System.machine] is a
    small executable host on which the complete program runs in rescue and in live mode.

    ** Bounds and fuel

    - [Observer.walk_fuel] is one more than the number of names in the snapshot; [related_terminates]
      shows that it is never exhausted, cycles included.
    - [Io.CopyBuffer] and [Io.ReadFull] have one unit more than the reader has reads left
      ([ReaderSize]); [copy_loop_no_panic] shows that this suffices.  Exhaustion would be [Panic],
      which the theorems exclude, and never a silent success.
    - [Sharing.run_schedule] runs any finite schedule; [Sharing.work] bounds the steps there are.
    - [RemountReadOnly] polls at most 600 times, as the code does.

    ** Not modelled

    - The text of JSON (the value that is encoded is modelled), of quoted strings in messages ([%q]
      stays a fragment), and of the default usage message of [flag].
    - Time: the poll interval and the HTTP timeout are only recorded; cancellation is an outcome of
      the context's checks.
    - Concurrency, except for the mutex of [Verified] in [Sharing.v]: the program itself has one
      goroutine.  Nothing is assumed about the memory model beyond the mutex.
    - The kernel, the network, the Zstandard decoder and [net/url], which are parameters.  Which
      directories [MkdirAll] finds missing is the environment's; how far the decoder reads ahead in
      the file, and its [Close], leave no trace in the model, as every later use of the file rewinds
      it.
    - The tests, containers and workflows, which are no program logic.
*)

From Stdlib Require Export ZArith Ascii.
From Stdlib Require String.
From stdpp Require Export base tactics option list strings numbers.

(* stdpp's solvers clear hypotheses that are already gone. *)
#[export] Set Warnings "-clear-no-such-hyp".

(** ** Results

    A Go function that returns [(value, error)] returns [Ok value] when the error is nil and
    [Err e] otherwise; the value that accompanies a non-nil error is always the zero value in
    this code base and is not represented, except where the text of a definition says so.
    [Panic] is a run-time panic (an index or slice expression out of range). *)
Inductive result (E A : Type) : Type :=
| Ok (a : A)
| Err (e : E)
| Panic.
Arguments Ok {E A} a.
Arguments Err {E A} e.
Arguments Panic {E A}.

#[export] Instance result_ret {E} : MRet (result E) := fun A a => Ok a.
#[export] Instance result_bind {E} : MBind (result E) := fun A B f m =>
  match m with
  | Ok a => f a
  | Err e => Err e
  | Panic => Panic
  end.
#[export] Instance result_fmap {E} : FMap (result E) := fun A B f m =>
  match m with
  | Ok a => Ok (f a)
  | Err e => Err e
  | Panic => Panic
  end.

(** A guard clause: [if b { return err }]. *)
Definition refuse_if {E} (b : bool) (e : E) : result E unit :=
  if b then Err e else Ok tt.

Definition is_ok {E A} (r : result E A) : bool :=
  match r with Ok _ => true | _ => false end.

Definition no_panic {E A} (r : result E A) : Prop := r <> Panic.

(** Apply a function to the error only. *)
Definition map_err {E F A} (f : E -> F) (r : result E A) : result F A :=
  match r with
  | Ok a => Ok a
  | Err e => Err (f e)
  | Panic => Panic
  end.

(** ** Lemmas and automation for results *)

Create HintDb go discriminated.
Create Rewrite HintDb gostr.

Section result_lemmas.
Context {E : Type}.

Lemma bind_ok_inv {A B} (m : result E A) (f : A -> result E B) (b : B) :
  (m ≫= f) = Ok b <-> exists a, m = Ok a /\ f a = Ok b.
Proof.
  destruct m; simpl; split; eauto; try (intros (? & [=] & ?); by subst); done.
Qed.

Lemma bind_err_inv {A B} (m : result E A) (f : A -> result E B) (e : E) :
  (m ≫= f) = Err e <-> m = Err e \/ exists a, m = Ok a /\ f a = Err e.
Proof.
  destruct m; simpl; split; eauto; try (intros [[=] | (? & [=] & ?)]; by subst); try done.
  intros [= ->]; by left.
Qed.

Lemma bind_no_panic {A B} (m : result E A) (f : A -> result E B) :
  no_panic m -> (forall a, m = Ok a -> no_panic (f a)) -> no_panic (m ≫= f).
Proof. unfold no_panic. destruct m; simpl; eauto; done. Qed.

Lemma map_err_ok {F A} (f : E -> F) (r : result E A) a : map_err f r = Ok a <-> r = Ok a.
Proof. destruct r; simpl; split; congruence. Qed.

Lemma refuse_if_ok (b : bool) (e : E) u : refuse_if b e = Ok u <-> b = false.
Proof. destruct b, u; simpl; split; congruence. Qed.

Lemma refuse_if_err (b : bool) (e e' : E) :
  refuse_if b e = Err e' <-> b = true /\ e = e'.
Proof. destruct b; simpl; intuition congruence. Qed.

Lemma refuse_if_no_panic (b : bool) (e : E) : no_panic (refuse_if b e).
Proof. by destruct b. Qed.
End result_lemmas.

Lemma map_err_no_panic {E F A} (f : E -> F) (r : result E A) :
  no_panic r -> no_panic (map_err f r).
Proof. by destruct r. Qed.

#[export] Hint Resolve refuse_if_no_panic : go.

(** Invert a successful monadic hypothesis into its successful steps. *)
Ltac inv_ok :=
  repeat match goal with
  | H : (_ ≫= _) = Ok _ |- _ =>
      apply bind_ok_inv in H; let a := fresh "v" in let Ha := fresh "Hv" in
      destruct H as (a & Ha & H)
  | H : map_err _ _ = Ok _ |- _ => apply map_err_ok in H
  | H : refuse_if _ _ = Ok ?u |- _ => apply refuse_if_ok in H; try clear u
  | H : Ok _ = Ok _ |- _ => injection H as H; try subst
  | H : mret _ = Ok _ |- _ => injection H as H; try subst
  | H : Err _ = Ok _ |- _ => discriminate H
  | H : Panic = Ok _ |- _ => discriminate H
  end.

(** Two successful results of the same computation are equal. *)
Ltac ok_unique :=
  repeat match goal with
  | H1 : ?a = Ok ?x, H2 : ?a = Ok ?y |- _ =>
      rewrite H1 in H2; injection H2 as H2; first [subst x | subst y | rewrite H2 in *]
  end.

(** Split boolean conjunctions and negations of the hypotheses into propositions. *)
Ltac bool_hyps :=
  repeat match goal with
  | H : _ && _ = true |- _ => apply andb_true_iff in H; destruct H
  | H : _ || _ = false |- _ => apply orb_false_iff in H; destruct H
  | H : negb _ = true |- _ => apply negb_true_iff in H
  | H : negb _ = false |- _ => apply negb_false_iff in H
  | H : bool_decide _ = true |- _ => apply bool_decide_eq_true_1 in H
  | H : bool_decide _ = false |- _ => apply bool_decide_eq_false_1 in H
  | H : ~ (?a <> ?b) |- _ => apply dec_stable in H
  end.

(** ** Stateful computations

    A computation that reads and changes a state and may fail; a failure keeps the changes made
    before it, as in Go. *)
Definition M (E S A : Type) : Type := S -> result E A * S.

#[export] Instance M_ret {E S} : MRet (M E S) := fun A a s => (Ok a, s).
#[export] Instance M_bind {E S} : MBind (M E S) := fun A B f m s =>
  match m s with
  | (Ok a, s') => f a s'
  | (Err e, s') => (Err e, s')
  | (Panic, s') => (Panic, s')
  end.

(** A result that does not touch the state, the state itself, and a change of it. *)
Definition lift {E S A} (r : result E A) : M E S A := fun s => (r, s).
Definition gets {E S A} (f : S -> A) : M E S A := fun s => (Ok (f s), s).
Definition modify {E S} (f : S -> S) : M E S unit := fun s => (Ok tt, f s).

(** [defer]: run the second computation, whose result is ignored, when the first has ended. *)
Definition finally {E S A} (m : M E S A) (cleanup : M E S unit) : M E S A := fun s =>
  let (r, s') := m s in (r, (cleanup s').2).

(** The state an error path leaves: run [cleanup] only when [m] fails. *)
Definition on_failure {E S A} (m : M E S A) (cleanup : M E S unit) : M E S A := fun s =>
  match m s with
  | (Ok a, s') => (Ok a, s')
  | (r, s') => (r, (cleanup s').2)
  end.

(** Call and continue whatever the result: [_ = f()]. *)
Definition ignore {E S A} (m : M E S A) : M E S unit := fun s => (Ok tt, (m s).2).

Definition map_error {E F S A} (f : E -> F) (m : M E S A) : M F S A := fun s =>
  let (r, s') := m s in (map_err f r, s').

Lemma M_bind_ok {E S A B} (m : M E S A) (f : A -> M E S B) s b s' :
  (m ≫= f) s = (Ok b, s') <-> exists a s1, m s = (Ok a, s1) /\ f a s1 = (Ok b, s').
Proof.
  unfold mbind, M_bind. destruct (m s) as [[a|e|] s1]; split; eauto; try done;
    intros (? & ? & [= ??] & ?); by subst.
Qed.

Lemma map_error_ok {E F S A} (f : E -> F) (m : M E S A) s a s' :
  map_error f m s = (Ok a, s') <-> m s = (Ok a, s').
Proof. unfold map_error. destruct (m s) as [[]]; simpl; split; congruence. Qed.

(** Run one step that succeeds. *)
Lemma M_bind_run {E S A B} (m : M E S A) (f : A -> M E S B) s a s' :
  m s = (Ok a, s') -> (m ≫= f) s = f a s'.
Proof. intros H. unfold mbind, M_bind. by rewrite H. Qed.

Lemma map_error_run {E F S A} (f : E -> F) (m : M E S A) s a s' :
  m s = (Ok a, s') -> map_error f m s = (Ok a, s').
Proof. apply map_error_ok. Qed.

Lemma lift_ok {E S A} (r : result E A) (s : S) a s' :
  lift r s = (Ok a, s') <-> r = Ok a /\ s' = s.
Proof. unfold lift. split; [by intros [= -> ->]|by intros [-> ->]]. Qed.

(** The outcomes of a sequence: the first part fails, or the second part runs. *)
Lemma M_bind_cases {E S A B} (m : M E S A) (f : A -> M E S B) s r s' :
  (m ≫= f) s = (r, s') ->
  (exists a s1, m s = (Ok a, s1) /\ f a s1 = (r, s')) \/
  (exists r0, m s = (r0, s') /\ is_ok r0 = false /\ is_ok r = false).
Proof.
  unfold mbind, M_bind. destruct (m s) as [[a|e|] s1]; [by eauto|..]; intros [= <- <-]; right;
    by eexists.
Qed.

Lemma M_bind_assoc {E S A B C} (m : M E S A) (f : A -> M E S B) (g : B -> M E S C) s :
  ((m ≫= f) ≫= g) s = (m ≫= fun a => f a ≫= g) s.
Proof. unfold mbind, M_bind. by destruct (m s) as [[]]. Qed.

(** A relation between the states before and after, whatever the result. *)
Definition preserves {E S A} (R : relation S) (m : M E S A) : Prop := forall s, R s (m s).2.

Section preserves.
Context {E S : Type} (R : relation S) `{!PreOrder R}.

Lemma preserves_bind {A B} (m : M E S A) (f : A -> M E S B) :
  preserves R m -> (forall a, preserves R (f a)) -> preserves R (m ≫= f).
Proof.
  intros Hm Hf s. specialize (Hm s). unfold mbind, M_bind.
  destruct (m s) as [[a|e|] s1]; cbn in *; [|done..]. by etransitivity; [|apply Hf].
Qed.

Lemma preserves_ret {A} (a : A) : preserves R (mret a : M E S A).
Proof. intros s. cbn. reflexivity. Qed.
Lemma preserves_lift {A} (r : result E A) : preserves R (lift r).
Proof. intros s. cbn. reflexivity. Qed.
Lemma preserves_gets {A} (g : S -> A) : preserves (E:=E) R (gets g).
Proof. intros s. cbn. reflexivity. Qed.
End preserves.

Lemma preserves_map_error {E F S A} (R : relation S) (g : E -> F) (m : M E S A) :
  preserves R m -> preserves R (map_error g m).
Proof. intros H s. specialize (H s). unfold map_error. by destruct (m s). Qed.

(** No panic from a state that satisfies [P], which is kept. *)
Definition safe {E S A} (P : S -> Prop) (m : M E S A) : Prop :=
  forall s, P s -> no_panic (m s).1 /\ P (m s).2.

Section safe.
Context {E S : Type} (P : S -> Prop).

Lemma safe_bind {A B} (m : M E S A) (f : A -> M E S B) :
  safe P m -> (forall a, safe P (f a)) -> safe P (m ≫= f).
Proof.
  intros Hm Hf s Hs. destruct (Hm s Hs) as [H1 H2]. unfold mbind, M_bind.
  destruct (m s) as [[a|e|] s1]; cbn in *; [by apply Hf|done..].
Qed.

Lemma safe_ret {A} (a : A) : safe P (mret a : M E S A).
Proof. done. Qed.
Lemma safe_lift {A} (r : result E A) : no_panic r -> safe P (lift r).
Proof. by intros Hr s Hs. Qed.
Lemma safe_gets {A} (g : S -> A) : safe P (gets g : M E S A).
Proof. done. Qed.
Lemma safe_modify (g : S -> S) : (forall s, P s -> P (g s)) -> safe P (modify g : M E S unit).
Proof. intros Hg s Hs. split; [done|]. by apply Hg. Qed.

Lemma safe_finally {A} (m : M E S A) (c : M E S unit) : safe P m -> safe P c -> safe P (finally m c).
Proof.
  intros Hm Hc s Hs. destruct (Hm s Hs) as [H1 H2]. unfold finally.
  destruct (m s) as [r s1]. cbn in *. split; [done|]. by apply Hc.
Qed.

Lemma safe_on_failure {A} (m : M E S A) (c : M E S unit) :
  safe P m -> safe P c -> safe P (on_failure m c).
Proof.
  intros Hm Hc s Hs. destruct (Hm s Hs) as [H1 H2]. unfold on_failure.
  destruct (m s) as [[a|e|] s1]; cbn in *; [done| |done]. split; [done|]. by apply Hc.
Qed.
End safe.

Lemma safe_map_error {E F S A} (P : S -> Prop) (g : E -> F) (m : M E S A) :
  safe P m -> safe P (map_error g m).
Proof.
  intros Hm s Hs. destruct (Hm s Hs) as [H1 H2]. unfold map_error.
  destruct (m s) as [r s1]. split; [by apply map_err_no_panic|done].
Qed.

(** Invert a successful stateful hypothesis into its successful steps. *)
Ltac inv_M :=
  repeat match goal with
  | H : (_ ≫= _) _ = (Ok _, _) |- _ =>
      apply M_bind_ok in H; let a := fresh "a" in let s := fresh "s" in let Ha := fresh "Ha" in
      destruct H as (a & s & Ha & H)
  | H : map_error _ _ _ = (Ok _, _) |- _ => apply map_error_ok in H
  | H : lift _ _ = (Ok _, _) |- _ => apply lift_ok in H; destruct H as [H ->]
  | H : refuse_if _ _ = Ok ?u |- _ => apply refuse_if_ok in H; try clear u
  | H : gets _ _ = (Ok _, _) |- _ => injection H as H ?; try subst
  | H : modify _ _ = (Ok _, _) |- _ => injection H as H ?; try subst
  | H : mret _ _ = (Ok _, _) |- _ => injection H as H ?; try subst
  | H : (Ok _, _) = (Ok _, _) |- _ => injection H as H ?; try subst
  | H : (Err _, _) = (Ok _, _) |- _ => discriminate H
  | H : (Panic, _) = (Ok _, _) |- _ => discriminate H
  end.

(** ** Machine integers

    Go's [int64] (and [int] on the supported platforms) is a [Z] between [min_int64] and
    [max_int64]; a product that overflows wraps around ([wrap64]). *)
Definition max_int64 : Z := 9223372036854775807.
Definition min_int64 : Z := -9223372036854775808.
Definition int64_range (z : Z) : Prop := (min_int64 <= z <= max_int64)%Z.
Definition wrap64 (z : Z) : Z := ((z + 2 ^ 63) mod 2 ^ 64 - 2 ^ 63)%Z.

Lemma wrap64_range z : int64_range (wrap64 z).
Proof.
  unfold int64_range, wrap64, min_int64, max_int64.
  pose proof (Z.mod_pos_bound (z + 2 ^ 63) (2 ^ 64) eq_refl). lia.
Qed.

Lemma wrap64_id z : int64_range z -> wrap64 z = z.
Proof.
  unfold int64_range, wrap64, min_int64, max_int64. intros H.
  rewrite Z.mod_small; lia.
Qed.
