(* ===== verification/GoStrings.v ===== *)
(** * Strings of the Go standard library

    A Go string is a sequence of bytes: [string], whose [ascii] characters are the bytes.  This
    file models the functions of [strings], [strconv] and [encoding/hex] that the program
    calls, and proves the facts about them that the components use. *)

From S2P Require Export Prelude.
From stdpp Require Import pretty sorting.

Open Scope stdpp_scope.

(** ** Characters *)
Definition code (c : ascii) : N := N_of_ascii c.
Definition in_range (lo hi c : ascii) : bool :=
  (code lo <=? code c)%N && (code c <=? code hi)%N.
Definition is_digit (c : ascii) : bool := in_range "0" "9" c.
Definition is_lower_hex (c : ascii) : bool := is_digit c || in_range "a" "f" c.
Definition is_upper_hex (c : ascii) : bool := in_range "A" "F" c.

Fixpoint str_forall (p : ascii -> bool) (s : string) : bool :=
  match s with
  | EmptyString => true
  | String c s' => p c && str_forall p s'
  end.

Definition lacks (c : ascii) (s : string) : bool := str_forall (fun d => negb (Ascii.eqb d c)) s.

Fixpoint count_char (c : ascii) (s : string) : nat :=
  match s with
  | EmptyString => 0
  | String d s' => (if Ascii.eqb d c then 1 else 0) + count_char c s'
  end.

(** [s[i]]: panics out of range. *)
Definition index {E} (s : string) (i : nat) : result E ascii :=
  match String.get i s with
  | Some c => Ok c
  | None => Panic
  end.

(** [s[:n]] and [s[n:]]: panic out of range. *)
Definition slice_to {E} (s : string) (n : nat) : result E string :=
  if (n <=? String.length s)%nat then Ok (String.substring 0 n s) else Panic.
Fixpoint drop_str (n : nat) (s : string) : string :=
  match n, s with
  | S n', String _ s' => drop_str n' s'
  | _, _ => s
  end.
Definition slice_from {E} (s : string) (n : nat) : result E string :=
  if (n <=? String.length s)%nat then Ok (drop_str n s) else Panic.

(** [strings.HasPrefix], [strings.TrimPrefix]. *)
Definition HasPrefix (s p : string) : bool := String.prefix p s.
Definition TrimPrefix (s p : string) : string :=
  if HasPrefix s p then drop_str (String.length p) s else s.

(** [strings.Split] for a one-byte separator: never empty. *)
Fixpoint Split (s : string) (sep : ascii) : list string :=
  match s with
  | EmptyString => [EmptyString]
  | String c s' =>
      if Ascii.eqb c sep then EmptyString :: Split s' sep
      else match Split s' sep with
           | x :: xs => String c x :: xs
           | [] => [String c EmptyString]
           end
  end.

(** [strings.Join]. *)
Fixpoint JoinStr (l : list string) (sep : string) : string :=
  match l with
  | [] => EmptyString
  | [x] => x
  | x :: xs => x +:+ sep +:+ JoinStr xs sep
  end.

(** [strings.Cut] for a one-byte separator. *)
Fixpoint Cut (s : string) (sep : ascii) : option (string * string) :=
  match s with
  | EmptyString => None
  | String c s' =>
      if Ascii.eqb c sep then Some (EmptyString, s')
      else match Cut s' sep with
           | Some (a, b) => Some (String c a, b)
           | None => None
           end
  end.

(** [strings.ToLower] on a string whose bytes are ASCII (bytes above 0x7f are kept). *)
Definition to_lower_char (c : ascii) : ascii :=
  if in_range "A" "Z" c then ascii_of_N (code c + 32) else c.
Fixpoint ToLower (s : string) : string :=
  match s with
  | EmptyString => EmptyString
  | String c s' => String (to_lower_char c) (ToLower s')
  end.

(** ** White space: [unicode.IsSpace] on UTF-8 text

    [runes s] cuts [s] into its white-space runes (in full) and its other bytes, one by one.
    The UTF-8 encodings of the non-ASCII white-space runes U+0085, U+00A0, U+1680, U+2000 to
    U+200A, U+2028, U+2029, U+202F, U+205F and U+3000 start with a lead byte that occurs in no
    other position of an encoded rune, so recognising their bytes is decoding them. *)
Inductive rune_unit :=
| Space (bytes : string)
| Byte (c : ascii).

Definition ascii_space (c : ascii) : bool := in_range "009" "013" c || Ascii.eqb c " ".
Definition space2 (c1 c2 : ascii) : bool :=
  (code c1 =? 194)%N && ((code c2 =? 133)%N || (code c2 =? 160)%N).
Definition space3 (c1 c2 c3 : ascii) : bool :=
  let n1 := code c1 in let n2 := code c2 in let n3 := code c3 in
  ((n1 =? 225) && (n2 =? 154) && (n3 =? 128)
   || (n1 =? 226) && (n2 =? 128)
      && ((128 <=? n3) && (n3 <=? 138) || (n3 =? 168) || (n3 =? 169) || (n3 =? 175))
   || (n1 =? 226) && (n2 =? 129) && (n3 =? 159)
   || (n1 =? 227) && (n2 =? 128) && (n3 =? 128))%N.

Fixpoint runes (s : string) : list rune_unit :=
  match s with
  | EmptyString => []
  | String c1 s1 =>
      if ascii_space c1 then Space (String c1 EmptyString) :: runes s1
      else match s1 with
           | String c2 s2 =>
               if space2 c1 c2 then Space (String c1 (String c2 EmptyString)) :: runes s2
               else match s2 with
                    | String c3 s3 =>
                        if space3 c1 c2 c3 then Space (String c1 (String c2 (String c3 EmptyString))) :: runes s3
                        else Byte c1 :: runes s1
                    | EmptyString => Byte c1 :: runes s1
                    end
           | EmptyString => Byte c1 :: runes s1
           end
  end.

(** [strings.Fields]: [cur] is the field being read, if any. *)
Fixpoint fields_go (cur : option string) (us : list rune_unit) : list string :=
  match us, cur with
  | [], None => []
  | [], Some f => [f]
  | Space _ :: us', None => fields_go None us'
  | Space _ :: us', Some f => f :: fields_go None us'
  | Byte c :: us', None => fields_go (Some (String c EmptyString)) us'
  | Byte c :: us', Some f => fields_go (Some (f +:+ String c EmptyString)) us'
  end.
Definition Fields (s : string) : list string := fields_go None (runes s).

(** [strings.TrimSpace]. *)
Definition is_space_unit (u : rune_unit) : bool :=
  match u with Space _ => true | Byte _ => false end.
Definition unit_bytes (u : rune_unit) : string :=
  match u with Space w => w | Byte c => String c EmptyString end.
Fixpoint drop_spaces (us : list rune_unit) : list rune_unit :=
  match us with
  | u :: us' => if is_space_unit u then drop_spaces us' else us
  | [] => []
  end.
Definition TrimSpace (s : string) : string :=
  let trimmed := reverse (drop_spaces (reverse (drop_spaces (runes s)))) in
  foldr (fun u acc => unit_bytes u +:+ acc) EmptyString trimmed.

(** ** [strconv.ParseInt(s, 10, 64)] and [strconv.ParseUint(s, 10, bits)]

    Base 10 is explicit, so underscores are not accepted.  Both report only whether they fail:
    the callers never look at the error. *)
Fixpoint digits_value (acc : Z) (s : string) : option Z :=
  match s with
  | EmptyString => Some acc
  | String c s' =>
      if is_digit c then digits_value (10 * acc + Z.of_N (code c - 48))%Z s' else None
  end.
Definition parse_digits (s : string) : option Z :=
  match s with
  | EmptyString => None
  | _ => digits_value 0 s
  end.
Definition ParseUint (s : string) (bits : Z) : option Z :=
  v ← parse_digits s; if (v <? 2 ^ bits)%Z then Some v else None.
Definition ParseInt64 (s : string) : option Z :=
  match s with
  | String "+" s' => v ← parse_digits s'; if (v <=? max_int64)%Z then Some v else None
  | String "-" s' => v ← parse_digits s'; if (- v >=? min_int64)%Z then Some (- v)%Z else None
  | _ => v ← parse_digits s; if (v <=? max_int64)%Z then Some v else None
  end.

(** [fmt]'s [%d] verb. *)
Definition format_int (z : Z) : string := pretty z.

(** ** [encoding/hex] *)
Definition hex_digit (n : N) : ascii :=
  if (n <? 10)%N then ascii_of_N (48 + n) else ascii_of_N (87 + n).
Fixpoint EncodeToString (bs : list Z) : string :=
  match bs with
  | [] => EmptyString
  | b :: bs' =>
      String (hex_digit (Z.to_N (b / 16))) (String (hex_digit (Z.to_N (b mod 16)))
        (EncodeToString bs'))
  end.

Definition hex_value (c : ascii) : option Z :=
  if is_digit c then Some (Z.of_N (code c - 48))
  else if in_range "a" "f" c then Some (Z.of_N (code c - 87))
  else if is_upper_hex c then Some (Z.of_N (code c - 55))
  else None.

(** [hex.DecodeString]: [None] for an odd length or a byte that is no hexadecimal digit. *)
Fixpoint DecodeString (s : string) : option (list Z) :=
  match s with
  | EmptyString => Some []
  | String a (String b s') =>
      x ← hex_value a; y ← hex_value b; rest ← DecodeString s'; Some ((16 * x + y)%Z :: rest)
  | String _ EmptyString => None
  end.

(** The bytes of a string, as integers. *)
Fixpoint bytes_of (s : string) : list Z :=
  match s with
  | EmptyString => []
  | String c s' => Z.of_N (code c) :: bytes_of s'
  end.

(** [slices.Sort] on strings: the order is the order of the bytes. *)
Definition sort_strings (l : list string) : list string := merge_sort String.le l.

(** ** Concatenation *)
Lemma str_app_cons c (s t : string) : String c s +:+ t = String c (s +:+ t).
Proof. done. Qed.

Lemma str_app_nil_r (s : string) : s +:+ EmptyString = s.
Proof. induction s as [|c s IH]; [done|]. by rewrite str_app_cons, IH. Qed.

Lemma str_app_nil_l (t : string) : EmptyString +:+ t = t.
Proof. done. Qed.

Lemma str_app_assoc (s t u : string) : (s +:+ t) +:+ u = s +:+ t +:+ u.
Proof. induction s as [|c s IH]; [done|]. by rewrite !str_app_cons, IH. Qed.

Lemma length_str_app (s t : string) :
  String.length (s +:+ t) = String.length s + String.length t.
Proof. induction s as [|c s IH]; [done|]. rewrite str_app_cons; simpl. by rewrite IH. Qed.

Lemma str_forall_app p (s t : string) :
  str_forall p (s +:+ t) = str_forall p s && str_forall p t.
Proof.
  induction s as [|c s IH]; [done|]. rewrite str_app_cons; simpl.
  by rewrite IH, andb_assoc.
Qed.

Lemma str_forall_impl (p q : ascii -> bool) s :
  (forall c, p c = true -> q c = true) -> str_forall p s = true -> str_forall q s = true.
Proof.
  intros Hpq. induction s as [|c s IH]; [done|]; simpl. intros H. bool_hyps.
  by rewrite Hpq, IH.
Qed.

#[export] Hint Rewrite str_app_nil_r str_app_assoc length_str_app str_forall_app : gostr.

Lemma str_app_inj_r (s t u : string) : s +:+ u = t +:+ u -> s = t.
Proof.
  revert t. induction s as [|c s IH]; intros [|d t] H; try done.
  - apply (f_equal String.length) in H. rewrite !length_str_app in H. simpl in H. lia.
  - apply (f_equal String.length) in H. rewrite !length_str_app in H. simpl in H. lia.
  - rewrite !str_app_cons in H. injection H as -> H. f_equal. by apply IH.
Qed.

Lemma str_app_inj_length (s s' t t' : string) :
  String.length s = String.length s' -> s +:+ t = s' +:+ t' -> s = s' /\ t = t'.
Proof.
  revert s'. induction s as [|c s IH]; intros [|d s'] Hl H; simpl in Hl; try lia; [done|].
  rewrite !str_app_cons in H. injection H as -> H. injection Hl as Hl.
  destruct (IH s' Hl H) as [-> ->]. done.
Qed.

(** A separator that occurs in neither left part (right part) makes the parts unique. *)
Lemma sep_inj_l c (a a' b b' : string) :
  lacks c a = true -> lacks c a' = true ->
  a +:+ String c b = a' +:+ String c b' -> a = a' /\ b = b'.
Proof.
  unfold lacks. revert a'. induction a as [|d a IH]; intros [|d' a'] Ha Ha' H; simpl in *.
  - by injection H.
  - injection H as <- _. by rewrite Ascii.eqb_refl in Ha'.
  - injection H as -> _. by rewrite Ascii.eqb_refl in Ha.
  - bool_hyps. rewrite !str_app_cons in H. injection H as -> H.
    destruct (IH a') as [-> ->]; auto.
Qed.

Lemma lacks_mid c (a b : string) : lacks c (a +:+ String c b) = false.
Proof.
  unfold lacks. rewrite str_forall_app. simpl. rewrite Ascii.eqb_refl. simpl.
  apply andb_false_r.
Qed.

Lemma sep_inj_r c (a a' b b' : string) :
  lacks c b = true -> lacks c b' = true ->
  a +:+ String c b = a' +:+ String c b' -> a = a' /\ b = b'.
Proof.
  revert a'. induction a as [|d a IH]; intros [|d' a'] Hb Hb' H.
  - by injection H.
  - rewrite str_app_cons in H. injection H as _ ->. by rewrite lacks_mid in Hb.
  - rewrite str_app_cons in H. injection H as _ <-. by rewrite lacks_mid in Hb'.
  - rewrite !str_app_cons in H. injection H as -> H.
    destruct (IH a' Hb Hb' H) as [-> ->]. done.
Qed.

(** The same for a text whose concatenations associate to the left. *)
Lemma sep_inj_r_left c (a a' b b' : string) :
  lacks c b = true -> lacks c b' = true ->
  (a +:+ String c EmptyString) +:+ b = (a' +:+ String c EmptyString) +:+ b' -> a = a' /\ b = b'.
Proof. intros Hb Hb'. rewrite !str_app_assoc. by apply (sep_inj_r c). Qed.

Lemma str_cons_app c (s : string) : String c s = String c EmptyString +:+ s.
Proof. done. Qed.

Lemma str_prefix_ne c d s t : c <> d -> String.prefix (String c s) (String d t) = false.
Proof. intros H. cbn [String.prefix]. by destruct (ascii_dec c d). Qed.

Lemma str_prefix_app (s t : string) : String.prefix s (s +:+ t) = true.
Proof.
  induction s as [|c s IH]; [by destruct t|]. rewrite str_app_cons. simpl.
  by destruct (ascii_dec c c).
Qed.

Lemma str_prefix_inv (s t : string) : String.prefix s t = true -> exists u, t = s +:+ u.
Proof.
  revert t. induction s as [|c s IH]; intros t H; [by exists t|].
  destruct t as [|d t]; [done|]. simpl in H. destruct (ascii_dec c d) as [->|]; [|done].
  destruct (IH t H) as [u ->]. by exists u.
Qed.

(** ** Split and join *)
Lemma Split_ne s c : Split s c <> [].
Proof.
  induction s as [|d s IH]; simpl; [done|].
  destruct (Ascii.eqb d c); [done|]. by destruct (Split s c).
Qed.

Lemma JoinStr_cons x y l sep : JoinStr (x :: y :: l) sep = x +:+ sep +:+ JoinStr (y :: l) sep.
Proof. done. Qed.

Lemma Join_Split s c : JoinStr (Split s c) (String c EmptyString) = s.
Proof.
  induction s as [|d s IH]; [done|]; simpl.
  pose proof (Split_ne s c) as Hne.
  destruct (Ascii.eqb_spec d c) as [->|_].
  - destruct (Split s c) as [|x l]; [done|]. rewrite JoinStr_cons.
    by rewrite IH.
  - destruct (Split s c) as [|x [|y l]]; [done| |].
    + simpl in *. by rewrite IH.
    + rewrite JoinStr_cons in *. by rewrite str_app_cons, IH.
Qed.

Lemma Split_lacks s c : Forall (fun x => lacks c x = true) (Split s c).
Proof.
  induction s as [|d s IH]; simpl; [by repeat constructor|].
  destruct (Ascii.eqb d c) eqn:E; [by constructor|].
  destruct (Split s c) as [|x l]; constructor; try by inversion IH.
  - by unfold lacks; simpl; rewrite E.
  - unfold lacks in *; simpl. rewrite E. by inversion IH.
Qed.

Lemma Split_lacks_one s c : lacks c s = true -> Split s c = [s].
Proof.
  unfold lacks. induction s as [|d s IH]; [done|]; simpl. intros H. bool_hyps.
  rewrite H. by rewrite IH.
Qed.

Lemma Split_app x s c : lacks c x = true -> Split (x +:+ String c s) c = x :: Split s c.
Proof.
  unfold lacks. induction x as [|d x IH]; intros H; simpl in H.
  - simpl. by rewrite Ascii.eqb_refl.
  - bool_hyps. rewrite str_app_cons. simpl. by rewrite H, IH.
Qed.

Lemma Split_app_any a s c : Split (a +:+ String c s) c = Split a c ++ Split s c.
Proof.
  induction a as [|d a IH]; [by apply (Split_app EmptyString)|].
  rewrite str_app_cons. cbn [Split]. rewrite IH. destruct (Ascii.eqb d c); [done|].
  pose proof (Split_ne a c) as Hne. by destruct (Split a c).
Qed.

Lemma JoinStr_app l l' sep :
  l <> [] -> l' <> [] -> JoinStr (l ++ l') sep = JoinStr l sep +:+ sep +:+ JoinStr l' sep.
Proof.
  intros Hl Hl'. induction l as [|x [|y l] IH]; [done|by destruct l'|].
  change ((x :: y :: l) ++ l') with (x :: y :: (l ++ l')). rewrite !JoinStr_cons.
  change (y :: l ++ l') with ((y :: l) ++ l'). rewrite IH by done. by rewrite !str_app_assoc.
Qed.

Lemma Split_Join l c :
  l <> [] -> Forall (fun x => lacks c x = true) l ->
  Split (JoinStr l (String c EmptyString)) c = l.
Proof.
  intros Hne Hl. induction Hl as [|x l Hx Hl IH]; [done|].
  destruct l as [|y l]; [by apply Split_lacks_one|].
  rewrite JoinStr_cons. rewrite str_app_cons, str_app_nil_l.
  rewrite Split_app by done. f_equal. by apply IH.
Qed.

(** ** Hexadecimal text *)
Lemma str_ind2 (P : string -> Prop) :
  P EmptyString -> (forall a, P (String a EmptyString)) ->
  (forall a b s, P s -> P (String a (String b s))) -> forall s, P s.
Proof.
  intros H0 H1 H2 s. enough (P s /\ forall a, P (String a s)) by tauto.
  induction s as [|b s [IH IH']]; split; auto.
Qed.

(** Decide a property of one character by its 256 cases. *)
Ltac by_chars c := destruct c as [[] [] [] [] [] [] [] []]; try done; vm_compute; try done.

Lemma hex_value_Some c : is_Some (hex_value c) <-> is_lower_hex c || is_upper_hex c = true.
Proof.
  unfold hex_value, is_lower_hex. destruct (is_digit c); simpl; [split; eauto; done|].
  destruct (in_range "a" "f" c); simpl; [split; eauto; done|].
  destruct (is_upper_hex c); split; eauto; try done; by intros [? ?].
Qed.

Lemma DecodeString_length s bs :
  DecodeString s = Some bs -> String.length s = 2 * length bs.
Proof.
  revert bs. induction s as [|a|a b s IH] using str_ind2; intros bs H; simpl in H.
  - by simplify_eq.
  - done.
  - destruct (hex_value a), (hex_value b), (DecodeString s) eqn:E; simpl in H; simplify_eq.
    simpl. rewrite (IH _ eq_refl). lia.
Qed.

Lemma DecodeString_Some s n :
  String.length s = 2 * n ->
  (is_Some (DecodeString s) <->
   str_forall (fun c => is_lower_hex c || is_upper_hex c) s = true).
Proof.
  revert n. induction s as [|a|a b s IH] using str_ind2; intros n Hn; simpl in *.
  - split; eauto; done.
  - lia.
  - specialize (IH (n - 1)). pose proof (hex_value_Some a). pose proof (hex_value_Some b).
    destruct (is_lower_hex a || is_upper_hex a), (is_lower_hex b || is_upper_hex b);
      destruct (hex_value a), (hex_value b); simpl in *;
      try (split; [by intros [? ?] | done]);
      repeat match goal with H : is_Some _ <-> _ |- _ => destruct H end;
      try (assert (is_Some (@None Z)) as [? ?] by auto; done);
      try (assert (false = true) by eauto; done).
    rewrite <- IH by lia. destruct (DecodeString s); simpl; split; eauto.
Qed.

Lemma ToLower_hex s :
  str_forall (fun c => is_lower_hex c || is_upper_hex c) s = true ->
  (s = ToLower s <-> str_forall is_lower_hex s = true).
Proof.
  assert (forall c, is_lower_hex c || is_upper_hex c = true ->
            (c = to_lower_char c <-> is_lower_hex c = true)) as Hc.
  { intros c. by_chars c. }
  induction s as [|c s IH]; simpl; intros H; [done|]. bool_hyps.
  rewrite andb_true_iff, <- IH, <- (Hc c) by done.
  split; [intros [= H1 H2]; by rewrite <- H1, <- H2 | intros [H1 H2]; by rewrite <- H1, <- H2].
Qed.

(** The digest test of the program (it occurs in three packages): the text is exactly [n]
    lower-case hexadecimal digits. *)
Definition lower_hex_text (n : nat) (s : string) : Prop :=
  String.length s = n /\ str_forall is_lower_hex s = true.

Definition bad_digest (s : string) : bool :=
  match DecodeString s with
  | None => true
  | Some decoded => negb (length decoded =? 32)%nat
  end || negb (String.length s =? 32 * 2)%nat || negb (bool_decide (s = ToLower s)).

Lemma bad_digest_spec s : bad_digest s = false <-> lower_hex_text 64 s.
Proof.
  unfold bad_digest, lower_hex_text. destruct (Nat.eqb_spec (String.length s) (32 * 2)) as [Hl|Hl].
  - pose proof (DecodeString_Some s 32 Hl) as Hd. pose proof (ToLower_hex s) as Ht.
    destruct (DecodeString s) as [bs|] eqn:E.
    + pose proof (DecodeString_length _ _ E) as Hb.
      rewrite (proj2 (Nat.eqb_eq _ _)) by lia. simpl.
      rewrite negb_false_iff, bool_decide_eq_true.
      rewrite Ht by (apply Hd; eauto). intuition.
    + split; [done|]. intros [_ Hs]. destruct Hd as [_ Hd].
      destruct Hd as [? ?]; [|done].
      eapply str_forall_impl; [|exact Hs]. intros c Hc. by rewrite Hc.
  - destruct (match DecodeString s with Some _ => _ | None => _ end); simpl; split; try done;
      intros [? _]; lia.
Qed.

Definition is_byte (b : Z) : Prop := (0 <= b < 256)%Z.

Lemma length_EncodeToString bs : String.length (EncodeToString bs) = 2 * length bs.
Proof. induction bs as [|b bs IH]; simpl; [done|]. rewrite IH. lia. Qed.

Lemma below_16 (P : N -> Prop) :
  Forall P [0; 1; 2; 3; 4; 5; 6; 7; 8; 9; 10; 11; 12; 13; 14; 15]%N ->
  forall n, (n < 16)%N -> P n.
Proof.
  rewrite Forall_forall. intros HP n Hn. apply HP. rewrite !elem_of_cons. lia.
Qed.

Lemma hex_digit_lower n : (n < 16)%N -> is_lower_hex (hex_digit n) = true.
Proof. revert n. apply below_16. by repeat constructor. Qed.

Lemma hex_digit_value n : (n < 16)%N -> hex_value (hex_digit n) = Some (Z.of_N n).
Proof. revert n. apply below_16. by repeat constructor. Qed.

Lemma EncodeToString_lower_hex bs :
  Forall is_byte bs -> str_forall is_lower_hex (EncodeToString bs) = true.
Proof.
  unfold is_byte. induction 1 as [|b bs Hb _ IH]; simpl; [done|].
  rewrite !hex_digit_lower, IH; [done|..];
    pose proof (Z.div_mod b 16); pose proof (Z.mod_pos_bound b 16); lia.
Qed.

Lemma DecodeString_Encode bs : Forall is_byte bs -> DecodeString (EncodeToString bs) = Some bs.
Proof.
  unfold is_byte. induction 1 as [|b bs Hb _ IH]; simpl; [done|].
  pose proof (Z.div_mod b 16). pose proof (Z.mod_pos_bound b 16).
  rewrite !hex_digit_value by lia. simpl. rewrite IH. simpl. do 2 f_equal. lia.
Qed.

Lemma EncodeToString_inj bs bs' :
  Forall is_byte bs -> Forall is_byte bs' -> EncodeToString bs = EncodeToString bs' -> bs = bs'.
Proof.
  intros H H' E. apply (f_equal DecodeString) in E.
  rewrite !DecodeString_Encode in E by done. by simplify_eq.
Qed.

(** ** Decimal text *)
Definition is_digit_or_minus (c : ascii) : bool := is_digit c || Ascii.eqb c "-".

Lemma pretty_N_go_forall p x s :
  (forall n, p (pretty_N_char n) = true) -> str_forall p s = true ->
  str_forall p (pretty_N_go x s) = true.
Proof.
  intros Hp. revert s. induction (N.lt_wf_0 x) as [x _ IH]; intros s Hs.
  assert (x = 0 \/ 0 < x)%N as [->|?] by lia; [by rewrite pretty_N_go_0|].
  rewrite pretty_N_go_step by done. apply IH; [by apply N.div_lt|].
  simpl. by rewrite Hp, Hs.
Qed.

Lemma pretty_N_forall p (x : N) :
  (forall n, p (pretty_N_char n) = true) -> str_forall p (pretty x) = true.
Proof.
  intros Hp. unfold pretty, pretty_N. case_decide; [|by apply pretty_N_go_forall].
  simpl. rewrite andb_true_r. exact (Hp 0%N).
Qed.

Lemma pretty_N_char_digit n : is_digit (pretty_N_char n) = true.
Proof. unfold pretty_N_char. repeat case_match; done. Qed.

Lemma format_int_chars z : str_forall is_digit_or_minus (format_int z) = true.
Proof.
  assert (forall n, is_digit_or_minus (pretty_N_char n) = true) as Hc.
  { intros n. unfold is_digit_or_minus. by rewrite pretty_N_char_digit. }
  destruct z as [|p|p]; [done| |]; cbn.
  - by apply (pretty_N_forall _ (Npos p)).
  - rewrite str_forall_app. simpl. by apply (pretty_N_forall _ (Npos p)).
Qed.

Lemma lacks_of_forall p c s : p c = false -> str_forall p s = true -> lacks c s = true.
Proof.
  intros Hc. apply str_forall_impl. intros d Hd.
  destruct (Ascii.eqb_spec d c) as [->|]; [congruence|done].
Qed.

Lemma pretty_N_char_value n : (n < 10)%N -> (code (pretty_N_char n) - 48)%N = n.
Proof.
  intros H. assert (In n (map N.of_nat (seq 0 10))) as Hn.
  { apply in_map_iff. exists (N.to_nat n). split; [lia|]. apply in_seq. lia. }
  simpl in Hn. by repeat destruct Hn as [<-|Hn].
Qed.

Lemma digits_value_go x s :
  digits_value 0 (pretty_N_go x s) = digits_value (Z.of_N x) s.
Proof.
  revert s. induction (N.lt_wf_0 x) as [x _ IH]; intros s.
  assert (x = 0 \/ 0 < x)%N as [->|?] by lia; [by rewrite pretty_N_go_0|].
  rewrite pretty_N_go_step, IH by (done || by apply N.div_lt).
  cbn [digits_value]. rewrite pretty_N_char_digit, pretty_N_char_value by (by apply N.mod_lt).
  f_equal. rewrite N2Z.inj_div, N2Z.inj_mod. pose proof (Z.div_mod (Z.of_N x) 10). lia.
Qed.

Lemma format_int_nonneg n :
  (0 <= n)%Z -> parse_digits (format_int n) = Some n /\ str_forall is_digit (format_int n) = true.
Proof.
  intros Hn. destruct n as [|p|p]; [done| |lia].
  assert (str_forall is_digit (format_int (Zpos p)) = true) as Hd
    by apply (pretty_N_forall is_digit (Npos p)), pretty_N_char_digit.
  split; [|done]. assert (format_int (Zpos p) = pretty_N_go (Npos p) EmptyString) as -> by done.
  unfold parse_digits. pose proof (digits_value_go (Npos p) EmptyString) as Hv.
  destruct (pretty_N_go (Npos p) EmptyString); done.
Qed.

Lemma ParseInt64_digits s :
  str_forall is_digit s = true ->
  ParseInt64 s = v ← parse_digits s; if (v <=? max_int64)%Z then Some v else None.
Proof.
  destruct s as [|c s]; [done|]. cbn [str_forall]. intros [Hc _]%andb_true_iff.
  by destruct c as [[] [] [] [] [] [] [] []].
Qed.

Lemma ParseInt64_format n : (0 <= n <= max_int64)%Z -> ParseInt64 (format_int n) = Some n.
Proof.
  intros Hn. destruct (format_int_nonneg n) as [Hp Hd]; [lia|].
  rewrite ParseInt64_digits, Hp by done. cbn. by rewrite (proj2 (Z.leb_le _ _)) by lia.
Qed.

Lemma format_int_inj x y : format_int x = format_int y -> x = y.
Proof. apply (inj pretty). Qed.

(** ** Fields *)
Definition units_bytes (us : list rune_unit) : string :=
  foldr (fun u acc => unit_bytes u +:+ acc) EmptyString us.

Lemma str_length_ind (P : string -> Prop) :
  (forall s, (forall t, (String.length t < String.length s)%nat -> P t) -> P s) -> forall s, P s.
Proof.
  intros H s. apply (well_founded_induction (Wf_nat.well_founded_ltof _ String.length) P).
  intros x IH. by apply H.
Qed.

Lemma runes_cons c1 s1 :
  runes (String c1 s1) =
  if ascii_space c1 then Space (String c1 EmptyString) :: runes s1
  else match s1 with
       | String c2 s2 =>
           if space2 c1 c2 then Space (String c1 (String c2 EmptyString)) :: runes s2
           else match s2 with
                | String c3 s3 =>
                    if space3 c1 c2 c3
                    then Space (String c1 (String c2 (String c3 EmptyString))) :: runes s3
                    else Byte c1 :: runes s1
                | EmptyString => Byte c1 :: runes s1
                end
       | EmptyString => Byte c1 :: runes s1
       end.
Proof. done. Qed.

Lemma units_bytes_cons u us : units_bytes (u :: us) = unit_bytes u +:+ units_bytes us.
Proof. done. Qed.

Lemma units_bytes_runes s : units_bytes (runes s) = s.
Proof.
  induction s as [s IH] using str_length_ind. destruct s as [|c1 s1]; [done|].
  rewrite runes_cons.
  assert (units_bytes (Byte c1 :: runes s1) = String c1 s1) as Hbyte.
  { rewrite units_bytes_cons, IH by (simpl; lia). done. }
  destruct (ascii_space c1); [by rewrite units_bytes_cons, IH by (simpl; lia)|].
  destruct s1 as [|c2 s2]; [done|].
  destruct (space2 c1 c2); [by rewrite units_bytes_cons, IH by (simpl; lia)|].
  destruct s2 as [|c3 s3]; [done|].
  destruct (space3 c1 c2 c3); [by rewrite units_bytes_cons, IH by (simpl; lia)|done].
Qed.

Lemma ascii_no_continuation c k :
  (code c < 128)%N -> (128 <= k)%N -> (code c =? k)%N = false /\ (k <=? code c)%N = false.
Proof. intros H Hk. split; [apply N.eqb_neq|apply N.leb_gt]; lia. Qed.

(** The bytes after the lead byte of a multi-byte space are not ASCII. *)
Ltac no_continuation H :=
  repeat match goal with
  | |- context [(code ?c =? ?k)%N] => rewrite (proj1 (ascii_no_continuation c k H ltac:(done)))
  | |- context [(?k <=? code ?c)%N] => rewrite (proj2 (ascii_no_continuation c k H ltac:(done)))
  end; cbn [andb orb]; rewrite ?andb_false_r, ?andb_false_l; cbn [andb orb];
  rewrite ?andb_false_r; done.

Lemma space2_ascii c1 c : (code c < 128)%N -> space2 c1 c = false.
Proof. unfold space2. intros H. no_continuation H. Qed.

Lemma space3_ascii_2 c1 c c3 : (code c < 128)%N -> space3 c1 c c3 = false.
Proof. unfold space3. intros H. no_continuation H. Qed.

Lemma space3_ascii_3 c1 c2 c : (code c < 128)%N -> space3 c1 c2 c = false.
Proof. unfold space3. intros H. no_continuation H. Qed.

(** An ASCII byte ends every rune before it. *)
Lemma runes_app s c t :
  (code c < 128)%N -> runes (s +:+ String c t) = runes s ++ runes (String c t).
Proof.
  intros Hc. induction s as [s IH] using str_length_ind. destruct s as [|c1 s1]; [done|].
  rewrite str_app_cons, !runes_cons. destruct (ascii_space c1).
  { by rewrite IH by (simpl; lia). }
  destruct s1 as [|c2 s2].
  { rewrite str_app_nil_l, space2_ascii by done.
    by destruct t; [|rewrite space3_ascii_2 by done]. }
  specialize (IH (String c2 s2)) as IH1. rewrite str_app_cons in *. destruct (space2 c1 c2).
  { by rewrite IH by (simpl; lia). }
  destruct s2 as [|c3 s3].
  { rewrite str_app_nil_l in *. rewrite space3_ascii_3 by done. rewrite IH1 by (simpl; lia). done. }
  specialize (IH s3) as IH3. rewrite str_app_cons in *. destruct (space3 c1 c2 c3).
  { by rewrite IH3 by (simpl; lia). }
  rewrite IH1 by (simpl; lia). done.
Qed.

(** A text without white space. *)
Definition no_space (s : string) : bool :=
  forallb (fun u => negb (is_space_unit u)) (runes s).
Definition field_text (s : string) : Prop := s <> EmptyString /\ no_space s = true.

Lemma no_space_cons c s :
  no_space (String c s) = true -> ascii_space c = false /\ no_space s = true.
Proof.
  unfold no_space. rewrite runes_cons. destruct (ascii_space c); [done|].
  destruct s as [|c2 s2]; [done|]. destruct (space2 c c2); [done|].
  destruct s2 as [|c3 s3]; [done|]. by destruct (space3 c c2 c3).
Qed.

Lemma no_space_lacks c s : ascii_space c = true -> no_space s = true -> lacks c s = true.
Proof.
  intros Hc. induction s as [|d s IH]; [done|]. intros [Hd Hs]%no_space_cons.
  cbn. apply andb_true_iff. split; [|by apply IH]. by destruct (Ascii.eqb_spec d c) as [->|]; [congruence|].
Qed.

Lemma lacks_JoinStr c l sep :
  lacks c sep = true -> Forall (fun x => lacks c x = true) l -> lacks c (JoinStr l sep) = true.
Proof.
  intros Hsep H. induction H as [|x l Hx Hl IH]; [done|].
  destruct l as [|y l]; [exact Hx|]. rewrite JoinStr_cons. unfold lacks in *.
  by rewrite !str_forall_app, Hx, Hsep, IH.
Qed.

Lemma fields_go_bytes f us us' :
  forallb (fun u => negb (is_space_unit u)) us = true ->
  fields_go (Some f) (us ++ us') = fields_go (Some (f +:+ units_bytes us)) us'.
Proof.
  revert f. induction us as [|[w|c] us IH]; intros f H; simpl in *; [by rewrite str_app_nil_r|done|].
  rewrite IH by done. by rewrite str_app_assoc.
Qed.

Lemma fields_go_field s us :
  field_text s -> fields_go None (runes s ++ us) = fields_go (Some s) us.
Proof.
  intros [Hne Hs]. unfold no_space in Hs. pose proof (units_bytes_runes s) as Hb.
  destruct (runes s) as [|[w|c] us1]; simpl in *; [congruence|done|].
  rewrite fields_go_bytes by done. by rewrite <- Hb.
Qed.

Lemma Fields_JoinStr fs : Forall field_text fs -> Fields (JoinStr fs " ") = fs.
Proof.
  intros H. unfold Fields. induction H as [|f fs Hf _ IH]; [done|].
  destruct fs as [|g fs].
  - change (JoinStr [f] " ") with f. rewrite <- (app_nil_r (runes f)).
    by rewrite fields_go_field.
  - rewrite JoinStr_cons. change (" " +:+ ?x) with (String " " x).
    rewrite runes_app by done. rewrite fields_go_field by done.
    change (runes (String " " ?x)) with (Space " " :: runes x). cbn [fields_go].
    by rewrite IH.
Qed.
