(* ===== verification/GoPath.v ===== *)
(** * Slash-separated paths of the Go standard library

    [path/filepath] on Linux: [Clean], [Base], [Dir], [IsAbs] and [Join] (here [path_Join]), with the facts about
    canonical paths that request validation, the policy and the observer rely on. *)

From S2P Require Export GoStrings.

Definition sep : ascii := "/".
Definition seps : string := "/".

Definition IsAbs (path : string) : bool := HasPrefix path seps.

(** [Clean]'s loop over the elements: [out] is the output so far, last element first.  An empty
    element and [.] are skipped; [..] removes the last element when there is one to remove, is
    dropped at the root, and is kept otherwise. *)
Fixpoint clean_elems (rooted : bool) (out es : list string) : list string :=
  match es with
  | [] => reverse out
  | e :: es' =>
      if bool_decide (e = EmptyString) || bool_decide (e = ".") then clean_elems rooted out es'
      else if bool_decide (e = "..") then
        match out with
        | o :: out' =>
            if bool_decide (o = "..") then clean_elems rooted (e :: out) es'
            else clean_elems rooted out' es'
        | [] => if rooted then clean_elems rooted [] es' else clean_elems rooted [e] es'
        end
      else clean_elems rooted (e :: out) es'
  end.

Definition Clean (path : string) : string :=
  let rooted := IsAbs path in
  let body := JoinStr (clean_elems rooted [] (Split path sep)) seps in
  if rooted then seps +:+ body
  else if bool_decide (body = EmptyString) then "." else body.

(** The last non-empty element; [.] for the empty path and [/] for a path of slashes. *)
Definition Base (path : string) : string :=
  match list.last (filter (fun e => e <> EmptyString) (Split path sep)) with
  | Some e => e
  | None => if bool_decide (path = EmptyString) then "." else seps
  end.

(** [Clean] of the path up to and including its last slash. *)
Definition Dir (path : string) : string :=
  match reverse (Split path sep) with
  | _ :: f :: front => Clean (JoinStr (reverse (f :: front)) seps +:+ seps)
  | _ => Clean EmptyString
  end.

(** [Join]: leading empty elements are dropped; the rest is joined and cleaned. *)
Fixpoint path_Join (elems : list string) : string :=
  match elems with
  | [] => EmptyString
  | e :: es => if bool_decide (e = EmptyString) then path_Join es else Clean (JoinStr elems seps)
  end.

(** ** Canonical absolute paths

    A path is absolute and canonical ([IsAbs p] and [Clean p = p]) exactly when it is a slash
    followed by its elements separated by single slashes, none of them empty, [.] or [..]. *)
Definition plain_elem (e : string) : Prop :=
  e <> EmptyString /\ e <> "." /\ e <> ".." /\ lacks sep e = true.

Definition abs_path (es : list string) : string := seps +:+ JoinStr es seps.

Lemma abs_path_snoc es e : es <> [] -> abs_path (es ++ [e]) = abs_path es +:+ seps +:+ e.
Proof.
  intros Hne. unfold abs_path. rewrite str_app_assoc. f_equal.
  induction es as [|x [|y es] IH]; [done|done|].
  change ((x :: y :: es) ++ [e]) with (x :: (y :: es) ++ [e]).
  change (JoinStr (x :: (y :: es) ++ [e]) seps)
    with (x +:+ seps +:+ JoinStr ((y :: es) ++ [e]) seps).
  rewrite IH by done. rewrite JoinStr_cons. by autorewrite with gostr.
Qed.

Lemma abs_path_IsAbs es : IsAbs (abs_path es) = true.
Proof. unfold IsAbs, HasPrefix, abs_path. by destruct (JoinStr es seps). Qed.

Lemma plain_lacks es : Forall plain_elem es -> Forall (fun e => lacks sep e = true) es.
Proof. apply Forall_impl. by intros e (_ & _ & _ & ?). Qed.

Lemma Split_abs_path es :
  es <> [] -> Forall plain_elem es -> Split (abs_path es) sep = EmptyString :: es.
Proof.
  intros Hne Hes. unfold abs_path, seps at 1.
  change (Split (String sep (JoinStr es seps)) sep = EmptyString :: es). simpl.
  f_equal. apply (Split_Join es sep); auto using plain_lacks.
Qed.

Lemma clean_elems_empty rooted out es :
  clean_elems rooted out (EmptyString :: es) = clean_elems rooted out es.
Proof. done. Qed.

Lemma clean_elems_plain rooted out es :
  Forall plain_elem es -> clean_elems rooted out es = reverse out ++ es.
Proof.
  intros Hes. revert out. induction Hes as [|e es (H1 & H2 & H3 & _) _ IH]; intros out; simpl.
  - by rewrite app_nil_r.
  - rewrite !bool_decide_eq_false_2 by done. simpl.
    rewrite IH, reverse_cons, <- app_assoc. done.
Qed.

Lemma clean_elems_skip rooted out es e :
  e = EmptyString \/ e = "." -> Forall plain_elem es ->
  clean_elems rooted out (es ++ [e]) = clean_elems rooted out es.
Proof.
  intros He Hes. revert out. induction Hes as [|x es (H1 & H2 & H3 & _) _ IH]; intros out; simpl.
  - by destruct He as [-> | ->].
  - rewrite !bool_decide_eq_false_2 by done. simpl. apply IH.
Qed.

(** At the root the output of [Clean]'s loop is plain. *)
Lemma clean_elems_rooted out es :
  Forall plain_elem out -> Forall (fun e => lacks sep e = true) es ->
  Forall plain_elem (clean_elems true out es).
Proof.
  intros Hout Hes. revert out Hout. induction Hes as [|e es He _ IH]; intros out Hout; simpl.
  - by apply Forall_reverse.
  - destruct (bool_decide_reflect (e = EmptyString)); simpl; [by apply IH|].
    destruct (bool_decide_reflect (e = ".")); simpl; [by apply IH|].
    destruct (bool_decide_reflect (e = "..")).
    + destruct out as [|o out]; [by apply IH|]. inversion_clear Hout as [|?? (?&?&Hdd&?) ?].
      rewrite bool_decide_eq_false_2 by done. by apply IH.
    + apply IH. by constructor.
Qed.

Lemma Clean_abs_path es : Forall plain_elem es -> Clean (abs_path es) = abs_path es.
Proof.
  intros Hes. destruct es as [|e es]; [done|]. unfold Clean.
  by rewrite abs_path_IsAbs, Split_abs_path, clean_elems_empty, clean_elems_plain.
Qed.

Lemma Clean_rooted path :
  IsAbs path = true -> exists es, Forall plain_elem es /\ Clean path = abs_path es.
Proof.
  intros Ha. exists (clean_elems true [] (Split path sep)). split.
  - apply clean_elems_rooted; [done|]. apply Split_lacks.
  - unfold Clean. by rewrite Ha.
Qed.

(** [Clean] is idempotent on absolute paths. *)
Lemma Clean_idemp path : IsAbs path = true -> Clean (Clean path) = Clean path.
Proof. intros (es & Hes & ->)%Clean_rooted. by apply Clean_abs_path. Qed.

Lemma canonical_abs path :
  IsAbs path = true -> Clean path = path ->
  exists es, Forall plain_elem es /\ path = abs_path es.
Proof. intros (es & ? & He)%Clean_rooted Hc. exists es. by rewrite <- He. Qed.

Lemma filter_plain es : Forall plain_elem es -> filter (fun e => e <> EmptyString) es = es.
Proof.
  induction 1 as [|e es (H & _) _ IH]; [done|]. rewrite filter_cons_True by done. by f_equal.
Qed.

Lemma Base_abs_path es e : Forall plain_elem (es ++ [e]) -> Base (abs_path (es ++ [e])) = e.
Proof.
  intros H. unfold Base. rewrite Split_abs_path; [|by destruct es|done].
  rewrite filter_cons_False by auto. rewrite filter_plain by done. by rewrite last_snoc.
Qed.

Lemma Dir_abs_path es e :
  Forall plain_elem (es ++ [e]) -> es <> [] -> Dir (abs_path (es ++ [e])) = abs_path es.
Proof.
  intros H Hne. unfold Dir. rewrite Split_abs_path; [|by destruct es|done].
  change (EmptyString :: es ++ [e]) with ((EmptyString :: es) ++ [e]).
  rewrite reverse_snoc. apply Forall_app in H as [H _].
  destruct (reverse (EmptyString :: es)) as [|f front] eqn:E.
  { apply (f_equal length) in E. by rewrite length_reverse in E. }
  rewrite <- E, reverse_involutive.
  assert (JoinStr (EmptyString :: es) seps = abs_path es) as ->.
  { destruct es; done. }
  (* A trailing slash adds one empty element, which is skipped *)
  assert (Split (abs_path es +:+ seps) sep = (EmptyString :: es) ++ [EmptyString]) as Hs.
  { rewrite <- (Split_abs_path es) by done. generalize (abs_path es). clear.
    induction s as [|c s IH]; [done|]. rewrite str_app_cons; simpl. rewrite IH.
    destruct (Ascii.eqb c sep); [done|]. pose proof (Split_ne s sep).
    by destruct (Split s sep). }
  unfold Clean. rewrite Hs. assert (IsAbs (abs_path es +:+ seps) = true) as ->.
  { unfold IsAbs, HasPrefix, abs_path. by destruct (JoinStr es seps). }
  change ((EmptyString :: es) ++ [EmptyString]) with (EmptyString :: (es ++ [EmptyString])).
  rewrite clean_elems_empty, clean_elems_skip, clean_elems_plain by auto. done.
Qed.

Lemma abs_path_inj es es' :
  Forall plain_elem es -> Forall plain_elem es' -> abs_path es = abs_path es' -> es = es'.
Proof.
  intros H H' E. destruct es as [|e es], es' as [|e' es']; [done|..].
  - apply (f_equal (fun p => Split p sep)) in E. rewrite (Split_abs_path (_ :: _)) in E by done.
    simplify_eq/=. inversion_clear H' as [|?? [? _] _]. done.
  - apply (f_equal (fun p => Split p sep)) in E. rewrite (Split_abs_path (_ :: _)) in E by done.
    simplify_eq/=. inversion_clear H as [|?? [? _] _]. done.
  - apply (f_equal (fun p => Split p sep)) in E. rewrite !Split_abs_path in E by done. congruence.
Qed.

(** ** Paths of device nodes *)
Definition dev_path (name : string) : string := "/dev/" +:+ name.

Lemma dev_path_abs name : dev_path name = abs_path ["dev"; name].
Proof. done. Qed.

Lemma plain_dev name : plain_elem name -> Forall plain_elem (["dev"] ++ [name]).
Proof. intros H. repeat constructor; try done; apply H. Qed.

Lemma Base_dev name : plain_elem name -> Base (dev_path name) = name.
Proof. intros H. apply (Base_abs_path ["dev"]). by apply plain_dev. Qed.

Lemma Clean_dev name : plain_elem name -> Clean (dev_path name) = dev_path name.
Proof. intros H. apply (Clean_abs_path ["dev"; name]). by apply plain_dev. Qed.

Lemma Dir_dev name : plain_elem name -> Dir (dev_path name) = "/dev".
Proof. intros H. rewrite dev_path_abs. by apply (Dir_abs_path ["dev"] name (plain_dev _ H)). Qed.

Lemma IsAbs_dev name : IsAbs (dev_path name) = true.
Proof. done. Qed.

(** A canonical absolute path whose directory is [/dev] is [/dev/<name>]. *)
Lemma dev_path_spec path :
  Clean path = path -> IsAbs path = true -> Dir path = "/dev" ->
  exists name, plain_elem name /\ path = dev_path name.
Proof.
  intros Hc Ha Hd. destruct (canonical_abs path Ha Hc) as (es & Hes & ->).
  destruct (decide (es = [])) as [->|Hne]; [done|].
  apply exists_last in Hne as (es0 & e & ->).
  destruct (decide (es0 = [])) as [->|Hne]; simpl in *.
  - inversion_clear Hes as [|?? (H1 & H2 & H3 & H4) _]. exfalso.
    unfold Dir in Hd. rewrite Split_abs_path in Hd by (try done; by repeat constructor).
    done.
  - rewrite Dir_abs_path in Hd by done. pose proof Hes as [Hes0 He]%Forall_app.
    change "/dev" with (abs_path ["dev"]) in Hd.
    apply abs_path_inj in Hd as ->; [|done|by repeat constructor].
    exists e. by inversion_clear He.
Qed.
