(* ===== verification/Sha256.v ===== *)
(** * SHA-256 ([crypto/sha256])

    The hash of FIPS 180-4 on lists of bytes, executable, so that confirmation tokens and
    image digests are computed and not assumed.  The streaming interface of the Go package
    ([New], [Write], [Sum]) hashes the concatenation of what was written. *)

From S2P Require Export GoStrings.
Open Scope Z_scope.

Definition w32 (z : Z) : Z := z mod 2 ^ 32.
Definition rotr (n x : Z) : Z := Z.lor (Z.shiftr x n) (w32 (Z.shiftl x (32 - n))).
Definition not32 (x : Z) : Z := 2 ^ 32 - 1 - x.

Definition ch (x y z : Z) : Z := Z.lxor (Z.land x y) (Z.land (not32 x) z).
Definition maj (x y z : Z) : Z := Z.lxor (Z.lxor (Z.land x y) (Z.land x z)) (Z.land y z).
Definition bsig0 (x : Z) : Z := Z.lxor (Z.lxor (rotr 2 x) (rotr 13 x)) (rotr 22 x).
Definition bsig1 (x : Z) : Z := Z.lxor (Z.lxor (rotr 6 x) (rotr 11 x)) (rotr 25 x).
Definition ssig0 (x : Z) : Z := Z.lxor (Z.lxor (rotr 7 x) (rotr 18 x)) (Z.shiftr x 3).
Definition ssig1 (x : Z) : Z := Z.lxor (Z.lxor (rotr 17 x) (rotr 19 x)) (Z.shiftr x 10).

(** The constants are what the standard defines them to be: the first 32 bits of the fractional parts
    of the cube roots of the first 64 primes, and of the square roots of the first eight. *)
Definition is_prime (n : Z) : bool :=
  forallb (fun d => negb (n mod Z.of_nat d =? 0)) (seq 2 (Z.to_nat (Z.sqrt n) - 1)).
Definition first_primes (bound : nat) : list Z := List.filter is_prime (map Z.of_nat (seq 2 (bound - 1))).

(** The largest [r] below [2 ^ bits] with [r ^ k <= n], bit by bit. *)
Fixpoint int_root (bits : nat) (k n r : Z) : Z :=
  match bits with
  | O => r
  | S bits' =>
      let candidate := r + 2 ^ Z.of_nat bits' in
      int_root bits' k n (if candidate ^ k <=? n then candidate else r)
  end.
Definition root_fraction (k p : Z) : Z := w32 (int_root 40 k (p * 2 ^ (32 * k)) 0).

Definition round_constants : list Z := Eval vm_compute in map (root_fraction 3) (first_primes 311).

Definition words8 : Type := Z * Z * Z * Z * Z * Z * Z * Z.

Definition initial_hash : words8 := Eval vm_compute in
  match map (root_fraction 2) (first_primes 19) with
  | [a; b; c; d; e; f; g; h] => (a, b, c, d, e, f, g, h)
  | _ => (0, 0, 0, 0, 0, 0, 0, 0)
  end.

(** Padding: one bit, zeros up to 56 bytes modulo 64, and the bit length on eight bytes. *)
Definition be_bytes (n : nat) (z : Z) : list Z :=
  map (fun i => Z.shiftr z (8 * Z.of_nat i) mod 256) (rev (seq 0 n)).
Definition pad (msg : list Z) : list Z :=
  let len := Z.of_nat (length msg) in
  msg ++ [0x80] ++ replicate (Z.to_nat ((55 - len) mod 64)) 0 ++ be_bytes 8 (8 * len).

Fixpoint words_of (bs : list Z) : list Z :=
  match bs with
  | a :: b :: c :: d :: rest => (((a * 256 + b) * 256 + c) * 256 + d) :: words_of rest
  | _ => []
  end.

(** The message schedule, most recent word first. *)
Fixpoint extend (n : nat) (w : list Z) : list Z :=
  match n with
  | O => w
  | S n' =>
      extend n' (w32 (ssig1 (nth 1 w 0) + nth 6 w 0 + ssig0 (nth 14 w 0) + nth 15 w 0) :: w)
  end.

Definition sha_round (s : words8) (kw : Z * Z) : words8 :=
  let '(a, b, c, d, e, f, g, h) := s in
  let t1 := h + bsig1 e + ch e f g + fst kw + snd kw in
  let t2 := bsig0 a + maj a b c in
  (w32 (t1 + t2), a, b, c, w32 (d + t1), e, f, g).

Definition add_words (s t : words8) : words8 :=
  let '(a, b, c, d, e, f, g, h) := s in
  let '(a', b', c', d', e', f', g', h') := t in
  (w32 (a + a'), w32 (b + b'), w32 (c + c'), w32 (d + d'),
   w32 (e + e'), w32 (f + f'), w32 (g + g'), w32 (h + h')).

Definition compress (s : words8) (block : list Z) : words8 :=
  let w := rev (extend 48 (rev block)) in
  add_words s (foldl sha_round s (combine round_constants w)).

(** Blocks of 16 words; [fuel] bounds the number of blocks. *)
Fixpoint hash_blocks (fuel : nat) (s : words8) (ws : list Z) : words8 :=
  match fuel, ws with
  | S fuel', _ :: _ => hash_blocks fuel' (compress s (take 16 ws)) (drop 16 ws)
  | _, _ => s
  end.

Definition Sum256 (msg : list Z) : list Z :=
  let ws := words_of (pad msg) in
  let '(a, b, c, d, e, f, g, h) := hash_blocks (length ws) initial_hash ws in
  flat_map (be_bytes 4) [a; b; c; d; e; f; g; h].

Lemma be_bytes_spec n z : length (be_bytes n z) = n /\ Forall is_byte (be_bytes n z).
Proof.
  unfold be_bytes. split; [by rewrite length_map, length_rev, length_seq|].
  apply List.Forall_forall. intros b (i & <- & _)%in_map_iff.
  apply Z.mod_pos_bound. done.
Qed.

Lemma Sum256_spec msg : length (Sum256 msg) = 32%nat /\ Forall is_byte (Sum256 msg).
Proof.
  unfold Sum256.
  destruct (hash_blocks _ _ _) as [[[[[[[a b] c] d] e] f] g] h].
  cbn [flat_map]. split.
  - rewrite !length_app, !(proj1 (be_bytes_spec _ _)). done.
  - repeat (apply Forall_app; split); auto; apply be_bytes_spec.
Qed.

(** The hexadecimal digest of a byte string. *)
Definition hex_digest (msg : list Z) : string := EncodeToString (Sum256 msg).

Lemma hex_digest_text msg : lower_hex_text 64 (hex_digest msg).
Proof.
  destruct (Sum256_spec msg) as [Hl Hb]. split.
  - unfold hex_digest. by rewrite length_EncodeToString, Hl.
  - by apply EncodeToString_lower_hex.
Qed.

(** The test vectors of FIPS 180-4 for the empty message and for [abc]. *)
Example Sum256_empty :
  hex_digest [] = "e3b0c44298fc1c149afbf4c8996fb92427ae41e4649b934ca495991b7852b855".
Proof. vm_compute. reflexivity. Qed.

Example Sum256_abc :
  hex_digest (bytes_of "abc") = "ba7816bf8f01cfea414140de5dae2223b00361a396177a9cb410ff61f20015ad".
Proof. vm_compute. reflexivity. Qed.
