(* ===== verification/Errors.v ===== *)
(** * Error values

    Go errors are values that may wrap another error; the program tells them apart with
    [errors.Is] and [errors.As], never by their text.  This file models the error values of all
    the packages, the wrapping, the two search functions, and the public [GateError] of
    [errors.go]. *)

From S2P Require Export GoStrings.

(** The text of an error, as the pieces its format string puts together: literal text and
    strings ([%s], [%v]), quoted strings ([%q]), integers ([%d]). *)
Inductive frag :=
| Lit (s : string)
| Quoted (s : string)
| Dec (z : Z).
Abbreviation message := (list frag).

(** The package-level error variables: the program's own, then those of the standard library
    that it compares with. *)
Inductive sentinel :=
| ErrInvalidRequest
| ErrInvalidArtifactName
| ErrInvalidArgument
| ErrInvalidDigest
| ErrInvalidSource
| ErrDigestMismatch
| ErrDownloadRejected
| ErrSizeMismatch
| ErrSourceChanged
| ErrUnsupportedFormat
| ErrInvalidBlockDevice
| ErrInvalidProcfs
| ErrUnresolvedDevice
| ErrRemountIncomplete
| OsErrNotExist
| OsErrClosed
| IoEOF
| IoErrUnexpectedEOF
| IoErrShortWrite
| BufioErrTooLong
| ContextCanceled
| ContextDeadlineExceeded.

#[export] Instance sentinel_eq_dec : EqDecision sentinel.
Proof. solve_decision. Defined.

Definition sentinel_text (s : sentinel) : string :=
  match s with
  | ErrInvalidRequest => "invalid diskforge request"
  | ErrInvalidArtifactName => "invalid artifact name"
  | ErrInvalidArgument => "invalid image argument"
  | ErrInvalidDigest => "invalid image SHA-256 digest"
  | ErrInvalidSource => "invalid image source"
  | ErrDigestMismatch => "image SHA-256 mismatch"
  | ErrDownloadRejected => "image download rejected"
  | ErrSizeMismatch => "image size mismatch"
  | ErrSourceChanged => "verified image source changed"
  | ErrUnsupportedFormat => "unsupported image format"
  | ErrInvalidBlockDevice => "invalid block device"
  | ErrInvalidProcfs => "invalid procfs data"
  | ErrUnresolvedDevice => "unresolved block device"
  | ErrRemountIncomplete => "block-backed mounts remain writable"
  | OsErrNotExist => "file does not exist"
  | OsErrClosed => "file already closed"
  | IoEOF => "EOF"
  | IoErrUnexpectedEOF => "unexpected EOF"
  | IoErrShortWrite => "short write"
  | BufioErrTooLong => "bufio.Scanner: token too long"
  | ContextCanceled => "context canceled"
  | ContextDeadlineExceeded => "context deadline exceeded"
  end.

Abbreviation GateCode := string.

(** [Gate] is a [*policy.GateError], [PublicGate] a [*diskforge.GateError] with its optional
    [Cause], [Wrapped] the result of [fmt.Errorf] with one [%w] verb, and [Opaque] any other
    error of the kernel, the network or a library. *)
#[warnings="-register-all"]
Inductive error :=
| Sentinel (s : sentinel)
| Gate (code : GateCode) (msg : message)
| PublicGate (code : GateCode) (msg : message) (cause : option error)
| Wrapped (before : message) (inner : error) (after : message)
| Opaque (text : string).

(** [GateError.Error], in both packages. *)
Definition gate_text (code : GateCode) (msg : message) : message := Lit code :: Lit ": " :: msg.

Fixpoint error_text (e : error) : message :=
  match e with
  | Sentinel s => [Lit (sentinel_text s)]
  | Gate code msg => gate_text code msg
  | PublicGate code msg _ => gate_text code msg
  | Wrapped before inner after => before ++ error_text inner ++ after
  | Opaque text => [Lit text]
  end.

(** [GateError.Unwrap], and [Unwrap] of the other errors. *)
Definition Unwrap (e : error) : option error :=
  match e with
  | PublicGate _ _ cause => cause
  | Wrapped _ inner _ => Some inner
  | _ => None
  end.

(** [GateError.Is] against a target [&GateError{Code: code}]. *)
Definition GateError_Is (e : error) (code : GateCode) : bool :=
  match e with
  | PublicGate c _ _ => negb (bool_decide (code = EmptyString)) && bool_decide (c = code)
  | _ => false
  end.

(** [errors.Is] against an error variable and against a public gate error. *)
Fixpoint errors_Is (e : error) (s : sentinel) : bool :=
  match e with
  | Sentinel s' => bool_decide (s' = s)
  | PublicGate _ _ (Some cause) => errors_Is cause s
  | Wrapped _ inner _ => errors_Is inner s
  | _ => false
  end.

Fixpoint errors_Is_gate (e : error) (code : GateCode) : bool :=
  GateError_Is e code ||
  match e with
  | PublicGate _ _ (Some cause) => errors_Is_gate cause code
  | Wrapped _ inner _ => errors_Is_gate inner code
  | _ => false
  end.

(** [errors.As] for [*policy.GateError] and for [*diskforge.GateError]. *)
Fixpoint as_policy_gate (e : error) : option (GateCode * message) :=
  match e with
  | Gate code msg => Some (code, msg)
  | PublicGate _ _ (Some cause) => as_policy_gate cause
  | Wrapped _ inner _ => as_policy_gate inner
  | _ => None
  end.

Fixpoint as_public_gate (e : error) : option (GateCode * message) :=
  match e with
  | PublicGate code msg _ => Some (code, msg)
  | Wrapped _ inner _ => as_public_gate inner
  | _ => None
  end.

(** [fmt.Errorf("%w: ...", sentinel)] and [fmt.Errorf("...: %w", err)]. *)
Definition errorf_sentinel (s : sentinel) (after : message) : error :=
  Wrapped [] (Sentinel s) (Lit ": " :: after).
Definition wrap_error (before : string) (e : error) : error := Wrapped [Lit before] e [].

Lemma errors_Is_wrap before e s : errors_Is (wrap_error before e) s = errors_Is e s.
Proof. done. Qed.

Lemma errors_Is_errorf s after : errors_Is (errorf_sentinel s after) s = true.
Proof. simpl. by rewrite bool_decide_true. Qed.

(** A fallible computation of the program. *)
Abbreviation res := (result error).

(** ** The gate codes of the public package ([errors.go]) *)
Module Api.
Definition GateInvalidTarget : GateCode := "invalid_target".
Definition GateInvalidDigest : GateCode := "invalid_digest".
Definition GateInvalidImageSize : GateCode := "invalid_image_size".
Definition GateInvalidMode : GateCode := "invalid_mode".
Definition GateNotRoot : GateCode := "not_root".
Definition GateTargetPartition : GateCode := "target_partition".
Definition GateTargetTooSmall : GateCode := "target_too_small".
Definition GateTargetMounted : GateCode := "target_mounted".
Definition GateTargetSwap : GateCode := "target_swap".
Definition GateSourceOnTarget : GateCode := "source_on_target".
Definition GateLiveTargetNotRoot : GateCode := "live_target_not_root".
Definition GateLiveSourceNotTmpfs : GateCode := "live_source_not_tmpfs".
Definition GateLiveMemory : GateCode := "live_memory".
Definition GateLiveSysRq : GateCode := "live_sysrq".
Definition GateLiveReboot : GateCode := "live_reboot_required".
Definition GateConfirmation : GateCode := "confirmation_mismatch".
Definition GateIdentityChanged : GateCode := "identity_changed".

Definition codes : list GateCode :=
  [GateInvalidTarget; GateInvalidDigest; GateInvalidImageSize; GateInvalidMode; GateNotRoot;
   GateTargetPartition; GateTargetTooSmall; GateTargetMounted; GateTargetSwap;
   GateSourceOnTarget; GateLiveTargetNotRoot; GateLiveSourceNotTmpfs; GateLiveMemory;
   GateLiveSysRq; GateLiveReboot; GateConfirmation; GateIdentityChanged].
End Api.
