(* ===== verification/Naming.v ===== *)
(** * Portable names ([internal/naming])

    The validators of labels, tags and extensions and the release artifact name, with
    reference grammars that they decide. *)

From S2P Require Export Errors.
From stdpp Require Import pretty.

Definition maxArtifactNameLength : nat := 255.
Definition maxLabelLength : nat := 63.
Definition semverComponentCount : nat := 3.

Definition isLowerAlphanumeric (character : ascii) : bool :=
  in_range "a" "z" character || in_range "0" "9" character.

(** A test of the byte at an index; the callers' length checks keep the index in range. *)
Definition byte_test (value : string) (i : nat) (p : ascii -> bool) : bool :=
  match String.get i value with
  | Some c => p c
  | None => false
  end.

Definition ValidLabel (value : string) : bool :=
  if bool_decide (value = EmptyString) || (maxLabelLength <? String.length value)%nat then false
  else if negb (byte_test value 0 isLowerAlphanumeric)
       || negb (byte_test value (String.length value - 1) isLowerAlphanumeric) then false
  else forallb (fun i => byte_test value i (fun c => isLowerAlphanumeric c || Ascii.eqb c "-"))
         (seq 1 (String.length value - 2)).

Definition validNumericIdentifier (value : string) : bool :=
  if bool_decide (value = EmptyString)
     || (1 <? String.length value)%nat && byte_test value 0 (Ascii.eqb "0") then false
  else str_forall is_digit value.

Definition ValidSemverTag (value : string) : bool :=
  if (String.length value <? String.length "v0.0.0")%nat || negb (byte_test value 0 (Ascii.eqb "v"))
  then false
  else
    let components := Split (drop_str 1 value) "." in
    if negb (length components =? semverComponentCount)%nat then false
    else forallb validNumericIdentifier components.

(** The loop of [validExtension]: the flag [previousWasSeparator] after the bytes of [value], or
    [None] when the loop returns false. *)
Fixpoint extension_loop (previousWasSeparator : bool) (value : string) : option bool :=
  match value with
  | EmptyString => Some previousWasSeparator
  | String character rest =>
      if isLowerAlphanumeric character then extension_loop false rest
      else if negb (Ascii.eqb character ".") && negb (Ascii.eqb character "-")
              || previousWasSeparator then None
      else extension_loop true rest
  end.

Definition validExtension (value : string) : bool :=
  if bool_decide (value = EmptyString) || (maxLabelLength <? String.length value)%nat then false
  else match extension_loop true value with
       | Some previousWasSeparator => negb previousWasSeparator
       | None => false
       end.

Definition ArtifactName (version goos goarch extension : string) : res string :=
  refuse_if (negb (ValidSemverTag version))
    (errorf_sentinel ErrInvalidArtifactName [Lit "stable release tag "; Quoted version]);;
  refuse_if (negb (ValidLabel goos))
    (errorf_sentinel ErrInvalidArtifactName [Lit "operating system label "; Quoted goos]);;
  refuse_if (negb (ValidLabel goarch))
    (errorf_sentinel ErrInvalidArtifactName [Lit "architecture label "; Quoted goarch]);;
  refuse_if (negb (validExtension extension))
    (errorf_sentinel ErrInvalidArtifactName [Lit "artifact extension "; Quoted extension]);;
  let name := "diskforge_" +:+ TrimPrefix version "v" +:+ "_" +:+ goos +:+ "_" +:+ goarch
              +:+ "." +:+ extension in
  refuse_if (maxArtifactNameLength <? String.length name)%nat
    (errorf_sentinel ErrInvalidArtifactName
       [Lit "exceeds "; Dec (Z.of_nat maxArtifactNameLength); Lit " bytes"]);;
  mret name.

(** ** Reading bytes by index *)
Lemma byte_test_0 s p : byte_test s 0 p = true <-> exists c t, s = String c t /\ p c = true.
Proof.
  unfold byte_test. destruct s as [|c t]; simpl; [split; [done|by intros (?&?&?&?)]|].
  split; [eauto|]. by intros (?&?&[= <- <-]&?).
Qed.

Lemma byte_test_S c s i p : byte_test (String c s) (S i) p = byte_test s i p.
Proof. done. Qed.

Lemma byte_test_last s p :
  byte_test s (String.length s - 1) p = true <->
  exists t c, s = t +:+ String c EmptyString /\ p c = true.
Proof.
  induction s as [|c [|d s] IH].
  - split; [done|]. intros ([|? ?] & ? & [=] & _).
  - split.
    + intros H. by exists EmptyString, c.
    + intros ([|? t] & ? & H & Hp); rewrite ?str_app_nil_l, ?str_app_cons in H; simplify_eq/=; [done|].
      by destruct t.
  - replace (String.length (String c (String d s)) - 1)%nat
      with (S (String.length (String d s) - 1)) by (simpl; lia).
    rewrite byte_test_S, IH. split.
    + intros (t & e & -> & Hp). by exists (String c t), e.
    + intros ([|? t] & e & H & Hp); rewrite ?str_app_nil_l, ?str_app_cons in H; simplify_eq/=.
      by exists t, e.
Qed.

Lemma str_forall_bytes s p :
  str_forall p s = true <-> forall i, (i < String.length s)%nat -> byte_test s i p = true.
Proof.
  induction s as [|c s IH]; simpl.
  - split; [intros _ i Hi; lia|done].
  - rewrite andb_true_iff, IH. split.
    + intros [Hc Hs] [|i] Hi; [done|]. rewrite byte_test_S. apply Hs. lia.
    + intros H. split; [apply (H 0%nat); lia|]. intros i Hi. apply (H (S i)). lia.
Qed.

Lemma byte_test_impl s i (p q : ascii -> bool) :
  (forall c, p c = true -> q c = true) -> byte_test s i p = true -> byte_test s i q = true.
Proof. unfold byte_test. destruct (String.get i s); auto. Qed.

(** ** Labels *)
Definition label_char (c : ascii) : bool := isLowerAlphanumeric c || Ascii.eqb c "-".

(** The RFC 1123 label of the naming contract: 1 to 63 lower-case letters, digits and hyphens,
    the first and the last no hyphen. *)
Definition rfc1123_label (s : string) : Prop :=
  (1 <= String.length s <= 63)%nat /\ str_forall label_char s = true /\
  (exists c t, s = String c t /\ isLowerAlphanumeric c = true) /\
  (exists t c, s = t +:+ String c EmptyString /\ isLowerAlphanumeric c = true).

Lemma ValidLabel_rfc1123 s : ValidLabel s = true <-> rfc1123_label s.
Proof.
  unfold ValidLabel, rfc1123_label, maxLabelLength. rewrite <- byte_test_0, <- byte_test_last.
  destruct (bool_decide_reflect (s = EmptyString)) as [->|Hne]; simpl.
  { split; [done|]. intros [? _]. simpl in *. lia. }
  assert (1 <= String.length s)%nat as Hl by (destruct s; simpl; [done|lia]).
  destruct (Nat.ltb_spec 63 (String.length s)); [split; [done|lia]|].
  destruct (byte_test s 0 _) eqn:H0, (byte_test s (String.length s - 1) _) eqn:H1; simpl;
    try (split; [done|intuition done]).
  rewrite forallb_forall, str_forall_bytes.
  assert (forall c, isLowerAlphanumeric c = true -> label_char c = true) as Himp.
  { intros c Hc. unfold label_char. by rewrite Hc. }
  split.
  - intros Hall. repeat split; try lia. intros i Hi.
    destruct (decide (i = 0%nat)) as [->|]; [by apply (byte_test_impl _ _ _ _ Himp)|].
    destruct (decide (i = String.length s - 1)%nat) as [->|];
      [by apply (byte_test_impl _ _ _ _ Himp)|].
    apply (Hall i), in_seq. lia.
  - intros (_ & Hall & _) i Hi%in_seq. apply Hall. lia.
Qed.

Lemma ValidLabel_lacks c s :
  label_char c = false -> ValidLabel s = true -> lacks c s = true.
Proof.
  intros Hc (_ & Hs & _)%ValidLabel_rfc1123. exact (lacks_of_forall label_char c s Hc Hs).
Qed.

(** ** Extensions *)
Inductive extension_grammar : string -> Prop :=
| extension_segment w :
    w <> EmptyString -> str_forall isLowerAlphanumeric w = true -> extension_grammar w
| extension_more w c e :
    w <> EmptyString -> str_forall isLowerAlphanumeric w = true -> c = "."%char \/ c = "-"%char ->
    extension_grammar e -> extension_grammar (w +:+ String c e).

Lemma extension_grammar_cons c s :
  isLowerAlphanumeric c = true ->
  extension_grammar s \/ s = EmptyString \/
    (exists d e, s = String d e /\ (d = "."%char \/ d = "-"%char) /\ extension_grammar e) ->
  extension_grammar (String c s).
Proof.
  intros Hc [H|[->|(d & e & -> & Hd & He)]].
  - destruct H as [w Hw Hall|w d e Hw Hall Hd He].
    + apply extension_segment; [done|]. simpl. by rewrite Hc, Hall.
    + apply (extension_more (String c w) d e); [done| |done|done]. simpl. by rewrite Hc, Hall.
  - apply extension_segment; [done|]. simpl. by rewrite Hc.
  - apply (extension_more (String c EmptyString) d e); [done| |done|done]. simpl. by rewrite Hc.
Qed.

Lemma extension_loop_spec s :
  (extension_loop true s = Some false <-> extension_grammar s) /\
  (extension_loop false s = Some false <->
   extension_grammar s \/ s = EmptyString \/
     (exists d e, s = String d e /\ (d = "."%char \/ d = "-"%char) /\ extension_grammar e)).
Proof.
  induction s as [|c s [IHt IHf]]; simpl.
  - split; [|naive_solver]. split; [done|]. intros H. inversion H as [|w ? ? Hw ?? ? E]; [done|].
    by destruct w.
  - destruct (isLowerAlphanumeric c) eqn:Hc.
    + assert (extension_grammar (String c s) <->
        extension_grammar s \/ s = EmptyString \/
          (exists d e, s = String d e /\ (d = "."%char \/ d = "-"%char) /\ extension_grammar e))
        as Hg.
      { split; [|by apply extension_grammar_cons].
        intros H. inversion H as [w Hw Hall E|w d e Hw Hall Hd He E]; subst.
        - simpl in Hall. bool_hyps. destruct s as [|d s]; [auto|left].
          by apply extension_segment.
        - destruct w as [|c' w]; [done|]. rewrite str_app_cons in E. simplify_eq. simpl in Hall.
          bool_hyps. destruct w as [|c'' w].
          + right; right. eauto.
          + left. by apply extension_more. }
      rewrite IHf, Hg. split; [done|]. split; [tauto|].
      intros [?|[?|(d & e & ? & Hd & _)]]; try done. simplify_eq.
      by destruct Hd; subst.
    + assert (~ extension_grammar (String c s)) as Hng.
      { intros H. inversion H as [w Hw Hall E|w d e Hw Hall Hd He E]; subst.
        - simpl in Hall. bool_hyps. congruence.
        - destruct w as [|c' w]; [done|]. rewrite str_app_cons in E. simplify_eq. simpl in Hall.
          bool_hyps. congruence. }
      destruct (decide (c = "."%char \/ c = "-"%char)) as [Hsep|Hsep].
      * assert (negb (Ascii.eqb c ".") && negb (Ascii.eqb c "-") = false) as ->.
        { by destruct Hsep; subst. }
        simpl. rewrite IHt. split; [split; [done|by intros ?]|]. split; [by eauto 7|].
        intros [?|[?|(d & e & ? & _ & He)]]; by simplify_eq.
      * assert (negb (Ascii.eqb c ".") && negb (Ascii.eqb c "-") = true) as ->.
        { apply andb_true_iff. rewrite !negb_true_iff, !Ascii.eqb_neq. tauto. }
        simpl. split; split; try done.
        intros [?|[?|(d & e & ? & Hd & He)]]; by simplify_eq.
Qed.

(** The grammar of the naming contract: non-empty alphanumeric segments between single
    separators, at most 63 bytes. *)
Lemma validExtension_grammar s :
  validExtension s = true <-> extension_grammar s /\ (String.length s <= 63)%nat.
Proof.
  unfold validExtension, maxLabelLength. pose proof (proj1 (extension_loop_spec s)) as Hl.
  destruct (bool_decide_reflect (s = EmptyString)) as [->|Hne]; simpl.
  { split; [done|]. intros [H _]. by apply Hl in H. }
  destruct (Nat.ltb_spec 63 (String.length s)); [split; [done|intros [_ ?]; lia]|].
  rewrite <- Hl. destruct (extension_loop true s) as [[]|]; simpl; intuition congruence.
Qed.

(** ** Tags

    A numeric identifier is the decimal text of a natural number. *)
Fixpoint decimal_value (acc : N) (s : string) : N :=
  match s with
  | EmptyString => acc
  | String c s' => decimal_value (10 * acc + (code c - 48)) s'
  end.

Lemma is_digit_value c :
  is_digit c = true -> (code c - 48 < 10)%N /\ pretty_N_char (code c - 48) = c.
Proof. by_chars c. Qed.

Lemma pretty_decimal_value acc s t :
  (0 < acc)%N -> str_forall is_digit s = true ->
  pretty_N_go (decimal_value acc s) t = pretty_N_go acc (s +:+ t).
Proof.
  revert acc. induction s as [|c s IH]; intros acc Hacc Hs; [done|]. simpl in *. bool_hyps.
  destruct (is_digit_value c) as [Hlt Hc]; [done|].
  rewrite IH by (done || lia). rewrite (pretty_N_go_step (10 * acc + _)) by lia.
  replace ((10 * acc + (code c - 48)) `div` 10)%N with acc.
  - replace ((10 * acc + (code c - 48)) `mod` 10)%N with (code c - 48)%N; [by rewrite Hc|].
    apply (N.mod_unique _ _ acc); lia.
  - apply (N.div_unique _ _ _ (code c - 48)); lia.
Qed.

Lemma pretty_N_go_head x s :
  (0 < x)%N -> exists c t, pretty_N_go x s = String c t /\ c <> "0"%char.
Proof.
  revert s. induction (N.lt_wf_0 x) as [x _ IH]; intros s Hx.
  rewrite pretty_N_go_step by done. destruct (decide (x < 10)%N) as [Hlt|Hge].
  - rewrite N.div_small, pretty_N_go_0, N.mod_small by done.
    exists (pretty_N_char x), s. split; [done|].
    intros Hc. apply (pretty_N_char_inj x 0) in Hc; lia.
  - apply IH; [by apply N.div_lt|]. apply N.div_str_pos. lia.
Qed.

Lemma validNumericIdentifier_decimal s :
  validNumericIdentifier s = true <-> exists n : N, s = pretty n.
Proof.
  unfold validNumericIdentifier.  split.
  - intros H. destruct s as [|c s]; [done|]. rewrite bool_decide_eq_false_2 in H by done.
    destruct (decide (c = "0"%char)) as [->|Hc].
    + destruct s as [|d s]; [|done]. by exists 0%N.
    + assert (Ascii.eqb "0" c = false) as E by (apply Ascii.eqb_neq; congruence).
      change (byte_test (String c s) 0 (Ascii.eqb "0")) with (Ascii.eqb "0" c) in H.
      rewrite E, andb_false_r in H. simpl in H. bool_hyps.
      destruct (is_digit_value c) as [Hlt Hch]; [done|].
      assert (0 < code c - 48)%N as Hpos.
      { destruct (decide (code c - 48 = 0)%N) as [E0|]; [|lia].
        rewrite E0 in Hch. by destruct Hc. }
      exists (decimal_value (code c - 48) s). unfold pretty, pretty_N.
      pose proof (pretty_decimal_value (code c - 48) s EmptyString Hpos) as Hv.
      rewrite str_app_nil_r in Hv. case_decide as Hz.
      * rewrite Hz, pretty_N_go_0 in Hv by done.
        rewrite pretty_N_go_step in Hv by done.
        rewrite N.div_small, pretty_N_go_0 in Hv by done. by specialize (Hv H0).
      * rewrite Hv by done. rewrite pretty_N_go_step by done.
        rewrite N.div_small, pretty_N_go_0, N.mod_small by done. by rewrite Hch.
  - intros [n ->]. destruct (decide (n = 0)%N) as [->|Hn]; [done|].
    pose proof (pretty_N_forall is_digit n) as Hd.
    unfold pretty, pretty_N in *. rewrite decide_False in * by done.
    destruct (pretty_N_go_head n EmptyString) as (c & t & E & Hc); [lia|].
    rewrite E in *. rewrite bool_decide_eq_false_2 by done.
    change (byte_test (String c t) 0 (Ascii.eqb "0")) with (Ascii.eqb "0" c).
    assert (Ascii.eqb "0" c = false) as -> by (apply Ascii.eqb_neq; congruence).
    rewrite andb_false_r. simpl in Hd. apply Hd. intros m. apply pretty_N_char_digit.
Qed.

Lemma ValidSemverTag_decimal value :
  ValidSemverTag value = true <->
  exists major minor patch : N,
    value = "v" +:+ pretty major +:+ "." +:+ pretty minor +:+ "." +:+ pretty patch.
Proof.
  assert (forall n : N, lacks "." (pretty n) = true) as Hlacks.
  { intros n. apply (lacks_of_forall is_digit); [done|].
    apply pretty_N_forall, pretty_N_char_digit. }
  unfold ValidSemverTag, semverComponentCount. split.
  - destruct (_ || _) eqn:E; [done|]. bool_hyps. apply byte_test_0 in H0 as (c & t & -> & Hc).
    apply Ascii.eqb_eq in Hc as <-. simpl. intros H0.
    destruct (Split t ".") as [|a [|b [|c [|? ?]]]] eqn:Es; try done. simpl in H0. bool_hyps.
    repeat match goal with
    | H : validNumericIdentifier _ = true |- _ =>
        apply validNumericIdentifier_decimal in H as [? ->]
    end.
    apply (f_equal (fun l => JoinStr l ".")) in Es. rewrite Join_Split in Es. subst t.
    do 3 eexists. rewrite !JoinStr_cons. done.
  - intros (a & b & c & ->).
    assert (validNumericIdentifier (pretty a) && validNumericIdentifier (pretty b)
            && validNumericIdentifier (pretty c) = true) as Hv.
    { rewrite !andb_true_iff, !validNumericIdentifier_decimal. repeat split; eauto. }
    change ("v" +:+ ?x) with (String "v" x). simpl drop_str.
    change (pretty a +:+ "." +:+ pretty b +:+ "." +:+ pretty c)
      with (JoinStr [pretty a; pretty b; pretty c] ".").
    rewrite (Split_Join _ "."); [|done|repeat constructor; apply Hlacks]. simpl.
    rewrite andb_true_r, andb_assoc, Hv.
    assert (forall n : N, 1 <= String.length (pretty n))%nat as Hl.
    { intros n. destruct (pretty n) eqn:E; simpl; [|lia].
      assert (validNumericIdentifier (pretty n) = true) as Hp
        by (apply validNumericIdentifier_decimal; eauto).
      by rewrite E in Hp. }
    destruct (_ || _) eqn:E; [exfalso|done].
    apply orb_true_iff in E as [E|E]; [|done]. apply Nat.ltb_lt in E.
    rewrite !length_str_app in E. simpl in E. pose proof (Hl a). pose proof (Hl b).
    pose proof (Hl c). lia.
Qed.

(** ** Artifact names *)
Record artifact_ok (version goos goarch extension name : string) : Prop := {
  ao_tag : exists major minor patch : N,
    version = "v" +:+ pretty major +:+ "." +:+ pretty minor +:+ "." +:+ pretty patch;
  ao_os : rfc1123_label goos;
  ao_arch : rfc1123_label goarch;
  ao_ext : extension_grammar extension /\ (String.length extension <= 63)%nat;
  ao_name : name = "diskforge_" +:+ drop_str 1 version +:+ "_" +:+ goos +:+ "_" +:+ goarch
                   +:+ "." +:+ extension;
  ao_length : (String.length name <= 255)%nat }.

Lemma TrimPrefix_tag version :
  ValidSemverTag version = true -> TrimPrefix version "v" = drop_str 1 version.
Proof.
  intros (a & b & c & ->)%ValidSemverTag_decimal. unfold TrimPrefix, HasPrefix.
  by rewrite str_prefix_app.
Qed.

Lemma tag_lacks_underscore version :
  ValidSemverTag version = true -> lacks "_" (drop_str 1 version) = true.
Proof.
  intros (a & b & c & ->)%ValidSemverTag_decimal.
  change (drop_str 1 _) with (pretty a +:+ "." +:+ pretty b +:+ "." +:+ pretty c).
  assert (forall n : N, lacks "_" (pretty n) = true) as Hl.
  { intros n. apply (lacks_of_forall is_digit); [done|].
    apply pretty_N_forall, pretty_N_char_digit. }
  unfold lacks in *. by rewrite !str_forall_app, !Hl.
Qed.

Lemma ArtifactName_ok_inv version goos goarch extension name :
  ArtifactName version goos goarch extension = Ok name <->
  artifact_ok version goos goarch extension name.
Proof.
  unfold ArtifactName, maxArtifactNameLength. split.
  - intros H. inv_ok. bool_hyps.
    match goal with H : (_ <? _)%nat = false |- _ => apply Nat.ltb_ge in H end.
    pose proof (TrimPrefix_tag version) as Ht. rewrite Ht in * by done.
    split; by rewrite <- ?ValidSemverTag_decimal, <- ?ValidLabel_rfc1123,
      <- ?validExtension_grammar.
  - intros [Hv Hos Harch Hext Hname Hlen]. subst name.
    rewrite <- ValidSemverTag_decimal in Hv. rewrite <- ValidLabel_rfc1123 in Hos, Harch.
    rewrite <- validExtension_grammar in Hext. rewrite Hv, Hos, Harch, Hext. simpl.
    rewrite TrimPrefix_tag by done. rewrite (proj2 (Nat.ltb_ge _ _)) by done. done.
Qed.

(** C38: The complete behaviour of [ArtifactName]: it returns a name exactly when the tag is [v]
    followed by three decimal numbers, the labels are RFC 1123 labels and the extension follows
    the grammar, and then the name is the documented one and has at most 255 bytes; every
    refusal is an [ErrInvalidArtifactName]. *)
Theorem ArtifactName_spec version goos goarch extension :
  match ArtifactName version goos goarch extension with
  | Ok name => artifact_ok version goos goarch extension name
  | Err e =>
      errors_Is e ErrInvalidArtifactName = true /\
      forall name, ~ artifact_ok version goos goarch extension name
  | Panic => False
  end.
Proof.
  destruct (ArtifactName version goos goarch extension) as [name|e|] eqn:E.
  - by apply ArtifactName_ok_inv.
  - split; [|intros name Hn%ArtifactName_ok_inv; congruence].
    unfold ArtifactName in E.
    repeat match goal with
    | E : (refuse_if ?b _ ≫= _) = Err _ |- _ =>
        destruct b; simpl in E; [injection E as <-; apply errors_Is_errorf|]
    end. done.
  - unfold ArtifactName in E.
    by repeat match goal with
    | E : (refuse_if ?b _ ≫= _) = Panic |- _ => destruct b; simpl in E
    end.
Qed.

(** C39: No two different releases, platforms or formats share an artifact name. *)
Theorem ArtifactName_injective v os arch ext v' os' arch' ext' name
  (H : ArtifactName v os arch ext = Ok name) (H' : ArtifactName v' os' arch' ext' = Ok name) :
  v = v' /\ os = os' /\ arch = arch' /\ ext = ext'.
Proof.
  apply ArtifactName_ok_inv in H as [Hv Hos Harch _ Hn _].
  apply ArtifactName_ok_inv in H' as [Hv' Hos' Harch' _ Hn' _].
  rewrite <- ValidSemverTag_decimal in Hv, Hv'.
  rewrite <- ValidLabel_rfc1123 in Hos, Harch, Hos', Harch'.
  rewrite Hn in Hn'. apply (inj (String.app _)) in Hn'.
  apply (sep_inj_l "_") in Hn' as [Hd Hn']; [|by apply tag_lacks_underscore..].
  apply (sep_inj_l "_") in Hn' as [-> Hn']; [|by apply ValidLabel_lacks..].
  apply (sep_inj_l ".") in Hn' as [-> ->]; [|by apply ValidLabel_lacks..].
  repeat split; auto. apply ValidSemverTag_decimal in Hv as (a & b & c & ->).
  apply ValidSemverTag_decimal in Hv' as (a' & b' & c' & ->).
  change ("v" +:+ drop_str 1 ("v" +:+ pretty a +:+ "." +:+ pretty b +:+ "." +:+ pretty c)
    = "v" +:+ drop_str 1 ("v" +:+ pretty a' +:+ "." +:+ pretty b' +:+ "." +:+ pretty c')).
  by rewrite Hd.
Qed.

Lemma ArtifactName_injective_witness :
  "v0.1.0" = "v0.1.0" /\ "linux" = "linux" /\ "amd64" = "amd64" /\ "tar.gz" = "tar.gz".
Proof.
  apply (ArtifactName_injective "v0.1.0" "linux" "amd64" "tar.gz" "v0.1.0" "linux" "amd64"
           "tar.gz" "diskforge_0.1.0_linux_amd64.tar.gz"); vm_compute; reflexivity.
Defined.
