(* ===== verification/Policy.v ===== *)
(** * The safety policy ([internal/policy])

    [model.go], [confirmation.go] and [inspect.go]: the transport values, the confirmation token
    and the fail-closed decision.  The package reads nothing; everything it decides on is an
    argument. *)

From S2P Require Export GoPath Sha256 Errors Naming.
From stdpp Require Export gmap sorting.

Open Scope Z_scope.

(** ** [model.go] *)
Abbreviation Mode := string.
Definition ModeRescue : Mode := "rescue".
Definition ModeLive : Mode := "live".

Record TargetIdentity := {
  tgt_CanonicalPath : string;
  tgt_Serial : string;
  tgt_WWN : string;
  tgt_SizeBytes : Z;
  tgt_KName : string;
  tgt_IsPartition : bool;
  tgt_Descendants : list string }.

Record ImageIdentity := {
  img_Path : string;
  img_SHA256 : string;
  img_Format : string;
  img_CompressedBytes : Z;
  img_UncompressedBytes : Z }.

(** A Go [map[string]bool] is a [gmap string bool]: a missing key and a false value differ. *)
Record HostObservation := {
  host_EUID : Z;
  host_RootDisk : string;
  host_MountedDevices : gmap string bool;
  host_SwapDevices : gmap string bool;
  host_SourceFilesystem : string;
  host_SourceBackingDevices : list string;
  host_MemoryAvailableBytes : Z;
  host_SysRqTriggerAvailable : bool }.

Record Inspection := {
  ins_Mode : Mode;
  ins_Target : TargetIdentity;
  ins_Image : ImageIdentity;
  ins_ConfirmationToken : string }.

#[export] Instance TargetIdentity_eq_dec : EqDecision TargetIdentity.
Proof. solve_decision. Defined.
#[export] Instance ImageIdentity_eq_dec : EqDecision ImageIdentity.
Proof. solve_decision. Defined.
#[export] Instance Inspection_eq_dec : EqDecision Inspection.
Proof. solve_decision. Defined.

Definition GateInvalidTarget : GateCode := "invalid_target".
Definition GateInvalidDigest : GateCode := "invalid_digest".
Definition GateInvalidImageSize : GateCode := "invalid_image_size".
Definition GateInvalidMode : GateCode := "invalid_mode".
Definition GateNotRoot : GateCode := "not_root".
Definition GateTargetPartition : GateCode := "target_partition".
Definition GateTargetTooSmall : GateCode := "target_too_small".
Definition GateTargetMounted : GateCode := "target_mounted".
Definition GateTargetSwap : GateCode := "target_swap".
Definition GateSourceOnTarget : GateCode := "source_on_target".
Definition GateLiveTargetNotRoot : GateCode := "live_target_not_root".
Definition GateLiveSourceNotTmpfs : GateCode := "live_source_not_tmpfs".
Definition GateLiveMemory : GateCode := "live_memory".
Definition GateLiveSysRq : GateCode := "live_sysrq".
Definition GateLiveReboot : GateCode := "live_reboot_required".
Definition GateConfirmation : GateCode := "confirmation_mismatch".
Definition GateIdentityChanged : GateCode := "identity_changed".

Definition codes : list GateCode :=
  [GateInvalidTarget; GateInvalidDigest; GateInvalidImageSize; GateInvalidMode; GateNotRoot;
   GateTargetPartition; GateTargetTooSmall; GateTargetMounted; GateTargetSwap;
   GateSourceOnTarget; GateLiveTargetNotRoot; GateLiveSourceNotTmpfs; GateLiveMemory;
   GateLiveSysRq; GateLiveReboot; GateConfirmation; GateIdentityChanged].

(** ** [confirmation.go] *)
Definition maxIdentityLength : nat := 256.

Definition validIdentityText (value : string) : bool :=
  if (maxIdentityLength <? String.length value)%nat then false
  else str_forall (fun c => negb ((code c <? 32)%N || (126 <? code c)%N)) value.

Definition nl : string := String "010" EmptyString.

(** The record that the token binds: [v1] and six fields, each on a line of its own. *)
Definition confirmation_record (target : TargetIdentity) (image : ImageIdentity) : string :=
  "v1" +:+ nl +:+ target.(tgt_CanonicalPath) +:+ nl +:+ target.(tgt_Serial) +:+ nl
  +:+ target.(tgt_WWN) +:+ nl +:+ format_int target.(tgt_SizeBytes) +:+ nl
  +:+ format_int image.(img_UncompressedBytes) +:+ nl +:+ image.(img_SHA256) +:+ nl.

Definition ConfirmationToken (target : TargetIdentity) (image : ImageIdentity) : res string :=
  refuse_if (negb (IsAbs target.(tgt_CanonicalPath))
             || negb (bool_decide (Clean target.(tgt_CanonicalPath) = target.(tgt_CanonicalPath)))
             || negb (HasPrefix target.(tgt_CanonicalPath) "/dev/")
             || (target.(tgt_SizeBytes) <=? 0)
             || negb (ValidLabel (Base target.(tgt_CanonicalPath)))
             || negb (validIdentityText target.(tgt_Serial))
             || negb (validIdentityText target.(tgt_WWN)))
    (Gate GateInvalidTarget
       [Lit "target must be a canonical absolute /dev path with positive capacity"]);;
  refuse_if (image.(img_UncompressedBytes) <=? 0)
    (Gate GateInvalidImageSize [Lit "uncompressed image size must be positive"]);;
  refuse_if (bad_digest image.(img_SHA256))
    (Gate GateInvalidDigest
       [Lit "SHA-256 digest must contain exactly 64 lowercase hexadecimal characters"]);;
  let record := confirmation_record target image in
  let binding := Sum256 (bytes_of record) in
  fragment ← slice_to image.(img_SHA256) 12;
  mret ("confirm-v1-" +:+ Base target.(tgt_CanonicalPath) +:+ "-" +:+ fragment +:+ "-"
        +:+ EncodeToString (take 8 binding)).

(** ** [inspect.go] *)
Definition MinimumLiveAvailableBytes : Z := 512 * 1024 * 1024.
Definition tmpfsFilesystem : string := "tmpfs".

Definition refuse {A} (c : GateCode) (msg : message) : res A := Err (Gate c msg).

(** The base names of the target's descendants, of its kernel name and of its path. *)
Definition add_name (names : gset string) (value : string) : gset string :=
  if bool_decide (value = EmptyString) then names else {[Base value]} ∪ names.
Definition deviceNames (target : TargetIdentity) : gset string :=
  let names := foldl add_name ∅ target.(tgt_Descendants) in
  foldl add_name names [target.(tgt_KName); target.(tgt_CanonicalPath)].

(** The active devices in sorted order; the first one whose base name is a candidate.  [entries]
    is the order in which the [range] loop visits the map, which Go leaves open; [intersects]
    takes one such order, and [intersects_any_order] below shows that it does not matter. *)
Definition activeDevices (entries : list (string * bool)) : list string :=
  sort_strings (omap (fun kv : string * bool => if kv.2 then Some kv.1 else None) entries).
Definition intersects_in (entries : list (string * bool)) (candidates : gset string)
    : option string :=
  head (filter (fun device => Base device ∈ candidates) (activeDevices entries)).
Definition intersects (devices : gmap string bool) (candidates : gset string) : option string :=
  intersects_in (map_to_list devices) candidates.

Definition mapFromSlice (values : list string) : gmap string bool :=
  foldl (fun m value => <[value := true]> m) ∅ values.

Definition inspectMode (mode : Mode) (target : TargetIdentity) (host : HostObservation)
    (targetDevices : gset string) : res unit :=
  if bool_decide (mode = ModeRescue) then
    match intersects host.(host_MountedDevices) targetDevices with
    | Some mounted =>
        refuse GateTargetMounted [Lit "target descendant "; Lit mounted; Lit " is mounted"]
    | None =>
        match intersects host.(host_SwapDevices) targetDevices with
        | Some swap =>
            refuse GateTargetSwap [Lit "target descendant "; Lit swap; Lit " is active swap"]
        | None => Ok tt
        end
    end
  else if negb (bool_decide (Clean host.(host_RootDisk) = target.(tgt_CanonicalPath))) then
    refuse GateLiveTargetNotRoot [Lit "live target must be the root disk"]
  else if negb (bool_decide (host.(host_SourceFilesystem) = tmpfsFilesystem)) then
    refuse GateLiveSourceNotTmpfs [Lit "live source must reside on tmpfs"]
  else if host.(host_MemoryAvailableBytes) <? MinimumLiveAvailableBytes then
    refuse GateLiveMemory
      [Lit "live mode requires at least "; Dec MinimumLiveAvailableBytes; Lit " available bytes"]
  else if negb host.(host_SysRqTriggerAvailable) then
    refuse GateLiveSysRq [Lit "live mode requires a writable SysRq trigger"]
  else Ok tt.

Definition Inspect (mode : Mode) (target : TargetIdentity) (image : ImageIdentity)
    (host : HostObservation) : res Inspection :=
  refuse_if (negb (bool_decide (mode = ModeRescue)) && negb (bool_decide (mode = ModeLive)))
    (Gate GateInvalidMode [Lit "unsupported write mode "; Quoted mode]);;
  refuse_if (negb (host.(host_EUID) =? 0))
    (Gate GateNotRoot [Lit "whole-disk inspection requires root"]);;
  refuse_if target.(tgt_IsPartition) (Gate GateTargetPartition [Lit "target is a partition"]);;
  refuse_if (target.(tgt_SizeBytes) <? image.(img_UncompressedBytes))
    (Gate GateTargetTooSmall
       [Lit "target has "; Dec target.(tgt_SizeBytes); Lit " bytes but image expands to ";
        Dec image.(img_UncompressedBytes); Lit " bytes"]);;
  token ← ConfirmationToken target image;
  let targetDevices := deviceNames target in
  match intersects (mapFromSlice host.(host_SourceBackingDevices)) targetDevices with
  | Some sourceDevice =>
      refuse GateSourceOnTarget [Lit "source is backed by target descendant "; Lit sourceDevice]
  | None =>
      inspectMode mode target host targetDevices;;
      mret {| ins_Mode := mode; ins_Target := target; ins_Image := image;
              ins_ConfirmationToken := token |}
  end.

(** The token of the program's own test ([confirmation_test.go]). *)
Example ConfirmationToken_vector :
  ConfirmationToken
    {| tgt_CanonicalPath := "/dev/vda"; tgt_Serial := "SER123"; tgt_WWN := "WWN456";
       tgt_SizeBytes := 42949672960; tgt_KName := EmptyString; tgt_IsPartition := false;
       tgt_Descendants := [] |}
    {| img_Path := EmptyString;
       img_SHA256 := "0123456789abcdef0123456789abcdef0123456789abcdef0123456789abcdef";
       img_Format := EmptyString; img_CompressedBytes := 0;
       img_UncompressedBytes := 8589934592 |}
  = Ok "confirm-v1-vda-0123456789ab-ca99718141349949".
Proof. vm_compute. reflexivity. Qed.

(** ** Device sets *)
Lemma elem_of_foldl_add_name values names d :
  d ∈ foldl add_name names values <->
  d ∈ names \/ exists value, value ∈ values /\ value <> EmptyString /\ d = Base value.
Proof.
  revert names. induction values as [|v values IH]; intros names; simpl.
  - split; [auto|]. intros [?|(?&?%not_elem_of_nil&_)]; done.
  - rewrite IH. unfold add_name. setoid_rewrite elem_of_cons.
    case_bool_decide; [naive_solver|]. rewrite elem_of_union, elem_of_singleton. naive_solver.
Qed.

(** The names related to a target: the abstract counterpart of [deviceNames]. *)
Definition related_name (target : TargetIdentity) (d : string) : Prop :=
  exists value, value ∈ target.(tgt_KName) :: target.(tgt_CanonicalPath) :: target.(tgt_Descendants)
    /\ value <> EmptyString /\ d = Base value.

Lemma elem_of_deviceNames target d : d ∈ deviceNames target <-> related_name target d.
Proof.
  unfold deviceNames, related_name. rewrite !elem_of_foldl_add_name. set_solver.
Qed.

Lemma elem_of_activeDevices entries d : d ∈ activeDevices entries <-> (d, true) ∈ entries.
Proof.
  unfold activeDevices, sort_strings. rewrite merge_sort_Permutation, list_elem_of_omap.
  split; [|by intros; exists (d, true)]. intros ([? []] & ? & ?); by simplify_eq/=.
Qed.

Lemma activeDevices_sorted entries : StronglySorted String.le (activeDevices entries).
Proof. apply StronglySorted_merge_sort; apply _. Qed.

Lemma activeDevices_perm entries entries' :
  entries ≡ₚ entries' -> activeDevices entries = activeDevices entries'.
Proof.
  intros Hp. apply (StronglySorted_unique String.le); try apply activeDevices_sorted.
  unfold activeDevices, sort_strings. rewrite !merge_sort_Permutation. by rewrite Hp.
Qed.

Lemma StronglySorted_filter {A} (R : relation A) (P : A -> Prop) `{forall x, Decision (P x)} l :
  StronglySorted R l -> StronglySorted R (filter P l).
Proof.
  induction 1 as [|x l _ IH Hx]; [constructor|]. rewrite filter_cons. case_decide; [|done].
  constructor; [done|]. apply Forall_forall. intros y [_ Hy]%list_elem_of_filter.
  by apply (proj1 (Forall_forall _ _) Hx).
Qed.

(** An active device that is a candidate, the least one in byte order. *)
Definition least_active (devices : gmap string bool) (candidates : gset string) (d : string) :=
  devices !! d = Some true /\ Base d ∈ candidates /\
  forall d', devices !! d' = Some true -> Base d' ∈ candidates -> String.le d d'.

Lemma intersects_Some devices candidates d :
  intersects devices candidates = Some d -> least_active devices candidates d.
Proof.
  unfold intersects, intersects_in, least_active. intros H.
  pose proof (StronglySorted_filter _ (fun d => Base d ∈ candidates) _
                (activeDevices_sorted (map_to_list devices))) as Hs.
  assert (forall x, devices !! x = Some true -> Base x ∈ candidates ->
    x ∈ filter (fun d => Base d ∈ candidates) (activeDevices (map_to_list devices))) as Hin.
  { intros x Hx Hb. rewrite list_elem_of_filter, elem_of_activeDevices, elem_of_map_to_list. done. }
  assert (forall x, x ∈ filter (fun d => Base d ∈ candidates) (activeDevices (map_to_list devices)) ->
    devices !! x = Some true /\ Base x ∈ candidates) as Hout.
  { intros x. rewrite list_elem_of_filter, elem_of_activeDevices, elem_of_map_to_list. tauto. }
  destruct (filter _ _) as [|x l]; simplify_eq/=.
  destruct (Hout d) as [Hd Hb]; [by left|]. repeat split; [done|done|].
  intros d' Hd' Hb'. specialize (Hin d' Hd' Hb'). apply elem_of_cons in Hin as [->|Hin]; [done|].
  inversion_clear Hs as [|?? _ Hall]. by apply (proj1 (Forall_forall _ _) Hall).
Qed.

Lemma intersects_None devices candidates :
  intersects devices candidates = None <->
  forall d, devices !! d = Some true -> Base d ∉ candidates.
Proof.
  split.
  - intros H d Hd Hb. unfold intersects, intersects_in in H.
    assert (d ∈ filter (fun d => Base d ∈ candidates) (activeDevices (map_to_list devices))) as Hin.
    { rewrite list_elem_of_filter, elem_of_activeDevices, elem_of_map_to_list. done. }
    destruct (filter _ _); [by apply not_elem_of_nil in Hin|done].
  - intros H. destruct (intersects devices candidates) as [d|] eqn:E; [|done].
    apply intersects_Some in E as (Hd & Hb & _). by destruct (H d Hd).
Qed.

Lemma lookup_mapFromSlice values d :
  mapFromSlice values !! d = Some true <-> d ∈ values.
Proof.
  unfold mapFromSlice. rewrite <- (app_nil_l values) at 2.
  assert (forall d, (∅ : gmap string bool) !! d = Some true <-> d ∈ (@nil string)) as H0.
  { intros x. rewrite lookup_empty. split; [done|by intros ?%not_elem_of_nil]. }
  revert H0. generalize (∅ : gmap string bool). generalize (@nil string).
  induction values as [|v values IH]; intros l m Hm; simpl.
  - by rewrite app_nil_r.
  - rewrite (IH (l ++ [v])).
    + by rewrite <- app_assoc.
    + intros x. destruct (decide (v = x)) as [->|Hne].
      * rewrite lookup_insert_eq. set_solver.
      * rewrite lookup_insert_ne by done. rewrite Hm. set_solver.
Qed.

(** ** The confirmation token *)

(** What a token is issued for. *)
Record token_inputs_ok (target : TargetIdentity) (image : ImageIdentity) : Prop := {
  ti_abs : IsAbs target.(tgt_CanonicalPath) = true;
  ti_clean : Clean target.(tgt_CanonicalPath) = target.(tgt_CanonicalPath);
  ti_dev : HasPrefix target.(tgt_CanonicalPath) "/dev/" = true;
  ti_size : 0 < target.(tgt_SizeBytes);
  ti_label : rfc1123_label (Base target.(tgt_CanonicalPath));
  ti_serial : validIdentityText target.(tgt_Serial) = true;
  ti_wwn : validIdentityText target.(tgt_WWN) = true;
  ti_image : 0 < image.(img_UncompressedBytes);
  ti_digest : lower_hex_text 64 image.(img_SHA256) }.

Definition token_of (target : TargetIdentity) (image : ImageIdentity) : string :=
  "confirm-v1-" +:+ Base target.(tgt_CanonicalPath) +:+ "-"
  +:+ String.substring 0 12 image.(img_SHA256) +:+ "-"
  +:+ EncodeToString (take 8 (Sum256 (bytes_of (confirmation_record target image)))).

Lemma slice_to_digest s : lower_hex_text 64 s -> slice_to (E := error) s 12 = Ok (String.substring 0 12 s).
Proof. intros [Hl _]. unfold slice_to. by rewrite Hl. Qed.

Lemma ConfirmationToken_ok target image token :
  ConfirmationToken target image = Ok token <->
  token_inputs_ok target image /\ token = token_of target image.
Proof.
  unfold ConfirmationToken, token_of. split.
  - intros H. inv_ok. bool_hyps.
    assert (lower_hex_text 64 image.(img_SHA256)) as Hdig by (by apply bad_digest_spec).
    rewrite slice_to_digest in * by done. simplify_eq. split; [|done].
    split; rewrite <- ?ValidLabel_rfc1123; auto; lia.
  - intros [[Ha Hc Hd Hs Hl Hser Hw Hi Hdig] ->]. rewrite <- ValidLabel_rfc1123 in Hl.
    rewrite Ha, bool_decide_eq_true_2, Hd, Hl, Hser, Hw by done.
    apply Z.leb_gt in Hs, Hi. rewrite Hs, Hi.
    rewrite (proj2 (bad_digest_spec _)) by done. simpl. by rewrite slice_to_digest.
Qed.

Lemma validIdentityText_lacks_nl s : validIdentityText s = true -> lacks "010" s = true.
Proof.
  unfold validIdentityText. destruct (_ <? _)%nat; [done|].
  by apply lacks_of_forall.
Qed.

Lemma lower_hex_lacks n s : lower_hex_text n s -> lacks "010" s = true.
Proof. intros [_ H]. revert H. by apply lacks_of_forall. Qed.

Lemma format_int_lacks_nl z : lacks "010" (format_int z) = true.
Proof. apply (lacks_of_forall is_digit_or_minus); [done|]. apply format_int_chars. Qed.

#[export] Hint Resolve validIdentityText_lacks_nl lower_hex_lacks format_int_lacks_nl : go.

(** The bound fields of two identities agree. *)
Definition same_bound_fields (t t' : TargetIdentity) (i i' : ImageIdentity) : Prop :=
  t.(tgt_CanonicalPath) = t'.(tgt_CanonicalPath) /\ t.(tgt_Serial) = t'.(tgt_Serial) /\
  t.(tgt_WWN) = t'.(tgt_WWN) /\ t.(tgt_SizeBytes) = t'.(tgt_SizeBytes) /\
  i.(img_UncompressedBytes) = i'.(img_UncompressedBytes) /\ i.(img_SHA256) = i'.(img_SHA256).

(** The lines of the record are read back from its end: no field after the path can hold a line
    break, so the record determines all six fields, whatever the path contains. *)
Lemma confirmation_record_inj t t' i i' :
  token_inputs_ok t i -> token_inputs_ok t' i' ->
  confirmation_record t i = confirmation_record t' i' -> same_bound_fields t t' i i'.
Proof.
  intros [_ _ _ _ _ Hs Hw _ Hd] [_ _ _ _ _ Hs' Hw' _ Hd'] E. unfold confirmation_record in E.
  rewrite <- !str_app_assoc in E. apply str_app_inj_r in E.
  apply (sep_inj_r_left "010") in E as [E Esha]; [|eauto with go..].
  apply (sep_inj_r_left "010") in E as [E Eun%format_int_inj]; [|eauto with go..].
  apply (sep_inj_r_left "010") in E as [E Esz%format_int_inj]; [|eauto with go..].
  apply (sep_inj_r_left "010") in E as [E Ewwn]; [|eauto with go..].
  apply (sep_inj_r_left "010") in E as [E Eser]; [|eauto with go..].
  apply (inj (String.app _)) in E. done.
Qed.

Lemma Sum256_prefix_length msg : length (take 8 (Sum256 msg)) = 8%nat.
Proof. by rewrite length_take, (proj1 (Sum256_spec msg)). Qed.

Lemma Sum256_prefix_bytes msg : Forall is_byte (take 8 (Sum256 msg)).
Proof. apply Forall_take, Sum256_spec. Qed.

Lemma length_substring n s :
  (n <= String.length s)%nat -> String.length (String.substring 0 n s) = n.
Proof.
  revert s. induction n as [|n IH]; intros [|c s] H; simpl in *; try lia. by rewrite IH by lia.
Qed.

Lemma str_forall_substring p n s :
  str_forall p s = true -> str_forall p (String.substring 0 n s) = true.
Proof.
  revert s. induction n as [|n IH]; intros [|c s] H; simpl in *; try done. bool_hyps.
  rewrite H. by apply IH.
Qed.

Lemma lower_hex_label c : is_lower_hex c = true -> label_char c = true.
Proof. by_chars c. Qed.

Lemma token_of_binding t i t' i' :
  lower_hex_text 64 i.(img_SHA256) -> lower_hex_text 64 i'.(img_SHA256) ->
  token_of t i = token_of t' i' ->
  take 8 (Sum256 (bytes_of (confirmation_record t i)))
  = take 8 (Sum256 (bytes_of (confirmation_record t' i'))).
Proof.
  intros [Hl _] [Hl' _] E. unfold token_of in E. rewrite <- !str_app_assoc in E.
  assert (forall x y x' y', String.length y = String.length y' -> x +:+ y = x' +:+ y' -> y = y')
    as Htail.
  { intros x y x' y' Hy Hxy. apply (str_app_inj_length x x') in Hxy as [_ ?]; [done|].
    apply (f_equal String.length) in Hxy. rewrite !length_str_app in Hxy. lia. }
  apply Htail in E.
  - by apply EncodeToString_inj in E; [|apply Sum256_prefix_bytes..].
  - by rewrite !length_EncodeToString, !Sum256_prefix_length.
Qed.

Lemma bytes_of_inj s t : bytes_of s = bytes_of t -> s = t.
Proof.
  revert t. induction s as [|c s IH]; intros [|d t] H; simplify_eq/=; [done|].
  f_equal; [|by apply IH]. unfold code in *.
  rewrite <- (ascii_N_embedding c), <- (ascii_N_embedding d). f_equal. lia.
Qed.

(** C10: A token is consent for one identity: when two accepted identities have the same token,
    all six bound fields agree, or else the two different records are a collision of SHA-256
    truncated to 64 bits. *)
Theorem ConfirmationToken_binds t i t' i' token
  (H : ConfirmationToken t i = Ok token) (H' : ConfirmationToken t' i' = Ok token) :
  same_bound_fields t t' i i' \/
  (bytes_of (confirmation_record t i) <> bytes_of (confirmation_record t' i') /\
   take 8 (Sum256 (bytes_of (confirmation_record t i)))
   = take 8 (Sum256 (bytes_of (confirmation_record t' i')))).
Proof.
  apply ConfirmationToken_ok in H as [Hi ->]. apply ConfirmationToken_ok in H' as [Hi' E].
  destruct (decide (confirmation_record t i = confirmation_record t' i')) as [Er|Hne].
  - left. by apply confirmation_record_inj.
  - right. split; [by intros ?%bytes_of_inj|]. apply token_of_binding; [apply Hi|apply Hi'|done].
Qed.

(** C40: The token depends on nothing but the six bound fields: whatever the kernel name, the
    partition flag, the descendants, the image path, its format and its compressed size are,
    the result (token or refusal) is the same. *)
Theorem ConfirmationToken_only_bound_fields t t' i i' (H : same_bound_fields t t' i i') :
  ConfirmationToken t i = ConfirmationToken t' i'.
Proof.
  destruct H as (Hp & Hs & Hw & Hz & Hu & Hd).
  unfold ConfirmationToken, confirmation_record. by rewrite Hp, Hs, Hw, Hz, Hu, Hd.
Qed.

(** C36: The form of a token: [confirm-v1-], the device label, 12 digits of the image digest and
    16 hexadecimal digits, separated by hyphens; all its characters are lower-case letters,
    digits and hyphens, and it has at most 104 bytes. *)
Theorem ConfirmationToken_form t i token (H : ConfirmationToken t i = Ok token) :
  exists device fragment binding,
    token = "confirm-v1-" +:+ device +:+ "-" +:+ fragment +:+ "-" +:+ binding /\
    rfc1123_label device /\ lower_hex_text 12 fragment /\ lower_hex_text 16 binding /\
    str_forall label_char token = true /\ (String.length token <= 104)%nat.
Proof.
  apply ConfirmationToken_ok in H as [[_ _ _ _ Hl _ _ _ [Hdl Hd]] ->].
  exists (Base t.(tgt_CanonicalPath)),
    (String.substring 0 12 i.(img_SHA256)),
    (EncodeToString (take 8 (Sum256 (bytes_of (confirmation_record t i))))).
  assert (lower_hex_text 12 (String.substring 0 12 i.(img_SHA256))) as [Hfl Hf].
  { split; [rewrite length_substring; lia|]. by apply str_forall_substring. }
  assert (lower_hex_text 16 (EncodeToString
    (take 8 (Sum256 (bytes_of (confirmation_record t i)))))) as [Hbl Hb].
  { split; [by rewrite length_EncodeToString, Sum256_prefix_length|].
    apply EncodeToString_lower_hex, Sum256_prefix_bytes. }
  pose proof Hl as (Hll & Hlc & _). do 4 (split; [done|]). unfold token_of. split.
  - rewrite !str_forall_app, Hlc. simpl.
    rewrite !(str_forall_impl _ _ _ lower_hex_label); done.
  - rewrite !length_str_app, Hfl, Hbl. simpl. lia.
Qed.

(** ** The decision

    What the safety model promises of an accepted inspection. *)
Record rescue_safe (target : TargetIdentity) (host : HostObservation) : Prop := {
  rs_mounted : forall d, host.(host_MountedDevices) !! d = Some true ->
    ~ related_name target (Base d);
  rs_swap : forall d, host.(host_SwapDevices) !! d = Some true -> ~ related_name target (Base d) }.

Record live_safe (target : TargetIdentity) (host : HostObservation) : Prop := {
  ls_root : Clean host.(host_RootDisk) = target.(tgt_CanonicalPath);
  ls_tmpfs : host.(host_SourceFilesystem) = "tmpfs";
  ls_memory : 512 * 1024 * 1024 <= host.(host_MemoryAvailableBytes);
  ls_sysrq : host.(host_SysRqTriggerAvailable) = true }.

Record inspection_safe (mode : Mode) (target : TargetIdentity) (image : ImageIdentity)
    (host : HostObservation) : Prop := {
  is_mode : mode = "rescue" /\ rescue_safe target host \/ mode = "live" /\ live_safe target host;
  is_root : host.(host_EUID) = 0;
  is_whole : target.(tgt_IsPartition) = false;
  is_capacity : image.(img_UncompressedBytes) <= target.(tgt_SizeBytes);
  is_token : token_inputs_ok target image;
  is_source : forall d, d ∈ host.(host_SourceBackingDevices) -> ~ related_name target (Base d) }.

Lemma intersects_deviceNames_None devices target :
  intersects devices (deviceNames target) = None <->
  forall d, devices !! d = Some true -> ~ related_name target (Base d).
Proof. rewrite intersects_None. by setoid_rewrite elem_of_deviceNames. Qed.

Lemma inspectMode_ok mode target host :
  mode = ModeRescue \/ mode = ModeLive ->
  (inspectMode mode target host (deviceNames target) = Ok tt <->
   mode = "rescue" /\ rescue_safe target host \/ mode = "live" /\ live_safe target host).
Proof.
  intros Hm. unfold inspectMode. case_bool_decide as Hr.
  - assert (rescue_safe target host <->
      intersects host.(host_MountedDevices) (deviceNames target) = None /\
      intersects host.(host_SwapDevices) (deviceNames target) = None) as Hs.
    { rewrite !intersects_deviceNames_None. split; [by intros []|by intros []]. }
    rewrite Hs. destruct (intersects _ _), (intersects _ _); subst mode;
      (split; [try done; by left|intros [[_ []]|[? _]]; done]).
  - assert (mode = ModeLive) as -> by tauto.
    unfold negb. repeat case_bool_decide; simpl;
      try (split; [done|intros [[? _]|[_ []]]; done]).
    destruct (Z.ltb_spec host.(host_MemoryAvailableBytes) MinimumLiveAvailableBytes);
      [split; [done|intros [[? _]|[_ []]]; unfold MinimumLiveAvailableBytes in *; [done|lia]]|].
    destruct host.(host_SysRqTriggerAvailable) eqn:Es.
    + split; [|done]. intros _. by right.
    + split; [done|]. intros [[? _]|[_ []]]; [done|congruence].
Qed.

Definition mode_valid (mode : Mode) : bool :=
  bool_decide (mode = ModeRescue) || bool_decide (mode = ModeLive).

Lemma mode_valid_spec mode : mode_valid mode = true <-> mode = ModeRescue \/ mode = ModeLive.
Proof. unfold mode_valid. by rewrite orb_true_iff, !bool_decide_eq_true. Qed.

Lemma Inspect_ok_inv mode target image host inspection :
  Inspect mode target image host = Ok inspection <->
  inspection_safe mode target image host /\
  inspection = {| ins_Mode := mode; ins_Target := target; ins_Image := image;
                  ins_ConfirmationToken := token_of target image |}.
Proof.
  unfold Inspect. split.
  - intros H. inv_ok. match goal with H : ConfirmationToken _ _ = _ |- _ =>
      apply ConfirmationToken_ok in H as [Htok ->] end.
    destruct (intersects _ _) eqn:Esrc; [done|]. inv_ok. bool_hyps.
    match goal with H : inspectMode _ _ _ _ = Ok ?u |- _ => destruct u; rename H into Hmode end.
    assert (mode = ModeRescue \/ mode = ModeLive) as Hm.
    { match goal with H : _ && _ = false |- _ => apply andb_false_iff in H as [?|?] end;
        bool_hyps; auto. }
    split; [|done]. apply (inspectMode_ok mode target host Hm) in Hmode.
    split; try done; try lia.
    intros d Hd. rewrite intersects_deviceNames_None in Esrc. apply Esrc.
    by apply lookup_mapFromSlice.
  - intros [[Hmode Hroot Hwhole Hcap Htok Hsrc] ->].
    assert (mode = ModeRescue \/ mode = ModeLive) as Hm by tauto.
    apply (inspectMode_ok mode target host Hm) in Hmode.
    assert (negb (bool_decide (mode = ModeRescue)) && negb (bool_decide (mode = ModeLive)) = false)
      as ->.
    { rewrite <- negb_orb, negb_false_iff. by apply mode_valid_spec. }
    rewrite Hroot, Hwhole, (proj2 (Z.ltb_ge _ _)) by done. simpl.
    rewrite (proj2 (ConfirmationToken_ok target image _) (conj Htok eq_refl)). simpl.
    rewrite (proj2 (intersects_deviceNames_None _ _)).
    + by rewrite Hmode.
    + intros d Hd%lookup_mapFromSlice. by apply Hsrc.
Qed.

(** ** Which gate refuses

    The gates in the order of the safety model, each with the test that violates it; a refusal
    names the first violated one. *)
Definition touches (devices : gmap string bool) (target : TargetIdentity) : bool :=
  existsb (fun kv : string * bool => kv.2 && bool_decide (Base kv.1 ∈ deviceNames target))
    (map_to_list devices).

Definition rescue_gates (target : TargetIdentity) (host : HostObservation) : list (bool * GateCode) :=
  [(touches host.(host_MountedDevices) target, "target_mounted");
   (touches host.(host_SwapDevices) target, "target_swap")].

Definition live_gates (target : TargetIdentity) (host : HostObservation) : list (bool * GateCode) :=
  [(negb (bool_decide (Clean host.(host_RootDisk) = target.(tgt_CanonicalPath))),
    "live_target_not_root");
   (negb (bool_decide (host.(host_SourceFilesystem) = "tmpfs")), "live_source_not_tmpfs");
   (host.(host_MemoryAvailableBytes) <? 536870912, "live_memory");
   (negb host.(host_SysRqTriggerAvailable), "live_sysrq")].

Definition token_target_bad (target : TargetIdentity) : bool :=
  negb (IsAbs target.(tgt_CanonicalPath))
  || negb (bool_decide (Clean target.(tgt_CanonicalPath) = target.(tgt_CanonicalPath)))
  || negb (HasPrefix target.(tgt_CanonicalPath) "/dev/")
  || (target.(tgt_SizeBytes) <=? 0)
  || negb (ValidLabel (Base target.(tgt_CanonicalPath)))
  || negb (validIdentityText target.(tgt_Serial))
  || negb (validIdentityText target.(tgt_WWN)).

Definition gates (mode : Mode) (target : TargetIdentity) (image : ImageIdentity)
    (host : HostObservation) : list (bool * GateCode) :=
  [(negb (mode_valid mode), "invalid_mode");
   (negb (host.(host_EUID) =? 0), "not_root");
   (target.(tgt_IsPartition), "target_partition");
   (target.(tgt_SizeBytes) <? image.(img_UncompressedBytes), "target_too_small");
   (token_target_bad target, "invalid_target");
   (image.(img_UncompressedBytes) <=? 0, "invalid_image_size");
   (bad_digest image.(img_SHA256), "invalid_digest");
   (touches (mapFromSlice host.(host_SourceBackingDevices)) target, "source_on_target")]
  ++ (if bool_decide (mode = "rescue") then rescue_gates target host else live_gates target host).

Definition first_violated (gs : list (bool * GateCode)) : option GateCode :=
  snd <$> head (filter (fun g : bool * GateCode => g.1 = true) gs).

Lemma first_violated_cons b c gs :
  first_violated ((b, c) :: gs) = if b then Some c else first_violated gs.
Proof. unfold first_violated. rewrite filter_cons. by destruct b. Qed.

Lemma intersects_touches devices target :
  touches devices target = match intersects devices (deviceNames target) with
                           | Some _ => true
                           | None => false
                           end.
Proof.
  destruct (intersects _ _) as [d|] eqn:E.
  - apply intersects_Some in E as (Hd & Hb & _). apply existsb_exists. exists (d, true).
    rewrite <- list_elem_of_In, elem_of_map_to_list. split; [done|]. simpl.
    by apply bool_decide_eq_true.
  - rewrite intersects_None in E. apply not_true_iff_false.
    intros ([d b] & Hin & Ht)%existsb_exists. simpl in Ht. bool_hyps. subst.
    apply (E d); [|done]. by apply elem_of_map_to_list, list_elem_of_In.
Qed.

(** C20: Every refusal is a gate error, and its code is that of the first violated gate in the
    documented order; a decision is positive exactly when no gate is violated; the policy never
    panics. *)
Theorem Inspect_first_gate mode target image host :
  match Inspect mode target image host with
  | Ok _ => first_violated (gates mode target image host) = None
  | Err (Gate code _) => first_violated (gates mode target image host) = Some code
  | _ => False
  end.
Proof.
  unfold Inspect, gates. rewrite <- negb_orb.
  change (_ || bool_decide (mode = ModeLive)) with (mode_valid mode).
  cbn [app]. rewrite !first_violated_cons.
  destruct (mode_valid mode) eqn:Hm; [simpl|done].
  destruct (host_EUID host =? 0); [simpl|done].
  destruct (tgt_IsPartition target); [done|simpl].
  destruct (tgt_SizeBytes target <? img_UncompressedBytes image); [done|simpl].
  unfold ConfirmationToken. change (_ || negb (validIdentityText (tgt_WWN target)))
    with (token_target_bad target).
  destruct (token_target_bad target); [done|simpl].
  destruct (img_UncompressedBytes image <=? 0); [done|simpl].
  destruct (bad_digest (img_SHA256 image)) eqn:Hd; [done|simpl].
  rewrite slice_to_digest by (by apply bad_digest_spec). simpl.
  rewrite intersects_touches. destruct (intersects _ _); [done|].
  unfold inspectMode, rescue_gates, live_gates. change "rescue" with ModeRescue.
  case_bool_decide as Hr.
  - rewrite !first_violated_cons, !intersects_touches.
    destruct (intersects (host_MountedDevices host) _); [done|].
    by destruct (intersects (host_SwapDevices host) _).
  - rewrite !first_violated_cons. change MinimumLiveAvailableBytes with 536870912.
    change tmpfsFilesystem with "tmpfs".
    by repeat match goal with |- context [if ?b then _ else _] => destruct b; simpl end.
Qed.

(** C4: Fail closed: a decision is positive exactly when the safety policy of its mode holds of
    the observed target, image and host, and it then carries exactly the inspected values and
    their token. *)
Theorem Inspect_accepts_iff_safe mode target image host inspection :
  Inspect mode target image host = Ok inspection <->
  inspection_safe mode target image host /\
  inspection = {| ins_Mode := mode; ins_Target := target; ins_Image := image;
                  ins_ConfirmationToken := token_of target image |}.
Proof. apply Inspect_ok_inv. Qed.

(** C35: The device that a refusal names does not depend on the order in which Go visits the map:
    any enumeration of the map's entries selects the same device, the least active one (in byte
    order) that is related to the target. *)
Theorem intersects_any_order devices entries candidates (H : entries ≡ₚ map_to_list devices) :
  intersects_in entries candidates = intersects devices candidates /\
  match intersects_in entries candidates with
  | Some d => least_active devices candidates d
  | None => forall d, devices !! d = Some true -> Base d ∉ candidates
  end.
Proof.
  assert (intersects_in entries candidates = intersects devices candidates) as Heq.
  { unfold intersects, intersects_in. by rewrite (activeDevices_perm _ _ H). }
  split; [done|]. rewrite Heq. destruct (intersects devices candidates) eqn:E.
  - by apply intersects_Some.
  - by apply intersects_None.
Qed.

(** ** The claims at concrete inputs *)
Definition example_identity : TargetIdentity := {|
  tgt_CanonicalPath := "/dev/vda"; tgt_Serial := "SER123"; tgt_WWN := "WWN456";
  tgt_SizeBytes := 42949672960; tgt_KName := "vda"; tgt_IsPartition := false;
  tgt_Descendants := ["vda"; "vda1"] |}.
Definition example_image : ImageIdentity := {|
  img_Path := "/run/image.raw";
  img_SHA256 := "0123456789abcdef0123456789abcdef0123456789abcdef0123456789abcdef";
  img_Format := "raw"; img_CompressedBytes := 4096; img_UncompressedBytes := 8589934592 |}.
(** The same bound fields; everything else differs. *)
Definition example_identity2 : TargetIdentity := {|
  tgt_CanonicalPath := "/dev/vda"; tgt_Serial := "SER123"; tgt_WWN := "WWN456";
  tgt_SizeBytes := 42949672960; tgt_KName := "sdb"; tgt_IsPartition := true;
  tgt_Descendants := [] |}.
Definition example_image2 : ImageIdentity := {|
  img_Path := "/mnt/other.raw";
  img_SHA256 := "0123456789abcdef0123456789abcdef0123456789abcdef0123456789abcdef";
  img_Format := "zstd"; img_CompressedBytes := 1; img_UncompressedBytes := 8589934592 |}.

Lemma ConfirmationToken_binds_witness :
  same_bound_fields example_identity example_identity2 example_image example_image2 \/
  (bytes_of (confirmation_record example_identity example_image)
     <> bytes_of (confirmation_record example_identity2 example_image2) /\
   take 8 (Sum256 (bytes_of (confirmation_record example_identity example_image)))
   = take 8 (Sum256 (bytes_of (confirmation_record example_identity2 example_image2)))).
Proof.
  apply (ConfirmationToken_binds _ _ _ _ "confirm-v1-vda-0123456789ab-ca99718141349949");
    vm_compute; reflexivity.
Defined.

Lemma ConfirmationToken_only_bound_fields_witness :
  ConfirmationToken example_identity example_image
  = ConfirmationToken example_identity2 example_image2.
Proof. apply ConfirmationToken_only_bound_fields. repeat split. Defined.

Lemma ConfirmationToken_form_witness :
  exists device fragment binding,
    "confirm-v1-vda-0123456789ab-ca99718141349949"
      = "confirm-v1-" +:+ device +:+ "-" +:+ fragment +:+ "-" +:+ binding /\
    rfc1123_label device /\ lower_hex_text 12 fragment /\ lower_hex_text 16 binding /\
    str_forall label_char "confirm-v1-vda-0123456789ab-ca99718141349949" = true /\
    (String.length "confirm-v1-vda-0123456789ab-ca99718141349949" <= 104)%nat.
Proof.
  apply (ConfirmationToken_form example_identity example_image). vm_compute. reflexivity.
Defined.

Lemma intersects_any_order_witness :
  let devices : gmap string bool := <["vda1" := true]> (<["sda" := true]> ∅) in
  let candidates : gset string := {["vda1"; "vda"]} in
  intersects_in (reverse (map_to_list devices)) candidates = intersects devices candidates /\
  match intersects_in (reverse (map_to_list devices)) candidates with
  | Some d => least_active devices candidates d
  | None => forall d, devices !! d = Some true -> Base d ∉ candidates
  end.
Proof. intros devices candidates. apply intersects_any_order. apply reverse_Permutation. Defined.
