(* ===== verification/FileSystem.v ===== *)
(** * A snapshot of procfs and sysfs

    The observer reads kernel state through [os.ReadFile], [os.Open], [os.ReadDir] and
    [os.Stat].  A snapshot gives, for every path the kernel resolves (symbolic links followed),
    the outcome of each of these calls; a path that is not in the map does not exist.  One call
    of an observer method reads one snapshot, and nothing relates the snapshots of two calls. *)

From S2P Require Export GoPath Errors.
From stdpp Require Export gmap.

Record FileInfo := {
  fi_regular : bool;
  fi_perm : Z;
  fi_size : Z }.

(** The outcome of an operation of the kernel: an error or a value. *)
Abbreviation outcome A := (error + A)%type.
Definition returned {A} (o : outcome A) : res A :=
  match o with
  | inl e => Err e
  | inr a => Ok a
  end.

(** [nd_data] is the error of [os.Open], or the bytes delivered before the end of the file or
    before the read error that ends them. *)
Record Node := {
  nd_stat : outcome FileInfo;
  nd_data : outcome (string * option error);
  nd_entries : outcome (list string) }.

Abbreviation FS := (gmap string Node).

Definition not_exist (op path : string) : error :=
  Wrapped [Lit op; Lit " "; Lit path; Lit ": "] (Sentinel OsErrNotExist) [].

Definition os_Stat (fs : FS) (path : string) : res FileInfo :=
  match fs !! path with
  | Some n => returned n.(nd_stat)
  | None => Err (not_exist "stat" path)
  end.

(** The test [_, err := os.Stat(path); err == nil]. *)
Definition exists_path (fs : FS) (path : string) : bool := is_ok (os_Stat fs path).

Definition os_Open (fs : FS) (path : string) : res (string * option error) :=
  match fs !! path with
  | Some n => returned n.(nd_data)
  | None => Err (not_exist "open" path)
  end.

Definition os_ReadFile (fs : FS) (path : string) : res string :=
  data ← os_Open fs path;
  match data with
  | (content, None) => Ok content
  | (_, Some e) => Err e
  end.

(** [os.ReadDir] returns the entries sorted by name. *)
Definition os_ReadDir (fs : FS) (path : string) : res (list string) :=
  match fs !! path with
  | Some n => sort_strings <$> returned n.(nd_entries)
  | None => Err (not_exist "open" path)
  end.

Lemma returned_no_panic {A} (o : outcome A) : no_panic (returned o).
Proof. by destruct o. Qed.

Lemma os_Stat_no_panic fs path : no_panic (os_Stat fs path).
Proof. unfold os_Stat. by destruct (fs !! path) as [[[] ? ?]|]. Qed.

Lemma os_Open_no_panic fs path : no_panic (os_Open fs path).
Proof. unfold os_Open. by destruct (fs !! path) as [[? [] ?]|]. Qed.

Lemma os_ReadFile_no_panic fs path : no_panic (os_ReadFile fs path).
Proof. apply bind_no_panic; [apply os_Open_no_panic|]. by intros [? []]. Qed.

Lemma os_ReadDir_no_panic fs path : no_panic (os_ReadDir fs path).
Proof. unfold os_ReadDir. by destruct (fs !! path) as [[? ? []]|]. Qed.

#[export] Hint Resolve returned_no_panic os_Stat_no_panic os_Open_no_panic os_ReadFile_no_panic
  os_ReadDir_no_panic : go.

(** ** [bufio.Scanner] with its default split function and buffer limit

    The lines, without their line feed and one carriage return before it; the last line needs no
    line feed.  A line of 65536 bytes or more does not fit the scanner's buffer and ends the scan
    with [ErrTooLong]; otherwise the scan ends with the read error, if any. *)
Fixpoint drop_cr (s : string) : string :=
  match s with
  | EmptyString => EmptyString
  | String "013" EmptyString => EmptyString
  | String c s' => String c (drop_cr s')
  end.

Record Scan := { sc_lines : list string; sc_err : option error }.

Definition line_too_long (line : string) : bool :=
  (65536 <=? N.of_nat (String.length line))%N.

Fixpoint scan_go (lines : list string) (read_err : option error) : Scan :=
  match lines with
  | [] => {| sc_lines := []; sc_err := read_err |}
  | [EmptyString] => {| sc_lines := []; sc_err := read_err |}
  | line :: rest =>
      if line_too_long line then {| sc_lines := []; sc_err := Some (Sentinel BufioErrTooLong) |}
      else let s := scan_go rest read_err in
           {| sc_lines := drop_cr line :: s.(sc_lines); sc_err := s.(sc_err) |}
  end.
Definition scan (data : string * option error) : Scan :=
  scan_go (Split data.1 "010") data.2.
