(* ===== verification/Observer.v ===== *)
(** * Linux observation ([internal/linux/observer.go])

    The read-only boundary that the policy runs on: block-device topology from sysfs, mounts,
    swap areas and memory from procfs.  Every operation is a function of one snapshot. *)

From S2P Require Export Policy FileSystem.
Open Scope Z_scope.

Definition deviceRoot : string := "/dev".
Definition sectorBytes : Z := 512.
Definition kilobyteBytes : Z := 1024.
Definition mountFieldCount : nat := 6.
Definition swapFieldCount : nat := 2.

Record Observer := {
  obs_ProcRoot : string;
  obs_SysRoot : string }.

Record mountRecord := {
  mr_device : string;
  mr_mountpoint : string;
  mr_filesystem : string;
  mr_readOnly : bool }.

Record swapRecord := {
  sr_source : string;
  sr_kind : string }.

(** An index expression on a slice: panics out of range. *)
Definition nth_field (l : list string) (i : nat) : res string :=
  match l !! i with
  | Some x => Ok x
  | None => Panic
  end.

(** A [for] loop whose body may return an error. *)
Fixpoint foldM {E A B} (f : A -> B -> result E A) (a : A) (l : list B) : result E A :=
  match l with
  | [] => Ok a
  | b :: l' => a' ← f a b; foldM f a' l'
  end.

(** ** Parsing *)

(** [strings.NewReplacer(...).Replace]: at each byte the first pattern that matches is replaced;
    [skip] counts the bytes of a match that are still to be passed over. *)
Fixpoint replace_go (pairs : list (string * string)) (skip : nat) (s : string) : string :=
  match s with
  | EmptyString => EmptyString
  | String c rest =>
      match skip with
      | S skip' => replace_go pairs skip' rest
      | O =>
          match head (filter (fun p : string * string => HasPrefix s p.1 = true) pairs) with
          | Some (old, new) => new +:+ replace_go pairs (String.length old - 1) rest
          | None => String c (replace_go pairs 0 rest)
          end
      end
  end.

Definition mount_escapes : list (string * string) :=
  [("\040", " "); ("\011", String "009" EmptyString); ("\012", String "010" EmptyString);
   ("\134", "\")].
Definition unescapeMount (value : string) : string := replace_go mount_escapes 0 value.

Definition containsOption (options expected : string) : bool :=
  bool_decide (expected ∈ Split options ",").

(** [slices.Index]: [None] stands for -1. *)
Definition slices_Index (l : list string) (x : string) : option nat :=
  fst <$> list_find (fun y => y = x) l.

Definition parseMountRecord (line : string) : res mountRecord :=
  let fields := Fields line in
  let bad : res mountRecord :=
    Err (errorf_sentinel ErrInvalidProcfs [Lit "mountinfo line "; Quoted line]) in
  match slices_Index fields "-" with
  | None => bad
  | Some separator =>
      if (length fields <? mountFieldCount)%nat || (length fields <=? separator + 3)%nat then bad
      else
        device ← nth_field fields 2;
        mountpoint ← nth_field fields 4;
        filesystem ← nth_field fields (separator + 1);
        options ← nth_field fields 5;
        superOptions ← nth_field fields (separator + 3);
        mret {| mr_device := device;
                mr_mountpoint := unescapeMount mountpoint;
                mr_filesystem := filesystem;
                mr_readOnly := containsOption options "ro" || containsOption superOptions "ro" |}
  end.

Definition parseSwapLine (line : string) : res swapRecord :=
  let fields := Fields line in
  refuse_if (length fields <? swapFieldCount)%nat
    (errorf_sentinel ErrInvalidProcfs [Lit "swaps line "; Quoted line]);;
  source ← nth_field fields 0;
  kind ← nth_field fields 1;
  mret {| sr_source := unescapeMount source; sr_kind := kind |}.

(** Parse every line, then report the scanner's error. *)
Definition scan_records {A} (parse : string -> res A) (what : string) (s : Scan) : res (list A) :=
  records ← foldM (fun acc line => record ← parse line; mret (acc ++ [record])) [] s.(sc_lines);
  match s.(sc_err) with
  | Some e => Err (wrap_error what e)
  | None => Ok records
  end.

Definition readSwapRecords (fs : FS) (procRoot : string) : res (list swapRecord) :=
  data ← map_err (wrap_error "open swaps: ") (os_Open fs (path_Join [procRoot; "swaps"]));
  let s := scan data in
  (* The first line is the header. *)
  scan_records parseSwapLine "scan swaps: "
    {| sc_lines := drop 1 s.(sc_lines); sc_err := s.(sc_err) |}.

Definition pathWithin (path mountpoint : string) : bool :=
  if bool_decide (mountpoint = seps) then IsAbs path
  else bool_decide (path = mountpoint) || HasPrefix path (mountpoint +:+ seps).

(** ** The methods of [Observer] *)
Section methods.
Context (observer : Observer) (fs : FS).

Definition blockRoot : string := path_Join [observer.(obs_SysRoot); "class"; "block"].

Definition readTrimmed (path : string) : res string :=
  content ← map_err (fun e => Wrapped [Lit "read kernel state "; Quoted path; Lit ": "] e [])
              (os_ReadFile fs path);
  mret (TrimSpace content).

Definition topLevelNames : res (list string) :=
  entries ← map_err (wrap_error "read sysfs block directory: ") (os_ReadDir fs blockRoot);
  mret (sort_strings entries).

(** A loop that returns at the first element for which the path built from it exists. *)
Definition first_existing (build : string -> string) (l : list string) : option string :=
  head (filter (fun x => exists_path fs (build x) = true) l).

Definition blockPath (name : string) : res string :=
  let direct := path_Join [blockRoot; name] in
  if exists_path fs direct then Ok direct
  else
    parents ← topLevelNames;
    match first_existing (fun parent => path_Join [blockRoot; parent; name]) parents with
    | Some parent => Ok (path_Join [blockRoot; parent; name])
    | None => Err (errorf_sentinel ErrUnresolvedDevice [Quoted name; Lit " is absent from sysfs"])
    end.

(** The parent, or [None] for [("", false, nil)]. *)
Definition partitionParent (name : string) : res (option string) :=
  parents ← topLevelNames;
  mret (first_existing (fun parent => path_Join [blockRoot; parent; name; "partition"]) parents).

Definition sortedEntries (path : string) : res (list string) :=
  match os_ReadDir fs path with
  | Ok directory => Ok (sort_strings directory)
  | Err e =>
      if errors_Is e OsErrNotExist then Ok []
      else Err (Wrapped [Lit "read block relations "; Quoted path; Lit ": "] e [])
  | Panic => Panic
  end.

Definition partitionChildren (path : string) : res (list string) :=
  children ← map_err (fun e => Wrapped [Lit "read block children "; Quoted path; Lit ": "] e [])
               (os_ReadDir fs path);
  mret (filter (fun child => exists_path fs (path_Join [path; child; "partition"]) = true) children).

(** [walkRelated] with a bound on the depth of the recursion.  The error is [None] when the bound
    is reached, which [related_terminates] below excludes for [related]. *)
Fixpoint walkRelated (fuel : nat) (name : string) (includePartitions : bool) (seen : gset string)
    : result (option error) (gset string) :=
  match fuel with
  | O => Err None
  | S fuel' =>
      if bool_decide (name ∈ seen) then Ok seen
      else
        let seen := {[name]} ∪ seen in
        let walk := fun seen name => walkRelated fuel' name false seen in
        path ← map_err Some (blockPath name);
        parent ← map_err Some (partitionParent name);
        seen ← match parent with
               | Some parent => walk seen parent
               | None => Ok seen
               end;
        slaves ← map_err Some (sortedEntries (path_Join [path; "slaves"]));
        seen ← foldM walk seen slaves;
        if negb includePartitions then Ok seen
        else
          partitions ← map_err Some (partitionChildren path);
          foldM walk seen partitions
  end.

(** Every name that some directory of the snapshot lists. *)
Definition all_names : gset string :=
  map_fold (fun _ n acc =>
    match n.(nd_entries) with
    | inr entries => list_to_set entries ∪ acc
    | inl _ => acc
    end) ∅ fs.

Definition walk_fuel : nat := S (S (size all_names)).

Definition related (start : string) : res (list string) :=
  match walkRelated walk_fuel start true ∅ with
  | Ok seen => Ok (sort_strings (elements seen))
  | Err (Some e) => Err e
  | Err None => Panic
  | Panic => Panic
  end.

Definition readOptional (root : string) (paths : list string) : string :=
  match filter (fun value => value <> EmptyString)
          (omap (fun relative => match readTrimmed (path_Join [root; relative]) with
                                 | Ok value => Some value
                                 | _ => None
                                 end) paths) with
  | value :: _ => value
  | [] => EmptyString
  end.

Definition Target (path : string) : res TargetIdentity :=
  let cleaned := Clean path in
  let name := Base cleaned in
  refuse_if (negb (bool_decide (cleaned = path_Join [deviceRoot; name]))
             || bool_decide (name = ".") || bool_decide (name = seps))
    (errorf_sentinel ErrInvalidBlockDevice [Lit "expected canonical /dev/<name> path"]);;
  sysPath ← blockPath name;
  sectorsText ← readTrimmed (path_Join [sysPath; "size"]);
  let bad := Err (errorf_sentinel ErrInvalidBlockDevice [Lit "sector count for "; Lit name]) in
  match ParseInt64 sectorsText with
  | None => bad
  | Some sectors =>
      if (sectors <? 0) || (max_int64 / sectorBytes <? sectors) then bad
      else
        descendants ← related name;
        mret {| tgt_CanonicalPath := cleaned;
                tgt_Serial := readOptional sysPath ["device/serial"; "serial"];
                tgt_WWN := readOptional sysPath ["device/wwid"; "wwid"];
                tgt_SizeBytes := wrap64 (sectors * sectorBytes);
                tgt_KName := name;
                tgt_IsPartition := exists_path fs (path_Join [sysPath; "partition"]);
                tgt_Descendants := descendants |}
  end.

Definition mounts : res (list mountRecord) :=
  data ← map_err (wrap_error "open mountinfo: ")
           (os_Open fs (path_Join [observer.(obs_ProcRoot); "self"; "mountinfo"]));
  scan_records parseMountRecord "scan mountinfo: " (scan data).

(** The loop over the candidates of one parent: itself, then its children. *)
Definition device_at (device : string) (path : string) : bool :=
  match readTrimmed (path_Join [path; "dev"]) with
  | Ok value => bool_decide (value = device)
  | _ => false
  end.

Fixpoint name_in_parents (device : string) (parents : list string) : res (option string) :=
  match parents with
  | [] => Ok None
  | parent :: rest =>
      let parentPath := path_Join [blockRoot; parent] in
      children ← map_err (fun e => Wrapped [Lit "read block device "; Quoted parentPath; Lit ": "] e [])
                   (os_ReadDir fs parentPath);
      match filter (fun path => device_at device path = true)
              (parentPath :: map (fun child => path_Join [parentPath; child]) children) with
      | path :: _ => Ok (Some (Base path))
      | [] => name_in_parents device rest
      end
  end.

Definition nameByDeviceNumber (device : string) : res (option string) :=
  parents ← topLevelNames;
  name_in_parents device parents.

(** The loop of [BlockMountsReadOnly]: [found] is the flag of the same name. *)
Fixpoint readonly_loop (found : bool) (records : list mountRecord) : res bool :=
  match records with
  | [] => Ok found
  | mount :: rest =>
      name ← nameByDeviceNumber mount.(mr_device);
      match name with
      | None => readonly_loop found rest
      | Some _ => if negb mount.(mr_readOnly) then Ok false else readonly_loop true rest
      end
  end.

Definition BlockMountsReadOnly : res bool :=
  records ← mounts;
  readonly_loop false records.

(** [expand] adds to the map it is given; the new map is returned. *)
Definition expand (result : gmap string bool) (name : string) : res (gmap string bool) :=
  names ← related name;
  mret (foldl (fun m device => <[device := true]> m) result names).

Definition MountedDevices : res (gmap string bool) :=
  records ← mounts;
  foldM (fun result record =>
    name ← nameByDeviceNumber record.(mr_device);
    match name with
    | Some name => expand result name
    | None => Ok result
    end) ∅ records.

(** The loop of [Source]: a record replaces the selected one when its mount point is longer. *)
Definition select_mount (cleaned : string) (selected : option mountRecord) (record : mountRecord)
    : option mountRecord :=
  if pathWithin cleaned record.(mr_mountpoint)
     && match selected with
        | None => true
        | Some s => (String.length s.(mr_mountpoint) <? String.length record.(mr_mountpoint))%nat
        end
  then Some record else selected.

Definition Source (path : string) : res (string * list string) :=
  let cleaned := Clean path in
  refuse_if (negb (IsAbs cleaned))
    (errorf_sentinel ErrInvalidBlockDevice [Lit "source path must be absolute"]);;
  records ← mounts;
  match foldl (select_mount cleaned) None records with
  | None =>
      Err (errorf_sentinel ErrUnresolvedDevice [Lit "no mount contains source "; Quoted cleaned])
  | Some selected =>
      name ← nameByDeviceNumber selected.(mr_device);
      match name with
      | None => Ok (selected.(mr_filesystem), [])
      | Some name => backing ← related name; Ok (selected.(mr_filesystem), backing)
      end
  end.

Definition swap_step (result : gmap string bool) (record : swapRecord) : res (gmap string bool) :=
  if bool_decide (record.(sr_kind) = "partition") then expand result (Base record.(sr_source))
  else if bool_decide (record.(sr_kind) = "file") then
    source ← map_err (fun e => Wrapped [Lit "resolve swap file "; Quoted record.(sr_source); Lit ": "] e [])
               (Source record.(sr_source));
    match source.2 with
    | [] => Err (errorf_sentinel ErrUnresolvedDevice
                   [Lit "block backing for swap file "; Quoted record.(sr_source);
                    Lit " cannot be proven"])
    | backing => Ok (foldl (fun m name => <[name := true]> m) result backing)
    end
  else Err (errorf_sentinel ErrInvalidProcfs [Lit "unsupported swap type "; Quoted record.(sr_kind)]).

Definition SwapDevices : res (gmap string bool) :=
  records ← readSwapRecords fs observer.(obs_ProcRoot);
  foldM swap_step ∅ records.

(** The physical disks among the related devices: no partition, no slaves, no mapper name. *)
Definition physical_step (candidates : list string) (candidate : string) : res (list string) :=
  path ← blockPath candidate;
  slaves ← sortedEntries (path_Join [path; "slaves"]);
  if negb (exists_path fs (path_Join [path; "partition"])) && (length slaves =? 0)%nat
     && negb (HasPrefix candidate "dm-")
  then Ok (candidates ++ [candidate]) else Ok candidates.

Definition physicalRootDisk (device : string) : res string :=
  name ← map_err (fun e => Wrapped [Lit "resolve root device "; Lit device; Lit ": "] e [])
           (nameByDeviceNumber device);
  match name with
  | None => Err (errorf_sentinel ErrUnresolvedDevice [Lit "root device "; Lit device])
  | Some name =>
      names ← related name;
      candidates ← foldM physical_step [] names;
      match candidates with
      | [disk] => Ok (path_Join [deviceRoot; disk])
      | _ => Err (errorf_sentinel ErrUnresolvedDevice
                    [Lit "root resolves to "; Dec (Z.of_nat (length candidates));
                     Lit " physical disks"])
      end
  end.

Definition RootDisk : res string :=
  records ← mounts;
  match filter (fun record => record.(mr_mountpoint) = seps) records with
  | record :: _ => physicalRootDisk record.(mr_device)
  | [] => Err (errorf_sentinel ErrInvalidProcfs [Lit "root mount is absent from mountinfo"])
  end.

(** The condition of the loop, with its short-circuit: the fields are indexed only as far as the
    length has been tested. *)
Definition mem_available (fields : list string) : res bool :=
  if negb (length fields =? 3)%nat then mret false
  else
    name ← nth_field fields 0;
    if negb (bool_decide (name = "MemAvailable:")) then mret false
    else
      unit ← nth_field fields 2;
      mret (bool_decide (unit = "kB")).

(** The loop over the lines of meminfo: it returns at the first [MemAvailable] line. *)
Fixpoint meminfo_loop (lines : list string) (scan_err : option error) : res Z :=
  match lines with
  | [] =>
      match scan_err with
      | Some e => Err (wrap_error "scan meminfo: " e)
      | None => Err (errorf_sentinel ErrInvalidProcfs [Lit "MemAvailable is absent"])
      end
  | line :: rest =>
      let fields := Fields line in
      available ← mem_available fields;
      if negb available then meminfo_loop rest scan_err
      else
        amount ← nth_field fields 1;
        match ParseInt64 amount with
        | Some kilobytes =>
            if kilobytes <? 0 then Err (errorf_sentinel ErrInvalidProcfs [Lit "MemAvailable"])
            else Ok (wrap64 (kilobytes * kilobyteBytes))
        | None => Err (errorf_sentinel ErrInvalidProcfs [Lit "MemAvailable"])
        end
  end.

Definition MemoryAvailableBytes : res Z :=
  data ← map_err (wrap_error "open meminfo: ")
           (os_Open fs (path_Join [observer.(obs_ProcRoot); "meminfo"]));
  let s := scan data in meminfo_loop s.(sc_lines) s.(sc_err).

Definition SysRqTriggerAvailable : res bool :=
  readTrimmed (path_Join [observer.(obs_ProcRoot); "sys"; "kernel"; "sysrq"]);;
  info ← map_err (wrap_error "stat SysRq trigger: ")
           (os_Stat fs (path_Join [observer.(obs_ProcRoot); "sysrq-trigger"]));
  mret (negb (Z.land info.(fi_perm) 146 =? 0)).
End methods.
