(* ===== verification/Fixtures.v ===== *)
(** * Concrete snapshots

    Trees of files as snapshots, and the fixture of the program's own tests
    ([internal/linux/observer_test.go] and [internal/linux/testdata]), on which the theorems
    about the observer are exercised. *)

From S2P Require Export Observer.

Definition file_node (content : string) : Node := {|
  nd_stat := inr {| fi_regular := true; fi_perm := 384; fi_size := Z.of_nat (String.length content) |};
  nd_data := inr (content, None);
  nd_entries := inl (Opaque "not a directory") |}.

Definition dir_node (entries : list string) : Node := {|
  nd_stat := inr {| fi_regular := false; fi_perm := 493; fi_size := 0 |};
  nd_data := inr (EmptyString, Some (Opaque "is a directory"));
  nd_entries := inr entries |}.

Definition add_entry (fs : FS) (dir entry : string) : FS :=
  match fs !! dir with
  | Some {| nd_entries := inr entries |} =>
      if bool_decide (entry ∈ entries) then fs else <[dir := dir_node (entries ++ [entry])]> fs
  | _ => <[dir := dir_node [entry]]> fs
  end.

(** Add the directories of a path given by its elements below [prefix]. *)
Fixpoint add_path (fs : FS) (prefix : string) (elems : list string) (content : string) : FS :=
  match elems with
  | [] => fs
  | [e] => <[prefix +:+ "/" +:+ e := file_node content]> (add_entry fs prefix e)
  | e :: es => add_path (add_entry fs prefix e) (prefix +:+ "/" +:+ e) es content
  end.

Definition tree (root : string) (files : list (string * string)) : FS -> FS :=
  fun fs => foldl (fun fs f => add_path fs root (Split f.1 "/") f.2) fs files.

Definition lines (l : list string) : string := JoinStr l nl +:+ nl.

Definition fixture_observer : Observer := {| obs_ProcRoot := "/proc"; obs_SysRoot := "/sys" |}.

Definition fixture_sys : list (string * string) :=
  [("vda/dev", lines ["252:0"]); ("vda/size", lines ["83886080"]);
   ("vda/device/serial", lines ["VIRTIO-SERIAL"]); ("vda/device/wwid", lines ["virtio-WWN"]);
   ("vda/vda1/dev", lines ["252:1"]); ("vda/vda1/size", lines ["2048"]);
   ("vda/vda1/partition", lines ["1"]); ("vda/vda2/dev", lines ["252:2"]);
   ("vda/vda2/size", lines ["67108864"]); ("vda/vda2/partition", lines ["2"]);
   ("sda/dev", lines ["8:0"]); ("sda/size", lines ["167772160"]);
   ("sda/device/serial", lines ["SCSI-SERIAL"]); ("sda/wwid", lines ["naa.5000"]);
   ("dm-0/dev", lines ["253:0"]); ("dm-0/size", lines ["67108864"]);
   ("dm-0/slaves/vda2", lines [EmptyString]); ("dm-0/slaves/dm-1", lines [EmptyString]);
   ("dm-1/dev", lines ["253:1"]); ("dm-1/size", lines ["67108864"]);
   ("dm-1/slaves/dm-0", lines [EmptyString])].

Definition fixture_mountinfo : list string :=
  ["29 23 253:0 / / rw,relatime - xfs /dev/mapper/ol-root rw";
   "30 29 0:25 / /dev/shm rw,nosuid,nodev - tmpfs tmpfs rw";
   "31 29 252:2 / /boot rw,relatime - xfs /dev/vda2 rw"].

Definition fixture_swaps : list string :=
  ["Filename Type Size Used Priority"; "/dev/vda1 partition 1048572 0 -2"].

Definition proc_files (mountinfo swaps : list string) : list (string * string) :=
  [("self/mountinfo", lines mountinfo); ("swaps", lines swaps);
   ("meminfo", lines ["MemTotal: 4194304 kB"; "MemFree: 262144 kB"; "MemAvailable:    1048576 kB"]);
   ("sys/kernel/sysrq", lines ["1"]); ("sysrq-trigger", lines [EmptyString])].

Definition fixture_with (mountinfo swaps : list string) : FS :=
  tree "/proc" (proc_files mountinfo swaps) (tree "/sys/class/block" fixture_sys ∅).
Definition fixture : FS := fixture_with fixture_mountinfo fixture_swaps.

(** The expectations of [observer_test.go]. *)
Example fixture_target :
  Target fixture_observer fixture "/dev/vda" =
  Ok {| tgt_CanonicalPath := "/dev/vda"; tgt_Serial := "VIRTIO-SERIAL"; tgt_WWN := "virtio-WWN";
        tgt_SizeBytes := 42949672960; tgt_KName := "vda"; tgt_IsPartition := false;
        tgt_Descendants := ["vda"; "vda1"; "vda2"] |}.
Proof. vm_compute. reflexivity. Qed.

Example fixture_mapper :
  related fixture_observer fixture "dm-0" = Ok ["dm-0"; "dm-1"; "vda"; "vda2"].
Proof. vm_compute. reflexivity. Qed.

Example fixture_root : RootDisk fixture_observer fixture = Ok "/dev/vda".
Proof. vm_compute. reflexivity. Qed.

Example fixture_source :
  Source fixture_observer fixture "/dev/shm/image.raw.zst" = Ok ("tmpfs", []) /\
  Source fixture_observer fixture "/boot/image.raw.zst" = Ok ("xfs", ["vda"; "vda2"]).
Proof. vm_compute. split; reflexivity. Qed.

Example fixture_memory : MemoryAvailableBytes fixture_observer fixture = Ok 1073741824%Z.
Proof. vm_compute. reflexivity. Qed.

Example fixture_sysrq : SysRqTriggerAvailable fixture_observer fixture = Ok true.
Proof. vm_compute. reflexivity. Qed.

Example fixture_swap_file :
  map_to_list <$> SwapDevices fixture_observer
    (fixture_with fixture_mountinfo ["Filename"; "/swapfile file 1048572 0 -2"])
  = Ok (map_to_list (<["dm-0" := true]> (<["dm-1" := true]> (<["vda" := true]>
         (<["vda2" := true]> (∅ : gmap string bool)))))).
Proof. vm_compute. reflexivity. Qed.

Example fixture_swap_overlay :
  is_ok (SwapDevices fixture_observer
    (fixture_with ["29 23 0:42 / / rw,relatime - overlay overlay rw"]
       ["Filename"; "/swapfile file 1048572 0 -2"])) = false.
Proof. vm_compute. reflexivity. Qed.
