(* ===== verification/Topology.v ===== *)
(** * Block-device topology

    The walk over device dependencies in [internal/linux/observer.go] computes exactly the
    devices related to its start, and terminates on every snapshot, cyclic ones included. *)

From S2P Require Export Observer Fixtures.
From stdpp Require Import relations.

Section topology.
Context (observer : Observer) (fs : FS).

(** A device depends on the disk it is a partition of and on its slaves. *)
Definition depends (n m : string) : Prop :=
  partitionParent observer fs n = Ok (Some m) \/
  exists path slaves, blockPath observer fs n = Ok path /\
    sortedEntries fs (path_Join [path; "slaves"]) = Ok slaves /\ m ∈ slaves.

Definition has_partition (n p : string) : Prop :=
  exists path partitions, blockPath observer fs n = Ok path /\
    partitionChildren fs path = Ok partitions /\ p ∈ partitions.

(** The abstract specification of [related]: everything the start depends on, and its
    partitions with everything they depend on. *)
Definition related_to (start x : string) : Prop :=
  rtc depends start x \/ exists p, has_partition start p /\ rtc depends p x.

(** ** Names come from directories *)
Lemma os_ReadDir_all_names path l x :
  os_ReadDir fs path = Ok l -> x ∈ l -> x ∈ all_names fs.
Proof.
  unfold os_ReadDir, all_names. destruct (fs !! path) as [n|] eqn:E; [|done].
  destruct (nd_entries n) as [e|entries] eqn:En; simpl; [done|]. intros [= <-].
  unfold sort_strings. rewrite merge_sort_Permutation. intros Hx. clear observer. revert path n entries E En x Hx.
  apply (map_fold_weak_ind (fun (acc : gset string) (m : FS) =>
    forall path n entries, m !! path = Some n -> nd_entries n = inr entries ->
      forall x, x ∈ entries -> x ∈ acc)).
  - intros path n entries H. by rewrite lookup_empty in H.
  - intros k nd m acc _ IH path n entries H En x Hx. destruct (decide (k = path)) as [->|Hne].
    + rewrite lookup_insert_eq in H. simplify_eq. rewrite En. set_solver.
    + rewrite lookup_insert_ne in H by done. specialize (IH _ _ _ H En x Hx).
      destruct (nd_entries nd); set_solver.
Qed.

Lemma topLevelNames_all_names l x :
  topLevelNames observer fs = Ok l -> x ∈ l -> x ∈ all_names fs.
Proof.
  unfold topLevelNames. destruct (os_ReadDir _ _) as [entries| |] eqn:E; simpl; try done.
  intros [= <-]. unfold sort_strings. rewrite merge_sort_Permutation.
  by eapply os_ReadDir_all_names.
Qed.

Lemma depends_all_names n m : depends n m -> m ∈ all_names fs.
Proof.
  intros [H|(path & slaves & _ & H & Hm)].
  - unfold partitionParent, first_existing in H. inv_ok.
    destruct (filter _ _) as [|p l] eqn:Ef; simplify_eq/=.
    assert (m ∈ m :: l) as Hin by left. rewrite <- Ef in Hin.
    apply list_elem_of_filter in Hin as [_ Hin]. by eapply topLevelNames_all_names.
  - unfold sortedEntries in H. destruct (os_ReadDir _ _) as [l|e|] eqn:E; simplify_eq.
    + unfold sort_strings in Hm. rewrite merge_sort_Permutation in Hm.
      by eapply os_ReadDir_all_names.
    + destruct (errors_Is e OsErrNotExist); simplify_eq. by apply not_elem_of_nil in Hm.
Qed.

Lemma has_partition_all_names n p : has_partition n p -> p ∈ all_names fs.
Proof.
  intros (path & ps & _ & H & Hp). unfold partitionChildren in H. inv_ok.
  apply list_elem_of_filter in Hp as [_ Hp]. by eapply os_ReadDir_all_names.
Qed.

(** The walk could read a device: its sysfs directory, and its slaves if it has any. *)
Definition resolved (n : string) : Prop :=
  exists path slaves, blockPath observer fs n = Ok path /\
    sortedEntries fs (path_Join [path; "slaves"]) = Ok slaves.

(** ** What one call of the walk adds *)
Record walk_post (starts : string -> Prop) (seen seen' : gset string) : Prop := {
  wp_grows : seen ⊆ seen';
  wp_starts : forall n, starts n -> n ∈ seen';
  wp_sound : forall x, x ∈ seen' -> x ∈ seen \/ exists n, starts n /\ rtc depends n x;
  wp_closed : forall x y, x ∈ seen' -> x ∉ seen -> depends x y -> y ∈ seen';
  wp_resolved : forall x, x ∈ seen' -> x ∉ seen -> resolved x }.

Lemma walk_post_refl starts seen :
  (forall n, starts n -> n ∈ seen) -> walk_post starts seen seen.
Proof. intros H. split; auto; done. Qed.

Lemma walk_post_trans starts1 starts2 (starts : string -> Prop) s1 s2 s3 :
  walk_post starts1 s1 s2 -> walk_post starts2 s2 s3 ->
  (forall n, starts n <-> starts1 n \/ starts2 n) -> walk_post starts s1 s3.
Proof.
  intros [G1 S1 D1 C1 R1] [G2 S2 D2 C2 R2] Hs. split.
  - set_solver.
  - intros n [Hn|Hn]%Hs; [apply G2|]; auto.
  - intros x [Hx|(n & Hn & Hx)]%D2.
    + destruct (D1 x Hx) as [?|(n & Hn & ?)]; [auto|]. right. exists n. split; [|done].
      apply Hs. auto.
    + right. exists n. split; [|done]. apply Hs. auto.
  - intros x y Hx Hnx Hxy. destruct (decide (x ∈ s2)) as [H2|H2]; eauto.
  - intros x Hx Hnx. destruct (decide (x ∈ s2)) as [H2|H2]; eauto.
Qed.

Lemma foldM_walk_post {E} (walk : gset string -> string -> result E (gset string)) :
  (forall seen n seen', walk seen n = Ok seen' -> walk_post (fun m => m = n) seen seen') ->
  forall names seen seen', foldM walk seen names = Ok seen' ->
  walk_post (fun m => m ∈ names) seen seen'.
Proof.
  intros Hw. induction names as [|n names IH]; intros seen seen' H; simpl in H.
  - simplify_eq. apply walk_post_refl. by intros n ?%not_elem_of_nil.
  - inv_ok. eapply walk_post_trans; [by apply Hw|by apply IH|].
    intros m. by rewrite elem_of_cons.
Qed.

(** The start is marked before its neighbours are walked. *)
Lemma walk_post_enter (next : string -> Prop) name seen seen' :
  name ∉ seen -> resolved name -> walk_post next ({[name]} ∪ seen) seen' ->
  (forall n, next n -> depends name n) -> (forall m, depends name m -> next m) ->
  walk_post (fun m => m = name) seen seen'.
Proof.
  intros Hn Hres [G S D C R] Hdep Hall. split.
  - set_solver.
  - intros ? ->. set_solver.
  - intros x Hx. destruct (D x Hx) as [Hx'|(n & Hnn & Hr)].
    + apply elem_of_union in Hx' as [->%elem_of_singleton|?]; [|auto]. right. by exists name.
    + right. exists name. split; [done|]. by eapply rtc_l; [apply Hdep|].
  - intros x y Hx Hns Hxy. destruct (decide (x = name)) as [->|Hne].
    + by apply S, Hall.
    + apply (C x y); [done|set_solver|done].
  - intros x Hx Hns. destruct (decide (x = name)) as [->|Hne]; [done|].
    apply R; [done|set_solver].
Qed.

(** The neighbours that a call without partitions walks are the dependencies. *)
Lemma walkRelated_post fuel name seen seen' :
  walkRelated observer fs fuel name false seen = Ok seen' ->
  walk_post (fun m => m = name) seen seen'.
Proof.
  revert name seen seen'. induction fuel as [|fuel IH]; intros name seen seen' H; [done|].
  cbn [walkRelated] in H.
  case_bool_decide as Hin.
  { simplify_eq. apply walk_post_refl. by intros ? ->. }
  inv_ok. cbn [negb] in *. inv_ok.
  match goal with
  | Hp : blockPath _ _ _ = Ok ?path, Hq : partitionParent _ _ _ = Ok ?parent,
    Hw : match ?parent with Some _ => _ | None => _ end = Ok ?s1,
    Hs : sortedEntries _ _ = Ok ?slaves, Hf : foldM _ ?s1 ?slaves = Ok ?s2 |- _ =>
      rename path into path', parent into parent', slaves into slaves', s1 into seen1;
      rename Hp into Hpath, Hq into Hparent, Hw into Hwalk, Hs into Hslaves, Hf into Hfold
  end.
  eapply (walk_post_enter (fun m => parent' = Some m \/ m ∈ slaves'));
    [done|by exists path', slaves'| | |].
  - apply (walk_post_trans (fun m => parent' = Some m) (fun m => m ∈ slaves') _ _ seen1);
      [| |done].
    2: { eapply foldM_walk_post; [|exact Hfold]. intros ???. apply IH. }
    destruct parent' as [parent|].
    + apply IH in Hwalk. destruct Hwalk as [G S D C R]. split; auto.
      * intros n [= <-]. by apply S.
      * intros x [?|(n & -> & ?)]%D; [auto|]. right. by exists parent.
    + simplify_eq. by apply walk_post_refl.
  - intros n [->|Hn]; [by left|]. right. eauto.
  - intros m [Hm|(p & sl & Hp & Hsl & Hm)]; [left; congruence|right].
    by ok_unique.
Qed.

(** A call with partitions is the call without them, followed by the walk of the partitions. *)
Lemma walkRelated_true fuel name seen :
  name ∉ seen ->
  walkRelated observer fs (S fuel) name true seen =
  (seen' ← walkRelated observer fs (S fuel) name false seen;
   path ← map_err Some (blockPath observer fs name);
   partitions ← map_err Some (partitionChildren fs path);
   foldM (fun seen n => walkRelated observer fs fuel n false seen) seen' partitions).
Proof.
  intros Hn. cbn [walkRelated]. rewrite bool_decide_eq_false_2 by done.
  destruct (blockPath observer fs name) as [path| |]; [|done..]. simpl.
  destruct (partitionParent observer fs name) as [parent| |]; [|done..]. simpl.
  destruct (match parent with Some _ => _ | None => _ end) as [seen1| |]; [|done..]. simpl.
  destruct (sortedEntries fs _) as [slaves| |]; [|done..]. simpl.
  by destruct (foldM _ seen1 slaves).
Qed.

Lemma walkRelated_start fuel start seen' :
  walkRelated observer fs fuel start true ∅ = Ok seen' ->
  exists seen1,
    walk_post (fun m => m = start) ∅ seen1 /\ walk_post (has_partition start) seen1 seen'.
Proof.
  destruct fuel as [|fuel]; [done|]. intros H. rewrite walkRelated_true in H by set_solver.
  inv_ok. match goal with
  | Hw : walkRelated _ _ _ _ _ _ = Ok ?s1, Hb : blockPath _ _ _ = Ok ?path,
    Hp : partitionChildren _ _ = Ok ?ps, H : foldM _ _ _ = _ |- _ =>
      exists s1; split; [by eapply walkRelated_post|];
      apply foldM_walk_post in H; [|intros ???; apply walkRelated_post];
      assert (forall m, has_partition start m <-> m ∈ ps) as Hiff
        by (intros m; split; [intros (?&?&?&?&?); by ok_unique|intros ?; by exists path, ps])
  end.
  destruct H as [G S D C R]. split; auto.
  - intros n Hn. by apply S, Hiff.
  - intros x [?|(n & Hn & ?)]%D; [auto|]. right. exists n. by rewrite Hiff.
Qed.

Lemma closed_reach (seen : gset string) n x :
  (forall x y, x ∈ seen -> depends x y -> y ∈ seen) -> n ∈ seen -> rtc depends n x -> x ∈ seen.
Proof. intros Hc Hn Hr. induction Hr; eauto. Qed.

Lemma related_spec start l :
  related observer fs start = Ok l ->
  StronglySorted String.le l /\ NoDup l /\ (forall x, x ∈ l <-> related_to start x) /\
  (forall x, x ∈ l -> resolved x).
Proof.
  unfold related. destruct (walkRelated _ _ _ _ _ _) as [seen'|[]|] eqn:E; try done.
  intros [= <-]. split; [apply StronglySorted_merge_sort; apply _|]. unfold sort_strings.
  split; [rewrite merge_sort_Permutation; apply NoDup_elements|].
  apply walkRelated_start in E as (seen1 & [_ S1 D1 C1 R1] & [G2 S2 D2 C2 R2]).
  assert (forall x y, x ∈ seen' -> depends x y -> y ∈ seen') as Hclosed.
  { intros a b Ha Hab. destruct (decide (a ∈ seen1)) as [Ha1|]; [|by eapply C2].
    apply G2. by apply (C1 a b); [|set_solver|]. }
  setoid_rewrite merge_sort_Permutation. setoid_rewrite elem_of_elements. split.
  2: { intros x Hx. destruct (decide (x ∈ seen1)) as [Hx1|]; [|by apply R2].
       apply R1; [done|set_solver]. }
  intros x. split.
  - intros [Hx|(p & Hp & Hx)]%D2; [|right; by exists p].
    apply D1 in Hx as [?|(? & -> & ?)]; [set_solver|by left].
  - intros [Hr|(p & Hp & Hr)].
    + apply (closed_reach _ start _ Hclosed); [|done]. by apply G2, S1.
    + apply (closed_reach _ p _ Hclosed); [|done]. by apply S2.
Qed.

(** ** The bound on the recursion is never reached *)
Section termination.
Context (universe : gset string).
Hypothesis all_in : all_names fs ⊆ universe.

Lemma foldM_no_fuel fuel names seen :
  (forall name seen, name ∈ universe -> size (universe ∖ seen) < fuel ->
     walkRelated observer fs fuel name false seen <> Err None)%nat ->
  (forall n, n ∈ names -> n ∈ universe) -> (size (universe ∖ seen) < fuel)%nat ->
  foldM (fun seen n => walkRelated observer fs fuel n false seen) seen names <> Err None.
Proof.
  intros Hw. revert seen. induction names as [|n names IH]; intros seen Hn Hf H; simpl in H; [done|].
  apply bind_err_inv in H as [H|(seen1 & H1 & H)].
  - revert H. apply Hw; [apply Hn; by left|done].
  - apply walkRelated_post in H1 as [G _ _ _ _]. revert H. apply IH.
    + intros m Hm. apply Hn. by right.
    + eapply Nat.le_lt_trans; [|exact Hf]. apply subseteq_size. set_solver.
Qed.

Lemma map_err_Some_no_fuel {A} (r : res A) : map_err Some r <> Err None.
Proof. by destruct r. Qed.

Lemma walkRelated_fuel fuel name seen :
  name ∈ universe -> (size (universe ∖ seen) < fuel)%nat ->
  walkRelated observer fs fuel name false seen <> Err None.
Proof.
  revert name seen. induction fuel as [|fuel IH]; intros name seen Hn Hf; [lia|].
  cbn [walkRelated]. case_bool_decide as Hin; [done|]. set (seen0 := {[name]} ∪ seen).
  assert (size (universe ∖ seen0) < size (universe ∖ seen))%nat as Hlt.
  { apply subset_size. set_solver. }
  intros [H|(path & Hpath & H)]%bind_err_inv; [by apply map_err_Some_no_fuel in H|].
  apply bind_err_inv in H as [H|(parent & Hparent & H)]; [by apply map_err_Some_no_fuel in H|].
  apply map_err_ok in Hpath. apply map_err_ok in Hparent.
  assert (forall p, parent = Some p -> p ∈ universe) as Hpu.
  { intros p ->. apply all_in, (depends_all_names name). by left. }
  apply bind_err_inv in H as [H|(seen1 & H1 & H)].
  { destruct parent as [p|]; [|done]. revert H. apply IH; [by apply Hpu|lia]. }
  assert (seen0 ⊆ seen1) as Hg.
  { destruct parent as [p|]; [by apply walkRelated_post in H1 as []|by simplify_eq]. }
  apply bind_err_inv in H as [H|(slaves & Hslaves & H)]; [by apply map_err_Some_no_fuel in H|].
  apply map_err_ok in Hslaves.
  apply bind_err_inv in H as [H|(seen2 & _ & H)]; [|done].
  revert H. apply foldM_no_fuel; [exact IH| |].
  - intros m Hm. apply all_in, (depends_all_names name). right. eauto.
  - enough (size (universe ∖ seen1) <= size (universe ∖ seen0))%nat by lia.
    apply subseteq_size. set_solver.
Qed.
End termination.

Lemma walk_fuel_enough start : walkRelated observer fs (walk_fuel fs) start true ∅ <> Err None.
Proof.
  set (universe := {[start]} ∪ all_names fs).
  assert (size universe < walk_fuel fs)%nat as Hsize.
  { unfold universe, walk_fuel. rewrite size_union_alt, size_singleton.
    assert (size (all_names fs ∖ {[start]}) <= size (all_names fs))%nat; [|lia].
    apply subseteq_size. set_solver. }
  unfold walk_fuel in *. rewrite walkRelated_true by set_solver.
  intros [H|(seen1 & H1 & H)]%bind_err_inv.
  { revert H. apply (walkRelated_fuel universe); [set_solver..|]. by rewrite difference_empty_L. }
  apply bind_err_inv in H as [H|(path & Hpath & H)]; [by apply map_err_Some_no_fuel in H|].
  apply bind_err_inv in H as [H|(ps & Hps & H)]; [by apply map_err_Some_no_fuel in H|].
  apply map_err_ok in Hpath. apply map_err_ok in Hps. apply walkRelated_post in H1 as [_ S1 _ _ _].
  revert H. apply (foldM_no_fuel universe).
  - set_solver.
  - intros n s Hn Hs. by apply (walkRelated_fuel universe); [set_solver|..].
  - intros m Hm. apply elem_of_union_r, (has_partition_all_names start). by exists path, ps.
  - specialize (S1 start eq_refl).
    assert (size (universe ∖ seen1) < size universe)%nat; [|lia].
    apply subset_size. set_solver.
Qed.

(** ** No panic *)
Lemma topLevelNames_no_panic : no_panic (topLevelNames observer fs).
Proof. unfold topLevelNames. pose proof (os_ReadDir_no_panic fs (blockRoot observer)). by destruct (os_ReadDir _ _). Qed.

Lemma blockPath_no_panic name : no_panic (blockPath observer fs name).
Proof.
  unfold blockPath. destruct (exists_path _ _); [done|].
  apply bind_no_panic; [apply topLevelNames_no_panic|]. intros parents _.
  by destruct (first_existing _ _ _).
Qed.

Lemma partitionParent_no_panic name : no_panic (partitionParent observer fs name).
Proof. apply bind_no_panic; [apply topLevelNames_no_panic|done]. Qed.

Lemma sortedEntries_no_panic path : no_panic (sortedEntries fs path).
Proof.
  unfold sortedEntries. pose proof (os_ReadDir_no_panic fs path) as H.
  destruct (os_ReadDir fs path); [done| |done]. by destruct (errors_Is _ _).
Qed.

Lemma partitionChildren_no_panic path : no_panic (partitionChildren fs path).
Proof.
  unfold partitionChildren. pose proof (os_ReadDir_no_panic fs path) as H.
  by destruct (os_ReadDir fs path).
Qed.

Lemma foldM_no_panic {E A B} (f : A -> B -> result E A) a l :
  (forall a b, no_panic (f a b)) -> no_panic (foldM f a l).
Proof.
  intros Hf. revert a. induction l as [|b l IH]; intros a; simpl; [done|].
  apply bind_no_panic; auto.
Qed.

Lemma walkRelated_no_panic fuel name incl seen :
  no_panic (walkRelated observer fs fuel name incl seen).
Proof.
  revert name incl seen. induction fuel as [|fuel IH]; intros name incl seen; [done|].
  cbn [walkRelated]. case_bool_decide; [done|].
  apply bind_no_panic; [apply map_err_no_panic, blockPath_no_panic|]. intros path _.
  apply bind_no_panic; [apply map_err_no_panic, partitionParent_no_panic|]. intros parent _.
  apply bind_no_panic; [by destruct parent|]. intros seen1 _.
  apply bind_no_panic; [apply map_err_no_panic, sortedEntries_no_panic|]. intros slaves _.
  apply bind_no_panic; [by apply foldM_no_panic|]. intros seen2 _.
  destruct (negb incl); [done|].
  apply bind_no_panic; [apply map_err_no_panic, partitionChildren_no_panic|]. intros ps _.
  by apply foldM_no_panic.
Qed.

(** ** Failures *)
Definition unreadable (x : string) (e : error) : Prop :=
  blockPath observer fs x = Err e \/ partitionParent observer fs x = Err e \/
  exists path, blockPath observer fs x = Ok path /\
    sortedEntries fs (path_Join [path; "slaves"]) = Err e.

Lemma map_err_Some_err {A} (r : res A) e : map_err Some r = Err (Some e) -> r = Err e.
Proof. destruct r; simpl; congruence. Qed.

Lemma foldM_unreadable fuel names seen e :
  (forall name seen, walkRelated observer fs fuel name false seen = Err (Some e) ->
     exists x, rtc depends name x /\ unreadable x e) ->
  foldM (fun seen n => walkRelated observer fs fuel n false seen) seen names = Err (Some e) ->
  exists n x, n ∈ names /\ rtc depends n x /\ unreadable x e.
Proof.
  intros Hw. revert seen. induction names as [|n names IH]; intros seen H; simpl in H; [done|].
  apply bind_err_inv in H as [H|(seen1 & _ & H)].
  - apply Hw in H as (x & ? & ?). exists n, x. split; [by left|done].
  - apply IH in H as (m & x & ? & ?). exists m, x. split; [by right|done].
Qed.

Lemma walkRelated_unreadable fuel name seen e :
  walkRelated observer fs fuel name false seen = Err (Some e) ->
  exists x, rtc depends name x /\ unreadable x e.
Proof.
  revert name seen. induction fuel as [|fuel IH]; intros name seen H; [done|].
  cbn [walkRelated] in H. case_bool_decide; [done|].
  apply bind_err_inv in H as [H|(path & Hpath & H)].
  { exists name. split; [done|]. left. by apply map_err_Some_err. }
  apply bind_err_inv in H as [H|(parent & Hparent & H)].
  { exists name. split; [done|]. right; left. by apply map_err_Some_err. }
  apply map_err_ok in Hpath. apply map_err_ok in Hparent.
  apply bind_err_inv in H as [H|(seen1 & _ & H)].
  { destruct parent as [p|]; [|done]. apply IH in H as (x & Hx & Hu). exists x.
    split; [|done]. eapply rtc_l; [|done]. by left. }
  apply bind_err_inv in H as [H|(slaves & Hslaves & H)].
  { exists name. split; [done|]. right; right. exists path. by apply map_err_Some_err in H. }
  apply map_err_ok in Hslaves.
  apply bind_err_inv in H as [H|(seen2 & _ & H)]; [|done].
  apply foldM_unreadable in H as (n & x & Hn & Hx & Hu); [|exact IH].
  exists x. split; [|done]. eapply rtc_l; [|done]. right. eauto.
Qed.

Lemma related_unreadable start e :
  related observer fs start = Err e ->
  (exists x, related_to start x /\ unreadable x e) \/
  (exists path, blockPath observer fs start = Ok path /\ partitionChildren fs path = Err e).
Proof.
  unfold related. destruct (walkRelated _ _ _ _ _ _) as [|[e'|]|] eqn:E; try done.
  intros [= ->]. unfold walk_fuel in E. rewrite walkRelated_true in E by set_solver.
  apply bind_err_inv in E as [E|(seen1 & _ & E)].
  { apply walkRelated_unreadable in E as (x & Hx & Hu). left. exists x. split; [by left|done]. }
  apply bind_err_inv in E as [E|(path & Hpath & E)].
  { left. exists start. split; [by left|]. left. by apply map_err_Some_err. }
  apply map_err_ok in Hpath. apply bind_err_inv in E as [E|(ps & Hps & E)].
  { right. exists path. by apply map_err_Some_err in E. }
  apply map_err_ok in Hps.
  apply foldM_unreadable in E as (n & x & Hn & Hx & Hu); [|intros ??; apply walkRelated_unreadable].
  left. exists x. split; [|done]. right. exists n. split; [|done]. by exists path, ps.
Qed.
End topology.

(** C21: [related] computes the related devices exactly: on success the result is sorted, has no
    duplicates, contains the start, what it transitively depends on (parent disks and slaves, also
    through cycles) and its partitions with their dependencies, and nothing else; and every device
    in it could be read. *)
Theorem related_is_closure observer fs start l (H : related observer fs start = Ok l) :
  StronglySorted String.le l /\ NoDup l /\
  (forall x, x ∈ l <-> related_to observer fs start x) /\
  (forall x, x ∈ l -> resolved observer fs x).
Proof. by apply related_spec. Qed.

Lemma related_is_closure_witness :
  StronglySorted String.le ["dm-0"; "dm-1"; "vda"; "vda2"] /\
  NoDup ["dm-0"; "dm-1"; "vda"; "vda2"] /\
  (forall x, x ∈ ["dm-0"; "dm-1"; "vda"; "vda2"] <->
     related_to fixture_observer fixture "dm-0" x) /\
  (forall x, x ∈ ["dm-0"; "dm-1"; "vda"; "vda2"] -> resolved fixture_observer fixture x).
Proof.
  apply (related_is_closure fixture_observer fixture "dm-0"). vm_compute. reflexivity.
Defined.

(** C26: The walk terminates on every snapshot: it returns a list of devices, or it fails because a
    related device (or the partition list of the start) could not be read; the recursion never
    exceeds the number of names in the snapshot, so there is no third outcome. *)
Theorem related_terminates observer fs start :
  match related observer fs start with
  | Ok _ => True
  | Err e =>
      (exists x, related_to observer fs start x /\ unreadable observer fs x e) \/
      (exists path, blockPath observer fs start = Ok path /\ partitionChildren fs path = Err e)
  | Panic => False
  end.
Proof.
  destruct (related observer fs start) as [l|e|] eqn:E; [done|by apply related_unreadable|].
  unfold related in E. pose proof (walk_fuel_enough observer fs start) as Hf.
  destruct (walkRelated _ _ _ _ _ _) as [|[]|] eqn:Ew; try done.
  by eapply walkRelated_no_panic.
Qed.
