(* ===== verification/Procfs.v ===== *)
(** * The format of procfs

    The lines of mountinfo as the kernel prints them, its escapes, and the round trips of the
    observer's parsers over them. *)

From S2P Require Export Topology.
Open Scope Z_scope.

(** ** Escapes

    The kernel writes a path in mountinfo and swaps with each space, tab, line feed and backslash
    as a backslash and three octal digits. *)
Definition escape_char (c : ascii) : string :=
  if Ascii.eqb c " " then "\040"
  else if Ascii.eqb c "009" then "\011"
  else if Ascii.eqb c "010" then "\012"
  else if Ascii.eqb c "\" then "\134"
  else String c EmptyString.

Fixpoint escape (s : string) : string :=
  match s with
  | EmptyString => EmptyString
  | String c s' => escape_char c +:+ escape s'
  end.

Lemma replace_go_match old new c s t :
  head (filter (fun p : string * string => HasPrefix (String c (s +:+ t)) p.1 = true)
          mount_escapes) = Some (old, new) ->
  String.length old = S (String.length s) ->
  replace_go mount_escapes 0 (String c (s +:+ t)) = new +:+ replace_go mount_escapes 0 t.
Proof.
  intros H Hl. cbn [replace_go]. rewrite H, Hl. simpl. rewrite Nat.sub_0_r. f_equal.
  clear. induction s as [|d s IH]; [done|]. rewrite str_app_cons. simpl. apply IH.
Qed.

Lemma filter_head_prefix (l : list (string * string)) p x :
  head (filter (fun q : string * string => HasPrefix x q.1 = true) (p :: l)) =
  if HasPrefix x p.1 then Some p
  else head (filter (fun q : string * string => HasPrefix x q.1 = true) l).
Proof. rewrite filter_cons. destruct (HasPrefix x p.1); by case_decide. Qed.

(** The pattern [old] starts the text, and no earlier pattern does. *)
Ltac first_escape old t :=
  unfold mount_escapes;
  repeat (rewrite filter_head_prefix; cbn [fst];
    first [ match goal with |- context [HasPrefix ?x old] =>
              replace (HasPrefix x old) with true by (symmetry; exact (str_prefix_app old t))
            end; reflexivity
          | match goal with |- context [if HasPrefix ?x ?p then _ else _] =>
              change (HasPrefix x p) with false; cbn iota
            end ]).

Lemma replace_go_escape c t :
  replace_go mount_escapes 0 (escape_char c +:+ t) = String c (replace_go mount_escapes 0 t).
Proof.
  unfold escape_char.
  destruct (Ascii.eqb_spec c " ") as [->|H1]; [|destruct (Ascii.eqb_spec c "009") as [->|H2];
    [|destruct (Ascii.eqb_spec c "010") as [->|H3];
      [|destruct (Ascii.eqb_spec c "\") as [->|H4]]]].
  - apply (replace_go_match "\040" " " "\" "040" t); [first_escape "\040" t|done].
  - apply (replace_go_match "\011" (String "009" EmptyString) "\" "011" t);
      [first_escape "\011" t|done].
  - apply (replace_go_match "\012" (String "010" EmptyString) "\" "012" t);
      [first_escape "\012" t|done].
  - apply (replace_go_match "\134" "\" "\" "134" t); [first_escape "\134" t|done].
  - rewrite str_app_cons, str_app_nil_l. cbn [replace_go].
    assert (forall p, HasPrefix (String c t) (String "\" p) = false) as Hno.
    { intros p. apply str_prefix_ne. congruence. }
    unfold mount_escapes. rewrite !filter_head_prefix. cbn [fst]. by rewrite !Hno.
Qed.

Lemma unescape_escape s : unescapeMount (escape s) = s.
Proof.
  unfold unescapeMount. induction s as [|c s IH]; [done|]. simpl escape.
  by rewrite replace_go_escape, IH.
Qed.

(** ** The lines of mountinfo, as the kernel prints them *)
Record mount_entry := {
  me_id : string;
  me_parent : string;
  me_device : string;
  me_root : string;
  me_mountpoint : string;
  me_options : list string;
  me_optional : list string;
  me_filesystem : string;
  me_source : string;
  me_super : list string }.

Definition mount_fields (m : mount_entry) : list string :=
  [m.(me_id); m.(me_parent); m.(me_device); escape m.(me_root); escape m.(me_mountpoint);
   JoinStr m.(me_options) ","] ++ m.(me_optional)
  ++ ["-"; m.(me_filesystem); escape m.(me_source); JoinStr m.(me_super) ","].
Definition mount_line (m : mount_entry) : string := JoinStr (mount_fields m) " ".

(** The texts are fields, and none before the separator is the separator. *)
Definition mount_entry_ok (m : mount_entry) : Prop :=
  Forall field_text (mount_fields m) /\
  Forall (fun f => f <> "-") ([m.(me_id); m.(me_parent); m.(me_device); escape m.(me_root);
    escape m.(me_mountpoint); JoinStr m.(me_options) ","] ++ m.(me_optional)) /\
  Forall (fun o => lacks "," o = true) m.(me_options) /\ m.(me_options) <> [] /\
  Forall (fun o => lacks "," o = true) m.(me_super) /\ m.(me_super) <> [].

#[export] Instance field_text_dec s : Decision (field_text s).
Proof. unfold field_text. apply _. Defined.
#[export] Instance mount_entry_ok_dec m : Decision (mount_entry_ok m).
Proof. unfold mount_entry_ok. apply _. Defined.

Definition mount_record (m : mount_entry) : mountRecord := {|
  mr_device := m.(me_device);
  mr_mountpoint := m.(me_mountpoint);
  mr_filesystem := m.(me_filesystem);
  mr_readOnly := bool_decide ("ro" ∈ m.(me_options) \/ "ro" ∈ m.(me_super)) |}.

Lemma slices_Index_app l x l' :
  Forall (fun f => f <> x) l -> slices_Index (l ++ x :: l') x = Some (length l).
Proof.
  intros H. unfold slices_Index.
  rewrite (proj2 (list_find_Some _ _ (length l) x)); [done|].
  split_and!; [by rewrite list_lookup_middle|done|].
  intros j y Hj Hlt Heq. rewrite lookup_app_l in Hj by done.
  by apply (Forall_lookup_1 _ _ _ _ H Hj).
Qed.

Lemma containsOption_join os o :
  Forall (fun x => lacks "," x = true) os -> os <> [] ->
  containsOption (JoinStr os ",") o = bool_decide (o ∈ os).
Proof. intros H1 H2. unfold containsOption. by rewrite Split_Join. Qed.

Lemma parse_mount_line m : mount_entry_ok m -> parseMountRecord (mount_line m) = Ok (mount_record m).
Proof.
  intros (Hf & Hs & Ho & Hone & Hp & Hpne). unfold parseMountRecord, mount_line.
  rewrite Fields_JoinStr by done. cbv zeta. unfold mount_fields.
  rewrite (app_assoc _ m.(me_optional)), slices_Index_app by done.
  set (l := [_; _; _; _; _; _] ++ me_optional m) in *.
  assert (6 <= length l)%nat as Hlen by (unfold l; rewrite length_app; simpl; lia).
  assert (forall i x, [me_id m; me_parent m; me_device m; escape (me_root m);
      escape (me_mountpoint m); JoinStr (me_options m) ","] !! i = Some x ->
      nth_field (l ++ ["-"; me_filesystem m; escape (me_source m); JoinStr (me_super m) ","]) i
      = Ok x) as Hleft.
  { intros i x Hi. unfold nth_field, l. rewrite <- app_assoc. by rewrite (lookup_app_l_Some _ _ i x). }
  assert (forall i x, ["-"; me_filesystem m; escape (me_source m); JoinStr (me_super m) ","] !! i
      = Some x -> nth_field (l ++ ["-"; me_filesystem m; escape (me_source m);
                                   JoinStr (me_super m) ","]) (length l + i) = Ok x) as Hright.
  { intros i x Hi. unfold nth_field. rewrite lookup_app_r by lia.
    by replace (length l + i - length l)%nat with i by lia; rewrite Hi. }
  rewrite length_app. cbn [length]. unfold mountFieldCount.
  rewrite (proj2 (Nat.ltb_ge _ _)), (proj2 (Nat.leb_gt _ _)) by lia. cbn [orb].
  rewrite (Hleft 2%nat _ eq_refl), (Hleft 4%nat _ eq_refl), (Hleft 5%nat _ eq_refl).
  rewrite (Hright 1%nat _ eq_refl), (Hright 3%nat _ eq_refl). cbn [mbind result_bind].
  rewrite unescape_escape, !containsOption_join by done.
  rewrite <- bool_decide_or. done.
Qed.

(** ** The whole file *)
Lemma drop_cr_lacks s : lacks "013" s = true -> drop_cr s = s.
Proof.
  induction s as [|c s IH]; [done|]. intros H. cbn in H. apply andb_true_iff in H as [H1 H2].
  destruct (Ascii.eqb_spec c "013") as [|Hne]; [done|].
  assert (drop_cr (String c s) = String c (drop_cr s)) as ->.
  { destruct c as [[] [] [] [] [] [] [] []], s; try done; by destruct Hne. }
  by rewrite IH.
Qed.

(** The lines of a text file that the scanner reads back. *)
Definition scannable (line : string) : Prop :=
  lacks "010" line = true /\ lacks "013" line = true /\ line_too_long line = false /\
  line <> EmptyString.
#[export] Instance scannable_dec l : Decision (scannable l).
Proof. unfold scannable. apply _. Defined.

Definition text_lines (l : list string) : string :=
  foldr (fun line rest => line +:+ nl +:+ rest) EmptyString l.

Lemma scan_text_lines l e :
  Forall scannable l -> scan (text_lines l, e) = {| sc_lines := l; sc_err := e |}.
Proof.
  intros H. unfold scan. cbn [fst snd]. induction H as [|x l (Hn & Hr & Hl & Hne) _ IH]; [done|].
  cbn [text_lines foldr]. change (nl +:+ ?t) with (String "010" t). rewrite Split_app by done.
  cbn [scan_go]. fold (text_lines l) in *. rewrite IH, Hl, drop_cr_lacks by done.
  by destruct x.
Qed.

Lemma field_text_lacks c f : ascii_space c = true -> field_text f -> lacks c f = true.
Proof. intros Hc [_ Hf]. by apply no_space_lacks. Qed.

Lemma mount_line_scannable m :
  mount_entry_ok m -> line_too_long (mount_line m) = false -> scannable (mount_line m).
Proof.
  intros (Hf & _) Hl. unfold scannable, mount_line.
  assert (forall c, ascii_space c = true -> lacks c " " = true ->
    lacks c (JoinStr (mount_fields m) " ") = true) as Hno.
  { intros c Hc Hs. apply lacks_JoinStr; [done|]. eapply Forall_impl; [exact Hf|].
    intros f. by apply field_text_lacks. }
  rewrite !Hno by done. split_and!; [done..|].
  intros He. apply (f_equal Fields) in He. rewrite Fields_JoinStr in He by done.
  apply (f_equal length) in He. unfold mount_fields in He. rewrite length_app in He. done.
Qed.

Lemma foldM_records {A} (parse : string -> res A) ls xs acc :
  Forall2 (fun line x => parse line = Ok x) ls xs ->
  foldM (fun acc line => record ← parse line; mret (acc ++ [record])) acc ls = Ok (acc ++ xs).
Proof.
  intros H. revert acc. induction H as [|l x ls xs Hx _ IH]; intros acc; cbn [foldM];
    [by rewrite app_nil_r|].
  rewrite Hx. transitivity (foldM (fun acc line => record ← parse line; mret (acc ++ [record]))
    (acc ++ [x]) ls); [done|]. by rewrite IH, <- app_assoc.
Qed.

(** The mountinfo file of a snapshot holds these entries. *)
Definition mountinfo_path (observer : Observer) : string :=
  path_Join [observer.(obs_ProcRoot); "self"; "mountinfo"].

Lemma mounts_entries observer fs node es :
  fs !! mountinfo_path observer = Some node ->
  node.(nd_data) = inr (text_lines (map mount_line es), None) ->
  Forall (fun m => mount_entry_ok m /\ line_too_long (mount_line m) = false) es ->
  mounts observer fs = Ok (map mount_record es).
Proof.
  intros Hn Hd H. unfold mounts, os_Open. fold (mountinfo_path observer).
  rewrite Hn, Hd. cbn [returned map_err mbind result_bind]. rewrite scan_text_lines.
  2: { apply Forall_map. eapply Forall_impl; [exact H|]. intros m [? ?].
       by apply mount_line_scannable. }
  unfold scan_records. cbn [sc_lines sc_err].
  rewrite (foldM_records _ _ (map mount_record es)); [done|].
  apply Forall2_fmap, Forall_Forall2_diag. eapply Forall_impl; [exact H|].
  intros m [? _]. by apply parse_mount_line.
Qed.

(** What holds of the lines the kernel prints: numbers, types and options without white space, paths
    that are any non-empty text, no field before the separator that looks like it. *)
Record kernel_entry (m : mount_entry) : Prop := {
  ke_words : Forall field_text ([m.(me_id); m.(me_parent); m.(me_device); JoinStr m.(me_options) ","]
    ++ m.(me_optional) ++ [m.(me_filesystem); JoinStr m.(me_super) ","]);
  ke_paths : Forall (fun p => p <> EmptyString) [m.(me_root); m.(me_mountpoint); m.(me_source)];
  ke_dash : Forall (fun f => f <> "-") ([m.(me_id); m.(me_parent); m.(me_device); m.(me_root);
    m.(me_mountpoint); JoinStr m.(me_options) ","] ++ m.(me_optional));
  ke_options : Forall (fun o => lacks "," o = true) m.(me_options) /\ m.(me_options) <> [];
  ke_super : Forall (fun o => lacks "," o = true) m.(me_super) /\ m.(me_super) <> [] }.

(** The white space of a path is of the characters that the kernel escapes: none is left. *)
Definition only_escaped_space (path : string) : Prop := no_space (escape path) = true.
Definition only_escaped_spaces (m : mount_entry) : Prop :=
  Forall only_escaped_space [m.(me_root); m.(me_mountpoint); m.(me_source)].

Lemma escape_inj s s' : escape s = escape s' -> s = s'.
Proof. intros H. by rewrite <- (unescape_escape s), H, unescape_escape. Qed.

Lemma kernel_entry_ok m : kernel_entry m -> only_escaped_spaces m -> mount_entry_ok m.
Proof.
  intros [Hw Hp Hd [Ho Hone] [Hs Hsne]] Hsp. unfold only_escaped_spaces, only_escaped_space in Hsp.
  repeat setoid_rewrite Forall_app in Hw. repeat setoid_rewrite Forall_app in Hd.
  rewrite !Forall_cons in *. destruct_and!.
  assert (forall p, p <> EmptyString -> no_space (escape p) = true -> field_text (escape p)) as Hfield.
  { intros p Hne Hno. split; [|done]. intros He. by apply Hne, escape_inj. }
  assert (forall p, p <> "-" -> escape p <> "-") as Hdash.
  { intros p Hne He. by apply Hne, escape_inj. }
  unfold mount_entry_ok, mount_fields. rewrite !Forall_app, !Forall_cons.
  split_and!; auto; try done; by split.
Qed.

(** A writable mount at a path with a form feed, which the kernel does not escape. *)
Definition formfeed_mount : mount_entry := {|
  me_id := "31"; me_parent := "29"; me_device := "252:2"; me_root := "/";
  me_mountpoint := "/mnt/a" +:+ String "012" "ro"; me_options := ["rw"; "relatime"];
  me_optional := []; me_filesystem := "xfs"; me_source := "/dev/vda2"; me_super := ["rw"] |}.

Lemma formfeed_mount_ok : kernel_entry formfeed_mount.
Proof. split; apply (bool_decide_unpack _); vm_compute; exact I. Qed.

(** C33: Reading mountinfo inverts the kernel's printer as far as it can: a file with one line per
    mount (any number of optional fields, paths escaped as the kernel escapes them, lines that fit
    the scanner's buffer) is read back as exactly those mounts, in order, with the paths unescaped,
    and a mount is read-only when [ro] is among its own options or its superblock's; provided that
    the only white space in the paths is of the characters that the kernel escapes (space, tab and
    line feed, and the backslash).  The proviso is needed: a line of the kernel for a
    writable mount at a path with a form feed, which is white space for [strings.Fields] and is
    not escaped, is read as a read-only mount at another path. *)
Theorem mountinfo_roundtrip observer :
  (forall fs node es,
     fs !! mountinfo_path observer = Some node ->
     node.(nd_data) = inr (text_lines (map mount_line es), None) ->
     Forall (fun m => kernel_entry m /\ line_too_long (mount_line m) = false) es ->
     Forall only_escaped_spaces es ->
     mounts observer fs = Ok (map mount_record es)) /\
  (exists m r, kernel_entry m /\ ~ only_escaped_spaces m /\ parseMountRecord (mount_line m) = Ok r /\
     r.(mr_mountpoint) <> m.(me_mountpoint) /\
     r.(mr_readOnly) = true /\ (mount_record m).(mr_readOnly) = false).
Proof.
  split.
  - intros fs node es Hnode Hdata Hes Hsp. apply mounts_entries with node; [done..|].
    rewrite Forall_forall in *. intros m Hm. destruct (Hes m Hm). split; [|done].
    by apply kernel_entry_ok, Hsp.
  - exists formfeed_mount, {| mr_device := "252:2"; mr_mountpoint := "/mnt/a"; mr_filesystem := "xfs";
      mr_readOnly := true |}.
    split; [exact formfeed_mount_ok|]. split.
    { unfold only_escaped_spaces, only_escaped_space. rewrite !Forall_cons. by intros (_ & ? & _). }
    split_and!; done.
Qed.

Definition example_mount : mount_entry := {|
  me_id := "31"; me_parent := "29"; me_device := "252:2"; me_root := "/";
  me_mountpoint := "/mnt/a b\c"; me_options := ["rw"; "nosuid"];
  me_optional := ["shared:1"; "master:2"]; me_filesystem := "xfs"; me_source := "/dev/vda 2";
  me_super := ["ro"; "attr2"] |}.

Lemma example_mount_ok : kernel_entry example_mount.
Proof. split; apply (bool_decide_unpack _); vm_compute; exact I. Qed.

Lemma mountinfo_roundtrip_witness :
  mounts fixture_observer
    (<["/proc/self/mountinfo" := file_node (text_lines (map mount_line [example_mount]))]> ∅) =
  Ok [{| mr_device := "252:2"; mr_mountpoint := "/mnt/a b\c"; mr_filesystem := "xfs";
         mr_readOnly := true |}].
Proof.
  apply (proj1 (mountinfo_roundtrip fixture_observer) _
           (file_node (text_lines (map mount_line [example_mount]))) [example_mount]).
  - vm_compute. reflexivity.
  - reflexivity.
  - constructor; [split; [exact example_mount_ok|vm_compute; reflexivity]|constructor].
  - constructor; [|constructor]. repeat constructor.
Defined.

(** C34: The escapes of mountinfo and swaps are undone exactly, for every text: a backslash that is
    part of the path cannot be taken for the start of an escape. *)
Theorem unescapeMount_roundtrip s : unescapeMount (escape s) = s.
Proof. apply unescape_escape. Qed.
