(* ===== verification/Decisions.v ===== *)
(** * What the observer reports

    The meaning of the observer's answers: the mount that holds a path, the root disk, the target's
    identity and the memory estimate in terms of the snapshot; the devices in use and the read-only
    test against an account of where file systems lie ([accounted]), which a snapshot gives for a
    file system on one block device and not for btrfs. *)

From S2P Require Export Procfs.
Open Scope Z_scope.

(** ** No panic *)
Lemma nth_field_no_panic l i : (i < length l)%nat -> no_panic (nth_field l i).
Proof. intros H. unfold nth_field. by destruct (lookup_lt_is_Some_2 l i H) as [x ->]. Qed.

Lemma slices_Index_lt l x i : slices_Index l x = Some i -> (i < length l)%nat.
Proof.
  unfold slices_Index. intros ([j y] & Hf & Hj)%fmap_Some. simpl in Hj. subst.
  apply list_find_Some in Hf as (Hl & _). by apply lookup_lt_Some in Hl.
Qed.

Lemma parseMountRecord_no_panic line : no_panic (parseMountRecord line).
Proof.
  unfold parseMountRecord. cbv zeta. destruct (slices_Index _ _) as [s|] eqn:Es; [|done].
  destruct (_ || _) eqn:E; [done|]. bool_hyps. unfold mountFieldCount in *.
  rewrite Nat.ltb_ge in *. rewrite Nat.leb_gt in *.
  repeat (apply bind_no_panic; [apply nth_field_no_panic; lia|]; intros ? _). done.
Qed.

Lemma parseSwapLine_no_panic line : no_panic (parseSwapLine line).
Proof.
  unfold parseSwapLine. apply bind_no_panic; [by auto with go|]. intros u H. inv_ok.
  unfold swapFieldCount in *. rewrite Nat.ltb_ge in *.
  repeat (apply bind_no_panic; [apply nth_field_no_panic; lia|]; intros ? _). done.
Qed.

Lemma scan_records_no_panic {A} (parse : string -> res A) what s :
  (forall line, no_panic (parse line)) -> no_panic (scan_records parse what s).
Proof.
  intros H. unfold scan_records. apply bind_no_panic.
  - apply foldM_no_panic. intros acc line. by apply bind_no_panic.
  - intros rs _. by destruct (sc_err s).
Qed.

Section methods.
Context (observer : Observer) (fs : FS).

Lemma readTrimmed_no_panic path : no_panic (readTrimmed fs path).
Proof. apply bind_no_panic; [apply map_err_no_panic|]; auto with go. done. Qed.

Lemma related_no_panic start : no_panic (related observer fs start).
Proof.
  intros E. unfold related in E. pose proof (walk_fuel_enough observer fs start) as Hf.
  pose proof (walkRelated_no_panic observer fs (walk_fuel fs) start true ∅) as Hp.
  by destruct (walkRelated _ _ _ _ _ _) as [|[]|].
Qed.

Lemma mounts_no_panic : no_panic (mounts observer fs).
Proof.
  apply bind_no_panic; [apply map_err_no_panic; auto with go|]. intros data _.
  apply scan_records_no_panic, parseMountRecord_no_panic.
Qed.

Lemma nameByDeviceNumber_no_panic device : no_panic (nameByDeviceNumber observer fs device).
Proof.
  apply bind_no_panic; [apply topLevelNames_no_panic|]. intros parents _.
  induction parents as [|p ps IH]; [done|]. cbn [name_in_parents].
  apply bind_no_panic; [apply map_err_no_panic; auto with go|]. intros children _.
  by destruct (filter _ _).
Qed.

Lemma expand_no_panic m name : no_panic (expand observer fs m name).
Proof. by apply bind_no_panic; [apply related_no_panic|]. Qed.

#[local] Hint Resolve readTrimmed_no_panic related_no_panic mounts_no_panic expand_no_panic
  nameByDeviceNumber_no_panic blockPath_no_panic sortedEntries_no_panic map_err_no_panic
  foldM_no_panic : go.

Lemma Target_no_panic path : no_panic (Target observer fs path).
Proof.
  unfold Target. cbv zeta. apply bind_no_panic; [auto with go|]. intros _ _.
  apply bind_no_panic; [auto with go|]. intros sysPath _.
  apply bind_no_panic; [auto with go|]. intros text _.
  destruct (ParseInt64 text); [|done]. destruct (_ || _); [done|].
  apply bind_no_panic; [auto with go|]. done.
Qed.

Lemma Source_no_panic path : no_panic (Source observer fs path).
Proof.
  unfold Source. cbv zeta. apply bind_no_panic; [auto with go|]. intros _ _.
  apply bind_no_panic; [auto with go|]. intros records _.
  destruct (foldl _ _ _); [|done].
  apply bind_no_panic; [auto with go|]. intros [name|] _; [|done].
  apply bind_no_panic; [auto with go|]. done.
Qed.

Lemma swap_step_no_panic m r : no_panic (swap_step observer fs m r).
Proof.
  unfold swap_step. case_bool_decide; [auto with go|]. case_bool_decide; [|done].
  apply bind_no_panic; [apply map_err_no_panic, Source_no_panic|].
  by intros [f [|b bs]] _.
Qed.

Lemma SwapDevices_no_panic : no_panic (SwapDevices observer fs).
Proof.
  apply bind_no_panic; [|intros rs _; apply foldM_no_panic, swap_step_no_panic].
  apply bind_no_panic; [auto with go|]. intros data _.
  apply scan_records_no_panic, parseSwapLine_no_panic.
Qed.

Lemma MountedDevices_no_panic : no_panic (MountedDevices observer fs).
Proof.
  apply bind_no_panic; [auto with go|]. intros rs _. apply foldM_no_panic. intros m r.
  apply bind_no_panic; [auto with go|]. intros [name|] _; auto with go; done.
Qed.

Lemma BlockMountsReadOnly_no_panic : no_panic (BlockMountsReadOnly observer fs).
Proof.
  apply bind_no_panic; [auto with go|]. intros rs _. generalize false.
  induction rs as [|r rs IH]; intros found; [done|]. cbn [readonly_loop].
  apply bind_no_panic; [auto with go|]. intros [name|] _; [|done].
  by destruct (negb _).
Qed.

Lemma RootDisk_no_panic : no_panic (RootDisk observer fs).
Proof.
  apply bind_no_panic; [auto with go|]. intros rs _. destruct (filter _ rs) as [|r ?]; [done|].
  apply bind_no_panic; [auto with go|]. intros [name|] _; [|done].
  apply bind_no_panic; [auto with go|]. intros names _.
  apply bind_no_panic; [|by intros [|? []] _].
  apply foldM_no_panic. intros acc c. unfold physical_step.
  apply bind_no_panic; [auto with go|]. intros path _.
  apply bind_no_panic; [auto with go|]. intros slaves _. by destruct (_ && _ && _).
Qed.

Lemma mem_available_no_panic fields : no_panic (mem_available fields).
Proof.
  unfold mem_available. destruct (negb _) eqn:E; [done|]. bool_hyps. rewrite Nat.eqb_eq in *.
  apply bind_no_panic; [apply nth_field_no_panic; lia|]. intros name _. destruct (negb _); [done|].
  apply bind_no_panic; [apply nth_field_no_panic; lia|]. done.
Qed.

Lemma mem_available_length fields : mem_available fields = Ok true -> length fields = 3%nat.
Proof. unfold mem_available. destruct (Nat.eqb_spec (length fields) 3); [done|]. intros [=]. Qed.

Lemma MemoryAvailableBytes_no_panic : no_panic (MemoryAvailableBytes observer fs).
Proof.
  apply bind_no_panic; [auto with go|]. intros data _. cbv zeta.
  induction (sc_lines (scan data)) as [|l ls IH]; cbn [meminfo_loop]; [by destruct (sc_err _)|].
  cbv zeta. apply bind_no_panic; [apply mem_available_no_panic|]. intros [] Ha; [|done].
  apply mem_available_length in Ha. apply bind_no_panic; [apply nth_field_no_panic; lia|].
  intros amount _. destruct (ParseInt64 amount); [|done]. by destruct (_ <? _).
Qed.

Lemma SysRqTriggerAvailable_no_panic : no_panic (SysRqTriggerAvailable observer fs).
Proof. apply bind_no_panic; [auto with go|]. intros ? _. apply bind_no_panic; auto with go. done. Qed.
End methods.

#[export] Hint Resolve Target_no_panic Source_no_panic SwapDevices_no_panic
  MountedDevices_no_panic BlockMountsReadOnly_no_panic RootDisk_no_panic
  MemoryAvailableBytes_no_panic SysRqTriggerAvailable_no_panic : go.

(** C25: No method of the observer panics, on any snapshot of procfs and sysfs, hostile file contents
    included: every index the parsers use is in range. *)
Theorem observer_never_panics observer fs path :
  Target observer fs path <> Panic /\ Source observer fs path <> Panic /\
  MountedDevices observer fs <> Panic /\ SwapDevices observer fs <> Panic /\
  BlockMountsReadOnly observer fs <> Panic /\ RootDisk observer fs <> Panic /\
  MemoryAvailableBytes observer fs <> Panic /\ SysRqTriggerAvailable observer fs <> Panic.
Proof.
  split_and!; match goal with |- ?r <> Panic => change (no_panic r) end; auto with go.
Qed.

(** ** The devices in use *)
Definition all_true (m : gmap string bool) : Prop := forall d b, m !! d = Some b -> b = true.

(** The device mounted by a record, when the kernel lists it as a block device. *)
Definition backed_by observer fs (r : mountRecord) (n : string) : Prop :=
  nameByDeviceNumber observer fs r.(mr_device) = Ok (Some n).

Definition mounted observer fs (d : string) : Prop :=
  exists records r n, mounts observer fs = Ok records /\ r ∈ records /\
    backed_by observer fs r n /\ related_to observer fs n d.

(** The device directories of sysfs: the entries of [class/block], and the entries inside these. *)
Definition paths_below observer fs (parent : string) : list string :=
  let path := path_Join [blockRoot observer; parent] in
  path :: match os_ReadDir fs path with
          | Ok children => map (fun child => path_Join [path; child]) children
          | _ => []
          end.
Definition device_paths observer fs : list string :=
  match topLevelNames observer fs with
  | Ok parents => parents ≫= paths_below observer fs
  | _ => []
  end.

(** The device [n] has the number, [major:minor], according to its [dev] attribute. *)
Definition has_number observer fs (n number : string) : Prop :=
  exists path, path ∈ device_paths observer fs /\ Base path = n /\
    readTrimmed fs (path_Join [path; "dev"]) = Ok number.

(** A relation that gives the block devices on which the file system of a mount keeps its data is
    accounted for in a snapshot when mountinfo and sysfs let one find them: the device number of
    the mount is a device's, and the file system lies on devices related to it.  The kernel does
    so for file systems on one block device (ext4, xfs, vfat); btrfs has numbers of its own, which
    no device has. *)
Definition accounted observer fs (lies_on : mountRecord -> string -> Prop) : Prop :=
  forall records r d, mounts observer fs = Ok records -> r ∈ records -> lies_on r d ->
    (exists n, has_number observer fs n r.(mr_device)) /\
    (forall n, has_number observer fs n r.(mr_device) -> related_to observer fs n d).

Section numbers.
Context (observer : Observer) (fs : FS).

Lemma device_at_true number path :
  device_at fs number path = true <-> readTrimmed fs (path_Join [path; "dev"]) = Ok number.
Proof.
  unfold device_at. destruct (readTrimmed _ _) as [v|e|]; [|done..]. rewrite bool_decide_eq_true.
  split; [by intros ->|by intros [= ->]].
Qed.

(** The search through the parents finds a device with the number, if there is one. *)
Lemma name_in_parents_spec number parents found :
  name_in_parents observer fs number parents = Ok found ->
  match found with
  | Some n => exists path, path ∈ parents ≫= paths_below observer fs /\ Base path = n /\
      device_at fs number path = true
  | None => forall path, path ∈ parents ≫= paths_below observer fs -> device_at fs number path = false
  end.
Proof.
  induction parents as [|parent parents IH]; intros H; cbn [name_in_parents] in H.
  { injection H as <-. by intros path ?%not_elem_of_nil. }
  inv_ok. rename select (os_ReadDir _ _ = Ok _) into Hr.
  rewrite bind_cons. unfold paths_below at 1 3. rewrite Hr.
  set (here := _ :: map _ _) in *.
  destruct (filter _ _) as [|path rest] eqn:Ef.
  - apply IH in H. destruct found as [n|].
    + destruct H as (path & Hp & ?). exists path. split; [|done]. apply elem_of_app. by right.
    + intros path [Hp|Hp]%elem_of_app; [|by apply H]. apply not_true_iff_false. intros Hat.
      exact (filter_nil_not_elem_of _ here path Ef Hat Hp).
  - injection H as <-. assert (path ∈ path :: rest) as Hin by by left. rewrite <- Ef in Hin.
    apply list_elem_of_filter in Hin as [Hat Hin]. exists path. split; [|done]. apply elem_of_app. by left.
Qed.

Lemma nameByDeviceNumber_spec number found :
  nameByDeviceNumber observer fs number = Ok found ->
  match found with
  | Some n => has_number observer fs n number
  | None => forall n, ~ has_number observer fs n number
  end.
Proof.
  unfold nameByDeviceNumber, has_number, device_paths. intros H. inv_ok. rewrite Hv.
  apply name_in_parents_spec in H. destruct found as [n|].
  - destruct H as (path & Hp & Hb & Hat). exists path. by rewrite <- device_at_true.
  - intros n (path & Hp & _ & Hat). apply device_at_true in Hat. by rewrite H in Hat.
Qed.

(** The devices with a number, as a list. *)
Definition devices_numbered (number : string) : list string :=
  map Base (filter (fun path => device_at fs number path = true) (device_paths observer fs)).

Lemma elem_of_devices_numbered n number :
  n ∈ devices_numbered number <-> has_number observer fs n number.
Proof.
  unfold devices_numbered, has_number. rewrite list_elem_of_fmap.
  setoid_rewrite list_elem_of_filter. setoid_rewrite device_at_true. naive_solver.
Qed.

(** A lookup that ended tells whether some device has the number. *)
Lemma numbered_iff number found :
  nameByDeviceNumber observer fs number = Ok found ->
  (exists n, has_number observer fs n number) <-> exists n, found = Some n.
Proof.
  intros H%nameByDeviceNumber_spec. destruct found as [n|]; [by split; eauto|].
  split; [intros [n Hn]; by apply H in Hn|by intros [n ?]].
Qed.

Lemma backed_by_number r n :
  backed_by observer fs r n -> has_number observer fs n r.(mr_device).
Proof. by intros H%nameByDeviceNumber_spec. Qed.

(** A device under a mount that is accounted for is found through the number of the mount. *)
Lemma accounted_found lies_on records r d found :
  accounted observer fs lies_on -> mounts observer fs = Ok records -> r ∈ records -> lies_on r d ->
  nameByDeviceNumber observer fs r.(mr_device) = Ok found ->
  exists n, backed_by observer fs r n /\ related_to observer fs n d.
Proof.
  intros Ha Hm Hr Hd Hf. destruct (Ha records r d Hm Hr Hd) as [Hn Hrel].
  apply (numbered_iff _ _ Hf) in Hn as [n ->]. exists n. split; [done|].
  by apply Hrel, backed_by_number.
Qed.
End numbers.

(** A loop that ended has ended every step. *)
Lemma foldM_steps {B} (f : gmap string bool -> B -> res (gmap string bool)) l m m' b :
  foldM f m l = Ok m' -> b ∈ l -> exists m1 m2, f m1 b = Ok m2.
Proof.
  revert m. induction l as [|x l IH]; intros m H Hb; [by apply not_elem_of_nil in Hb|].
  cbn [foldM] in H. apply bind_ok_inv in H as (m1 & Hx & H).
  apply elem_of_cons in Hb as [->|Hb]; [by exists m, m1|by eapply IH].
Qed.

(** A loop that adds to a set of devices, element by element. *)
Lemma foldM_devices {B} (f : gmap string bool -> B -> res (gmap string bool))
    (P : B -> string -> Prop) l m m' :
  (forall m b m', b ∈ l -> f m b = Ok m' -> all_true m ->
     all_true m' /\ forall d, d ∈ dom m' <-> d ∈ dom m \/ P b d) ->
  foldM f m l = Ok m' -> all_true m ->
  all_true m' /\ forall d, d ∈ dom m' <-> d ∈ dom m \/ exists b, b ∈ l /\ P b d.
Proof.
  revert m. induction l as [|b l IH]; intros m Hf H Ht; cbn [foldM] in H; inv_ok.
  - split; [done|]. set_solver.
  - destruct (Hf m b v) as [Ht1 Hd1]; [set_solver|done..|].
    destruct (IH v) as [Ht2 Hd2]; [|done..|].
    { intros m1 b1 m2 Hb1. apply Hf. by right. }
    split; [done|]. intros d. rewrite Hd2, Hd1. set_solver.
Qed.

Lemma foldl_insert_devices l (m : gmap string bool) :
  all_true m ->
  all_true (foldl (fun m d => <[d := true]> m) m l) /\
  forall d, d ∈ dom (foldl (fun m d => <[d := true]> m) m l) <-> d ∈ dom m \/ d ∈ l.
Proof.
  revert m. induction l as [|x l IH]; intros m Ht; cbn [foldl]; [split; set_solver|].
  destruct (IH (<[x := true]> m)) as [H1 H2].
  { intros d b [[_ <-]|[_ ?]]%lookup_insert_Some; eauto. }
  split; [done|]. intros d. rewrite H2, dom_insert. set_solver.
Qed.

Section devices.
Context (observer : Observer) (fs : FS).

Lemma expand_ok m n m' :
  expand observer fs m n = Ok m' -> all_true m ->
  all_true m' /\ forall d, d ∈ dom m' <-> d ∈ dom m \/ related_to observer fs n d.
Proof.
  intros H Ht. unfold expand in H. inv_ok. apply related_spec in Hv as (_ & _ & Hv & _).
  setoid_rewrite <- Hv. by apply foldl_insert_devices.
Qed.

Lemma MountedDevices_ok m :
  MountedDevices observer fs = Ok m ->
  all_true m /\ forall d, d ∈ dom m <-> mounted observer fs d.
Proof.
  unfold MountedDevices. intros H. inv_ok.
  apply (foldM_devices _
    (fun r d => exists n, backed_by observer fs r n /\ related_to observer fs n d)) in H as [H1 H2].
  - split; [done|]. intros d. rewrite H2, dom_empty. unfold mounted. split.
    + intros [?|(r & Hr & n & Hn & Hd)]; [set_solver|]. by exists v, r, n.
    + intros (rs & r & n & Hrs & Hr & Hn & Hd). right. ok_unique. exists r. eauto.
  - intros m1 r m2 _ Hm Ht. inv_ok. unfold backed_by. destruct v0 as [n|].
    + destruct (expand_ok m1 n m2 Hm Ht) as [? Hd]. split; [done|]. intros d. rewrite Hd.
      split; [intros [?|?]; [by left|right; eauto]|].
      intros [?|(n' & Hn' & ?)]; [by left|]. right. congruence.
    + inv_ok. split; [done|]. intros d. split; [by left|].
      intros [?|(n' & Hn' & ?)]; [done|]. congruence.
  - done.
Qed.

Lemma elem_of_dom_true (m : gmap string bool) d : all_true m -> d ∈ dom m <-> m !! d = Some true.
Proof.
  intros Ht. rewrite elem_of_dom. split; [|by eexists]. intros [b Hb]. by rewrite <- (Ht d b Hb).
Qed.

(** ** The mount of a path *)
Definition select_ok (cleaned : string) (pre : list mountRecord) (r : mountRecord)
    (post : list mountRecord) : Prop :=
  pathWithin cleaned r.(mr_mountpoint) = true /\
  Forall (fun s => pathWithin cleaned s.(mr_mountpoint) = true ->
    String.length s.(mr_mountpoint) < String.length r.(mr_mountpoint))%nat pre /\
  Forall (fun s => pathWithin cleaned s.(mr_mountpoint) = true ->
    String.length s.(mr_mountpoint) <= String.length r.(mr_mountpoint))%nat post.

Lemma select_mount_ok cleaned records :
  match foldl (select_mount cleaned) None records with
  | Some r => exists pre post, records = pre ++ r :: post /\ select_ok cleaned pre r post
  | None => Forall (fun s => pathWithin cleaned s.(mr_mountpoint) = false) records
  end.
Proof.
  induction records as [|x records IH] using rev_ind; [by constructor|].
  rewrite foldl_snoc. unfold select_mount at 1.
  destruct (foldl _ _ _) as [r|] eqn:E.
  - destruct IH as (pre & post & -> & Hr & Hpre & Hpost).
    destruct (pathWithin cleaned (mr_mountpoint x)) eqn:Ex; cbn [andb].
    + destruct (Nat.ltb_spec (String.length (mr_mountpoint r))
        (String.length (mr_mountpoint x))) as [Hlt|Hge].
      * exists (pre ++ r :: post), []. split; [done|]. split_and!; [done| |constructor].
        rewrite Forall_app, Forall_cons. split_and!; [|done|].
        -- eapply Forall_impl; [exact Hpre|]. simpl. intros s Hs ?. specialize (Hs ltac:(done)). lia.
        -- eapply Forall_impl; [exact Hpost|]. simpl. intros s Hs ?. specialize (Hs ltac:(done)). lia.
      * exists pre, (post ++ [x]). split; [by rewrite <- app_assoc|]. split_and!; [done..|].
        rewrite Forall_app, Forall_singleton. done.
    + exists pre, (post ++ [x]). split; [by rewrite <- app_assoc|]. split_and!; [done..|].
      rewrite Forall_app, Forall_singleton. split; [done|]. by rewrite Ex.
  - destruct (pathWithin cleaned (mr_mountpoint x)) eqn:Ex; cbn [andb].
    + exists records, []. split; [done|]. split_and!; [done| |constructor].
      eapply Forall_impl; [exact IH|]. simpl. intros s Hs ?. congruence.
    + by rewrite Forall_app, Forall_singleton.
Qed.

(** Where a path lies, and on which block devices. *)
Definition mount_of (cleaned : string) (r : mountRecord) : Prop :=
  exists pre post, mounts observer fs = Ok (pre ++ r :: post) /\ select_ok cleaned pre r post.

Lemma Source_ok path filesystem backing :
  Source observer fs path = Ok (filesystem, backing) ->
  IsAbs (Clean path) = true /\
  exists r, mount_of (Clean path) r /\ filesystem = r.(mr_filesystem) /\
    forall d, d ∈ backing <-> exists n, backed_by observer fs r n /\ related_to observer fs n d.
Proof.
  unfold Source. cbv zeta. intros H. inv_ok. bool_hyps. split; [done|].
  pose proof (select_mount_ok (Clean path) v0) as Hs.
  destruct (foldl _ _ _) as [r|]; [|done]. destruct Hs as (pre & post & -> & Hs).
  inv_ok. exists r. split; [by exists pre, post|]. unfold backed_by. destruct v as [n|]; inv_ok.
  - match goal with H : related _ _ _ = Ok _ |- _ =>
      apply related_spec in H as (_ & _ & Hback & _) end.
    simplify_eq. split; [done|].
    intros d. rewrite Hback. split; [eauto|]. intros (n' & Hn' & ?). congruence.
  - simplify_eq. split; [done|]. intros d. split; [set_solver|]. intros (n' & Hn' & ?). congruence.
Qed.
End devices.

(** ** Swap areas *)
Definition swap_backing observer fs (r : swapRecord) (d : string) : Prop :=
  (r.(sr_kind) = "partition" /\ related_to observer fs (Base r.(sr_source)) d) \/
  (r.(sr_kind) = "file" /\ exists filesystem backing,
     Source observer fs r.(sr_source) = Ok (filesystem, backing) /\ d ∈ backing).

Definition swapped observer fs (d : string) : Prop :=
  exists records r, readSwapRecords fs observer.(obs_ProcRoot) = Ok records /\ r ∈ records /\
    swap_backing observer fs r d.

Lemma swap_step_ok observer fs m r m' :
  swap_step observer fs m r = Ok m' -> all_true m ->
  all_true m' /\ forall d, d ∈ dom m' <-> d ∈ dom m \/ swap_backing observer fs r d.
Proof.
  unfold swap_step, swap_backing. intros H Ht. case_bool_decide as Hk.
  - destruct (expand_ok observer fs _ _ _ H Ht) as [? Hd]. split; [done|]. intros d.
    rewrite Hd, Hk. naive_solver.
  - case_bool_decide as Hk2; [|done]. inv_ok. destruct v as [f b]. cbn [snd] in H.
    assert (m' = foldl (fun m name => <[name := true]> m) m b) as ->.
    { destruct b; [done|]. by injection H as <-. }
    destruct (foldl_insert_devices b m Ht) as [? Hd]. split; [done|]. intros d. rewrite Hd.
    split; [intros [?|?]; [by left|right; right; eauto]|].
    intros [?|[[? _]|(_ & f' & b' & Hs & ?)]]; [by left|congruence|right].
    rewrite Hv in Hs. by simplify_eq.
Qed.

Lemma SwapDevices_ok observer fs m :
  SwapDevices observer fs = Ok m ->
  all_true m /\ forall d, d ∈ dom m <-> swapped observer fs d.
Proof.
  unfold SwapDevices. intros H. inv_ok.
  apply (foldM_devices _ (swap_backing observer fs)) in H as [H1 H2].
  - split; [done|]. intros d. rewrite H2, dom_empty. unfold swapped. split.
    + intros [?|(r & Hr & Hd)]; [set_solver|]. by exists v, r.
    + intros (rs & r & Hrs & Hr & Hd). ok_unique. right. by exists r.
  - intros m1 r m2 _. apply swap_step_ok.
  - done.
Qed.

(** The mount that holds a path is unique. *)
Lemma select_ok_unique cleaned pre r post pre' r' post' :
  pre ++ r :: post = pre' ++ r' :: post' -> select_ok cleaned pre r post ->
  select_ok cleaned pre' r' post' -> r = r'.
Proof.
  intros H (Hr & Hpre & Hpost) (Hr' & Hpre' & Hpost'). rewrite Forall_forall in *.
  apply app_eq_inv in H as [(k & -> & Hk)|(k & -> & Hk)];
    (destruct k as [|x k]; cbn in Hk; injection Hk as Hx Hk; [done|]; subst x).
  - assert (r' ∈ r' :: k) as Hin by by left. specialize (Hpre r' ltac:(set_solver) Hr').
    assert (r ∈ post') as Hin' by (rewrite Hk; set_solver). specialize (Hpost' r Hin' Hr). lia.
  - specialize (Hpre' r ltac:(set_solver) Hr).
    assert (r' ∈ post) as Hin' by (rewrite Hk; set_solver). specialize (Hpost r' Hin' Hr'). lia.
Qed.

Lemma mount_of_unique observer fs cleaned r r' :
  mount_of observer fs cleaned r -> mount_of observer fs cleaned r' -> r = r'.
Proof.
  intros (pre & post & Hm & Hs) (pre' & post' & Hm' & Hs'). rewrite Hm in Hm'. injection Hm' as Hm'.
  by eapply select_ok_unique.
Qed.

(** The areas for which the backing devices can be told: partitions, and files on a mount that has
    the number of a device. *)
Definition swap_provable observer fs (r : swapRecord) : Prop :=
  r.(sr_kind) = "partition" \/
  (r.(sr_kind) = "file" /\ exists mount n,
     mount_of observer fs (Clean r.(sr_source)) mount /\ has_number observer fs n mount.(mr_device)).

Lemma swap_step_provable observer fs m r m' :
  swap_step observer fs m r = Ok m' -> swap_provable observer fs r.
Proof.
  unfold swap_step, swap_provable. case_bool_decide as Hk; [by left|]. case_bool_decide as Hf; [|done].
  intros H. inv_ok. destruct v as [filesystem backing]. right. split; [done|].
  apply Source_ok in Hv as (_ & mount & Hmount & _ & Hback). cbn [snd] in H.
  destruct backing as [|d backing]; [done|]. destruct (proj1 (Hback d) ltac:(by left)) as (n & Hn & _).
  exists mount, n. split; [done|]. by apply backed_by_number.
Qed.

Lemma SwapDevices_provable observer fs m records r :
  SwapDevices observer fs = Ok m -> readSwapRecords fs observer.(obs_ProcRoot) = Ok records ->
  r ∈ records -> swap_provable observer fs r.
Proof.
  unfold SwapDevices. intros H Hrs Hr. rewrite Hrs in H. cbn [mbind result_bind] in H.
  destruct (foldM_steps _ _ _ _ _ H Hr) as (m1 & m2 & Hs). by eapply swap_step_provable.
Qed.

(** The mount that holds a path gives the devices on which it lies. *)
Lemma Source_finds observer fs path filesystem backing lies_on r d :
  Source observer fs path = Ok (filesystem, backing) -> accounted observer fs lies_on ->
  mount_of observer fs (Clean path) r -> lies_on r d ->
  exists n, backed_by observer fs r n /\ related_to observer fs n d.
Proof.
  intros Hs Ha Hr Hd. pose proof Hr as (pre & post & Hrs & _). unfold Source in Hs. cbv zeta in Hs.
  inv_ok. pose proof (select_mount_ok (Clean path) v0) as Hfold.
  destruct (foldl _ _ _) as [r'|]; [|done]. destruct Hfold as (pre' & post' & -> & Hsel').
  apply bind_ok_inv in Hs as (found & Hfound & _).
  assert (r' = r) as -> by (eapply mount_of_unique; [by exists pre', post'|done]).
  eapply accounted_found; [done|exact Hrs|set_solver|done..].
Qed.

(** What is mounted on a device, or swaps on it, is found when the snapshot accounts for it. *)
Lemma MountedDevices_finds observer fs m lies_on records r d :
  MountedDevices observer fs = Ok m -> accounted observer fs lies_on ->
  mounts observer fs = Ok records -> r ∈ records -> lies_on r d -> mounted observer fs d.
Proof.
  intros Hm Ha Hrs Hr Hd. unfold MountedDevices in Hm. rewrite Hrs in Hm. cbn [mbind result_bind] in Hm.
  destruct (foldM_steps _ _ _ _ _ Hm Hr) as (m1 & m2 & Hs). inv_ok.
  destruct (accounted_found _ _ _ _ _ _ _ Ha Hrs Hr Hd Hv) as (n & ? & ?). by exists records, r, n.
Qed.

Lemma SwapDevices_finds observer fs m lies_on records r mount d :
  SwapDevices observer fs = Ok m -> accounted observer fs lies_on ->
  readSwapRecords fs observer.(obs_ProcRoot) = Ok records -> r ∈ records -> r.(sr_kind) = "file" ->
  mount_of observer fs (Clean r.(sr_source)) mount -> lies_on mount d -> swapped observer fs d.
Proof.
  intros Hm Ha Hrs Hr Hk Hmount Hd. unfold SwapDevices in Hm. rewrite Hrs in Hm.
  cbn [mbind result_bind] in Hm. destruct (foldM_steps _ _ _ _ _ Hm Hr) as (m1 & m2 & Hs).
  unfold swap_step in Hs. rewrite Hk, bool_decide_eq_false_2, bool_decide_eq_true_2 in Hs by done. inv_ok.
  destruct v as [filesystem backing].
  destruct (Source_finds _ _ _ _ _ _ _ _ Hv Ha Hmount Hd) as (n & Hn & Hrel).
  pose proof Hv as (_ & mount' & Hmount' & _ & Hback)%Source_ok.
  rewrite <- (mount_of_unique _ _ _ _ _ Hmount Hmount') in Hback.
  exists records, r. split; [done|]. split; [done|]. right. split; [done|].
  exists filesystem, backing. split; [done|]. apply Hback. by exists n.
Qed.

(** No file system that the snapshot accounts for lies on the device. *)
Definition unmounted observer fs (lies_on : mountRecord -> string -> Prop) (d : string) : Prop :=
  accounted observer fs lies_on ->
  forall records r, mounts observer fs = Ok records -> r ∈ records -> ~ lies_on r d.

(** Every swap area is of a kind that can be told, and none is on the device. *)
Definition unswapped observer fs (lies_on : mountRecord -> string -> Prop) (d : string) : Prop :=
  forall records r, readSwapRecords fs observer.(obs_ProcRoot) = Ok records -> r ∈ records ->
    (r.(sr_kind) = "partition" /\ ~ related_to observer fs (Base r.(sr_source)) d) \/
    (r.(sr_kind) = "file" /\ exists mount n, mount_of observer fs (Clean r.(sr_source)) mount /\
       has_number observer fs n mount.(mr_device) /\
       (accounted observer fs lies_on -> ~ lies_on mount d)).

Lemma MountedDevices_unmounted observer fs m lies_on d :
  MountedDevices observer fs = Ok m -> m !! d <> Some true -> unmounted observer fs lies_on d.
Proof.
  intros Hm Hd Ha records r Hrs Hr Hlies. apply Hd. pose proof (MountedDevices_ok _ _ _ Hm) as [Tm Dm].
  apply elem_of_dom_true, Dm; [done|]. by eapply MountedDevices_finds.
Qed.

Lemma SwapDevices_unswapped observer fs m lies_on d :
  SwapDevices observer fs = Ok m -> m !! d <> Some true -> unswapped observer fs lies_on d.
Proof.
  intros Hm Hd records r Hrs Hr. pose proof (SwapDevices_ok _ _ _ Hm) as [Tm Dm].
  assert (~ swapped observer fs d) as Hno by (intros Hs; by apply Hd, elem_of_dom_true, Dm).
  destruct (SwapDevices_provable _ _ _ _ _ Hm Hrs Hr) as [Hk|(Hk & mount & n & Hmount & Hn)].
  - left. split; [done|]. intros Hrel. apply Hno. exists records, r. split_and!; [done..|by left].
  - right. split; [done|]. exists mount, n. split_and!; [done..|]. intros Ha Hlies.
    apply Hno. by eapply SwapDevices_finds.
Qed.

(** C22: What the reports of devices in use say, measured against an account of where file systems
    lie that the code does not see.  Mounted: every device on which the file system of a mount lies
    is reported, provided the snapshot accounts for the mounts (their device numbers are those of
    devices, which is not so for btrfs); and a reported device is related to one that has the
    number of a mount.  Swap: a swap area that is neither a partition nor a file, or a file on a
    mount that has the number of no device, makes the whole report an error and never an empty
    answer; otherwise the devices related to a swap partition are reported, and those on which the
    mount of a swap file lies, under the same proviso; and nothing else is. *)
Theorem devices_in_use observer fs lies_on (Haccounted : accounted observer fs lies_on) :
  (forall m, MountedDevices observer fs = Ok m ->
     (forall records r d, mounts observer fs = Ok records -> r ∈ records -> lies_on r d ->
        m !! d = Some true) /\
     (forall d, m !! d = Some true -> exists records r n, mounts observer fs = Ok records /\
        r ∈ records /\ has_number observer fs n r.(mr_device) /\ related_to observer fs n d)) /\
  (forall records, readSwapRecords fs observer.(obs_ProcRoot) = Ok records ->
     (forall r, r ∈ records -> ~ swap_provable observer fs r -> exists e, SwapDevices observer fs = Err e) /\
     (forall m, SwapDevices observer fs = Ok m ->
        (forall r d, r ∈ records -> r.(sr_kind) = "partition" ->
           related_to observer fs (Base r.(sr_source)) d -> m !! d = Some true) /\
        (forall r mount d, r ∈ records -> r.(sr_kind) = "file" ->
           mount_of observer fs (Clean r.(sr_source)) mount -> lies_on mount d -> m !! d = Some true) /\
        (forall d, m !! d = Some true -> exists r, r ∈ records /\
           (r.(sr_kind) = "partition" /\ related_to observer fs (Base r.(sr_source)) d \/
            r.(sr_kind) = "file" /\ exists mount n,
              mount_of observer fs (Clean r.(sr_source)) mount /\
              has_number observer fs n mount.(mr_device) /\ related_to observer fs n d)))).
Proof.
  split.
  - intros m Hm. pose proof (MountedDevices_ok _ _ _ Hm) as [Tm Dm]. split.
    + intros records r d Hrs Hr Hd. apply elem_of_dom_true, Dm; [done|]. by eapply MountedDevices_finds.
    + intros d (records & r & n & Hrs & Hr & Hn & Hd)%elem_of_dom_true%Dm; [|done].
      exists records, r, n. split_and!; try done. by apply backed_by_number.
  - intros records Hrs. split.
    { intros r Hr Hbad. pose proof (SwapDevices_no_panic observer fs) as Hp.
      destruct (SwapDevices observer fs) as [m|e|] eqn:Hm; [|by exists e|done].
      destruct Hbad. by eapply SwapDevices_provable. }
    intros m Hm. pose proof (SwapDevices_ok _ _ _ Hm) as [Tm Dm]. split_and!.
    + intros r d Hr Hk Hd. apply elem_of_dom_true, Dm; [done|]. exists records, r. split_and!; [done..|by left].
    + intros r mount d Hr Hk Hmount Hd. apply elem_of_dom_true, Dm; [done|]. by eapply SwapDevices_finds.
    + intros d (records' & r & Hrs' & Hr & Hd)%elem_of_dom_true%Dm; [|done]. ok_unique. exists r.
      split; [done|]. destruct Hd as [?|(Hk & filesystem & backing & Hsrc & Hd)]; [by left|right].
      split; [done|]. apply Source_ok in Hsrc as (_ & mount & Hmount & _ & Hback).
      apply Hback in Hd as (n & Hn & Hd). exists mount, n. split_and!; try done. by apply backed_by_number.
Qed.

(** Where the file systems of the fixture lie: the root on a mapper device over [vda2], [/boot] on
    [vda2], both on the disk [vda]; [/dev/shm] nowhere. *)
Definition fixture_lies_on (r : mountRecord) (d : string) : Prop :=
  (r.(mr_device) = "253:0" /\ d ∈ ["dm-0"; "vda2"; "vda"]) \/
  (r.(mr_device) = "252:2" /\ d ∈ ["vda2"; "vda"]).

(** The numbers of a snapshot account for devices that [related] finds. *)
Lemma accounted_number observer fs number n found ds d :
  devices_numbered observer fs number = [n] -> related observer fs n = Ok found -> ds ⊆ found -> d ∈ ds ->
  (exists n, has_number observer fs n number) /\
  (forall n, has_number observer fs n number -> related_to observer fs n d).
Proof.
  intros Hn Hf Hds Hd. setoid_rewrite <- elem_of_devices_numbered. rewrite Hn. split; [exists n; by left|].
  intros n' ->%list_elem_of_singleton. apply related_spec in Hf as (_ & _ & Hf & _). by apply Hf, Hds.
Qed.

Lemma fixture_accounted : accounted fixture_observer fixture fixture_lies_on.
Proof.
  intros records r d _ _ [[-> Hd]|[-> Hd]].
  - apply (accounted_number _ _ _ "dm-0" ["dm-0"; "dm-1"; "vda"; "vda2"] ["dm-0"; "vda2"; "vda"]);
      [vm_compute; reflexivity..| |done]. apply (bool_decide_unpack _). vm_compute. exact I.
  - apply (accounted_number _ _ _ "vda2" ["vda"; "vda2"] ["vda2"; "vda"]);
      [vm_compute; reflexivity..| |done]. apply (bool_decide_unpack _). vm_compute. exact I.
Qed.

Lemma fixture_devices_in_use :
  exists mountedDevices swapDevices,
    MountedDevices fixture_observer fixture = Ok mountedDevices /\
    SwapDevices fixture_observer fixture = Ok swapDevices.
Proof.
  assert (forall (r : res (gmap string bool)), is_ok r = true -> exists m, r = Ok m) as Hok.
  { intros [m|e|] H; [by exists m|discriminate H..]. }
  destruct (Hok (MountedDevices fixture_observer fixture)) as [m Hm]; [vm_compute; reflexivity|].
  destruct (Hok (SwapDevices fixture_observer fixture)) as [s Hs]; [vm_compute; reflexivity|].
  exists m, s. split; [exact Hm|exact Hs].
Qed.

Lemma devices_in_use_witness :
  exists mountedDevices : gmap string bool,
    MountedDevices fixture_observer fixture = Ok mountedDevices /\
    (forall records r, mounts fixture_observer fixture = Ok records -> r ∈ records ->
       r.(mr_device) = "253:0" -> mountedDevices !! "vda" = Some true).
Proof.
  destruct fixture_devices_in_use as (m & s & Hm & Hs). exists m. split; [exact Hm|].
  destruct (devices_in_use fixture_observer fixture fixture_lies_on fixture_accounted) as [Hmounted _].
  intros records r Hrs Hr Hdev. apply (proj1 (Hmounted m Hm) records r "vda" Hrs Hr).
  left. split; [exact Hdev|]. right. right. left.
Defined.

(** An unsupported kind of swap area, and a swap file on a file system without a device. *)
Example swap_refused :
  is_ok (SwapDevices fixture_observer
    (fixture_with fixture_mountinfo ["Filename"; "/dev/shm/swap zram 1048572 0 -2"])) = false /\
  is_ok (SwapDevices fixture_observer
    (fixture_with fixture_mountinfo ["Filename"; "/dev/shm/swap file 1048572 0 -2"])) = false.
Proof. vm_compute. auto. Qed.

(** ** Containment of paths *)
Lemma pathWithin_elements es ms :
  Forall plain_elem es -> Forall plain_elem ms ->
  pathWithin (abs_path es) (abs_path ms) = bool_decide (ms `prefix_of` es).
Proof.
  intros Hes Hms. unfold pathWithin. case_bool_decide as Hroot.
  { assert (ms = []) as ->.
    { apply (abs_path_inj ms []); [done|constructor|exact Hroot]. }
    rewrite abs_path_IsAbs. by rewrite bool_decide_true by apply prefix_nil. }
  assert (ms <> []) as Hne by (intros ->; done).
  apply eq_true_iff_eq. rewrite orb_true_iff, !bool_decide_eq_true. split.
  - intros [He|Hp].
    + apply abs_path_inj in He as ->; [done|done|done].
    + unfold HasPrefix in Hp. apply str_prefix_inv in Hp as (u & Hu).
      assert (es <> []) as Hes0 by (intros ->; destruct ms as [|m [|m' ms]]; [done|..];
        inversion Hms as [|?? (? & ? & ? & ?) ?]; by destruct m).
      apply (f_equal (fun p => Split p sep)) in Hu.
      rewrite Split_abs_path, str_app_assoc in Hu by done.
      change (seps +:+ u) with (String sep u) in Hu.
      rewrite Split_app_any, Split_abs_path in Hu by done. simplify_eq/=. by eexists.
  - intros [k ->]. destruct k as [|e k]; [left; by rewrite app_nil_r|]. right.
    unfold abs_path at 1. rewrite JoinStr_app by done.
    rewrite <- (str_app_assoc (JoinStr ms seps)), <- (str_app_assoc seps). apply str_prefix_app.
Qed.

(** C29: A path is placed on the mount that contains it: among the mount points that contain the
    cleaned path, the first of the longest; the reported filesystem is that mount's, and the
    reported backing devices are exactly those related to its block device (none when the kernel
    lists no block device for it). *)
Theorem Source_longest_mount observer fs path filesystem backing
    (H : Source observer fs path = Ok (filesystem, backing)) :
  exists r, mount_of observer fs (Clean path) r /\ filesystem = r.(mr_filesystem) /\
    forall d, d ∈ backing <-> exists n, backed_by observer fs r n /\ related_to observer fs n d.
Proof. by apply Source_ok in H as [_ H]. Qed.

Lemma Source_longest_mount_witness :
  exists r, mount_of fixture_observer fixture "/boot/image.raw.zst" r /\
    "xfs" = r.(mr_filesystem) /\
    forall d, d ∈ ["vda"; "vda2"] <->
      exists n, backed_by fixture_observer fixture r n /\
        related_to fixture_observer fixture n d.
Proof.
  apply (Source_longest_mount fixture_observer fixture "/boot/image.raw.zst").
  vm_compute. reflexivity.
Defined.

(** [/mnt2/image] is not within [/mnt]. *)
Example pathWithin_example :
  pathWithin "/mnt2/image" "/mnt" = false /\ pathWithin "/mnt/image" "/mnt" = true.
Proof. vm_compute. auto. Qed.

(** ** The target *)
Lemma path_Join_dev name : path_Join [deviceRoot; name] = Clean (dev_path name).
Proof. done. Qed.

Lemma canonical_device path :
  Clean path = path_Join [deviceRoot; Base (Clean path)] -> Base (Clean path) <> seps ->
  plain_elem (Base (Clean path)) /\ Clean path = dev_path (Base (Clean path)).
Proof.
  intros Hj Hb.
  rewrite path_Join_dev in Hj.
  destruct (Clean_rooted (dev_path (Base (Clean path))) eq_refl) as (es & Hes & He).
  rewrite He in Hj. rewrite Hj in *.
  destruct (decide (es = [])) as [->|Hne]; [done|]. apply exists_last in Hne as (es0 & e & ->).
  rewrite Base_abs_path in * by done.
  assert (plain_elem e) as Hp by (by apply Forall_app in Hes as [_ Hes]; inversion Hes).
  rewrite Clean_dev in He by done. by rewrite <- He.
Qed.

(** The first of the attributes that can be read and is not empty; the empty text if there is none. *)
Definition no_attribute fs (root name : string) : Prop :=
  forall value, readTrimmed fs (path_Join [root; name]) = Ok value -> value = EmptyString.
Definition first_attribute fs (root : string) (names : list string) (value : string) : Prop :=
  (exists pre name post, names = pre ++ name :: post /\ Forall (no_attribute fs root) pre /\
     readTrimmed fs (path_Join [root; name]) = Ok value /\ value <> EmptyString) \/
  (value = EmptyString /\ Forall (no_attribute fs root) names).

Lemma readOptional_first fs root names : first_attribute fs root names (readOptional fs root names).
Proof.
  induction names as [|name names IH]; [by right|].
  assert (no_attribute fs root name -> readOptional fs root (name :: names) = readOptional fs root names ->
    first_attribute fs root (name :: names) (readOptional fs root (name :: names))) as Hskip.
  { intros Hno ->. destruct IH as [(pre & n & post & -> & Hpre & Hv)|[Hv Hnone]].
    - left. exists (name :: pre), n, post. split; [done|]. split; [by constructor|done].
    - right. split; [done|by constructor]. }
  destruct (readTrimmed fs (path_Join [root; name])) as [v|e|] eqn:E.
  - destruct (decide (v = EmptyString)) as [->|Hv].
    + apply Hskip; [intros v Hr; congruence|]. unfold readOptional. cbn [omap list_omap]. by rewrite E.
    + left. exists [], name, names. unfold readOptional. cbn [omap list_omap]. rewrite E.
      rewrite filter_cons_True by done. by split_and!.
  - apply Hskip; [intros v Hr; congruence|]. unfold readOptional. cbn [omap list_omap]. by rewrite E.
  - apply Hskip; [intros v Hr; congruence|]. unfold readOptional. cbn [omap list_omap]. by rewrite E.
Qed.

Lemma Target_ok observer fs path t :
  Target observer fs path = Ok t ->
  plain_elem t.(tgt_KName) /\ t.(tgt_CanonicalPath) = dev_path t.(tgt_KName) /\
  t.(tgt_CanonicalPath) = Clean path /\
  (exists sysPath text sectors, blockPath observer fs t.(tgt_KName) = Ok sysPath /\
     readTrimmed fs (path_Join [sysPath; "size"]) = Ok text /\ ParseInt64 text = Some sectors /\
     t.(tgt_SizeBytes) = sectors * sectorBytes /\
     t.(tgt_IsPartition) = exists_path fs (path_Join [sysPath; "partition"])) /\
  0 <= t.(tgt_SizeBytes) <= max_int64 /\
  (forall d, d ∈ t.(tgt_Descendants) <-> related_to observer fs t.(tgt_KName) d).
Proof.
  unfold Target. cbv zeta. intros H. inv_ok. bool_hyps.
  destruct (canonical_device path) as [Hp Hc]; [done..|].
  destruct (ParseInt64 v1) as [sectors|] eqn:Es; [|done].
  destruct (_ || _) eqn:Er; [done|]. inv_ok. bool_hyps.
  cbn [tgt_KName tgt_CanonicalPath tgt_SizeBytes tgt_IsPartition tgt_Descendants].
  match goal with H : related _ _ _ = Ok _ |- _ =>
    apply related_spec in H as (_ & _ & Hback & _) end.
  assert (0 <= sectors * sectorBytes <= max_int64) as Hr.
  { repeat match goal with H : (_ <? _) = false |- _ => apply Z.ltb_ge in H end.
    change (max_int64 / sectorBytes) with 18014398509481983 in *.
    unfold sectorBytes, max_int64. lia. }
  rewrite wrap64_id by (unfold int64_range, min_int64; lia).
  split_and!; try done; [|lia..]. by exists v0, v1, sectors.
Qed.

(** The path counts only by what it is when cleaned. *)
Lemma Target_spelling observer fs path other :
  Clean other = Clean path -> Target observer fs other = Target observer fs path.
Proof. intros H. unfold Target. by rewrite H. Qed.

Lemma Target_attributes observer fs path t sysPath :
  Target observer fs path = Ok t -> blockPath observer fs t.(tgt_KName) = Ok sysPath ->
  first_attribute fs sysPath ["device/serial"; "serial"] t.(tgt_Serial) /\
  first_attribute fs sysPath ["device/wwid"; "wwid"] t.(tgt_WWN).
Proof.
  unfold Target. cbv zeta. intros H Hb. inv_ok. bool_hyps.
  destruct (ParseInt64 _) as [sectors|]; [|done]. destruct (_ || _); [done|]. inv_ok. cbn [tgt_KName tgt_Serial tgt_WWN] in *. ok_unique.
  split; apply readOptional_first.
Qed.

(** C28: The identity reported for a target is the device's: the canonical path is the cleaned one and
    is [/dev/<name>] for one path element (every spelling that cleans to it gives the same
    identity), the size is the kernel's sector count times 512 without overflow, serial number and
    WWN are the first attributes of their own names that can be read and are not empty, the
    partition mark is the kernel's, and the descendants are exactly the related devices, the target
    itself included. *)
Theorem Target_identity observer fs path t (H : Target observer fs path = Ok t) :
  plain_elem t.(tgt_KName) /\
  t.(tgt_CanonicalPath) = Clean path /\ Clean path = dev_path t.(tgt_KName) /\
  (forall other, Clean other = Clean path -> Target observer fs other = Ok t) /\
  (exists sysPath text sectors, blockPath observer fs t.(tgt_KName) = Ok sysPath /\
     readTrimmed fs (path_Join [sysPath; "size"]) = Ok text /\ ParseInt64 text = Some sectors /\
     t.(tgt_SizeBytes) = sectors * sectorBytes /\
     first_attribute fs sysPath ["device/serial"; "serial"] t.(tgt_Serial) /\
     first_attribute fs sysPath ["device/wwid"; "wwid"] t.(tgt_WWN) /\
     t.(tgt_IsPartition) = exists_path fs (path_Join [sysPath; "partition"])) /\
  0 <= t.(tgt_SizeBytes) <= max_int64 /\
  t.(tgt_KName) ∈ t.(tgt_Descendants) /\
  (forall d, d ∈ t.(tgt_Descendants) <-> related_to observer fs t.(tgt_KName) d).
Proof.
  pose proof (Target_attributes observer fs path t) as Hattr. pose proof (Target_spelling observer fs path) as Hsp.
  pose proof H as (? & Hc & ? & (sysPath & text & sectors & Hb & ? & ? & ? & ?) & ? & Hd)%Target_ok.
  destruct (Hattr sysPath H Hb) as [? ?].
  split_and!; try done; [congruence|intros other Ho; by rewrite (Hsp other Ho)| |lia..|].
  - exists sysPath, text, sectors. by split_and!.
  - apply Hd. left. apply rtc_refl.
Qed.

(** The fixture's disk, named in a spelling that is not canonical. *)
Lemma Target_identity_witness :
  exists t, plain_elem t.(tgt_KName) /\ t.(tgt_CanonicalPath) = Clean "/dev//vda/" /\
    Clean "/dev//vda/" = dev_path t.(tgt_KName) /\
    t.(tgt_KName) ∈ t.(tgt_Descendants).
Proof.
  eexists. assert (forall A B C D E F G I : Prop, A /\ B /\ C /\ D /\ E /\ F /\ G /\ I ->
    A /\ B /\ C /\ G) as Hp by tauto.
  eapply Hp, (Target_identity fixture_observer fixture). vm_compute. reflexivity.
Defined.

(** ** Memory *)
Definition is_mem_line (line : string) : bool :=
  match Fields line with
  | ["MemAvailable:"; _; "kB"] => true
  | _ => false
  end.

Lemma mem_available_line line : mem_available (Fields line) = Ok (is_mem_line line).
Proof.
  unfold is_mem_line. destruct (Fields line) as [|a [|b [|c [|d l]]]]; try done.
  - by repeat case_match.
  - by repeat case_match.
  - change (mem_available [a; b; c]) with
      (if negb (bool_decide (a = "MemAvailable:")) then Ok false
       else Ok (bool_decide (c = "kB")) : res bool).
    case_bool_decide; subst; cbn [negb].
    + case_bool_decide; subst; [done|]. by repeat case_match.
    + by repeat case_match.
  - by repeat case_match.
Qed.

Lemma meminfo_loop_skip pre rest e :
  Forall (fun l => is_mem_line l = false) pre ->
  meminfo_loop (pre ++ rest) e = meminfo_loop rest e.
Proof.
  induction 1 as [|l pre Hl _ IH]; [done|]. cbn [app meminfo_loop]. rewrite IH.
  cbv zeta. by rewrite mem_available_line, Hl.
Qed.

Lemma meminfo_loop_line line n rest e :
  Fields line = ["MemAvailable:"; format_int n; "kB"] -> 0 <= n <= max_int64 ->
  meminfo_loop (line :: rest) e = Ok (wrap64 (n * kilobyteBytes)).
Proof.
  intros Hf Hn. cbn [meminfo_loop]. rewrite Hf. cbn. rewrite ParseInt64_format by done.
  by rewrite (proj2 (Z.ltb_ge _ _)) by lia.
Qed.

(** C37: The memory estimate is the kernel's: when the first [MemAvailable] line of meminfo gives [n]
    kB, the result is [n * 1024] bytes exactly, as long as that fits an [int64]. *)
Theorem MemoryAvailableBytes_value observer fs node pre line post n
    (Hnode : fs !! path_Join [observer.(obs_ProcRoot); "meminfo"] = Some node)
    (Hdata : node.(nd_data) = inr (text_lines (pre ++ line :: post), None))
    (Hscan : Forall scannable (pre ++ line :: post))
    (Hpre : Forall (fun l => is_mem_line l = false) pre)
    (Hline : Fields line = ["MemAvailable:"; format_int n; "kB"])
    (Hn : 0 <= n <= max_int64 / kilobyteBytes) :
  MemoryAvailableBytes observer fs = Ok (n * kilobyteBytes).
Proof.
  change (max_int64 / kilobyteBytes) with 9007199254740991 in Hn.
  unfold MemoryAvailableBytes, os_Open. rewrite Hnode, Hdata. cbn [returned map_err mbind result_bind].
  rewrite scan_text_lines by done. cbn [sc_lines sc_err].
  rewrite meminfo_loop_skip, (meminfo_loop_line line n) by (done || unfold max_int64; lia).
  rewrite wrap64_id; [done|]. unfold int64_range, min_int64, max_int64, kilobyteBytes. lia.
Qed.

Lemma MemoryAvailableBytes_value_witness :
  MemoryAvailableBytes fixture_observer
    (<["/proc/meminfo" := file_node (text_lines (["MemTotal: 4194304 kB"] ++
         "MemAvailable:    1048576 kB" :: ["Buffers: 10 kB"]))]> ∅) = Ok (1048576 * kilobyteBytes).
Proof.
  apply (MemoryAvailableBytes_value fixture_observer _
    (file_node (text_lines (["MemTotal: 4194304 kB"] ++
         "MemAvailable:    1048576 kB" :: ["Buffers: 10 kB"])))
    ["MemTotal: 4194304 kB"] "MemAvailable:    1048576 kB" ["Buffers: 10 kB"] 1048576).
  - vm_compute. reflexivity.
  - reflexivity.
  - apply (bool_decide_unpack _). vm_compute. exact I.
  - repeat constructor.
  - vm_compute. reflexivity.
  - vm_compute. split; discriminate.
Defined.

(** The product is not checked for overflow, as the sector count is. *)
Example MemoryAvailableBytes_wraps :
  MemoryAvailableBytes fixture_observer
    (<["/proc/meminfo" := file_node "MemAvailable: 9007199254740992 kB"]> ∅)
  = Ok (-9223372036854775808).
Proof. vm_compute. reflexivity. Qed.

(** ** Read-only mounts *)
Definition names_resolved observer fs (records : list mountRecord) : Prop :=
  Forall (fun r => exists n, nameByDeviceNumber observer fs r.(mr_device) = Ok n) records.

Lemma readonly_loop_true observer fs records found :
  readonly_loop observer fs found records = Ok true <->
  names_resolved observer fs records /\
  (forall r n, r ∈ records -> backed_by observer fs r n -> r.(mr_readOnly) = true) /\
  (found = true \/ exists r n, r ∈ records /\ backed_by observer fs r n).
Proof.
  unfold names_resolved, backed_by. revert found.
  induction records as [|r records IH]; intros found; cbn [readonly_loop].
  { split; [intros [= ->]|intros (_ & _ & [->|(r & n & ? & _)])]; [|done|set_solver].
    split_and!; [constructor|set_solver|by left]. }
  rewrite Forall_cons. destruct (nameByDeviceNumber _ _ (mr_device r)) as [[n|]|e|] eqn:E;
    cbn [mbind result_bind].
  - destruct (mr_readOnly r) eqn:Er; cbn [negb].
    + rewrite IH. split.
      * intros (H1 & H2 & _). split_and!; [eauto|done| |].
        -- intros r' n' [->|?]%elem_of_cons ?; [done|eauto].
        -- right. exists r, n. split; [by left|done].
      * intros ([_ H1] & H2 & _). split_and!; [done| |by left].
        intros r' n' ?. apply H2. by right.
    + split; [done|]. intros (_ & H2 & _). rewrite (H2 r n) in Er; [done|by left|done].
  - rewrite IH. split.
    + intros (H1 & H2 & H3). split_and!; [eauto|done| |].
      * intros r' n' [->|?]%elem_of_cons ?; [congruence|eauto].
      * destruct H3 as [?|(r' & n' & ? & ?)]; [by left|]. right. exists r', n'. split; [by right|done].
    + intros ([_ H1] & H2 & H3). split_and!; [done| |].
      * intros r' n' ?. apply H2. by right.
      * destruct H3 as [?|(r' & n' & [->|?]%elem_of_cons & ?)]; [by left|congruence|].
        right. eauto.
  - split; [done|]. by intros ([[n Hn] _] & _).
  - split; [done|]. by intros ([[n Hn] _] & _).
Qed.

(** The mounts that have the number of a device. *)
Lemma BlockMountsReadOnly_numbers observer fs :
  BlockMountsReadOnly observer fs = Ok true <->
  exists records, mounts observer fs = Ok records /\ names_resolved observer fs records /\
    (exists r n, r ∈ records /\ has_number observer fs n r.(mr_device)) /\
    (forall r n, r ∈ records -> has_number observer fs n r.(mr_device) -> r.(mr_readOnly) = true).
Proof.
  unfold BlockMountsReadOnly. rewrite bind_ok_inv. apply exist_proper. intros records.
  rewrite readonly_loop_true. apply and_iff_compat_l.
  assert (forall r, names_resolved observer fs records -> r ∈ records ->
    (exists n, backed_by observer fs r n) <-> exists n, has_number observer fs n r.(mr_device)) as Hn.
  { intros r Hres Hr. unfold names_resolved in Hres. rewrite Forall_forall in Hres.
    destruct (Hres r Hr) as [found Hf]. rewrite (numbered_iff _ _ _ _ Hf). unfold backed_by.
    rewrite Hf. split; intros [n Hn]; exists n; congruence. }
  split.
  - intros (Hres & Hro & [|(r & n & Hr & Hb)]); [done|]. split_and!; [done| |].
    + destruct (proj1 (Hn r Hres Hr) (ex_intro _ n Hb)) as [n' ?]. by exists r, n'.
    + intros r' n' Hr' Hn'. destruct (proj2 (Hn r' Hres Hr') (ex_intro _ n' Hn')) as [n'' ?]. by eapply Hro.
  - intros (Hres & (r & n & Hr & Hnum) & Hro). split_and!; [done| |].
    + intros r' n' Hr' Hb. eapply Hro; [done|]. by apply backed_by_number.
    + right. destruct (proj2 (Hn r Hres Hr) (ex_intro _ n Hnum)) as [n' ?]. by exists r, n'.
Qed.

(** A file system whose mount has an anonymous device number, as btrfs has, is not counted as backed by
    a block device, although it is: mounted from [vda1] it does not put [vda1] in use, an image
    on it has no backing device, and while it is writable the read-only test succeeds. *)
Definition btrfs_mountinfo : list string :=
  ["29 23 253:0 / / ro,relatime - xfs /dev/mapper/ol-root rw";
   "36 29 0:35 / /data rw,relatime - btrfs /dev/vda1 rw"].
Definition btrfs_snapshot : FS := fixture_with btrfs_mountinfo ["Filename"].
Definition btrfs_record : mountRecord := {|
  mr_device := "0:35"; mr_mountpoint := "/data"; mr_filesystem := "btrfs"; mr_readOnly := false |}.
Example anonymous_device_unseen :
  (fun m : gmap string bool => m !! "vda1") <$> MountedDevices fixture_observer btrfs_snapshot = Ok None /\
  Source fixture_observer btrfs_snapshot "/data/image.raw.zst" = Ok ("btrfs", []).
Proof. vm_compute. auto. Qed.

Lemma btrfs_read_only :
  (last <$> mounts fixture_observer btrfs_snapshot) = Ok (Some btrfs_record) /\
  BlockMountsReadOnly fixture_observer btrfs_snapshot = Ok true /\
  devices_numbered fixture_observer btrfs_snapshot "0:35" = [].
Proof. vm_compute. auto. Qed.

(** C24: What the read-only test says: [BlockMountsReadOnly] answers true exactly when every mount
    record could be parsed and its device number looked up, at least one mount has the number of a
    device in sysfs, and every mount that has one is read-only.  So it is a proof for the file
    systems that the snapshot accounts for: after true, each mount that lies on a block device is
    read-only.  It is none for the others: there is a snapshot on which the answer is true and a
    writable mount, of a btrfs file system, has the number of no device. *)
Theorem BlockMountsReadOnly_meaning observer :
  (forall fs, BlockMountsReadOnly observer fs = Ok true <->
     exists records, mounts observer fs = Ok records /\ names_resolved observer fs records /\
       (exists r n, r ∈ records /\ has_number observer fs n r.(mr_device)) /\
       (forall r n, r ∈ records -> has_number observer fs n r.(mr_device) -> r.(mr_readOnly) = true)) /\
  (forall fs lies_on, accounted observer fs lies_on -> BlockMountsReadOnly observer fs = Ok true ->
     exists records, mounts observer fs = Ok records /\
       forall r d, r ∈ records -> lies_on r d -> r.(mr_readOnly) = true) /\
  (exists host fs records r, BlockMountsReadOnly host fs = Ok true /\
     mounts host fs = Ok records /\ r ∈ records /\ r.(mr_filesystem) = "btrfs" /\
     r.(mr_readOnly) = false /\ forall n, ~ has_number host fs n r.(mr_device)).
Proof.
  assert (forall fs, BlockMountsReadOnly observer fs = Ok true <->
     exists records, mounts observer fs = Ok records /\ names_resolved observer fs records /\
       (exists r n, r ∈ records /\ has_number observer fs n r.(mr_device)) /\
       (forall r n, r ∈ records -> has_number observer fs n r.(mr_device) -> r.(mr_readOnly) = true))
    as Hiff by apply BlockMountsReadOnly_numbers.
  split_and!; [done| |].
  - intros fs lies_on Ha (records & Hm & _ & _ & Hro)%Hiff. exists records. split; [done|].
    intros r d Hr Hd. destruct (Ha records r d Hm Hr Hd) as [[n Hn] _]. by eapply Hro.
  - destruct btrfs_read_only as (Hlast & Htrue & Hnone).
    exists fixture_observer, btrfs_snapshot.
    destruct (mounts fixture_observer btrfs_snapshot) as [records|e|]; [|discriminate Hlast..].
    injection Hlast as [before ->]%last_Some. exists (before ++ [btrfs_record]), btrfs_record.
    split; [exact Htrue|]. split; [reflexivity|].
    split; [apply elem_of_app; right; left|]. split_and!; [reflexivity..|].
    intros n Hn%elem_of_devices_numbered. cbn [mr_device btrfs_record] in Hn. rewrite Hnone in Hn.
    by apply not_elem_of_nil in Hn.
Qed.

(** ** The root disk *)
Definition physical observer fs (d : string) : Prop :=
  exists path, blockPath observer fs d = Ok path /\
    sortedEntries fs (path_Join [path; "slaves"]) = Ok [] /\
    exists_path fs (path_Join [path; "partition"]) = false /\ HasPrefix d "dm-" = false.

Lemma physical_fold observer fs names acc candidates :
  foldM (physical_step observer fs) acc names = Ok candidates ->
  exists found, candidates = acc ++ found /\ found `sublist_of` names /\
    (forall d, d ∈ found <-> d ∈ names /\ physical observer fs d).
Proof.
  revert acc. induction names as [|x names IH]; intros acc H; cbn [foldM] in H; inv_ok.
  { exists []. split_and!; [by rewrite app_nil_r|constructor|set_solver]. }
  apply IH in H as (found & -> & Hsub & Hf). unfold physical_step in Hv. inv_ok.
  assert (physical observer fs x <-> negb (exists_path fs (path_Join [v0; "partition"])) &&
    (length v1 =? 0)%nat && negb (HasPrefix x "dm-") = true) as Hx.
  { unfold physical. rewrite !andb_true_iff, !negb_true_iff, Nat.eqb_eq. split.
    - intros (p & ? & ? & ? & ?). ok_unique. done.
    - intros [[? Hl] ?]. exists v0. by destruct v1. }
  destruct (_ && _ && _).
  - inv_ok. exists (x :: found). split_and!; [by rewrite <- app_assoc|by constructor|].
    intros d. rewrite !elem_of_cons, Hf. naive_solver.
  - inv_ok. exists found. split_and!; [done|by constructor|].
    intros d. rewrite !elem_of_cons, Hf. assert (~ physical observer fs x) by (rewrite Hx; done).
    split; [naive_solver|]. intros [[->|?] ?]; [done|naive_solver].
Qed.

(** C27: The root disk is proven, not guessed: on success it is [/dev/<disk>] (cleaned) for the one
    and only device that is related to the device of the first mount at [/] and is neither a
    partition, nor a stacked device with slaves, nor a mapper device. *)
Theorem RootDisk_unique observer fs path (H : RootDisk observer fs = Ok path) :
  exists records pre r post n disk,
    mounts observer fs = Ok records /\ records = pre ++ r :: post /\
    r.(mr_mountpoint) = seps /\ Forall (fun s => s.(mr_mountpoint) <> seps) pre /\
    backed_by observer fs r n /\ path = path_Join [deviceRoot; disk] /\
    forall d, d = disk <-> related_to observer fs n d /\ physical observer fs d.
Proof.
  unfold RootDisk, physicalRootDisk in H. inv_ok.
  destruct (filter _ v) as [|r rs] eqn:Ef; [done|].
  assert (exists pre post, v = pre ++ r :: post /\ mr_mountpoint r = seps /\
    Forall (fun s => mr_mountpoint s <> seps) pre) as (pre & post & Hsplit & Hr & Hpre).
  { clear -Ef. induction v as [|x v IH]; [done|]. rewrite filter_cons in Ef. case_decide as Hx.
    - simplify_eq. by exists [], v.
    - destruct (IH Ef) as (pre & post & -> & ? & ?). exists (x :: pre), post. by auto. }
  inv_ok. destruct v0 as [n|]; [|done]. inv_ok.
  apply related_spec in Hv1 as (_ & _ & Hv1 & _).
  apply physical_fold in Hv2 as (found & -> & _ & Hfound). cbn [app] in H.
  destruct found as [|disk [|? ?]]; [done| |done]. injection H as <-.
  exists v, pre, r, post, n, disk. split_and!; try done.
  intros d. rewrite <- Hv1, <- Hfound, list_elem_of_singleton. done.
Qed.

Lemma RootDisk_unique_witness :
  exists r n disk, backed_by fixture_observer fixture r n /\
    "/dev/vda" = path_Join [deviceRoot; disk] /\
    forall d, d = disk <-> related_to fixture_observer fixture n d /\
      physical fixture_observer fixture d.
Proof.
  destruct (RootDisk_unique fixture_observer fixture "/dev/vda") as (records & pre & r & post & n &
    disk & _ & _ & _ & _ & H1 & H2 & H3); [vm_compute; reflexivity|].
  exists r, n, disk. auto.
Defined.
