(* ===== verification/Io.v ===== *)
(** * Byte streams and files ([io], [os.File], [context])

    What the image package uses of Go's standard library: readers and writers with their short
    and failing operations, [io.Copy], [io.LimitReader], [io.ReadFull], and a file descriptor as
    the operations on it.  The outcome of every operation is chosen by the environment. *)

From S2P Require Export Sha256 FileSystem.
Open Scope Z_scope.

(** [Read] takes the length of the buffer; [WriteBytes] reports the bytes written. *)
Class Reader (R : Type) := Read : Z -> R -> (list Z * option error) * R.
Class Writer (W : Type) := WriteBytes : list Z -> W -> (Z * option error) * W.

Definition EOF : error := Sentinel IoEOF.
Definition is_EOF (e : error) : bool :=
  match e with Sentinel IoEOF => true | _ => false end.

(** ** Scripted readers

    The results of successive calls: some bytes, possibly none, and possibly an error with them.
    A chunk longer than the buffer is delivered in parts; after the last one the reader is at the
    end of the file. *)
Abbreviation script := (list (list Z * option error)).

#[export] Instance script_reader : Reader script := fun n s =>
  match s with
  | [] => (([], Some EOF), [])
  | (bytes, e) :: rest =>
      if Z.of_nat (length bytes) <=? n then ((bytes, e), rest)
      else ((take (Z.to_nat n) bytes, None), (drop (Z.to_nat n) bytes, e) :: rest)
  end.

(** An upper bound on the number of reads before the end. *)
Definition script_size (s : script) : nat := foldr (fun c acc => S (length c.1) + acc)%nat O s.

(** All that a script delivers: the bytes before its first error, and the error. *)
Fixpoint stream (s : script) : list Z * error :=
  match s with
  | [] => ([], EOF)
  | (bytes, Some e) :: _ => (bytes, e)
  | (bytes, None) :: rest => (bytes ++ (stream rest).1, (stream rest).2)
  end.

(** ** [io.LimitReader] *)
Record LimitedReader (R : Type) := { lr_R : R; lr_N : Z }.
Arguments lr_R {R} _.
Arguments lr_N {R} _.
Definition LimitReader {R} (r : R) (n : Z) : LimitedReader R := {| lr_R := r; lr_N := n |}.

#[export] Instance limited_reader {R} `{Reader R} : Reader (LimitedReader R) := fun n l =>
  if l.(lr_N) <=? 0 then (([], Some EOF), l)
  else
    let (result, r) := Read (Z.min n l.(lr_N)) l.(lr_R) in
    (result, {| lr_R := r; lr_N := l.(lr_N) - Z.of_nat (length result.1) |}).

(** ** Contexts

    [Err] is polled any number of times; a context ends with one of two errors. *)
Inductive ctx_error := Canceled | DeadlineExceeded.
Definition ctx_error_value (e : ctx_error) : error :=
  Sentinel match e with
           | Canceled => ContextCanceled
           | DeadlineExceeded => ContextDeadlineExceeded
           end.
Record Context := { cx_poll : nat -> option ctx_error; cx_polls : nat }.
Definition ctx_Err (ctx : Context) : option error * Context :=
  (ctx_error_value <$> ctx.(cx_poll) ctx.(cx_polls),
   {| cx_poll := ctx.(cx_poll); cx_polls := S ctx.(cx_polls) |}).
Definition background : Context := {| cx_poll := fun _ => None; cx_polls := 0 |}.

(** ** [io.CopyBuffer]

    The written count that accompanies an error is not used by any caller.  [Panic] stands for a
    loop that has not ended within [fuel] reads. *)
Fixpoint copy_loop {R W} `{Reader R} `{Writer W} (fuel : nat) (buffer written : Z) (r : R) (w : W)
    : res Z * R * W :=
  match fuel with
  | O => (Panic, r, w)
  | S fuel' =>
      let '((bytes, re), r') := Read buffer r in
      let finish := fun written w' =>
        match re with
        | Some e => (if is_EOF e then Ok written else Err e, r', w')
        | None => copy_loop fuel' buffer written r' w'
        end in
      match bytes with
      | [] => finish written w
      | _ =>
          let '((n, we), w') := WriteBytes bytes w in
          let bad := (n <? 0) || (Z.of_nat (length bytes) <? n) in
          let n := if bad then 0 else n in
          let we := match we with
                    | None => if bad then Some (Opaque "invalid write result") else None
                    | Some e => Some e
                    end in
          match we with
          | Some e => (Err e, r', w')
          | None =>
              if negb (n =? Z.of_nat (length bytes)) then (Err (Sentinel IoErrShortWrite), r', w')
              else finish (wrap64 (written + n)) w'
          end
      end
  end.
Definition defaultBuffer : Z := 32768.

(** ** [io.ReadFull] *)
Fixpoint read_full_loop {R} `{Reader R} (fuel : nat) (want : Z) (got : list Z) (r : R)
    : res (list Z * option error) * R :=
  if want <=? Z.of_nat (length got) then (Ok (got, None), r)
  else
    match fuel with
    | O => (Panic, r)
    | S fuel' =>
        let '((bytes, e), r') := Read (want - Z.of_nat (length got)) r in
        let got := got ++ bytes in
        match e with
        | None => read_full_loop fuel' want got r'
        | Some e =>
            if want <=? Z.of_nat (length got) then (Ok (got, None), r')
            else
              match got with
              | [] => (Ok ([], Some e), r')
              | _ => (Ok (got, Some (if is_EOF e then Sentinel IoErrUnexpectedEOF else e)), r')
              end
        end
    end.

(** ** [os.File]

    The environment chooses, for each call of each operation on a descriptor, its outcome: the
    file information of [Stat], what is read after each rewind, the bytes each [Write] takes and
    its error.  The rest of the record is the state: calls made so far, bytes still to be read,
    bytes written in order, bytes that were written when [Sync] last succeeded, and the number of
    [Close] calls. *)
Record FileEnv := {
  fe_stat : nat -> outcome FileInfo;
  fe_seek : nat -> outcome script;
  fe_write : nat -> option (Z * option error);
  fe_sync : nat -> option error;
  fe_chmod : option error;
  fe_close : option error }.

Record OsFile := {
  of_env : FileEnv;
  of_stats : nat;
  of_seeks : nat;
  of_writes : nat;
  of_syncs : nat;
  of_script : script;
  of_written : list Z;
  of_durable : list Z;
  of_closed : nat }.

Definition new_file (env : FileEnv) (s : script) : OsFile := {|
  of_env := env; of_stats := 0; of_seeks := 0; of_writes := 0; of_syncs := 0; of_script := s;
  of_written := []; of_durable := []; of_closed := 0 |}.

(** A nil error is [None]. *)
Definition failing (e : option error) : res unit :=
  match e with
  | None => Ok tt
  | Some e => Err e
  end.

Definition file_Stat : M error OsFile FileInfo := fun f =>
  (returned (f.(of_env).(fe_stat) f.(of_stats)),
   {| of_env := f.(of_env); of_stats := S f.(of_stats); of_seeks := f.(of_seeks);
      of_writes := f.(of_writes); of_syncs := f.(of_syncs); of_script := f.(of_script);
      of_written := f.(of_written); of_durable := f.(of_durable); of_closed := f.(of_closed) |}).

(** [Seek(0, io.SeekStart)]: the next read starts over. *)
Definition file_Seek : M error OsFile unit := fun f =>
  let o := f.(of_env).(fe_seek) f.(of_seeks) in
  ((fun _ => tt) <$> returned o,
   {| of_env := f.(of_env); of_stats := f.(of_stats); of_seeks := S f.(of_seeks);
      of_writes := f.(of_writes); of_syncs := f.(of_syncs);
      of_script := match o with inr s => s | inl _ => f.(of_script) end;
      of_written := f.(of_written); of_durable := f.(of_durable); of_closed := f.(of_closed) |}).

Definition set_script (f : OsFile) (s : script) : OsFile :=
  {| of_env := f.(of_env); of_stats := f.(of_stats); of_seeks := f.(of_seeks);
     of_writes := f.(of_writes); of_syncs := f.(of_syncs); of_script := s;
     of_written := f.(of_written); of_durable := f.(of_durable); of_closed := f.(of_closed) |}.

#[export] Instance file_reader : Reader OsFile := fun n f =>
  let (result, s) := Read n f.(of_script) in (result, set_script f s).

(** The file takes the bytes its outcome counts, between none and all of them; all of them when
    the environment is silent. *)
#[export] Instance file_writer : Writer OsFile := fun bytes f =>
  let o := match f.(of_env).(fe_write) f.(of_writes) with
           | Some (n, e) => (Z.max 0 (Z.min n (Z.of_nat (length bytes))), e)
           | None => (Z.of_nat (length bytes), None)
           end in
  (o,
   {| of_env := f.(of_env); of_stats := f.(of_stats); of_seeks := f.(of_seeks);
      of_writes := S f.(of_writes); of_syncs := f.(of_syncs); of_script := f.(of_script);
      of_written := f.(of_written) ++ take (Z.to_nat o.1) bytes;
      of_durable := f.(of_durable); of_closed := f.(of_closed) |}).

Definition file_Sync : M error OsFile unit := fun f =>
  let o := f.(of_env).(fe_sync) f.(of_syncs) in
  (failing o,
   {| of_env := f.(of_env); of_stats := f.(of_stats); of_seeks := f.(of_seeks);
      of_writes := f.(of_writes); of_syncs := S f.(of_syncs); of_script := f.(of_script);
      of_written := f.(of_written);
      of_durable := match o with None => f.(of_written) | Some _ => f.(of_durable) end;
      of_closed := f.(of_closed) |}).

Definition file_Chmod : M error OsFile unit := fun f => (failing f.(of_env).(fe_chmod), f).

Definition file_Close : M error OsFile unit := fun f =>
  (failing f.(of_env).(fe_close),
   {| of_env := f.(of_env); of_stats := f.(of_stats); of_seeks := f.(of_seeks);
      of_writes := f.(of_writes); of_syncs := f.(of_syncs); of_script := f.(of_script);
      of_written := f.(of_written); of_durable := f.(of_durable); of_closed := S f.(of_closed) |}).

(** ** [hash.Hash]: the bytes hashed so far.  [io.MultiWriter] of a file and a hash. *)
Abbreviation Hasher := (list Z).
#[export] Instance hash_writer : Writer Hasher := fun bytes h =>
  ((Z.of_nat (length bytes), None), h ++ bytes).

#[export] Instance multi_writer {W} `{Writer W} : Writer (W * Hasher) := fun bytes w =>
  let '((n, e), w1) := WriteBytes bytes w.1 in
  match e with
  | Some e => ((n, Some e), (w1, w.2))
  | None =>
      if negb (n =? Z.of_nat (length bytes)) then ((n, Some (Sentinel IoErrShortWrite)), (w1, w.2))
      else ((n, None), (w1, (WriteBytes bytes w.2).2))
  end.

(** ** Laws *)

(** Every read that does not end the stream consumes some of it, and no read overruns its
    buffer. *)
Class ReaderSize (R : Type) `{Reader R} := {
  rsize : R -> nat;
  rsize_lt n (r : R) bytes r' : 1 <= n -> Read n r = ((bytes, None), r') -> (rsize r' < rsize r)%nat;
  read_bound n (r : R) bytes e r' :
    1 <= n -> Read n r = ((bytes, e), r') -> Z.of_nat (length bytes) <= n }.

(** The bytes a writer has accepted, in order; it reports how many it took of each buffer. *)
Class Received (W : Type) `{Writer W} := {
  received : W -> list Z;
  write_contract bytes w n e w' :
    WriteBytes bytes w = ((n, e), w') ->
    0 <= n <= Z.of_nat (length bytes) /\ received w' = received w ++ take (Z.to_nat n) bytes }.

Lemma received_write {W} `{Received W} bytes (w w' : W) :
  WriteBytes bytes w = ((Z.of_nat (length bytes), None), w') -> received w' = received w ++ bytes.
Proof. intros [_ ->]%write_contract. by rewrite Nat2Z.id, firstn_all. Qed.

Lemma script_size_cons bytes e s : script_size ((bytes, e) :: s) = (S (length bytes) + script_size s)%nat.
Proof. done. Qed.

#[export] Program Instance script_rsize : ReaderSize script := { rsize := script_size }.
Next Obligation.
  intros n [|[b e] s] bytes r' Hn H; unfold Read, script_reader in H; [done|].
  destruct (Z.leb_spec (Z.of_nat (length b)) n); simplify_eq; rewrite !script_size_cons.
  - lia.
  - rewrite length_drop. lia.
Qed.
Next Obligation.
  intros n [|[b e] s] bytes e' r' Hn H; unfold Read, script_reader in H; simplify_eq/=; [lia|].
  destruct (Z.leb_spec (Z.of_nat (length b)) n); simplify_eq; [done|].
  rewrite length_take. lia.
Qed.

#[export] Program Instance limited_rsize {R} `{ReaderSize R} : ReaderSize (LimitedReader R) :=
  { rsize l := rsize l.(lr_R) }.
Next Obligation.
  intros R ? ? n l bytes l' Hn Hr. unfold Read, limited_reader in Hr.
  destruct (Z.leb_spec (lr_N l) 0); [done|].
  destruct (Read _ (lr_R l)) as [result r] eqn:E. simplify_eq/=.
  eapply rsize_lt; [|exact E]. lia.
Qed.
Next Obligation.
  intros R ? ? n l bytes e l' Hn Hr. unfold Read, limited_reader in Hr.
  destruct (Z.leb_spec (lr_N l) 0); [simplify_eq/=; lia|].
  destruct (Read _ (lr_R l)) as [result r] eqn:E. simplify_eq/=.
  apply read_bound in E; lia.
Qed.

#[export] Program Instance file_rsize : ReaderSize OsFile := { rsize f := script_size f.(of_script) }.
Next Obligation.
  intros n f bytes f' Hn Hr. unfold Read, file_reader in Hr.
  destruct (Read n (of_script f)) as [result s] eqn:E. simplify_eq/=.
  exact (rsize_lt n (of_script f) bytes s Hn E).
Qed.
Next Obligation.
  intros n f bytes e f' Hn Hr. unfold Read, file_reader in Hr.
  destruct (Read n (of_script f)) as [result s] eqn:E. simplify_eq/=.
  exact (read_bound n (of_script f) bytes e s Hn E).
Qed.

#[export] Program Instance hash_received : Received Hasher := { received h := h }.
Next Obligation.
  intros bytes h n e h' [= <- _ <-]. rewrite Nat2Z.id, firstn_all. split; [lia|done].
Qed.

#[export] Program Instance file_received : Received OsFile := { received := of_written }.
Next Obligation.
  intros bytes f n e f' H. unfold WriteBytes, file_writer in H. injection H as Ho <-. cbn.
  rewrite Ho. cbn. split; [|done]. destruct (fe_write _ _) as [[m em]|]; simplify_eq; lia.
Qed.

Lemma multi_write_ok {W} `{Received W} bytes (w : W) (h : Hasher) n w' :
  WriteBytes bytes (w, h) = ((n, None), w') ->
  n = Z.of_nat (length bytes) /\ WriteBytes bytes w = ((n, None), w'.1) /\ w'.2 = h ++ bytes.
Proof.
  unfold WriteBytes at 1, multi_writer. cbn [fst snd].
  destruct (WriteBytes bytes w) as [[n1 [e|]] w1]; [done|].
  destruct (Z.eqb_spec n1 (Z.of_nat (length bytes))); [|done]. by intros [= <- <-].
Qed.

#[export] Program Instance multi_received {W} `{Received W} : Received (W * Hasher) :=
  { received w := received w.1 }.
Next Obligation.
  intros W ? ? bytes [w h] n e w' Hw. unfold WriteBytes, multi_writer in Hw. cbn [fst snd] in *.
  destruct (WriteBytes bytes w) as [[n1 e1] w1] eqn:E. apply write_contract in E.
  destruct e1; [by simplify_eq|]. destruct (negb _); by simplify_eq.
Qed.

(** ** What a reader delivers *)
Section delivers.
Context {R : Type} `{Reader R}.

(** Reads without an error, then (for [delivers]) one with an error. *)
Inductive steps : R -> list Z -> R -> Prop :=
| steps_nil r : steps r [] r
| steps_cons n r bytes r1 rest r' :
    1 <= n -> Read n r = ((bytes, None), r1) -> steps r1 rest r' -> steps r (bytes ++ rest) r'.

Inductive delivers : R -> list Z -> error -> R -> Prop :=
| delivers_end n r bytes e r' :
    1 <= n -> Read n r = ((bytes, Some e), r') -> delivers r bytes e r'
| delivers_step n r bytes r1 rest e r' :
    1 <= n -> Read n r = ((bytes, None), r1) -> delivers r1 rest e r' ->
    delivers r (bytes ++ rest) e r'.
End delivers.

Lemma is_EOF_true e : is_EOF e = true <-> e = EOF.
Proof. unfold EOF. destruct e as [[]| | | |]; split; (done || discriminate). Qed.

Lemma wrap64_add a b : wrap64 (wrap64 a + b) = wrap64 (a + b).
Proof.
  unfold wrap64. f_equal. generalize (2 ^ 63) (2 ^ 64). intros h m.
  replace ((a + h) mod m - h + b + h) with ((a + h) mod m + b) by ring.
  rewrite Zplus_mod_idemp_l. f_equal. ring.
Qed.

Section copy.
Context {R W : Type} `{ReaderSize R} `{Received W}.

(** A copy that succeeds has read up to the end of the file and handed every byte over; [app]
    says what a buffer written in full adds to the part [g] of the writer's state. *)
Lemma copy_loop_act {A} (g : W -> A) (app : A -> list Z -> A) fuel buffer written (r : R) (w : W) n r' w' :
  (forall a, app a [] = a) -> (forall a x y, app (app a x) y = app a (x ++ y)) ->
  (forall bytes w w', WriteBytes bytes w = ((Z.of_nat (length bytes), None), w') ->
     g w' = app (g w) bytes) ->
  1 <= buffer -> copy_loop fuel buffer written r w = (Ok n, r', w') ->
  exists bytes, delivers r bytes EOF r' /\ g w' = app (g w) bytes /\
    (bytes = [] /\ n = written \/ n = wrap64 (written + Z.of_nat (length bytes))).
Proof.
  intros Hnil Happ Hg Hb. revert written r w.
  induction fuel as [|fuel IH]; intros written r w Hc; [done|].
  cbn [copy_loop] in Hc. destruct (Read buffer r) as [[bytes re] r1] eqn:Er.
  assert (forall written1 w1,
    match re with
    | Some e => (if is_EOF e then Ok written1 else Err e, r1, w1)
    | None => copy_loop fuel buffer written1 r1 w1
    end = (Ok n, r', w') ->
    exists rest, delivers r (bytes ++ rest) EOF r' /\ g w' = app (g w1) rest /\
      (rest = [] /\ n = written1 \/ n = wrap64 (written1 + Z.of_nat (length rest)))) as Hfinish.
  { intros written1 w1 Hf. destruct re as [e|].
    - destruct (is_EOF e) eqn:Ee; [|done]. apply is_EOF_true in Ee as ->. simplify_eq.
      exists []. rewrite app_nil_r, Hnil. split_and!; [|done|by left]. by apply delivers_end with buffer.
    - apply IH in Hf as (rest & Hd & Hr & Hn). exists rest. split_and!; [|done..].
      by apply delivers_step with buffer r1. }
  destruct bytes as [|b0 bytes'].
  { apply Hfinish in Hc as (rest & ? & ? & ?). by exists rest. }
  set (bytes := b0 :: bytes') in *.
  destruct (WriteBytes bytes w) as [[n1 we] w1] eqn:Ew. cbv zeta in Hc.
  destruct ((n1 <? 0) || (Z.of_nat (length bytes) <? n1)) eqn:Ebad.
  { by destruct we. }
  destruct we as [|]; [done|].
  destruct (Z.eqb_spec n1 (Z.of_nat (length bytes))) as [->|]; [|done]. cbn [negb] in Hc.
  apply Hg in Ew. apply Hfinish in Hc as (rest & Hd & Hr & Hn).
  exists (bytes ++ rest). split_and!; [done|by rewrite Hr, Ew, Happ|].
  right. rewrite length_app, Nat2Z.inj_add.
  destruct Hn as [[-> ->]| ->]; rewrite ?wrap64_add; f_equal; simpl; lia.
Qed.

Lemma copy_loop_ok fuel buffer written (r : R) (w : W) n r' w' :
  1 <= buffer -> copy_loop fuel buffer written r w = (Ok n, r', w') ->
  exists bytes, delivers r bytes EOF r' /\ received w' = received w ++ bytes /\
    (bytes = [] /\ n = written \/ n = wrap64 (written + Z.of_nat (length bytes))).
Proof.
  intros Hb Hc. apply (copy_loop_act received (++)) in Hc; [done|..|done].
  - apply app_nil_r.
  - intros. by rewrite app_assoc.
  - intros bytes1 w1 w2. apply received_write.
Qed.

(** Whatever its outcome, a copy hands over a prefix of what it has read. *)
Lemma copy_loop_prefix fuel buffer written (r : R) (w : W) res r' w' :
  1 <= buffer -> copy_loop fuel buffer written r w = (res, r', w') ->
  exists bytes k, (steps r bytes r' \/ exists e, delivers r bytes e r') /\
    received w' = received w ++ take k bytes.
Proof.
  intros Hb. revert written r w. induction fuel as [|fuel IH]; intros written r w Hc.
  { simplify_eq/=. exists [], 0%nat. rewrite app_nil_r. split; [left; constructor|done]. }
  cbn [copy_loop] in Hc. destruct (Read buffer r) as [[bytes re] r1] eqn:Er.
  assert (forall k, exists bytes' k', (steps r bytes' r1 \/ exists e, delivers r bytes' e r1) /\
    take k bytes = take k' bytes') as Hone.
  { intros k. exists bytes, k. split; [|done]. destruct re as [e|].
    - right. exists e. by apply delivers_end with buffer.
    - left. rewrite <- (app_nil_r bytes). by apply steps_cons with buffer r1; [..|constructor]. }
  assert (forall written1 w1,
    match re with
    | Some e => (if is_EOF e then Ok written1 else Err e, r1, w1)
    | None => copy_loop fuel buffer written1 r1 w1
    end = (res, r', w') -> received w1 = received w ++ bytes ->
    exists bytes' k, (steps r bytes' r' \/ exists e, delivers r bytes' e r') /\
      received w' = received w ++ take k bytes') as Hfinish.
  { intros written1 w1 Hf Hw. destruct re as [e|].
    - assert (r' = r1 /\ w' = w1) as [-> ->] by (destruct (is_EOF e); by simplify_eq).
      destruct (Hone (length bytes)) as (bytes' & k' & Hd & Ht).
      exists bytes', k'. split; [done|]. by rewrite Hw, <- Ht, firstn_all.
    - apply IH in Hf as (rest & k & Hd & Hr). exists (bytes ++ rest), (length bytes + k)%nat.
      split; [|by rewrite Hr, Hw, take_app_add, app_assoc].
      destruct Hd as [Hd|[e Hd]];
        [left; by apply steps_cons with buffer r1|right; exists e; by apply delivers_step with buffer r1]. }
  destruct bytes as [|b0 bytes'].
  { apply (Hfinish written w) in Hc; [done|by rewrite app_nil_r]. }
  set (bytes := b0 :: bytes') in *.
  destruct (WriteBytes bytes w) as [[n we] w1] eqn:Ew. cbv zeta in Hc.
  apply write_contract in Ew as [Hn Hw].
  rewrite (proj2 (Z.ltb_ge _ _)), (proj2 (Z.ltb_ge _ _)) in Hc by lia. cbn [orb] in Hc.
  assert (forall o, (o, r1, w1) = (res, r', w') -> exists bytes k,
    (steps r bytes r' \/ exists e, delivers r bytes e r') /\
    received w' = received w ++ take k bytes) as Hstop.
  { intros o [= <- <- <-]. destruct (Hone (Z.to_nat n)) as (bytes1 & k' & Hd & Ht).
    exists bytes1, k'. by rewrite Hw, Ht. }
  destruct we as [e|]; [by apply Hstop in Hc|].
  destruct (Z.eqb_spec n (Z.of_nat (length bytes))) as [->|]; cbn [negb] in Hc; [|by apply Hstop in Hc].
  apply Hfinish in Hc; [done|]. by rewrite Hw, Nat2Z.id, firstn_all.
Qed.

(** What every write keeps, a copy keeps. *)
Lemma copy_loop_inv (P : W -> Prop) fuel buffer written (r : R) (w : W) :
  (forall bytes n e w w', WriteBytes bytes w = ((n, e), w') -> P w -> P w') ->
  P w -> P (copy_loop fuel buffer written r w).2.
Proof.
  intros Hstep. revert written r w. induction fuel as [|fuel IH]; intros written r w Hw; [done|].
  cbn [copy_loop]. destruct (Read buffer r) as [[bytes re] r1].
  assert (forall written1 w1, P w1 -> P (match re with
    | Some e => (if is_EOF e then Ok written1 else Err e, r1, w1)
    | None => copy_loop fuel buffer written1 r1 w1
    end).2) as Hfinish.
  { intros written1 w1 Hw1. destruct re; [done|]. by apply IH. }
  destruct bytes as [|b bs]; [by apply Hfinish|].
  destruct (WriteBytes (b :: bs) w) as [[n we] w1] eqn:Ew. apply Hstep in Ew; [|done].
  set (bad := (n <? 0) || _). destruct we as [e|]; [done|]. destruct bad; [done|].
  destruct (negb _); [done|]. by apply Hfinish.
Qed.

(** Enough fuel: one more than the size of the reader. *)
Lemma copy_loop_no_panic fuel buffer written (r : R) (w : W) :
  1 <= buffer -> (rsize r < fuel)%nat -> no_panic (copy_loop fuel buffer written r w).1.1.
Proof.
  intros Hb. revert written r w. induction fuel as [|fuel IH]; intros written r w Hf; [lia|].
  cbn [copy_loop]. destruct (Read buffer r) as [[bytes re] r1] eqn:Er.
  assert (forall written1 w1, no_panic (match re with
    | Some e => (if is_EOF e then Ok written1 else Err e, r1, w1)
    | None => copy_loop fuel buffer written1 r1 w1
    end).1.1) as Hfinish.
  { intros written1 w1. destruct re as [e|]; [by destruct (is_EOF e)|]. apply IH.
    apply rsize_lt in Er; [lia|done]. }
  destruct bytes as [|b bs]; [apply Hfinish|].
  destruct (WriteBytes (b :: bs) w) as [[n we] w1]. cbv zeta.
  set (bad := (n <? 0) || _). destruct we as [e|]; [done|]. destruct bad; [done|].
  destruct (negb _); [done|]. apply Hfinish.
Qed.
End copy.

(** [io.Copy] and [io.CopyBuffer], with the fuel that is always enough. *)
Definition CopyBuffer {R W} `{ReaderSize R} `{Writer W} (buffer : Z) (r : R) (w : W) : res Z * R * W :=
  copy_loop (S (rsize r)) buffer 0 r w.
Definition ReadFull {R} `{ReaderSize R} (want : Z) (r : R) : res (list Z * option error) * R :=
  read_full_loop (S (rsize r)) want [] r.

Lemma CopyBuffer_ok {R W} `{ReaderSize R} `{Received W} buffer (r : R) (w : W) n r' w' :
  1 <= buffer -> CopyBuffer buffer r w = (Ok n, r', w') ->
  exists bytes, delivers r bytes EOF r' /\ received w' = received w ++ bytes /\
    n = wrap64 (Z.of_nat (length bytes)).
Proof.
  intros Hb Hc. apply copy_loop_ok in Hc as (bytes & Hd & Hr & Hn); [|done].
  exists bytes. split_and!; [done..|]. by destruct Hn as [[-> ->]| ->].
Qed.

Lemma CopyBuffer_no_panic {R W} `{ReaderSize R} `{Received W} buffer (r : R) (w : W) :
  1 <= buffer -> no_panic (CopyBuffer buffer r w).1.1.
Proof. intros Hb. apply copy_loop_no_panic; [done|lia]. Qed.

Section read_full.
Context {R : Type} `{ReaderSize R}.

Lemma read_full_no_panic fuel want got (r : R) :
  (rsize r < fuel)%nat -> no_panic (read_full_loop fuel want got r).1.
Proof.
  revert got r. induction fuel as [|fuel IH]; intros got r Hf; [lia|]. cbn [read_full_loop].
  destruct (Z.leb_spec want (Z.of_nat (length got))); [done|].
  destruct (Read _ r) as [[bytes [e|]] r'] eqn:Er.
  - destruct (want <=? _); [done|]. by destruct (got ++ bytes).
  - apply IH. apply rsize_lt in Er; lia.
Qed.

(** The bytes asked for, or all there were and the error that ended the stream. *)
Lemma read_full_ok fuel want got (r : R) all e r' :
  Z.of_nat (length got) <= want -> read_full_loop fuel want got r = (Ok (all, e), r') ->
  exists bytes, all = got ++ bytes /\
    ((e = None /\ Z.of_nat (length all) = want /\ (steps r bytes r' \/ exists e', delivers r bytes e' r')) \/
     (Z.of_nat (length all) < want /\ exists e', delivers r bytes e' r' /\
        e = Some (if is_EOF e' && (0 <? length all)%nat then Sentinel IoErrUnexpectedEOF else e'))).
Proof.
  revert got r. induction fuel as [|fuel IH]; intros got r Hl Hr; cbn [read_full_loop] in Hr;
    destruct (Z.leb_spec want (Z.of_nat (length got))) as [Hw|Hw]; try done.
  1, 2: simplify_eq; exists []; rewrite app_nil_r; split; [done|]; left;
    split_and!; [done|lia|left; constructor].
  destruct (Read _ r) as [[bytes re] r1] eqn:Er.
  assert (Z.of_nat (length bytes) <= want - Z.of_nat (length got)) as Hbound
    by (eapply read_bound; [|exact Er]; lia).
  destruct re as [e1|].
  - assert (delivers r bytes e1 r1) as Hd by (eapply delivers_end; [|exact Er]; lia).
    exists bytes. destruct (Z.leb_spec want (Z.of_nat (length (got ++ bytes)))) as [Hw1|Hw1].
    + simplify_eq. split; [done|]. left. rewrite length_app in *. split_and!; [done|lia|eauto].
    + destruct (got ++ bytes) as [|b bs] eqn:Eg; simplify_eq; (split; [done|]); right;
        (split; [done|]); exists e1; (split; [done|]); simpl; by destruct (is_EOF e1).
  - apply IH in Hr as (rest & -> & Hrest); [|rewrite length_app; lia].
    exists (bytes ++ rest). split; [by rewrite app_assoc|].
    destruct Hrest as [(-> & Hlen & Hs)|(Hlen & e1 & Hd & ->)].
    + left. split_and!; [done..|]. destruct Hs as [Hs|[e1 Hd]].
      * left. eapply steps_cons; [|exact Er|done]. lia.
      * right. exists e1. eapply delivers_step; [|exact Er|done]. lia.
    + right. split; [done|]. exists e1. split; [|done].
      eapply delivers_step; [|exact Er|done]. lia.
Qed.
End read_full.

(** ** Scripts and files *)
Lemma script_read n (s : script) bytes e s' :
  1 <= n -> Read n s = ((bytes, e), s') ->
  stream s = match e with
             | Some e => (bytes, e)
             | None => (bytes ++ (stream s').1, (stream s').2)
             end.
Proof.
  intros Hn H. destruct s as [|[b re] s]; unfold Read, script_reader in H; [by simplify_eq|].
  destruct (_ <=? _); simplify_eq; [by destruct e|].
  cbn [stream]. destruct re as [e|]; cbn [fst snd]; rewrite ?app_assoc, take_drop; done.
Qed.

Lemma script_delivers (s : script) bytes e s' : delivers s bytes e s' -> stream s = (bytes, e).
Proof.
  induction 1 as [n s bytes e s' Hn Hr|n s bytes s1 rest e s' Hn Hr _ IH];
    apply (script_read _ _ _ _ _ Hn) in Hr; [done|]. by rewrite Hr, IH.
Qed.

Lemma script_steps (s : script) bytes s' :
  steps s bytes s' -> stream s = (bytes ++ (stream s').1, (stream s').2).
Proof.
  induction 1 as [s|n s bytes s1 rest s' Hn Hr _ IH]; [by destruct (stream s)|].
  apply (script_read _ _ _ _ _ Hn) in Hr. rewrite Hr, IH. cbn [fst snd]. by rewrite app_assoc.
Qed.

Lemma file_delivers (f : OsFile) bytes e f' : delivers f bytes e f' -> stream f.(of_script) = (bytes, e).
Proof.
  intros H. apply (script_delivers _ _ _ f'.(of_script)).
  induction H as [n f bytes e f' Hn Hr|n f bytes f1 rest e f' Hn Hr _ IH];
    unfold Read, file_reader in Hr; destruct (Read n (of_script f)) as [result s] eqn:E;
    simplify_eq/=; [by apply delivers_end with n|by apply delivers_step with n s].
Qed.

(** A limited reader stops at the end of the stream under it or after [N] bytes. *)
Lemma limited_delivers {R} `{ReaderSize R} (l : LimitedReader R) bytes l' :
  0 <= l.(lr_N) -> delivers l bytes EOF l' ->
  Z.of_nat (length bytes) <= l.(lr_N) /\
  (delivers l.(lr_R) bytes EOF l'.(lr_R) \/
   steps l.(lr_R) bytes l'.(lr_R) /\ Z.of_nat (length bytes) = l.(lr_N)).
Proof.
  intros HN Hd. remember EOF as e eqn:He.
  induction Hd as [n l bytes e l' Hn Hr|n l bytes l1 rest e l' Hn Hr _ IH]; subst e;
    unfold Read, limited_reader in Hr; destruct (Z.leb_spec (lr_N l) 0).
  - simplify_eq/=. split; [lia|]. right. split; [constructor|simpl; lia].
  - destruct (Read _ (lr_R l)) as [result r] eqn:E. simplify_eq/=.
    assert (Z.of_nat (length bytes) <= Z.min n (lr_N l)) by (eapply read_bound; [|exact E]; lia).
    split; [lia|]. left.
    eapply delivers_end; [|exact E]. lia.
  - done.
  - destruct (Read _ (lr_R l)) as [result r] eqn:E. simplify_eq/=.
    assert (Z.of_nat (length bytes) <= Z.min n (lr_N l)) by (eapply read_bound; [|exact E]; lia).
    rewrite length_app.
    destruct IH as [Hle Hs]; [lia|done|]. split; [lia|]. destruct Hs as [Hs|[Hs Hl]].
    + left. eapply delivers_step; [|exact E|done]. lia.
    + right. split; [|lia]. eapply steps_cons; [|exact E|done]. lia.
Qed.
