(* ===== verification/Image.v ===== *)
(** * Verified image sources ([internal/image/verified.go])

    Opening a source, hashing its complete content through one descriptor, detecting its format
    and holding the descriptor until it is closed. *)

From S2P Require Export Io.
Open Scope Z_scope.

Abbreviation Format := string.
Definition FormatRaw : Format := "raw".
Definition FormatZstd : Format := "zstd".

(** The mutex is not a field here: the operations below run one at a time, which [Sharing.v] shows
    to be enough for concurrent callers. *)
Record Verified := {
  v_Path : string;
  v_SHA256 : string;
  v_Format : Format;
  v_CompressedBytes : Z;
  v_file : option OsFile }.

Definition set_file (v : Verified) (f : option OsFile) : Verified :=
  {| v_Path := v.(v_Path); v_SHA256 := v.(v_SHA256); v_Format := v.(v_Format);
     v_CompressedBytes := v.(v_CompressedBytes); v_file := f |}.

(** [Close], on a possibly nil pointer: the error, the source after it, and the descriptor when
    this call closed it. *)
Definition Verified_Close (v : option Verified) : res unit * option Verified * option OsFile :=
  match v with
  | None => (Ok tt, None, None)
  | Some v =>
      match v.(v_file) with
      | None => (Ok tt, Some v, None)
      | Some f => let (err, f) := file_Close f in (err, Some (set_file v None), Some f)
      end
  end.

Definition validateDigest (value : string) : res string :=
  match DecodeString value with
  | Some decoded =>
      if negb (length decoded =? 32)%nat || negb (String.length value =? 64)%nat
         || negb (bool_decide (value = ToLower value))
      then Err (errorf_sentinel ErrInvalidDigest
                  [Lit "must contain exactly 64 lowercase hexadecimal characters"])
      else Ok value
  | None => Err (errorf_sentinel ErrInvalidDigest
                   [Lit "must contain exactly 64 lowercase hexadecimal characters"])
  end.

(** A copy out of the file that is the state. *)
Definition copy_from {W} `{Received W} (buffer : Z) (w : W) : M error OsFile (Z * W) := fun f =>
  let '((r, f), w) := CopyBuffer buffer f w in ((fun n => (n, w)) <$> r, f).
Definition read_full (want : Z) : M error OsFile (list Z * option error) := ReadFull want.

Definition zstdMagic : list Z := [0x28; 0xb5; 0x2f; 0xfd].

Definition descriptorFormat : M error OsFile Format :=
  map_error (wrap_error "rewind image source: ") file_Seek;;
  header ← read_full (Z.of_nat (length zstdMagic));
  match header.2 with
  | Some err =>
      lift (refuse_if (negb (errors_Is err IoErrUnexpectedEOF) && negb (errors_Is err IoEOF))
              (wrap_error "read image header: " err))
  | None => mret tt
  end;;
  map_error (wrap_error "rewind image source: ") file_Seek;;
  mret (if bool_decide (header.1 = zstdMagic) then FormatZstd else FormatRaw).

Definition verifyDescriptor (path expectedSHA256 : string) : M error OsFile Verified :=
  info ← map_error (wrap_error "stat image source: ") file_Stat;
  lift (refuse_if (negb info.(fi_regular))
          (errorf_sentinel ErrInvalidSource [Lit "must be a regular file"]));;
  map_error (wrap_error "rewind image source: ") file_Seek;;
  copied ← map_error (wrap_error "hash complete image: ") (copy_from defaultBuffer ([] : Hasher));
  let actual := hex_digest copied.2 in
  lift (refuse_if (negb (bool_decide (actual = expectedSHA256)))
          (errorf_sentinel ErrDigestMismatch [Lit "got "; Lit actual]));;
  format ← descriptorFormat;
  file ← gets (fun f : OsFile => f);
  mret {| v_Path := path; v_SHA256 := actual; v_Format := format;
          v_CompressedBytes := copied.1; v_file := Some file |}.

(** [open] is [os.Open]: for each path an error, or a descriptor.  The result comes with the final
    state of the descriptor, if one was opened. *)
Definition Verify (open : string -> outcome (FileEnv * script)) (path expectedSHA256 : string)
    : res Verified * option OsFile :=
  match validateDigest expectedSHA256 with
  | Ok expected =>
      match open path with
      | inl e => (Err (wrap_error "open image source: " e), None)
      | inr (env, s) =>
          let (verified, file) :=
            on_failure (verifyDescriptor path expected) file_Close (new_file env s) in
          (verified, Some file)
      end
  | Err e => (Err e, None)
  | Panic => (Panic, None)
  end.

(** ** Lemmas *)
Lemma validateDigest_ok value d :
  validateDigest value = Ok d <-> d = value /\ lower_hex_text 64 value.
Proof.
  rewrite <- bad_digest_spec. unfold validateDigest, bad_digest.
  destruct (DecodeString value) as [bs|]; [|split; [done|by intros [_ ?]]].
  destruct (_ || _ || _); split; try done; [by intros [_ ?]|by intros [= ->]|by intros [-> _]].
Qed.

Lemma validateDigest_no_panic value : no_panic (validateDigest value).
Proof. unfold validateDigest. destruct (DecodeString value); [|done]. by destruct (_ || _ || _). Qed.

(** The operations that only read leave what was written, and do not close. *)
Definition same_output (f f' : OsFile) : Prop :=
  f'.(of_env) = f.(of_env) /\ f'.(of_written) = f.(of_written) /\
  f'.(of_durable) = f.(of_durable) /\ f'.(of_closed) = f.(of_closed).

Lemma same_output_refl f : same_output f f.
Proof. done. Qed.
Lemma same_output_trans f g h : same_output f g -> same_output g h -> same_output f h.
Proof. unfold same_output. intuition congruence. Qed.
#[export] Instance same_output_preorder : PreOrder same_output.
Proof. split; [exact same_output_refl|exact same_output_trans]. Qed.

(** A computation that only reads, and never panics. *)
Definition read_only {A} (m : M error OsFile A) : Prop :=
  forall f, same_output f (m f).2 /\ no_panic (m f).1.

Lemma read_only_bind {A B} (m : M error OsFile A) (k : A -> M error OsFile B) :
  read_only m -> (forall a, read_only (k a)) -> read_only (m ≫= k).
Proof.
  intros Hm Hk f. unfold mbind, M_bind. destruct (Hm f) as [H1 H2].
  destruct (m f) as [[a|e|] f1]; cbn in *; [|done..].
  destruct (Hk a f1) as [H3 H4]. split; [|done]. by transitivity f1.
Qed.

Lemma read_only_ret {A} (a : A) : read_only (mret a).
Proof. done. Qed.
Lemma read_only_gets {A} (g : OsFile -> A) : read_only (gets g).
Proof. done. Qed.
Lemma read_only_refuse b e : read_only (lift (refuse_if b e)).
Proof. intros f. split; [done|]. by destruct b. Qed.
Lemma read_only_map_error {A} g (m : M error OsFile A) : read_only m -> read_only (map_error g m).
Proof.
  intros H f. unfold map_error. destruct (H f) as [H1 H2].
  destruct (m f) as [[a|e|] f1]; by cbn in *.
Qed.
Lemma read_only_Stat : read_only file_Stat.
Proof. intros f. split; [done|]. apply returned_no_panic. Qed.
Lemma read_only_Seek : read_only file_Seek.
Proof. intros f. split; [done|]. unfold file_Seek. by destruct (fe_seek _ _). Qed.

#[export] Hint Resolve read_only_bind read_only_ret read_only_gets read_only_refuse
  read_only_map_error read_only_Stat read_only_Seek : go.

Lemma file_read_same n (f : OsFile) result f' : Read n f = (result, f') -> same_output f f'.
Proof.
  unfold Read, file_reader. destruct (Read n (of_script f)). by intros [= <- <-].
Qed.

Lemma copy_loop_same {W} `{Writer W} fuel buffer written (f : OsFile) (w : W) :
  same_output f (copy_loop fuel buffer written f w).1.2.
Proof.
  revert written f w. induction fuel as [|fuel IH]; intros written f w; [done|].
  cbn [copy_loop]. destruct (Read buffer f) as [[bytes re] f1] eqn:Er.
  apply file_read_same in Er. cbv zeta.
  assert (forall written1 w1, same_output f (match re with
    | Some e => (if is_EOF e then Ok written1 else Err e, f1, w1)
    | None => copy_loop fuel buffer written1 f1 w1
    end).1.2) as Hf.
  { intros written1 w1. destruct re; [done|]. by transitivity f1. }
  destruct bytes as [|b bs]; [apply Hf|]. destruct (WriteBytes (b :: bs) w) as [[n we] w1].
  set (bad := (n <? 0) || _). destruct we as [e|]; [done|]. destruct bad; [done|].
  destruct (negb _); [done|]. apply Hf.
Qed.

Lemma read_only_copy_from {W} `{Received W} buffer (w : W) : 1 <= buffer -> read_only (copy_from buffer w).
Proof.
  intros Hb f. unfold copy_from. pose proof (CopyBuffer_no_panic buffer f w Hb) as Hp.
  pose proof (copy_loop_same (S (rsize f)) buffer 0 f w) as Hs. unfold CopyBuffer in *.
  destruct (copy_loop _ _ _ _ _) as [[r f1] w1]. cbn in *. split; [done|]. by destruct r.
Qed.

Lemma read_full_same fuel want got (f : OsFile) : same_output f (read_full_loop fuel want got f).2.
Proof.
  revert got f. induction fuel as [|fuel IH]; intros got f; cbn [read_full_loop];
    destruct (want <=? _); try done.
  destruct (Read _ f) as [[bytes re] f1] eqn:Er. apply file_read_same in Er.
  destruct re as [e|]; [|by transitivity f1]. destruct (want <=? _); [done|].
  by destruct (got ++ bytes).
Qed.

Lemma read_only_read_full want : read_only (read_full want).
Proof. intros f. split; [apply read_full_same|]. apply read_full_no_panic. lia. Qed.
#[export] Hint Resolve read_only_copy_from read_only_read_full : go.

Lemma read_only_descriptorFormat : read_only descriptorFormat.
Proof.
  unfold descriptorFormat. apply read_only_bind; [auto with go|]. intros _.
  apply read_only_bind; [auto with go|]. intros header. apply read_only_bind; [|auto with go].
  destruct (header.2); auto with go.
Qed.

Lemma read_only_verifyDescriptor path digest : read_only (verifyDescriptor path digest).
Proof.
  unfold verifyDescriptor. do 3 (apply read_only_bind; [auto with go|intros ?]).
  apply read_only_bind; [by apply read_only_map_error, read_only_copy_from|]. intros copied.
  apply read_only_bind; [auto with go|intros ?].
  apply read_only_bind; [apply read_only_descriptorFormat|intros format].
  apply read_only_bind; [auto with go|intros file]. auto with go.
Qed.

(** What each rewind of the environment makes readable. *)
Definition pass (env : FileEnv) (n : nat) (s : script) : Prop := env.(fe_seek) n = inr s.

Lemma file_Seek_ok f u f' :
  file_Seek f = (Ok u, f') ->
  pass f.(of_env) f.(of_seeks) f'.(of_script) /\ f'.(of_env) = f.(of_env) /\
  f'.(of_seeks) = S f.(of_seeks) /\ f'.(of_stats) = f.(of_stats).
Proof.
  unfold file_Seek, pass. destruct (fe_seek _ _) as [e|s] eqn:E; [done|]. by intros [= <- <-].
Qed.

(** Reading changes neither the position counters nor the environment. *)
Definition same_calls (f f' : OsFile) : Prop :=
  f'.(of_env) = f.(of_env) /\ f'.(of_seeks) = f.(of_seeks) /\ f'.(of_stats) = f.(of_stats).

Lemma file_Read_calls n (f : OsFile) result f' : Read n f = (result, f') -> same_calls f f'.
Proof. unfold Read, file_reader. destruct (Read n (of_script f)). by intros [= <- <-]. Qed.

Lemma file_delivers_calls (f : OsFile) bytes e f' : delivers f bytes e f' -> same_calls f f'.
Proof.
  induction 1 as [n f bytes e f' _ Hr|n f bytes f1 rest e f' _ Hr _ IH];
    apply file_Read_calls in Hr; [done|]. unfold same_calls in *. intuition congruence.
Qed.

Lemma file_steps_calls (f : OsFile) bytes f' : steps f bytes f' -> same_calls f f'.
Proof.
  induction 1 as [f|n f bytes f1 rest f' _ Hr _ IH]; [done|].
  apply file_Read_calls in Hr. unfold same_calls in *. intuition congruence.
Qed.

Lemma file_steps (f : OsFile) bytes f' :
  steps f bytes f' -> exists rest, (stream f.(of_script)).1 = bytes ++ rest.
Proof.
  intros H. exists (stream f'.(of_script)).1.
  induction H as [f|n f bytes f1 rest f' Hn Hr _ IH]; [done|].
  unfold Read, file_reader in Hr. destruct (Read n (of_script f)) as [result s] eqn:E.
  simplify_eq/=. apply (script_read _ _ _ _ _ Hn) in E. rewrite E. cbn [fst].
  by rewrite IH, app_assoc.
Qed.

Lemma copy_from_hash f buffer n h f' :
  1 <= buffer -> copy_from buffer ([] : Hasher) f = (Ok (n, h), f') ->
  stream f.(of_script) = (h, EOF) /\ n = wrap64 (Z.of_nat (length h)) /\ same_calls f f'.
Proof.
  intros Hb H. unfold copy_from in H.
  destruct (CopyBuffer buffer f []) as [[r f1] w1] eqn:E. destruct r as [m|e|]; [|done..].
  injection H as <- <- <-. apply CopyBuffer_ok in E as (bytes & Hd & Hr & ->); [|done].
  cbn in Hr. subst w1. split; [by apply file_delivers with f1|]. split; [done|].
  by apply file_delivers_calls in Hd.
Qed.

Definition detected (content : list Z) : Format :=
  if bool_decide (take 4 content = zstdMagic) then FormatZstd else FormatRaw.

Lemma descriptorFormat_ok f format f' :
  descriptorFormat f = (Ok format, f') ->
  exists s, pass f.(of_env) f.(of_seeks) s /\ format = detected (stream s).1 /\
    pass f.(of_env) (S f.(of_seeks)) f'.(of_script).
Proof.
  unfold descriptorFormat. intros H. inv_M. destruct a0 as [header err].
  apply file_Seek_ok in Ha as (Hpass & He & Hs & _).
  exists (of_script s). split; [done|]. unfold read_full, ReadFull in Ha0.
  apply read_full_ok in Ha0 as (bytes & Hh & Hend); [|simpl; lia]. simpl in Hh. subst bytes.
  assert (same_calls s s0 /\ detected (stream (of_script s)).1 =
    if bool_decide (header = zstdMagic) then FormatZstd else FormatRaw) as [Hc ->].
  { unfold detected. destruct Hend as [(-> & Hlen & Hst)|(Hlen & e & Hd & ->)].
    - assert (length header = 4)%nat as Hl by (change (Z.of_nat (length zstdMagic)) with 4 in Hlen; lia).
      destruct Hst as [Hst|[e Hd]].
      + split; [by apply file_steps_calls in Hst|]. apply file_steps in Hst as [rest ->].
        by rewrite take_app_length' by done.
      + split; [by apply file_delivers_calls in Hd|]. apply file_delivers in Hd as ->.
        cbn [fst]. by rewrite <- Hl, firstn_all.
    - split; [by apply file_delivers_calls in Hd|]. apply file_delivers in Hd as ->. cbn [fst].
      rewrite take_ge; [done|]. change (Z.of_nat (length zstdMagic)) with 4 in Hlen. lia. }
  assert (s1 = s0) as -> by (cbn in Ha1; destruct err; inv_M; done).
  split; [done|]. destruct Hc as (Hc1 & Hc2 & _).
  apply file_Seek_ok in Ha2 as (Hpass2 & _). by rewrite Hc1, Hc2, He, Hs in Hpass2.
Qed.

Lemma verifyDescriptor_ok path digest f v f' :
  verifyDescriptor path digest f = (Ok v, f') ->
  exists info s1 s2 content,
    f.(of_env).(fe_stat) f.(of_stats) = inr info /\ info.(fi_regular) = true /\
    pass f.(of_env) f.(of_seeks) s1 /\ stream s1 = (content, EOF) /\ hex_digest content = digest /\
    pass f.(of_env) (S f.(of_seeks)) s2 /\
    pass f.(of_env) (S (S f.(of_seeks))) f'.(of_script) /\
    v = {| v_Path := path; v_SHA256 := digest; v_Format := detected (stream s2).1;
           v_CompressedBytes := wrap64 (Z.of_nat (length content)); v_file := Some f' |}.
Proof.
  unfold verifyDescriptor. intros H. inv_M. destruct a2 as [n h]. cbn [fst snd] in *. bool_hyps.
  unfold file_Stat in Ha. destruct (fe_stat _ _) as [e|info] eqn:Estat; [done|].
  injection Ha as <- <-. apply file_Seek_ok in Ha1 as (Hp1 & He1 & Hn1 & _). cbn in *.
  apply copy_from_hash in Ha2 as (Hs & -> & He2 & Hn2 & _); [|done].
  apply descriptorFormat_ok in Ha4 as (s & Hp2 & -> & Hp3).
  rewrite He2, He1, Hn2, Hn1 in Hp2, Hp3.
  eexists info, _, _, h. split_and!; try done. by subst.
Qed.

(** Hashing fails only on a read error. *)
Lemma copy_hash_err {R} `{ReaderSize R} fuel buffer written (r : R) (h : Hasher) e r' h' :
  1 <= buffer -> copy_loop fuel buffer written r h = (Err e, r', h') ->
  exists bytes, delivers r bytes e r' /\ e <> EOF.
Proof.
  intros Hb. revert written r h. induction fuel as [|fuel IH]; intros written r h Hc; [done|].
  cbn [copy_loop] in Hc. destruct (Read buffer r) as [[bytes re] r1] eqn:Er.
  assert (forall written1 h1, match re with
    | Some e => (if is_EOF e then Ok written1 else Err e, r1, h1)
    | None => copy_loop fuel buffer written1 r1 h1
    end = (Err e, r', h') -> exists bytes, delivers r bytes e r' /\ e <> EOF) as Hfinish.
  { intros written1 h1 Hf. destruct re as [e1|].
    - destruct (is_EOF e1) eqn:Ee; [done|]. simplify_eq. exists bytes.
      split; [by apply delivers_end with buffer|]. intros ->. done.
    - apply IH in Hf as (rest & Hd & ?). exists (bytes ++ rest). split; [|done].
      by apply delivers_step with buffer r1. }
  destruct bytes as [|b bs]; [by apply Hfinish in Hc|].
  unfold WriteBytes, hash_writer in Hc. cbv zeta in Hc.
  rewrite (proj2 (Z.ltb_ge _ _)), (proj2 (Z.ltb_ge _ _)) in Hc by lia. cbn [orb] in Hc.
  rewrite Z.eqb_refl in Hc. by apply Hfinish in Hc.
Qed.

(** A file whose content stays the same: every rewind makes the same bytes readable. *)
Definition reads_as (env : FileEnv) (content : list Z) : Prop :=
  forall n, exists s, pass env n s /\ stream s = (content, EOF).

Lemma file_Seek_stable f content :
  reads_as f.(of_env) content ->
  exists f', file_Seek f = (Ok tt, f') /\ stream f'.(of_script) = (content, EOF) /\
    f'.(of_env) = f.(of_env).
Proof.
  intros H. destruct (H f.(of_seeks)) as (s & Hs & Hc). unfold file_Seek, pass in *. rewrite Hs.
  eexists. by split_and!.
Qed.

Lemma copy_from_stable f content :
  stream f.(of_script) = (content, EOF) ->
  exists n h f', copy_from defaultBuffer ([] : Hasher) f = (Ok (n, h), f').
Proof.
  intros Hs. unfold copy_from.
  pose proof (CopyBuffer_no_panic defaultBuffer f ([] : Hasher) ltac:(done)) as Hp.
  destruct (CopyBuffer defaultBuffer f []) as [[[n|e|] f'] h] eqn:E; [by eexists _, _, _| |done].
  apply copy_hash_err in E as (bytes & Hd & Hne); [|done].
  apply file_delivers in Hd. congruence.
Qed.

Lemma read_full_not_err {R} `{ReaderSize R} fuel want got (r : R) e :
  (read_full_loop fuel want got r).1 <> Err e.
Proof.
  revert got r. induction fuel as [|fuel IH]; intros got r; cbn [read_full_loop];
    destruct (want <=? _); try done.
  destruct (Read _ r) as [[bytes [e1|]] r1]; [|apply IH].
  destruct (want <=? _); [done|]. by destruct (got ++ bytes).
Qed.

Lemma read_full_stable want f content :
  0 <= want -> stream f.(of_script) = (content, EOF) ->
  exists header err f', read_full want f = (Ok (header, err), f') /\
    f'.(of_env) = f.(of_env) /\
    match err with
    | Some e => negb (errors_Is e IoErrUnexpectedEOF) && negb (errors_Is e IoEOF) = false
    | None => True
    end.
Proof.
  intros Hw Hs. destruct (read_only_read_full want f) as [(He & _) Hp].
  pose proof (read_full_not_err (S (rsize f)) want [] f) as Hne.
  destruct (read_full want f) as [[[header err]|e|] f'] eqn:E; [| |done].
  2: { unfold read_full, ReadFull in E. by destruct (Hne e); rewrite E. }
  eexists header, err, f'. split_and!; [done..|]. unfold read_full, ReadFull in E.
  apply read_full_ok in E as (bytes & -> & [(-> & _)|(_ & e & Hd & ->)]); [done| |done].
  apply file_delivers in Hd. rewrite Hs in Hd. simplify_eq. by destruct (_ && _).
Qed.

Lemma descriptorFormat_stable f content :
  reads_as f.(of_env) content -> exists format f', descriptorFormat f = (Ok format, f').
Proof.
  intros H. unfold descriptorFormat.
  destruct (file_Seek_stable f content H) as (f1 & E1 & Hs1 & He1).
  rewrite (M_bind_run _ _ _ _ _ (map_error_run _ _ _ _ _ E1)).
  destruct (read_full_stable (Z.of_nat (length zstdMagic)) f1 content) as (header & err & f2 & E2 &
    He2 & Herr); [done..|].
  rewrite (M_bind_run _ _ _ _ _ E2). cbn [fst snd].
  rewrite (M_bind_run _ _ f2 tt f2) by (destruct err; [by unfold lift; rewrite Herr|done]).
  destruct (file_Seek_stable f2 content) as (f3 & E3 & _); [by rewrite He2, He1|].
  rewrite (M_bind_run _ _ _ _ _ (map_error_run _ _ _ _ _ E3)). by eexists _, f3.
Qed.

Lemma Verify_complete open path env s0 info content :
  open path = inr (env, s0) -> env.(fe_stat) 0%nat = inr info -> info.(fi_regular) = true ->
  reads_as env content -> is_ok (Verify open path (hex_digest content)).1 = true.
Proof.
  intros Ho Hstat Hreg H. unfold Verify.
  rewrite (proj2 (validateDigest_ok _ (hex_digest content))) by (split; [done|apply hex_digest_text]).
  rewrite Ho. unfold on_failure, verifyDescriptor.
  set (f0 := new_file env s0). unfold mbind, M_bind, map_error, file_Stat at 1.
  replace (fe_stat (of_env f0) (of_stats f0)) with (inr info : outcome FileInfo) by done.
  cbn [returned map_err lift]. rewrite Hreg. cbn [negb refuse_if lift].
  match goal with |- context [file_Seek ?f] => set (f1 := f) end.
  destruct (file_Seek_stable f1 content H) as (f2 & -> & Hs & He). cbn [map_err].
  destruct (copy_from_stable f2 content Hs) as (n & h & f3 & E3). rewrite E3. cbn [map_err fst snd].
  apply copy_from_hash in E3 as (Hh & _ & He3 & _); [|done]. rewrite Hs in Hh.
  injection Hh as <-. rewrite bool_decide_true by done. cbn [negb refuse_if].
  destruct (descriptorFormat_stable f3 content) as (format & f4 & ->); [|done].
  by rewrite He3, He.
Qed.

(** C11: A source is accepted only with the complete content that was promised: on success the path
    was opened once, the descriptor is a regular file, everything read after the first rewind up
    to the end of the file has the requested digest, the format is the one of the bytes read after
    the second rewind, and that same descriptor is held, rewound, not closed; on failure an opened
    descriptor is closed exactly once; nothing is ever written to it. *)
Theorem Verify_sound open path digest :
  match Verify open path digest with
  | (Ok v, Some f) =>
      exists env s0 info s1 s2 content,
        open path = inr (env, s0) /\ env.(fe_stat) 0%nat = inr info /\ info.(fi_regular) = true /\
        pass env 0 s1 /\ stream s1 = (content, EOF) /\ hex_digest content = digest /\
        pass env 1 s2 /\ pass env 2 f.(of_script) /\
        v = {| v_Path := path; v_SHA256 := digest; v_Format := detected (stream s2).1;
               v_CompressedBytes := wrap64 (Z.of_nat (length content)); v_file := Some f |} /\
        f.(of_closed) = 0%nat /\ f.(of_written) = []
  | (Err _, Some f) => f.(of_closed) = 1%nat /\ f.(of_written) = []
  | (Err _, None) => validateDigest digest <> Ok digest \/ exists e, open path = inl e
  | _ => False
  end.
Proof.
  unfold Verify. pose proof (validateDigest_no_panic digest) as Hp.
  destruct (validateDigest digest) as [d|e|] eqn:Ed; [|by left|done].
  apply validateDigest_ok in Ed as [-> _]. destruct (open path) as [e|[env s0]] eqn:Eo; [by right; eexists|].
  destruct (read_only_verifyDescriptor path digest (new_file env s0)) as [(_ & Hw & _ & Hc) Hnp].
  unfold on_failure.
  destruct (verifyDescriptor path digest (new_file env s0)) as [[v|e|] f] eqn:E; [| |done].
  - apply verifyDescriptor_ok in E as (info & s1 & s2 & content & H).
    exists env, s0, info, s1, s2, content. intuition.
  - cbn in *. by rewrite Hw, Hc.
Qed.

(** C32: Every source that keeps the promise is accepted: for a regular file whose content stays
    the same while it is read, however the reads split it, [Verify] succeeds with the digest of
    that content; no other digest is accepted. *)
Theorem Verify_stable_source open path digest env s0 info content
    (Hopen : open path = inr (env, s0)) (Hstat : env.(fe_stat) 0%nat = inr info)
    (Hregular : info.(fi_regular) = true) (Hcontent : reads_as env content) :
  is_ok (Verify open path digest).1 = bool_decide (digest = hex_digest content).
Proof.
  case_bool_decide as Hd; [subst digest; by apply Verify_complete with env s0 info|].
  unfold Verify. destruct (validateDigest digest) as [d|e|] eqn:Ed; [|done..].
  apply validateDigest_ok in Ed as [-> _]. rewrite Hopen. unfold on_failure.
  destruct (verifyDescriptor path digest (new_file env s0)) as [[v|e|] f] eqn:E; [|done..].
  apply verifyDescriptor_ok in E as (info' & s1 & s2 & content' & _ & _ & Hp & Hs & Hh & _).
  destruct (Hcontent 0%nat) as (s & Hps & Hs'). unfold pass in *. cbn in *. congruence.
Qed.

(** [Close] releases the held descriptor exactly once: the first call closes it, and every later
    call, and a call on a nil source, succeeds without touching anything. *)
Lemma Verified_Close_idempotent v :
  let '(_, v1, closed) := Verified_Close v in
  Verified_Close v1 = (Ok tt, v1, None) /\
  closed = ((fun f => (file_Close f).2) <$> (w ← v; w.(v_file))) /\
  v1 = ((fun w => set_file w None) <$> v).
Proof. destruct v as [[? ? ? ? [f|]]|]; done. Qed.

(** A small image: delivered in two parts, then once more in one. *)
Definition example_content : list Z := [0x28; 0xb5; 0x2f; 0xfd; 1; 2; 3].
Definition example_env : FileEnv := {|
  fe_stat _ := inr {| fi_regular := true; fi_perm := 384; fi_size := 7 |};
  fe_seek n := inr (if Nat.even n then [([0x28; 0xb5; 0x2f], None); ([0xfd; 1; 2; 3], None)]
                    else [(example_content, Some EOF)]);
  fe_write _ := None; fe_sync _ := None; fe_chmod := None; fe_close := None |}.

Lemma Verify_stable_source_witness :
  is_ok (Verify (fun _ => inr (example_env, [])) "/run/image.zst" (hex_digest example_content)).1
  = bool_decide (hex_digest example_content = hex_digest example_content).
Proof.
  apply (Verify_stable_source _ "/run/image.zst" _ example_env []
           {| fi_regular := true; fi_perm := 384; fi_size := 7 |} example_content);
    [reflexivity..|].
  intros n. eexists. split; [reflexivity|]. destruct (Nat.even n); reflexivity.
Defined.

Example Verify_detects_zstd :
  v_Format <$> (Verify (fun _ => inr (example_env, [])) "/run/image.zst"
                  (hex_digest example_content)).1 = Ok FormatZstd.
Proof. vm_compute. reflexivity. Qed.
