(* ===== verification/Write.v ===== *)
(** * Writing an image ([internal/image/write.go])

    The transfer of one held, verified source into an already gated destination: the content is
    hashed again through the same descriptor, expanded, and copied with an exact byte count. *)

From stdpp Require Import sorting.
From S2P Require Export Image.
Open Scope Z_scope.

Definition copyBufferBytes : Z := 4 * 1024 * 1024.

Record Progress := {
  pr_WrittenBytes : Z;
  pr_ExpectedBytes : Z }.

Record Result := {
  rs_WrittenBytes : Z }.
Definition no_result : Result := {| rs_WrittenBytes := 0 |}.

(** The interface [SyncWriter], and what its implementation promises: a completed [Sync] makes
    the received bytes durable, and writing does not undo that. *)
Class SyncWriter (D : Type) `{Writer D} := {
  Sync : M error D unit }.
Class SyncWriterLaws (D : Type) `{SyncWriter D} `{!Received D} := {
  durable : D -> list Z;
  sync_durable d u d' : Sync d = (Ok u, d') -> durable d' = received d;
  sync_received d : received (Sync d).2 = received d;
  sync_no_panic d : no_panic (Sync d).1 }.

#[export] Instance file_sync_writer : SyncWriter OsFile := {| Sync := file_Sync |}.
#[export] Program Instance file_sync_laws : SyncWriterLaws OsFile := {| durable := of_durable |}.
Next Obligation.
  intros f u f' H. unfold Sync, file_sync_writer, file_Sync in H.
  destruct (fe_sync _ _); [done|]. by injection H as _ <-.
Qed.
Next Obligation. done. Qed.
Next Obligation.
  intros f. unfold Sync, file_sync_writer, file_Sync. cbn. by destruct (fe_sync _ _).
Qed.

(** ** [contextReader] *)
Record contextReader (R : Type) := {
  cr_ctx : Context;
  cr_reader : R }.
Arguments cr_ctx {R} _.
Arguments cr_reader {R} _.

#[export] Instance contextReader_Read {R} `{Reader R} : Reader (contextReader R) := fun n r =>
  match ctx_Err r.(cr_ctx) with
  | (Some err, ctx) => (([], Some err), {| cr_ctx := ctx; cr_reader := r.(cr_reader) |})
  | (None, ctx) =>
      let (result, reader) := Read n r.(cr_reader) in
      (result, {| cr_ctx := ctx; cr_reader := reader |})
  end.

Definition readerWithContext {R} (ctx : Context) (reader : R) : contextReader R :=
  {| cr_ctx := ctx; cr_reader := reader |}.

(** ** [progressWriter]: [pw_calls] is the list of the calls of the callback so far. *)
Record progressWriter (D : Type) := {
  pw_destination : D;
  pw_expected : Z;
  pw_written : Z;
  pw_callback : bool;
  pw_calls : list Progress }.
Arguments pw_destination {D} _.
Arguments pw_expected {D} _.
Arguments pw_written {D} _.
Arguments pw_callback {D} _.
Arguments pw_calls {D} _.

#[export] Instance progressWriter_Write {D} `{Writer D} : Writer (progressWriter D) := fun buffer w =>
  let '((written, err), destination) := WriteBytes buffer w.(pw_destination) in
  let total := wrap64 (w.(pw_written) + written) in
  ((written, err),
   {| pw_destination := destination; pw_expected := w.(pw_expected); pw_written := total;
      pw_callback := w.(pw_callback);
      pw_calls := w.(pw_calls) ++
        if (0 <? written) && w.(pw_callback)
        then [{| pr_WrittenBytes := total; pr_ExpectedBytes := w.(pw_expected) |}] else [] |}).

(** ** The reader of the expanded image: the file itself, or what the decoder delivers. *)
Inductive ExpandedReader :=
| Raw (r : contextReader OsFile)
| Decoded (s : script).

#[export] Instance expanded_Read : Reader ExpandedReader := fun n r =>
  match r with
  | Raw r => let (result, r) := Read n r in (result, Raw r)
  | Decoded s => let (result, s) := Read n s in (result, Decoded s)
  end.

#[export] Program Instance contextReader_rsize {R} `{ReaderSize R} : ReaderSize (contextReader R) :=
  {| rsize r := rsize r.(cr_reader) |}.
Next Obligation.
  intros R ? ? n r bytes r' Hn Hr. unfold Read, contextReader_Read in Hr.
  destruct (ctx_Err _) as [[e|] ctx]; [done|].
  destruct (Read n (cr_reader r)) as [result r1] eqn:E. simplify_eq/=. by eapply rsize_lt.
Qed.
Next Obligation.
  intros R ? ? n r bytes e r' Hn Hr. unfold Read, contextReader_Read in Hr.
  destruct (ctx_Err _) as [[e1|] ctx]; [simplify_eq/=; lia|].
  destruct (Read n (cr_reader r)) as [result r1] eqn:E. simplify_eq/=. by eapply read_bound.
Qed.

#[export] Program Instance expanded_rsize : ReaderSize ExpandedReader :=
  {| rsize r := match r with Raw r => rsize r | Decoded s => rsize s end |}.
Next Obligation.
  intros n [r|s] bytes r' Hn Hr; unfold Read, expanded_Read in Hr.
  - destruct (Read n r) as [result r1] eqn:E. simplify_eq/=. exact (rsize_lt n r bytes r1 Hn E).
  - destruct (Read n s) as [result s1] eqn:E. simplify_eq/=. exact (rsize_lt n s bytes s1 Hn E).
Qed.
Next Obligation.
  intros n [r|s] bytes e r' Hn Hr; unfold Read, expanded_Read in Hr.
  - destruct (Read n r) as [result r1] eqn:E. simplify_eq/=. exact (read_bound n r bytes e r1 Hn E).
  - destruct (Read n s) as [result s1] eqn:E. simplify_eq/=. exact (read_bound n s bytes e s1 Hn E).
Qed.

#[export] Program Instance progress_received {D} `{Received D} : Received (progressWriter D) :=
  {| received w := received w.(pw_destination) |}.
Next Obligation.
  intros D ? ? bytes w n e w' Hw. unfold WriteBytes, progressWriter_Write in Hw.
  destruct (WriteBytes bytes (pw_destination w)) as [[m e1] d] eqn:E. simplify_eq/=.
  by apply write_contract in E.
Qed.

(** The decoder is a parameter: what its reads deliver, as a function of the reader under it. *)
Section write.
Context (zstd_NewReader : contextReader OsFile -> outcome script).
Context {D : Type} `{SyncWriter D}.

Record WriteState := {
  ws_reader : contextReader OsFile;
  ws_destination : D;
  ws_calls : list Progress }.

(** The errors of [Write] come with the result that accompanies them. *)
Definition failed (e : error) : Result * error := (no_result, e).

Definition on_file {A} (m : M error OsFile A) : M error (contextReader OsFile) A := fun r =>
  let (a, f) := m r.(cr_reader) in (a, {| cr_ctx := r.(cr_ctx); cr_reader := f |}).

Definition on_reader {A} (m : M error (contextReader OsFile) A) : M (Result * error) WriteState A :=
  fun st =>
    let (a, r) := m st.(ws_reader) in
    (map_err failed a,
     {| ws_reader := r; ws_destination := st.(ws_destination); ws_calls := st.(ws_calls) |}).

Definition validateWriteInputs (ctx : option Context) (source : option Verified)
    (destination : option D) (expectedBytes : Z) : res (Context * Verified * D) :=
  match ctx with
  | None => Err (errorf_sentinel ErrInvalidArgument [Lit "context is required"])
  | Some ctx =>
      match ctx_Err ctx with
      | (Some err, _) => Err err
      | (None, ctx) =>
          match source with
          | None => Err (errorf_sentinel ErrInvalidArgument [Lit "verified source is required"])
          | Some source =>
              match destination with
              | None => Err (errorf_sentinel ErrInvalidArgument [Lit "destination is required"])
              | Some destination =>
                  if expectedBytes <=? 0
                  then Err (errorf_sentinel ErrInvalidArgument
                              [Lit "expected expanded byte count must be positive"])
                  else Ok (ctx, source, destination)
              end
          end
      end
  end.

Definition hash_reader : M error (contextReader OsFile) Hasher := fun r =>
  let '((n, r), h) := CopyBuffer copyBufferBytes r ([] : Hasher) in ((fun _ => h) <$> n, r).

Definition reverifySource (source : Verified) : M error (contextReader OsFile) unit :=
  info ← map_error (wrap_error "stat verified source: ") (on_file file_Stat);
  lift (refuse_if (negb (info.(fi_size) =? source.(v_CompressedBytes)))
          (errorf_sentinel ErrSourceChanged
             [Lit "got "; Dec info.(fi_size); Lit " bytes, want "; Dec source.(v_CompressedBytes)]));;
  map_error (wrap_error "rewind verified source: ") (on_file file_Seek);;
  hashed ← map_error (wrap_error "reverify source content: ") hash_reader;
  let actual := hex_digest hashed in
  lift (refuse_if (negb (bool_decide (actual = source.(v_SHA256))))
          (errorf_sentinel ErrSourceChanged [Lit "got SHA-256 "; Lit actual]));;
  map_error (wrap_error "rewind verified source: ") (on_file file_Seek).

Definition expandedReader (source : Verified) (reader : contextReader OsFile) : res ExpandedReader :=
  if bool_decide (source.(v_Format) = FormatRaw) then Ok (Raw reader)
  else if negb (bool_decide (source.(v_Format) = FormatZstd))
  then Err (errorf_sentinel ErrUnsupportedFormat [Quoted source.(v_Format)])
  else map_err (wrap_error "create zstd decoder: ") (Decoded <$> returned (zstd_NewReader reader)).

(** The position of the file after raw reads; the decoder's own reads of it are not tracked, and
    every later use of the file rewinds it. *)
Definition after (r : ExpandedReader) (r0 : contextReader OsFile) : contextReader OsFile :=
  match r with
  | Raw r => r
  | Decoded _ => r0
  end.

(** The copy, through the limit and the progress reporter. *)
Definition copy_expanded (reader : ExpandedReader) (expectedBytes : Z) (progress : bool)
    : M error WriteState (Z * ExpandedReader) := fun st =>
  let reporter := {| pw_destination := st.(ws_destination); pw_expected := expectedBytes;
                     pw_written := 0; pw_callback := progress; pw_calls := st.(ws_calls) |} in
  let '((n, limited), reporter) :=
    CopyBuffer copyBufferBytes (LimitReader reader expectedBytes) reporter in
  ((fun n => (n, limited.(lr_R))) <$> n,
   {| ws_reader := after limited.(lr_R) st.(ws_reader);
      ws_destination := reporter.(pw_destination); ws_calls := reporter.(pw_calls) |}).

Definition read_extra (reader : ExpandedReader) : M error WriteState (list Z * option error) := fun st =>
  let (extra, reader) := ReadFull 1 reader in
  (extra, {| ws_reader := after reader st.(ws_reader); ws_destination := st.(ws_destination);
             ws_calls := st.(ws_calls) |}).

Definition sync_destination : M error WriteState unit := fun st =>
  let (r, d) := Sync st.(ws_destination) in
  (r, {| ws_reader := st.(ws_reader); ws_destination := d; ws_calls := st.(ws_calls) |}).

Definition report (p : Progress) : M (Result * error) WriteState unit :=
  modify (fun st => {| ws_reader := st.(ws_reader); ws_destination := st.(ws_destination);
                       ws_calls := st.(ws_calls) ++ [p] |}).

(** [Write] after its checks of the arguments and of the descriptor. *)
Definition transfer (source : Verified) (expectedBytes : Z) (progress : bool)
    : M (Result * error) WriteState Result :=
  on_reader (reverifySource source);;
  held ← gets ws_reader;
  reader ← lift (map_err failed (expandedReader source held));
  (if progress then report {| pr_WrittenBytes := 0; pr_ExpectedBytes := expectedBytes |} else mret tt);;
  copied ← map_error (fun e => failed (wrap_error "write expanded image: " e))
             (copy_expanded reader expectedBytes progress);
  lift (refuse_if (negb (copied.1 =? expectedBytes))
          (failed (errorf_sentinel ErrSizeMismatch
             [Lit "expanded image is too short: got "; Dec copied.1; Lit " bytes, want ";
              Dec expectedBytes])));;
  extra ← map_error failed (read_extra copied.2);
  lift (refuse_if (0 <? length extra.1)%nat
          (failed (errorf_sentinel ErrSizeMismatch
             [Lit "expanded image exceeds "; Dec expectedBytes; Lit " bytes"])));;
  match extra.2 with
  | Some err => lift (refuse_if (negb (errors_Is err IoEOF))
                        (failed (wrap_error "finish expanded image: " err)))
  | None => mret tt
  end;;
  map_error (fun e => ({| rs_WrittenBytes := copied.1 |}, wrap_error "sync destination: " e))
    sync_destination;;
  mret {| rs_WrittenBytes := copied.1 |}.

(** The result, and the source, the destination and the progress calls after the call. *)
Definition Write (ctx : option Context) (source : option Verified) (destination : option D)
    (expectedBytes : Z) (progress : bool)
    : result (Result * error) Result * option Verified * option D * list Progress :=
  match validateWriteInputs ctx source destination expectedBytes with
  | Err err => (Err (failed err), source, destination, [])
  | Panic => (Panic, source, destination, [])
  | Ok (ctx, v, d) =>
      match v.(v_file) with
      | None =>
          (Err (failed (wrap_error "verified source descriptor is unavailable: " (Sentinel OsErrClosed))),
           source, destination, [])
      | Some file =>
          let (r, st) := transfer v expectedBytes progress
            {| ws_reader := readerWithContext ctx file; ws_destination := d; ws_calls := [] |} in
          (r, Some (set_file v (Some st.(ws_reader).(cr_reader))), Some st.(ws_destination),
           st.(ws_calls))
      end
  end.
End write.
Arguments WriteState : clear implicits.

(** ** What the readers deliver *)
Definition is_ctx_error (e : error) : bool :=
  match e with
  | Sentinel ContextCanceled | Sentinel ContextDeadlineExceeded => true
  | _ => false
  end.

(** The bytes up to the first error and that error; a context that ends cuts them short. *)
Class Content (R : Type) `{Reader R} := {
  content : R -> list Z * error;
  content_read n (r : R) bytes e r' :
    1 <= n -> Read n r = ((bytes, e), r') ->
    match e with
    | None => content r = (bytes ++ (content r').1, (content r').2)
    | Some e => content r = (bytes, e) \/ is_ctx_error e = true /\ bytes = []
    end }.

#[export] Program Instance script_content : Content script := {| content := stream |}.
Next Obligation.
  intros n s bytes e s' Hn Hr. apply (script_read _ _ _ _ _ Hn) in Hr. destruct e; auto.
Qed.

#[export] Program Instance file_content : Content OsFile := {| content f := stream f.(of_script) |}.
Next Obligation.
  intros n f bytes e f' Hn Hr. unfold Read, file_reader in Hr.
  destruct (Read n (of_script f)) as [result s] eqn:E. simplify_eq/=.
  exact (content_read n (of_script f) bytes e s Hn E).
Qed.

#[export] Program Instance context_content {R} `{Content R} : Content (contextReader R) :=
  {| content r := content r.(cr_reader) |}.
Next Obligation.
  intros R ? ? n r bytes e r' Hn Hr. unfold Read, contextReader_Read, ctx_Err in Hr.
  destruct (cx_poll _ _) as [c|].
  - simplify_eq/=. right. by destruct c.
  - cbn in Hr. destruct (Read n (cr_reader r)) as [result r1] eqn:E. simplify_eq/=.
    by apply (content_read n).
Qed.

#[export] Program Instance expanded_content : Content ExpandedReader :=
  {| content r := match r with Raw r => content r | Decoded s => content s end |}.
Next Obligation.
  intros n [r|s] bytes e r' Hn Hr; unfold Read, expanded_Read in Hr.
  - destruct (Read n r) as [result r1] eqn:E. simplify_eq/=. exact (content_read n r bytes e r1 Hn E).
  - destruct (Read n s) as [result s1] eqn:E. simplify_eq/=. exact (content_read n s bytes e s1 Hn E).
Qed.

Section content.
Context {R : Type} `{Content R}.

Lemma content_steps (r : R) bytes r' :
  steps r bytes r' -> content r = (bytes ++ (content r').1, (content r').2).
Proof.
  induction 1 as [r|n r bytes r1 rest r' Hn Hr _ IH]; [by destruct (content r)|].
  apply (content_read _ _ _ _ _ Hn) in Hr. rewrite Hr, IH. cbn [fst snd]. by rewrite app_assoc.
Qed.

Lemma content_delivers (r : R) bytes e r' :
  delivers r bytes e r' ->
  content r = (bytes, e) \/ is_ctx_error e = true /\ exists rest, (content r).1 = bytes ++ rest.
Proof.
  induction 1 as [n r bytes e r' Hn Hr|n r bytes r1 rest e r' Hn Hr _ IH];
    apply (content_read _ _ _ _ _ Hn) in Hr.
  - destruct Hr as [Hr|[He ->]]; [by left|]. right. split; [done|]. by exists (content r).1.
  - rewrite Hr. destruct IH as [->|[He [tail ->]]]; [by left|]. right. split; [done|].
    exists tail. cbn [fst]. by rewrite app_assoc.
Qed.

Lemma content_prefix (r : R) bytes r' :
  steps r bytes r' \/ (exists e, delivers r bytes e r') -> bytes `prefix_of` (content r).1.
Proof.
  intros [Hs|[e Hd]].
  - apply content_steps in Hs as ->. by eexists.
  - apply content_delivers in Hd as [->|[_ [rest ->]]]; [done|by eexists].
Qed.
End content.

Lemma errors_Is_EOF_ctx e : errors_Is e IoEOF = true -> is_ctx_error e = false.
Proof. by destruct e as [[]| | | |]. Qed.

(** A limited reader hands over at most [N] bytes of the reader under it. *)
Lemma limited_prefix {R} `{ReaderSize R} (l : LimitedReader R) bytes l' :
  0 <= l.(lr_N) -> steps l bytes l' \/ (exists e, delivers l bytes e l') ->
  Z.of_nat (length bytes) <= l.(lr_N) /\
  (steps l.(lr_R) bytes l'.(lr_R) \/ exists e, delivers l.(lr_R) bytes e l'.(lr_R)).
Proof.
  intros HN.
  assert (forall n (l : LimitedReader R) bytes e l1, 0 <= lr_N l -> 1 <= n ->
    Read n l = ((bytes, e), l1) ->
    l1 = l /\ bytes = [] \/
    exists m, 1 <= m /\ Read m l.(lr_R) = ((bytes, e), l1.(lr_R)) /\
      Z.of_nat (length bytes) <= lr_N l /\ lr_N l1 = lr_N l - Z.of_nat (length bytes)) as Hone.
  { clear l l' bytes HN. intros n l bytes e l1 HN Hn Hr. unfold Read, limited_reader in Hr.
    destruct (Z.leb_spec (lr_N l) 0); [simplify_eq/=; by left|].
    destruct (Read _ (lr_R l)) as [result r] eqn:E. simplify_eq/=. right.
    exists (Z.min n (lr_N l)).
    assert (Z.of_nat (length bytes) <= Z.min n (lr_N l)) by (eapply read_bound; [|exact E]; lia).
    split_and!; [lia|done|lia|done]. }
  intros [Hs|[e Hd]].
  - induction Hs as [l|n l bytes l1 rest l' Hn Hr _ IH]; [split; [simpl; lia|left; constructor]|].
    apply Hone in Hr as [[-> ->]|(m & Hm & Hr & Hb & HN1)]; [by apply IH|..|done|done].
    destruct IH as [Hle Hs]; [lia|]. rewrite length_app. split; [lia|].
    destruct Hs as [Hs|[e Hd]]; [left; by apply steps_cons with m l1.(lr_R)|].
    right. exists e. by apply delivers_step with m l1.(lr_R).
  - induction Hd as [n l bytes e l' Hn Hr|n l bytes l1 rest e l' Hn Hr _ IH].
    + apply Hone in Hr as [[-> ->]|(m & Hm & Hr & Hb & HN1)]; [|..|done|done].
      * split; [simpl; lia|]. left. constructor.
      * split; [done|]. right. exists e. by apply delivers_end with m.
    + apply Hone in Hr as [[-> ->]|(m & Hm & Hr & Hb & HN1)]; [by apply IH|..|done|done].
      destruct IH as [Hle Hs]; [lia|]. rewrite length_app. split; [lia|].
      destruct Hs as [Hs|[e' Hd]]; [left; by apply steps_cons with m l1.(lr_R)|].
      right. exists e'. by apply delivers_step with m l1.(lr_R).
Qed.

(** ** The transfer *)
Lemma on_file_ok {A} (m : M error OsFile A) r a r' :
  on_file m r = (Ok a, r') -> m r.(cr_reader) = (Ok a, r'.(cr_reader)).
Proof. unfold on_file. destruct (m (cr_reader r)). by intros [= -> <-]. Qed.

Lemma context_calls (r r' : contextReader OsFile) bytes e :
  delivers r bytes e r' -> same_calls r.(cr_reader) r'.(cr_reader).
Proof.
  assert (forall n (r : contextReader OsFile) result r', Read n r = (result, r') ->
    same_calls r.(cr_reader) r'.(cr_reader)) as Hone.
  { clear. intros n r result r' Hr. unfold Read, contextReader_Read in Hr.
    destruct (ctx_Err _) as [[err|] ctx]; [by simplify_eq|].
    destruct (Read n (cr_reader r)) as [res1 f1] eqn:E. simplify_eq/=.
    by apply file_Read_calls in E. }
  induction 1 as [n r bytes e r' _ Hr|n r bytes r1 rest e r' _ Hr _ IH];
    apply Hone in Hr; [done|]. unfold same_calls in *. intuition congruence.
Qed.

Lemma hash_reader_ok r h r' :
  hash_reader r = (Ok h, r') ->
  content r = (h, EOF) /\ same_calls r.(cr_reader) r'.(cr_reader).
Proof.
  unfold hash_reader. destruct (CopyBuffer _ r []) as [[n r1] h1] eqn:E.
  destruct n as [n|e|]; [|done..]. intros [= <- <-].
  apply CopyBuffer_ok in E as (bytes & Hd & Hr & _); [|done]. cbn in Hr. subst h1.
  split; [|by apply context_calls in Hd]. by apply content_delivers in Hd as [|[? _]].
Qed.

(** What hashing the held descriptor again establishes: its size and its complete content are
    those of the verified source, and it is rewound. *)
Definition reverified (v : Verified) (f f' : OsFile) : Prop :=
  exists info s1 compressed,
    f.(of_env).(fe_stat) f.(of_stats) = inr info /\ info.(fi_size) = v.(v_CompressedBytes) /\
    pass f.(of_env) f.(of_seeks) s1 /\ stream s1 = (compressed, EOF) /\
    hex_digest compressed = v.(v_SHA256) /\
    pass f.(of_env) (S f.(of_seeks)) f'.(of_script).

Lemma reverifySource_ok v r u r' :
  reverifySource v r = (Ok u, r') -> reverified v r.(cr_reader) r'.(cr_reader).
Proof.
  unfold reverifySource. intros H. inv_M.
  apply on_file_ok in Ha, Ha1, H. bool_hyps. apply Z.eqb_eq in Ha0.
  unfold file_Stat in Ha. destruct (fe_stat _ _) as [e|info] eqn:Es; [done|].
  injection Ha as <- Hs0. apply file_Seek_ok in Ha1 as (Hp1 & He1 & Hn1 & _).
  apply hash_reader_ok in Ha2 as [Hc (He2 & Hn2 & _)].
  apply file_Seek_ok in H as (Hp3 & _).
  rewrite He2, He1, Hn2, Hn1, <- Hs0 in Hp3. rewrite <- Hs0 in Hp1. cbn in Hp1, Hp3.
  by exists info, (of_script (cr_reader s1)), a2.
Qed.

Section transfer.
Context (zstd_NewReader : contextReader OsFile -> outcome script).
Context {D : Type} `{SyncWriterLaws D}.
Implicit Types (st : WriteState D) (v : Verified).

(** The reader of the expanded image of a held descriptor. *)
Definition expanded_by v (r : contextReader OsFile) (reader : ExpandedReader) : Prop :=
  expandedReader zstd_NewReader v r = Ok reader.

Lemma copy_expanded_ok reader expected progress st n reader' st' :
  0 < expected <= max_int64 ->
  copy_expanded reader expected progress st = (Ok (n, reader'), st') ->
  exists bytes, received st'.(ws_destination) = received st.(ws_destination) ++ bytes /\
    n = Z.of_nat (length bytes) /\ n <= expected /\
    (delivers reader bytes EOF reader' \/ steps reader bytes reader').
Proof.
  intros He. unfold copy_expanded. cbv zeta.
  destruct (CopyBuffer _ _ _) as [[[n1|e|] l] w] eqn:E; [|done..]. intros [= <- <- <-].
  apply CopyBuffer_ok in E as (bytes & Hd & Hr & ->); [|done]. cbn in Hr |- *.
  apply limited_delivers in Hd as [Hle Hd]; [|cbn; lia]. cbn in Hle, Hd.
  rewrite wrap64_id by (unfold int64_range, min_int64, max_int64 in *; lia).
  exists bytes. split_and!; [done..|]. destruct Hd as [Hd|[Hd _]]; auto.
Qed.

Lemma read_extra_ok reader st extra st' :
  read_extra reader st = (Ok ([], extra), st') ->
  st'.(ws_destination) = st.(ws_destination) /\ st'.(ws_calls) = st.(ws_calls) /\
  exists e r', extra = Some e /\ delivers reader [] e r'.
Proof.
  unfold read_extra. destruct (ReadFull 1 reader) as [[[ex err]|e|] r1] eqn:E; [|done..].
  intros [= -> -> <-]. split; [done|]. split; [done|].
  apply read_full_ok in E as (bytes & Hb & [(_ & Hl & _)|(_ & e & Hd & ->)]); [done| |done].
  cbn in Hb. subst bytes. exists e, r1. split; [|done]. by rewrite andb_false_r.
Qed.

(** The whole expanded image: the content of its reader, up to the end of the file. *)
Definition whole_image (reader : ExpandedReader) (image : list Z) : Prop :=
  exists e, content reader = (image, e) /\ errors_Is e IoEOF = true.

Lemma transfer_ok v expected progress st result st' :
  0 < expected <= max_int64 ->
  transfer zstd_NewReader v expected progress st = (Ok result, st') ->
  result = {| rs_WrittenBytes := expected |} /\
  exists held reader image,
    reverified v st.(ws_reader).(cr_reader) held.(cr_reader) /\
    expanded_by v held reader /\ whole_image reader image /\
    Z.of_nat (length image) = expected /\
    received st'.(ws_destination) = received st.(ws_destination) ++ image /\
    durable st'.(ws_destination) = received st'.(ws_destination).
Proof.
  intros He. unfold transfer. intros Ht. inv_M. destruct a3 as [n reader'], a5 as [extra err].
  cbn [fst snd] in *. bool_hyps. rename select ((n =? expected) = true) into Hn.
  apply Z.eqb_eq in Hn. subst n. split; [done|].
  unfold on_reader in Ha. destruct (reverifySource v (ws_reader st)) as [[u|e|] r1] eqn:Er; [|done..].
  injection Ha as _ <-. apply reverifySource_ok in Er. cbn [ws_reader] in Ha1.
  apply map_err_ok in Ha1.
  assert (ws_destination s2 = ws_destination st) as Hd2
    by (destruct progress; cbn in Ha2; by injection Ha2 as _ <-).
  apply copy_expanded_ok in Ha3 as (bytes & Hr & Hn & _ & Hend); [|done].
  destruct extra as [|x extra]; [|done]. apply read_extra_ok in Ha5 as (Hd5 & _ & e & r' & -> & Hex).
  inv_M. bool_hyps. unfold sync_destination in Ha8.
  destruct (Sync _) as [res1 d1] eqn:Es. injection Ha8 as -> <-.
  pose proof (sync_received (ws_destination s5)) as Hrec. rewrite Es in Hrec. cbn in Hrec.
  apply sync_durable in Es as Hdur. cbn [ws_destination].
  exists r1, a1, bytes. split_and!; try done.
  - destruct Hend as [Hend|Hend].
    + apply content_delivers in Hend as [Hc|[? _]]; [|done]. by exists EOF.
    + apply content_steps in Hend. exists e. split; [|done]. rewrite Hend.
      apply content_delivers in Hex as [->|[Hctx _]]; [by rewrite app_nil_r|].
      apply errors_Is_EOF_ctx in Ha7. congruence.
  - rewrite Hrec, Hd5, Hr, Hd2. done.
  - congruence.
Qed.

(** ** Every outcome *)
Definition same_transfer : relation (WriteState D) := fun st st' =>
  received st'.(ws_destination) = received st.(ws_destination) /\
  st'.(ws_calls) = st.(ws_calls).
#[local] Instance same_transfer_preorder : PreOrder same_transfer.
Proof. split; [done|]. unfold same_transfer. intros ???. intuition congruence. Qed.

Lemma same_transfer_sync : preserves same_transfer sync_destination.
Proof.
  intros st. unfold sync_destination, same_transfer. pose proof (sync_received st.(ws_destination)).
  by destruct (Sync _).
Qed.

Lemma same_transfer_extra reader : preserves same_transfer (read_extra reader).
Proof. intros st. unfold read_extra. by destruct (ReadFull 1 reader). Qed.

Lemma copy_expanded_prefix reader expected progress st r st' :
  0 < expected -> copy_expanded reader expected progress st = (r, st') ->
  exists written, written `prefix_of` (content reader).1 /\
    Z.of_nat (length written) <= expected /\
    received st'.(ws_destination) = received st.(ws_destination) ++ written.
Proof.
  intros He. unfold copy_expanded. cbv zeta.
  destruct (CopyBuffer _ _ _) as [[n l] w] eqn:E. intros [= <- <-].
  apply copy_loop_prefix in E as (bytes & k & Hd & Hr); [|done]. cbn in Hr.
  apply limited_prefix in Hd as [Hle Hd]; [|cbn; lia]. cbn in Hle, Hd.
  apply content_prefix in Hd. exists (take k bytes). split_and!; [|rewrite length_take; lia|done].
  transitivity bytes; [|done]. exists (drop k bytes). by rewrite take_drop.
Qed.

(** A transfer stops before it has copied anything, or it is one copy between steps that leave
    the received bytes and the progress calls alone. *)
Lemma transfer_cases v expected progress st r st' :
  transfer zstd_NewReader v expected progress st = (r, st') ->
  (is_ok r = false /\ same_transfer st st') \/
  exists held reader st4 copied st5,
    reverified v st.(ws_reader).(cr_reader) held.(cr_reader) /\ expanded_by v held reader /\
    st4.(ws_destination) = st.(ws_destination) /\
    st4.(ws_calls) = st.(ws_calls) ++
      (if progress then [{| pr_WrittenBytes := 0; pr_ExpectedBytes := expected |}] else []) /\
    copy_expanded reader expected progress st4 = (copied, st5) /\ same_transfer st5 st'.
Proof.
  intros Ht. unfold transfer in Ht. apply M_bind_cases in Ht as [(u & s1 & G1 & Ht)|(r0 & G1 & _ & ?)].
  2: { left. unfold on_reader in G1. destruct (reverifySource v _). by injection G1 as _ <-. }
  unfold on_reader in G1. destruct (reverifySource v (ws_reader st)) as [[a|e|] r1] eqn:Er; [|done..].
  injection G1 as _ <-. apply reverifySource_ok in Er.
  apply M_bind_cases in Ht as [(held & s2 & G2 & Ht)|(r0 & G2 & ? & _)];
    [|by injection G2 as <- <-].
  injection G2 as <- <-.
  apply M_bind_cases in Ht as [(reader & s3 & G3 & Ht)|(r0 & G3 & _ & ?)]; [|by left; injection G3 as _ <-].
  apply lift_ok in G3 as [G3 ->]. apply map_err_ok in G3. cbn [ws_reader] in G3.
  right. exists r1, reader.
  apply M_bind_cases in Ht as [(u2 & s4 & G4 & Ht)|(r0 & G4 & ? & _)].
  2: { destruct progress; cbn in G4; by injection G4 as <- <-. }
  exists s4. apply M_bind_cases in Ht as [(copied & s5 & G5 & Ht)|(r0 & G5 & _)].
  - apply map_error_ok in G5. exists (Ok copied), s5.
    split_and!; [done..|by (destruct progress; cbn in G4; injection G4 as _ <-)| |done|].
    { destruct progress; cbn in G4; injection G4 as _ <-; [done|by rewrite app_nil_r]. }
    replace st' with (r, st').2 by done. rewrite <- Ht. clear Ht G5.
    revert s5. repeat first [apply preserves_bind; [apply _| |intros ?]|apply preserves_lift; apply _
      |apply preserves_ret; apply _].
    all: try (apply preserves_map_error; first [apply same_transfer_extra|apply same_transfer_sync]).
    destruct (a1.2); [apply preserves_lift|apply preserves_ret]; apply _.
  - unfold map_error in G5. destruct (copy_expanded reader expected progress s4) as [r5 s5] eqn:E5.
    injection G5 as _ <-. exists r5, s5.
    split_and!; [done..|by (destruct progress; cbn in G4; injection G4 as _ <-)| |done|done].
    destruct progress; cbn in G4; injection G4 as _ <-; [done|by rewrite app_nil_r].
Qed.

Lemma transfer_bounded v expected progress st r st' :
  0 < expected -> transfer zstd_NewReader v expected progress st = (r, st') ->
  received st'.(ws_destination) = received st.(ws_destination) \/
  exists held reader written,
    reverified v st.(ws_reader).(cr_reader) held.(cr_reader) /\
    expanded_by v held reader /\ written `prefix_of` (content reader).1 /\
    Z.of_nat (length written) <= expected /\
    received st'.(ws_destination) = received st.(ws_destination) ++ written.
Proof.
  intros He [[_ [? _]]|(held & reader & st4 & c & st5 & Hv & Hx & Hd & _ & Hc & Hs)]%transfer_cases;
    [by left|right].
  apply copy_expanded_prefix in Hc as (written & ? & ? & Hw); [|done].
  exists held, reader, written. split_and!; [done..|]. destruct Hs as [-> _]. by rewrite Hw, Hd.
Qed.

(** ** Progress *)
Definition progress_at (expected c : Z) : Progress :=
  {| pr_WrittenBytes := c; pr_ExpectedBytes := expected |}.

(** The counts reported so far, without the wrap-around of the machine's integers. *)
Definition progress_inv (base : list Z) (calls : list Progress) (expected : Z) (cb : bool)
    (w : progressWriter D) : Prop :=
  w.(pw_expected) = expected /\ w.(pw_callback) = cb /\
  exists sofar counts,
    received w.(pw_destination) = base ++ sofar /\
    w.(pw_written) = wrap64 (Z.of_nat (length sofar)) /\
    w.(pw_calls) = calls ++ (if cb then map (fun c => progress_at expected (wrap64 c)) counts else []) /\
    StronglySorted Z.lt counts /\ Forall (fun c => 0 < c <= Z.of_nat (length sofar)) counts /\
    (sofar <> [] -> list.last counts = Some (Z.of_nat (length sofar))).

Lemma StronglySorted_snoc (l : list Z) x :
  StronglySorted Z.lt l -> Forall (fun y => y < x) l -> StronglySorted Z.lt (l ++ [x]).
Proof.
  induction 1 as [|y l Hs IH Hf]; intros Hx; [by repeat constructor|].
  inversion_clear Hx. cbn. constructor; [by apply IH|]. apply Forall_app. by repeat constructor.
Qed.

Lemma progress_inv_write base calls expected cb bytes n e w w' :
  WriteBytes bytes w = ((n, e), w') -> progress_inv base calls expected cb w ->
  progress_inv base calls expected cb w'.
Proof.
  intros Hw (He & Hcb & sofar & counts & Hr & Hn & Hc & Hs & Hf & Hl).
  unfold WriteBytes, progressWriter_Write in Hw.
  destruct (WriteBytes bytes (pw_destination w)) as [[m e1] d] eqn:E. cbv zeta in Hw.
  injection Hw as -> -> <-. apply write_contract in E as [Hm Hd].
  set (taken := take (Z.to_nat n) bytes) in *.
  assert (Z.of_nat (length taken) = n) as Hlen by (unfold taken; rewrite length_take; lia).
  unfold progress_inv. cbn [pw_expected pw_callback pw_destination pw_written pw_calls].
  split; [done|]. split; [done|].
  exists (sofar ++ taken), (if 0 <? n then counts ++ [Z.of_nat (length (sofar ++ taken))] else counts).
  rewrite Hd, Hr, Hn, Hc, Hcb, He, wrap64_add, app_assoc, length_app, Nat2Z.inj_add, Hlen.
  destruct (Z.ltb_spec 0 n) as [Hpos|Hz].
  - split_and!; [done..| | | |].
    + destruct cb; cbn [andb]; [|by rewrite !app_nil_r].
      by rewrite map_app, app_assoc.
    + apply StronglySorted_snoc; [done|]. eapply Forall_impl; [exact Hf|]. cbn. lia.
    + apply Forall_app. split; [|constructor; [lia|constructor]].
      eapply Forall_impl; [exact Hf|]. cbn. lia.
    + intros _. apply last_snoc.
  - assert (n = 0) as -> by lia. assert (taken = []) as Ht by (apply length_zero_iff_nil; lia).
    rewrite Ht, app_nil_r, Z.add_0_r. cbn [andb]. rewrite app_nil_r.
    split_and!; [done..|]. by rewrite app_nil_r.
Qed.

Lemma copy_expanded_progress reader expected cb st r st' :
  0 < expected <= max_int64 -> copy_expanded reader expected cb st = (r, st') ->
  exists counts,
    st'.(ws_calls) = st.(ws_calls) ++ (if cb then map (progress_at expected) counts else []) /\
    StronglySorted Z.lt counts /\ Forall (fun c => 0 < c <= expected) counts /\
    (forall written, received st'.(ws_destination) = received st.(ws_destination) ++ written ->
       written <> [] -> list.last counts = Some (Z.of_nat (length written))).
Proof.
  intros He Hc. pose proof Hc as Hp.
  apply copy_expanded_prefix in Hp as (written & _ & Hle & Hw); [|lia].
  unfold copy_expanded in Hc. cbv zeta in Hc.
  match type of Hc with context [CopyBuffer ?b ?r ?w] =>
    assert (progress_inv (received st.(ws_destination)) st.(ws_calls) expected cb
              (CopyBuffer b r w).2) as Hinv end.
  { unfold CopyBuffer. apply copy_loop_inv; [intros *; apply progress_inv_write|]. split_and!; [done..|].
    exists [], []. rewrite app_nil_r. split_and!; [done|done| |constructor|constructor|done].
    destruct cb; cbn; by rewrite app_nil_r. }
  destruct (CopyBuffer _ _ _) as [[n l] w]. injection Hc as _ <-. cbn in *.
  destruct Hinv as (_ & _ & sofar & counts & Hr & _ & Hcalls & Hs & Hf & Hl).
  assert (sofar = written) as -> by (rewrite Hr in Hw; by apply app_inv_head in Hw).
  exists counts. split_and!; [|done| |].
  - rewrite Hcalls. f_equal. destruct cb; [|done]. apply map_ext_in. intros c Hc.
    rewrite wrap64_id; [done|]. rewrite Forall_forall in Hf. apply list_elem_of_In, Hf in Hc.
    unfold int64_range, min_int64. lia.
  - eapply Forall_impl; [exact Hf|]. cbn. lia.
  - intros written2 Hr2. rewrite Hr in Hr2. apply app_inv_head in Hr2 as <-. exact Hl.
Qed.

(** ** Termination *)
Definition ends {E S A} (m : M E S A) : Prop := forall s, no_panic (m s).1.

Lemma ends_bind {E S A B} (m : M E S A) (f : A -> M E S B) :
  ends m -> (forall a, ends (f a)) -> ends (m ≫= f).
Proof.
  intros Hm Hf s. specialize (Hm s). unfold mbind, M_bind. destruct (m s) as [[a|e|] s1]; [|done..].
  apply Hf.
Qed.

Lemma ends_map_error {E F S A} (g : E -> F) (m : M E S A) : ends m -> ends (map_error g m).
Proof.
  intros Hm s. specialize (Hm s). unfold map_error. destruct (m s) as [r s1].
  by apply map_err_no_panic.
Qed.

Lemma ends_lift {E S A} (r : result E A) : no_panic r -> ends (lift (S:=S) r).
Proof. intros Hr s. exact Hr. Qed.

Lemma ends_ret {E S A} (a : A) : ends (mret a : M E S A).
Proof. done. Qed.

Lemma ends_on_file {A} (m : M error OsFile A) : (forall f, no_panic (m f).1) -> ends (on_file m).
Proof. intros Hm r. specialize (Hm r.(cr_reader)). unfold on_file. by destruct (m (cr_reader r)). Qed.

Lemma reverifySource_ends v : ends (reverifySource v).
Proof.
  unfold reverifySource.
  apply ends_bind; [apply ends_map_error, ends_on_file; intros f; apply read_only_Stat|intros info].
  apply ends_bind; [apply ends_lift; auto with go|intros _].
  apply ends_bind; [apply ends_map_error, ends_on_file; intros f; apply read_only_Seek|intros _].
  apply ends_bind; [apply ends_map_error|intros h].
  { intros r. unfold hash_reader. pose proof (CopyBuffer_no_panic copyBufferBytes r ([] : Hasher)) as Hp.
    destruct (CopyBuffer _ r []) as [[n r1] h1]. specialize (Hp ltac:(done)). cbn in *. by destruct n. }
  apply ends_bind; [apply ends_lift; auto with go|intros _].
  apply ends_map_error, ends_on_file. intros f. apply read_only_Seek.
Qed.

Lemma expandedReader_no_panic v r : no_panic (expandedReader zstd_NewReader v r).
Proof.
  unfold expandedReader. case_bool_decide; [done|]. destruct (negb _); [done|].
  apply map_err_no_panic. by destruct (zstd_NewReader r).
Qed.

Lemma transfer_ends v expected progress : ends (transfer zstd_NewReader v expected progress).
Proof.
  unfold transfer. apply ends_bind; [|intros u].
  { intros st. unfold on_reader. pose proof (reverifySource_ends v st.(ws_reader)) as Hp.
    destruct (reverifySource v _) as [r r1]. by apply map_err_no_panic. }
  apply ends_bind; [done|intros held].
  apply ends_bind; [apply ends_lift, map_err_no_panic, expandedReader_no_panic|intros reader].
  apply ends_bind; [by destruct progress|intros _].
  apply ends_bind; [apply ends_map_error|intros copied].
  { intros st. unfold copy_expanded. cbv zeta.
    match goal with |- context [CopyBuffer ?b ?r ?w] =>
      pose proof (CopyBuffer_no_panic b r w ltac:(done)) as Hp; destruct (CopyBuffer b r w) as [[n l] w1] end.
    cbn in *. by destruct n. }
  apply ends_bind; [apply ends_lift; auto with go|intros _].
  apply ends_bind; [apply ends_map_error|intros extra].
  { intros st. unfold read_extra. pose proof (read_full_no_panic (S (rsize copied.2)) 1 [] copied.2) as Hp.
    unfold ReadFull. destruct (read_full_loop _ _ _ _) as [r r1]. apply Hp. lia. }
  apply ends_bind; [apply ends_lift; auto with go|intros _].
  apply ends_bind; [destruct (extra.2); [apply ends_lift; auto with go|done]|intros _].
  apply ends_bind; [apply ends_map_error|done].
  intros st. unfold sync_destination. pose proof (sync_no_panic st.(ws_destination)) as Hp.
  by destruct (Sync _).
Qed.
End transfer.

(** ** The claims *)
Section claims.
Context (zstd_NewReader : contextReader OsFile -> outcome script).
Context {D : Type} `{SyncWriterLaws D}.

Lemma Write_ok ctx v file (d : D) expected progress result source' d' calls
    (Hfile : v.(v_file) = Some file) (Hexpected : expected <= max_int64)
    (Hwrite : Write zstd_NewReader (Some ctx) (Some v) (Some d) expected progress
              = (Ok result, source', Some d', calls)) :
  result = {| rs_WrittenBytes := expected |} /\
  exists held reader image,
    reverified v file held.(cr_reader) /\ expanded_by zstd_NewReader v held reader /\
    whole_image reader image /\ Z.of_nat (length image) = expected /\
    received d' = received d ++ image /\ durable d' = received d'.
Proof.
  unfold Write, validateWriteInputs, ctx_Err in Hwrite.
  destruct (cx_poll _ _); cbn [fmap option_fmap option_map] in Hwrite; [done|].
  destruct (Z.leb_spec expected 0); [done|]. rewrite Hfile in Hwrite.
  destruct (transfer _ _ _ _ _) as [r st] eqn:E. injection Hwrite as -> _ <- _.
  apply (transfer_ok (D:=D) zstd_NewReader v expected progress) in E as (-> & held & reader & image & ?); [|lia].
  split; [done|]. by exists held, reader, image.
Qed.

(** C6: A successful write is exact and durable: the held descriptor was hashed again in full and had
    the verified size and digest, the expanded image is everything its reader delivers up to the
    end of the file and has exactly the expected length, the destination received exactly those
    bytes after what it had, and all of it was synchronized. *)
Theorem Write_exact ctx v file (d : D) expected progress result source' d' calls
    (Hfile : v.(v_file) = Some file) (Hexpected : expected <= max_int64)
    (Hwrite : Write zstd_NewReader (Some ctx) (Some v) (Some d) expected progress
              = (Ok result, source', Some d', calls)) :
  result = {| rs_WrittenBytes := expected |} /\
  exists held reader image,
    reverified v file held.(cr_reader) /\ expanded_by zstd_NewReader v held reader /\
    whole_image reader image /\ Z.of_nat (length image) = expected /\
    received d' = received d ++ image /\ durable d' = received d'.
Proof. by eapply Write_ok. Qed.

(** C12: No write exceeds its bounds, whatever fails: a write ends, and the destination has received
    either nothing, or at most the expected number of bytes, all of them a prefix of the expanded
    image of a descriptor that had just been hashed again with the verified size and digest. *)
Theorem Write_bounded ctx source (d : D) expected progress :
  match Write zstd_NewReader ctx source (Some d) expected progress with
  | (r, _, Some d', _) =>
      r <> Panic /\
      (received d' = received d \/
       exists v file held reader written,
         source = Some v /\ v.(v_file) = Some file /\
         reverified v file held.(cr_reader) /\ expanded_by zstd_NewReader v held reader /\
         written `prefix_of` (content reader).1 /\ Z.of_nat (length written) <= expected /\
         received d' = received d ++ written)
  | _ => False
  end.
Proof.
  unfold Write, validateWriteInputs. destruct ctx as [ctx|]; [|by auto]. unfold ctx_Err.
  destruct (cx_poll _ _); cbn [fmap option_fmap option_map]; [by auto|].
  destruct source as [v|]; [|by auto]. destruct (Z.leb_spec expected 0); [by auto|].
  destruct (v_file v) as [file|] eqn:Hfile; [|by auto].
  destruct (transfer _ _ _ _ _) as [r st] eqn:E. split.
  - pose proof (transfer_ends (D:=D) zstd_NewReader v expected progress) as He.
    match type of E with transfer _ _ _ _ ?s = _ => specialize (He s) end. by rewrite E in He.
  - apply (transfer_bounded (D:=D) zstd_NewReader v expected progress) in E as [E|(held & reader & written & E)]; [by left| |done]. right.
    by exists v, file, held, reader, written.
Qed.

(** C31: Progress is monotone and honest: without a callback nothing is reported; with one, the reports
    are empty or start with zero bytes and then strictly increase up to at most the expected
    count, which every report repeats; and after a successful write the last report is the whole
    image. *)
Theorem Write_progress ctx source (d : D) expected progress (Hexpected : expected <= max_int64) :
  match Write zstd_NewReader ctx source (Some d) expected progress with
  | (r, _, _, calls) =>
      if progress then
        calls = [] /\ is_ok r = false \/
        exists counts, calls = map (progress_at expected) (0 :: counts) /\
          StronglySorted Z.lt (0 :: counts) /\ Forall (fun c => 0 < c <= expected) counts /\
          (is_ok r = true -> list.last counts = Some expected)
      else calls = []
  end.
Proof.
  unfold Write, validateWriteInputs. destruct ctx as [ctx|]; [|by destruct progress; auto].
  unfold ctx_Err. destruct (cx_poll _ _); cbn [fmap option_fmap option_map];
    [by destruct progress; auto|].
  destruct source as [v|]; [|by destruct progress; auto].
  destruct (Z.leb_spec expected 0); [by destruct progress; auto|].
  destruct (v_file v) as [file|] eqn:Hfile; [|by destruct progress; auto].
  destruct (transfer _ _ _ _ _) as [r st] eqn:E.
  pose proof E as [[Hr [_ Hs]]|(held & reader & st4 & c & st5 & _ & _ & Hd & Hcalls & Hcopy & Hst)]%(transfer_cases (D:=D) zstd_NewReader v expected progress).
  { cbn in Hs. by destruct progress; auto. }
  apply (copy_expanded_progress (D:=D)) in Hcopy as (counts & Hc & Hs & Hf & Hl); [|lia].
  destruct Hst as [Hrec Hst]. rewrite Hst, Hc, Hcalls. cbn [ws_calls].
  destruct progress; [right|done]. exists counts. split_and!; [done| |done|].
  - constructor; [done|]. eapply Forall_impl; [exact Hf|]. cbn. lia.
  - intros Hok. destruct r as [result|e|]; [|done..].
    apply (transfer_ok (D:=D) zstd_NewReader v expected true) in E as (_ & _ & _ & image & _ & _ & _ & Hlen & Hw & _); [|lia].
    rewrite <- Hlen. apply Hl; [|intros ->; simpl in Hlen; lia].
    rewrite <- Hrec, Hw, Hd. done.
Qed.
End claims.

(** ** A concrete write: a compressed source of seven bytes, expanded to nine. *)
Definition example_decoder (r : contextReader OsFile) : outcome script :=
  inr [([10; 11; 12; 13], None); ([], None); ([14; 15; 16; 17; 18], Some EOF)].
Definition example_source : Verified := {|
  v_Path := "/run/image.zst"; v_SHA256 := hex_digest example_content; v_Format := FormatZstd;
  v_CompressedBytes := 7; v_file := Some (new_file example_env []) |}.
Definition example_target : OsFile := new_file example_env [].

Definition example_write := Write example_decoder (Some background) (Some example_source)
  (Some example_target) 9 true.

Lemma Write_exact_witness :
  exists result d', result = {| rs_WrittenBytes := 9 |} /\
    exists held reader image,
      reverified example_source (new_file example_env []) held.(cr_reader) /\
      expanded_by example_decoder example_source held reader /\
      whole_image reader image /\ Z.of_nat (length image) = 9 /\
      received d' = received example_target ++ image /\ durable d' = received d'.
Proof.
  eexists _, _.
  apply (Write_exact example_decoder background example_source (new_file example_env [])
           example_target 9 true _ (example_write.1.1.2) _ (example_write.2));
    [reflexivity|discriminate|vm_compute; reflexivity].
Defined.

Lemma Write_progress_witness :
  9 <= max_int64 /\
  match example_write with
  | (r, _, _, calls) =>
      calls = [] /\ is_ok r = false \/
      exists counts, calls = map (progress_at 9) (0 :: counts) /\
        StronglySorted Z.lt (0 :: counts) /\ Forall (fun c => 0 < c <= 9) counts /\
        (is_ok r = true -> list.last counts = Some 9)
  end.
Proof.
  split; [discriminate|].
  apply (Write_progress example_decoder (Some background) (Some example_source) example_target 9
           true); discriminate.
Defined.

Example example_write_calls :
  example_write.2 = [progress_at 9 0; progress_at 9 4; progress_at 9 9].
Proof. vm_compute. reflexivity. Qed.
