(* ===== verification/Sharing.v ===== *)
(** * Shared verified images (the mutex of [internal/image/verified.go] and [write.go])

    A [*Verified] may be used by several goroutines: [Close] and [Write] take its mutex.  Here the
    two functions are cut at every access to the shared object, any number of calls run under any
    scheduler, and the result is compared with running them one after the other. *)

From S2P Require Export Write.
Open Scope Z_scope.

Section sharing.
Context (zstd_NewReader : contextReader OsFile -> outcome script).
Context {D : Type} `{SyncWriter D}.

(** A call of [Close], or of [Write] with the arguments other than the source. *)
Inductive Operation :=
| CallClose
| CallWrite (ctx : option Context) (destination : option D) (expectedBytes : Z) (progress : bool).

(** What a call returns; a write also gives the destination and the progress calls it leaves. *)
Inductive Answer :=
| Closed (err : res unit)
| Written (r : result (Result * error) Result) (destination : option D) (calls : list Progress).

(** A call after the checks that need no lock. *)
Inductive Pending :=
| PendingClose
| PendingWrite (ctx : Context) (destination : D) (expectedBytes : Z) (progress : bool).

(** Where a goroutine is: before its call; at [mu.Lock()]; after it; in [Close] between closing the
    descriptor and forgetting it; in [Write] with the descriptor it works on; at the deferred
    [mu.Unlock()]; returned. *)
Inductive Thread :=
| Called (op : Operation)
| Waiting (p : Pending)
| Locked (p : Pending)
| FileClosed (err : res unit)
| Transferring (file : OsFile) (ctx : Context) (destination : D) (expectedBytes : Z) (progress : bool)
| Returning (a : Answer)
| Returned (a : Answer).

Record Shared := {
  sh_mu : option nat;
  sh_source : Verified;
  sh_threads : list Thread }.

Definition move (i : nat) (t : Thread) (mu : option nat) (v : Verified) (s : Shared) : Shared :=
  {| sh_mu := mu; sh_source := v; sh_threads := <[i := t]> s.(sh_threads) |}.

(** The next step of goroutine [i]; [None] when it has returned or must wait. *)
Definition step (i : nat) (s : Shared) : option Shared :=
  let mu := s.(sh_mu) in
  let v := s.(sh_source) in
  t ← s.(sh_threads) !! i;
  match t with
  | Called CallClose => Some (move i (Waiting PendingClose) mu v s)
  | Called (CallWrite ctx destination expectedBytes progress) =>
      Some (move i
        match validateWriteInputs ctx (Some v) destination expectedBytes with
        | Ok (ctx, _, d) => Waiting (PendingWrite ctx d expectedBytes progress)
        | Err err => Returned (Written (Err (failed err)) destination [])
        | Panic => Returned (Written Panic destination [])
        end mu v s)
  | Waiting p =>
      match mu with
      | None => Some (move i (Locked p) (Some i) v s)
      | Some _ => None
      end
  | Locked PendingClose =>
      match v.(v_file) with
      | None => Some (move i (Returning (Closed (Ok tt))) mu v s)
      | Some f =>
          let (err, f) := file_Close f in
          Some (move i (FileClosed err) mu (set_file v (Some f)) s)
      end
  | FileClosed err => Some (move i (Returning (Closed err)) mu (set_file v None) s)
  | Locked (PendingWrite ctx d expectedBytes progress) =>
      match v.(v_file) with
      | None =>
          Some (move i (Returning (Written
            (Err (failed (wrap_error "verified source descriptor is unavailable: "
                            (Sentinel OsErrClosed)))) (Some d) [])) mu v s)
      | Some file => Some (move i (Transferring file ctx d expectedBytes progress) mu v s)
      end
  | Transferring file ctx d expectedBytes progress =>
      let (r, st) := transfer zstd_NewReader v expectedBytes progress
        {| ws_reader := readerWithContext ctx file; ws_destination := d; ws_calls := [] |} in
      Some (move i (Returning (Written r (Some st.(ws_destination)) st.(ws_calls))) mu
              (set_file v (Some st.(ws_reader).(cr_reader))) s)
  | Returning a => Some (move i (Returned a) None v s)
  | Returned _ => None
  end.

(** A scheduler names the goroutine to run next; one that cannot run stays where it is. *)
Fixpoint run_schedule (schedule : list nat) (s : Shared) : Shared :=
  match schedule with
  | [] => s
  | i :: rest => run_schedule rest (default s (step i s))
  end.

Definition start (ops : list Operation) (v : Verified) : Shared :=
  {| sh_mu := None; sh_source := v; sh_threads := Called <$> ops |}.

(** ** The specification: the calls one after the other *)
Definition answer (op : Operation) (v : Verified) : Answer * Verified :=
  match op with
  | CallClose =>
      let '(r, v', _) := Verified_Close (Some v) in (Closed r, default v v')
  | CallWrite ctx destination expectedBytes progress =>
      let '(r, v', d, calls) :=
        Write zstd_NewReader ctx (Some v) destination expectedBytes progress in
      (Written r d calls, default v v')
  end.

(** [history] lists the calls with their answers, in the order in which they took effect. *)
Inductive linear (ops : list Operation) (v0 : Verified) : list (nat * Answer) -> Verified -> Prop :=
| linear_nil : linear ops v0 [] v0
| linear_snoc history v i op a v' :
    linear ops v0 history v -> ops !! i = Some op -> answer op v = (a, v') ->
    linear ops v0 (history ++ [(i, a)]) v'.

Definition critical (t : Thread) : Prop :=
  match t with
  | Locked _ | FileClosed _ | Transferring _ _ _ _ _ | Returning _ => True
  | _ => False
  end.

(** ** The invariant *)
Definition pending_of (op : Operation) (p : Pending) : Prop :=
  match p with
  | PendingClose => op = CallClose
  | PendingWrite ctx d expectedBytes progress =>
      exists c, op = CallWrite c (Some d) expectedBytes progress /\
        forall v, validateWriteInputs c (Some v) (Some d) expectedBytes = Ok (ctx, v, d)
  end.

Section invariant.
Context (ops : list Operation) (v0 : Verified).

(** What is true of goroutine [i], with the effects of [history] on the source. *)
Definition thread_inv (s : Shared) (history : list (nat * Answer)) (v : Verified) (i : nat) (t : Thread)
    : Prop :=
  let unanswered (P : Operation -> Prop) :=
    (i ∉ history.*1) /\ exists op, ops !! i = Some op /\ P op in
  match t with
  | Called op => unanswered (eq op)
  | Waiting p => unanswered (fun op => pending_of op p)
  | Locked p => unanswered (fun op => pending_of op p) /\ s.(sh_source) = v
  | FileClosed err =>
      unanswered (eq CallClose) /\
      exists f, v.(v_file) = Some f /\ err = (file_Close f).1 /\
        s.(sh_source) = set_file v (Some (file_Close f).2)
  | Transferring file ctx d expectedBytes progress =>
      unanswered (fun op => pending_of op (PendingWrite ctx d expectedBytes progress)) /\
      s.(sh_source) = v /\ v.(v_file) = Some file
  | Returning a => (i, a) ∈ history /\ s.(sh_source) = v
  | Returned a => (i, a) ∈ history
  end.

Record sharing_inv (s : Shared) (history : list (nat * Answer)) (v : Verified) : Prop := {
  inv_linear : linear ops v0 history v;
  inv_once : NoDup history.*1;
  inv_length : length s.(sh_threads) = length ops;
  inv_threads i t : s.(sh_threads) !! i = Some t -> thread_inv s history v i t;
  inv_held i t : s.(sh_threads) !! i = Some t -> critical t -> s.(sh_mu) = Some i;
  inv_holder i : s.(sh_mu) = Some i -> exists t, s.(sh_threads) !! i = Some t /\ critical t;
  inv_free : s.(sh_mu) = None -> s.(sh_source) = v }.

(** ** Steps keep it *)
Lemma not_in_grown (i j : nat) (h x : list (nat * Answer)) :
  (forall k a, (k, a) ∈ x -> k = i) -> j <> i -> j ∉ h.*1 -> j ∉ (h ++ x).*1.
Proof.
  intros Hx Hj Hh. rewrite fmap_app, not_elem_of_app. split; [done|].
  intros ([k a] & -> & Hk)%list_elem_of_fmap. by apply Hj, (Hx k a).
Qed.

(** The goroutines that do not move. *)
Lemma thread_inv_frame s s' h x v v' i j t :
  thread_inv s h v j t -> j <> i -> (forall k a, (k, a) ∈ x -> k = i) ->
  (critical t -> s'.(sh_source) = s.(sh_source) /\ v' = v) ->
  thread_inv s' (h ++ x) v' j t.
Proof.
  intros Ht Hj Hx Hc. pose proof (not_in_grown i j h x Hx Hj) as Hn.
  destruct t; cbn in *; try (destruct (Hc I) as [-> ->]); rewrite ?elem_of_app; intuition.
Qed.

(** A step outside the critical section. *)
Lemma move_outside s h x v i t t' :
  sharing_inv s h v -> s.(sh_threads) !! i = Some t -> ~ critical t -> ~ critical t' ->
  (forall k a, (k, a) ∈ x -> k = i) -> linear ops v0 (h ++ x) v -> NoDup (h ++ x).*1 ->
  thread_inv s (h ++ x) v i t' ->
  sharing_inv (move i t' s.(sh_mu) s.(sh_source) s) (h ++ x) v.
Proof.
  intros [Hl Hn Hlen Ht Hheld Hholder Hfree] Hi Hc Hc' Hx Hl' Hn' Ht'.
  split; cbn [move sh_mu sh_source sh_threads]; [done|done|by rewrite length_insert|..|done].
  - intros j u [(<- & <- & _)|[Hne Hj]]%list_lookup_insert_Some; [done|].
    apply thread_inv_frame with s v i; [by apply Ht|by apply not_eq_sym|done|done].
  - intros j u [(<- & <- & _)|[Hne Hj]]%list_lookup_insert_Some; [done|by eapply Hheld].
  - intros j Hj. destruct (Hholder j Hj) as (u & Hu & Hcu). exists u. split; [|done].
    rewrite list_lookup_insert_ne; [done|]. by intros ->; simplify_eq.
Qed.

(** A step of the goroutine that holds the mutex, or takes it. *)
Lemma move_inside s h x v v' i t t' mu src :
  sharing_inv s h v -> s.(sh_threads) !! i = Some t -> critical t \/ s.(sh_mu) = None ->
  (critical t' /\ mu = Some i) \/ (~ critical t' /\ mu = None /\ src = v') ->
  (forall k a, (k, a) ∈ x -> k = i) -> linear ops v0 (h ++ x) v' -> NoDup (h ++ x).*1 ->
  thread_inv (move i t' mu src s) (h ++ x) v' i t' ->
  sharing_inv (move i t' mu src s) (h ++ x) v'.
Proof.
  intros [Hl Hn Hlen Ht Hheld Hholder Hfree] Hi Hc Hc' Hx Hl' Hn' Ht'.
  assert (forall j u, s.(sh_threads) !! j = Some u -> i <> j -> ~ critical u) as Hothers.
  { intros j u Hj Hne Hcu. pose proof (Hheld j u Hj Hcu). destruct Hc as [Hc|Hc]; [|congruence].
    pose proof (Hheld i t Hi Hc). congruence. }
  split; cbn [move sh_mu sh_source sh_threads]; [done|done|by rewrite length_insert|..].
  - intros j u [(<- & <- & _)|[Hne Hj]]%list_lookup_insert_Some; [done|].
    apply thread_inv_frame with s v i; [by apply Ht|by apply not_eq_sym|done|].
    intros Hcu. by destruct (Hothers j u Hj Hne).
  - intros j u [(<- & <- & _)|[Hne Hj]]%list_lookup_insert_Some Hcu.
    + by destruct Hc' as [[_ ->]|[? _]].
    + by destruct (Hothers j u Hj Hne).
  - intros j ->. destruct Hc' as [[Hc' [= ->]]|(_ & ? & _)]; [|done].
    exists t'. rewrite list_lookup_insert_eq; [done|]. by eapply lookup_lt_Some.
  - intros ->. by destruct Hc' as [[_ ?]|(_ & _ & ?)].
Qed.

(** A call that takes effect extends the history. *)
Lemma takes_effect h v i op a v' :
  linear ops v0 h v -> NoDup h.*1 -> i ∉ h.*1 -> ops !! i = Some op -> answer op v = (a, v') ->
  (forall k b, (k, b) ∈ [(i, a)] -> k = i) /\ linear ops v0 (h ++ [(i, a)]) v' /\
  NoDup (h ++ [(i, a)]).*1 /\ (i, a) ∈ h ++ [(i, a)].
Proof.
  intros Hl Hn Hi Ho Ha. split_and!.
  - by intros k b [= -> _]%list_elem_of_singleton.
  - by apply linear_snoc with v op.
  - rewrite fmap_app. apply NoDup_app. split_and!; [done| |apply NoDup_singleton].
    by intros j Hj ->%list_elem_of_singleton.
  - rewrite elem_of_app. right. by apply list_elem_of_singleton.
Qed.

(** The checks of [Write] do not look into the source. *)
Lemma validateWriteInputs_any c v1 (d : option D) e :
  match validateWriteInputs c (Some v1) d e with
  | Ok (ctx, _, d') => d = Some d' /\ forall v, validateWriteInputs c (Some v) d e = Ok (ctx, v, d')
  | Err err => forall v, validateWriteInputs c (Some v) d e = Err err
  | Panic => False
  end.
Proof.
  unfold validateWriteInputs. destruct c as [c|]; [|done]. destruct (ctx_Err c) as [[err|] c']; [done|].
  destruct d as [d|]; [|done]. by destruct (e <=? 0).
Qed.

Lemma no_answer (i : nat) k (a : Answer) : (k, a) ∈ [] -> k = i.
Proof. by intros ?%not_elem_of_nil. Qed.

(** A step that no call takes effect with. *)
Ltac without_effect := exists []; eexists; rewrite app_nil_r.

Lemma called_inv s h v i op s' :
  sharing_inv s h v -> s.(sh_threads) !! i = Some (Called op) -> step i s = Some s' ->
  exists x v', sharing_inv s' (h ++ x) v'.
Proof.
  intros Hs Hi Hstep. pose proof Hs as [Hl Hn _ Ht _ _ _].
  destruct (Ht i _ Hi) as (Hh & op' & Ho & <-). unfold step in Hstep. rewrite Hi in Hstep.
  destruct op as [|c d e p]; cbn [mbind option_bind] in Hstep; injection Hstep as <-.
  - without_effect. rewrite <- (app_nil_r h). apply move_outside with (Called CallClose);
      rewrite ?app_nil_r; try done; [by intros []|by intros []|apply no_answer|]. split; [done|]. by eexists.
  - pose proof (validateWriteInputs_any c s.(sh_source) d e) as Hv.
    destruct (validateWriteInputs c (Some (sh_source s)) d e) as [[[ctx v1] d']|err|]; [| |done].
    + destruct Hv as [-> Hv]. without_effect. rewrite <- (app_nil_r h).
      apply move_outside with (Called (CallWrite c (Some d') e p)); rewrite ?app_nil_r; try done;
        [by intros []|by intros []|apply no_answer|]. split; [done|]. eexists. split; [done|]. by exists c.
    + assert (answer (CallWrite c d e p) v = (Written (Err (failed err)) d [], v)) as Ha
        by (cbn; unfold Write; by rewrite Hv).
      destruct (takes_effect _ _ _ _ _ _ Hl Hn Hh Ho Ha) as (Hx & Hl' & Hn' & Hin).
      eexists _, v. apply move_outside with (Called (CallWrite c d e p)); try done; by intros [].
Qed.

Lemma waiting_inv s h v i p s' :
  sharing_inv s h v -> s.(sh_threads) !! i = Some (Waiting p) -> step i s = Some s' ->
  exists x v', sharing_inv s' (h ++ x) v'.
Proof.
  intros Hs Hi Hstep. pose proof Hs as [Hl Hn _ Ht _ _ Hfree].
  pose proof (Ht i _ Hi) as Hti. unfold step in Hstep. rewrite Hi in Hstep. cbn in Hstep.
  destruct (sh_mu s) eqn:Hmu; [done|]. injection Hstep as <-. exists [], v.
  apply move_inside with v (Waiting p); rewrite ?app_nil_r; try done; [by right|by left|apply no_answer|].
  split; [done|]. by apply Hfree.
Qed.

(** A step in the critical section after which the call has its answer. *)
Lemma answered_inv s h v i t op a v' :
  sharing_inv s h v -> s.(sh_threads) !! i = Some t -> critical t -> i ∉ h.*1 ->
  ops !! i = Some op -> answer op v = (a, v') ->
  exists x v'', sharing_inv (move i (Returning a) s.(sh_mu) v' s) (h ++ x) v''.
Proof.
  intros Hs Hi Hc Hh Ho Ha. pose proof Hs as [Hl Hn _ _ Hheld _ _].
  destruct (takes_effect _ _ _ _ _ _ Hl Hn Hh Ho Ha) as (Hx & Hl' & Hn' & Hin).
  exists [(i, a)], v'. apply move_inside with v t; try done; [by left|].
  left. split; [done|]. by eapply Hheld.
Qed.

(** Any other step in the critical section. *)
Lemma working_inv s h v i t t' src :
  sharing_inv s h v -> s.(sh_threads) !! i = Some t -> critical t -> critical t' ->
  thread_inv (move i t' s.(sh_mu) src s) h v i t' ->
  exists x v', sharing_inv (move i t' s.(sh_mu) src s) (h ++ x) v'.
Proof.
  intros Hs Hi Hc Hc' Hi'. pose proof Hs as [Hl Hn _ _ Hheld _ _]. exists [], v.
  apply move_inside with v t; rewrite ?app_nil_r; try done; [by left| |apply no_answer].
  left. split; [done|]. by eapply Hheld.
Qed.

Lemma locked_inv s h v i p s' :
  sharing_inv s h v -> s.(sh_threads) !! i = Some (Locked p) -> step i s = Some s' ->
  exists x v', sharing_inv s' (h ++ x) v'.
Proof.
  intros Hs Hi Hstep. pose proof Hs as [_ _ _ Ht _ _ _].
  destruct (Ht i _ Hi) as ((Hh & op & Ho & Hp) & Hsrc). unfold step in Hstep. rewrite Hi in Hstep.
  cbn [mbind option_bind] in Hstep. rewrite Hsrc in Hstep.
  destruct p as [|ctx d e p]; [cbn in Hp; subst op|destruct Hp as (c & -> & Hp)].
  - destruct (v_file v) as [f|] eqn:Ef; cbn in Hstep; injection Hstep as <-.
    + apply working_inv with v (Locked PendingClose); try done.
      split; [split; [done|by eexists]|]. by exists f.
    + apply answered_inv with v (Locked PendingClose) CallClose; try done. cbn. by rewrite Ef.
  - destruct (v_file v) as [file|] eqn:Ef; injection Hstep as <-.
    + rewrite <- Hsrc. apply working_inv with v (Locked (PendingWrite ctx d e p)); try done.
      rewrite Hsrc. split; [|done]. split; [done|]. eexists. split; [done|]. by exists c.
    + apply answered_inv with v (Locked (PendingWrite ctx d e p)) (CallWrite c (Some d) e p); try done.
      cbn. unfold Write. by rewrite Hp, Ef.
Qed.

Lemma body_inv s h v i t s' :
  sharing_inv s h v -> s.(sh_threads) !! i = Some t -> critical t -> (forall p, t <> Locked p) ->
  step i s = Some s' -> exists x v', sharing_inv s' (h ++ x) v'.
Proof.
  intros Hs Hi Hc Hlock Hstep. pose proof Hs as [Hl Hn _ Ht _ _ _]. pose proof (Ht i t Hi) as Hti.
  unfold step in Hstep. rewrite Hi in Hstep. cbn [mbind option_bind] in Hstep.
  destruct t as [|?|p|err|file c d e p|a|a]; try done; cbn in Hti.
  - by destruct (Hlock p).
  - destruct Hti as ((Hh & op & Ho & <-) & f & Hf & -> & Hsrc). injection Hstep as <-. rewrite Hsrc.
    apply answered_inv with v (FileClosed (file_Close f).1) CallClose; try done. cbn. by rewrite Hf.
  - destruct Hti as ((Hh & op & Ho & c0 & -> & Hp) & Hsrc & Hf). rewrite Hsrc in Hstep.
    destruct (transfer _ _ _ _ _) as [r st] eqn:E. injection Hstep as <-.
    apply answered_inv with v (Transferring file c d e p) (CallWrite c0 (Some d) e p); try done.
    cbn. unfold Write. by rewrite Hp, Hf, E.
  - destruct Hti as [Ha Hsrc]. injection Hstep as <-. exists [], v.
    apply move_inside with v (Returning a); rewrite ?app_nil_r; try done;
      [by left|right; split_and!; [by intros []|done|done]|apply no_answer].
Qed.

Lemma step_inv s h v i s' :
  sharing_inv s h v -> step i s = Some s' -> exists x v', sharing_inv s' (h ++ x) v'.
Proof.
  intros Hs Hstep. destruct (sh_threads s !! i) as [t|] eqn:Hi;
    [|unfold step in Hstep; by rewrite Hi in Hstep].
  destruct t as [op|p|p|err|file c d e p|a|a];
    [by eapply called_inv|by eapply waiting_inv|by eapply locked_inv|..];
    [by eapply (body_inv s h v i)..|]. unfold step in Hstep. by rewrite Hi in Hstep.
Qed.

Lemma run_schedule_inv schedule s h v :
  sharing_inv s h v -> exists x v', sharing_inv (run_schedule schedule s) (h ++ x) v'.
Proof.
  revert s h v. induction schedule as [|i rest IH]; intros s h v Hs; cbn [run_schedule].
  { exists [], v. by rewrite app_nil_r. }
  destruct (step i s) as [s'|] eqn:E; [|by eapply IH].
  destruct (step_inv _ _ _ _ _ Hs E) as (x & v' & Hs').
  destruct (IH _ _ _ Hs') as (y & v'' & ?). exists (x ++ y), v''. by rewrite app_assoc.
Qed.

Lemma start_inv : sharing_inv (start ops v0) [] v0.
Proof.
  split; cbn; [constructor|constructor|by rewrite length_fmap|..|done|done].
  - intros i t (op & -> & Ho)%list_lookup_fmap_Some. split; [by apply not_elem_of_nil|by exists op].
  - intros i t (op & -> & Ho)%list_lookup_fmap_Some. done.
Qed.

(** When nothing can move, every call has returned. *)
Lemma stuck_returned s h v :
  sharing_inv s h v -> (forall i, step i s = None) ->
  forall i, (i < length ops)%nat -> exists a, s.(sh_threads) !! i = Some (Returned a).
Proof.
  intros [_ _ Hlen _ Hheld Hholder _] Hstuck i Hi. rewrite <- Hlen in Hi.
  apply lookup_lt_is_Some in Hi as [t Hi].
  assert (forall j u, s.(sh_threads) !! j = Some u -> ~ critical u) as Hno.
  { intros j u Hj Hc. specialize (Hstuck j). unfold step in Hstuck. rewrite Hj in Hstuck.
    destruct u as [|?|[|]|?|? ? ? ? ?|?|?]; try done; cbn in Hstuck.
    - by destruct (v_file _).
    - by destruct (v_file _).
    - by destruct (transfer _ _ _ _ _). }
  pose proof (Hstuck i) as Hsi. unfold step in Hsi. rewrite Hi in Hsi.
  destruct t as [[]|?|?|?|? ? ? ? ?|?|a]; try done; try by destruct (Hno _ _ Hi).
  - cbn in Hsi. destruct (sh_mu s) as [j|] eqn:Hmu; [|done].
    destruct (Hholder j eq_refl) as (u & Hu & Hc). by destruct (Hno _ _ Hu).
  - by exists a.
Qed.
End invariant.

(** ** No livelock: the steps a goroutine has left *)
Definition steps_left (t : Thread) : nat :=
  match t with
  | Called _ => 5
  | Waiting _ => 4
  | Locked _ => 3
  | FileClosed _ | Transferring _ _ _ _ _ => 2
  | Returning _ => 1
  | Returned _ => 0
  end.
Definition work (s : Shared) : nat := sum_list_with steps_left s.(sh_threads).

Lemma sum_list_with_insert {A} (f : A -> nat) l i x y :
  l !! i = Some x -> (sum_list_with f (<[i := y]> l) + f x = sum_list_with f l + f y)%nat.
Proof.
  revert i. induction l as [|z l IH]; intros [|i] Hi; cbn in *; [done|done| |].
  - injection Hi as ->. lia.
  - rewrite <- !Nat.add_assoc. f_equal. exact (IH i Hi).
Qed.

Lemma step_work i s s' : step i s = Some s' -> (work s' < work s)%nat.
Proof.
  intros Hstep. unfold step in Hstep. destruct (sh_threads s !! i) as [t|] eqn:Hi; [|done].
  assert (forall t' mu v, (steps_left t' < steps_left t)%nat -> (work (move i t' mu v s) < work s)%nat)
    as Hmove.
  { intros t' mu v Ht. pose proof (sum_list_with_insert steps_left _ i t t' Hi). unfold work, move in *.
    cbn [sh_threads] in *. lia. }
  cbn [mbind option_bind] in Hstep.
  destruct t as [[|c d e p]|p|[|c d e p]|err|file c d e p|a|a]; cbn in Hstep;
    repeat case_match; simplify_eq; apply Hmove; cbn; repeat case_match; lia.
Qed.

(** C19: Goroutines may share a verified image: under every scheduler, what any calls of [Close] and
    [Write] return, and what they leave of the image, is what they return and leave when they run
    one after the other in some order; the order contains each call at most once, extends with
    time (a call that had not started when another had returned comes after it), and gives the
    state of the image whenever the mutex is free.  No two calls are ever between [Lock] and
    [Unlock]; there is no deadlock, for when no goroutine can move all calls have returned; and no
    livelock, for every step uses up some of a finite amount of work. *)
Theorem sharing_linearizable ops v0 before after :
  let s1 := run_schedule before (start ops v0) in
  let s2 := run_schedule after s1 in
  exists h1 v1 h2 v2,
    linear ops v0 h1 v1 /\ linear ops v0 (h1 ++ h2) v2 /\ NoDup (h1 ++ h2).*1 /\
    (forall i a, s1.(sh_threads) !! i = Some (Returned a) -> (i, a) ∈ h1) /\
    (forall i op, s1.(sh_threads) !! i = Some (Called op) -> i ∉ h1.*1) /\
    (forall i a, s2.(sh_threads) !! i = Some (Returned a) -> (i, a) ∈ h1 ++ h2) /\
    (s2.(sh_mu) = None -> s2.(sh_source) = v2) /\
    (forall i j t u, s2.(sh_threads) !! i = Some t -> s2.(sh_threads) !! j = Some u ->
       critical t -> critical u -> i = j) /\
    ((forall i, step i s2 = None) ->
     forall i, (i < length ops)%nat -> exists a, s2.(sh_threads) !! i = Some (Returned a)) /\
    (forall i s3, step i s2 = Some s3 -> (work s3 < work s2)%nat).
Proof.
  intros s1 s2. destruct (run_schedule_inv ops v0 before _ _ _ (start_inv ops v0)) as (h1 & v1 & H1).
  destruct (run_schedule_inv ops v0 after _ _ _ H1) as (h2 & v2 & H2). cbn [app] in *.
  exists h1, v1, h2, v2. pose proof (stuck_returned _ _ _ _ _ H2) as Hstuck.
  destruct H1 as [Hl1 _ _ Ht1 _ _ _], H2 as [Hl2 Hn2 _ Ht2 Hheld _ Hfree]. split_and!; try done.
  - intros i a Hi. exact (Ht1 i _ Hi).
  - intros i op Hi. by destruct (Ht1 i _ Hi).
  - intros i a Hi. exact (Ht2 i _ Hi).
  - intros i j t u Hi Hj Hc Hd. pose proof (Hheld i t Hi Hc). pose proof (Hheld j u Hj Hd). congruence.
  - intros i s3. apply step_work.
Qed.
End sharing.

(** ** A concrete run: a write and two calls of [Close], the first while the image is written *)
Definition example_ops : list (Operation (D := OsFile)) :=
  [CallWrite (Some background) (Some example_target) 9 false; CallClose; CallClose;
   CallWrite (Some background) (Some example_target) 9 false].
Definition example_shared (schedule : list nat) : Shared (D := OsFile) :=
  run_schedule example_decoder schedule (start example_ops example_source).

(** What a thread has answered: whether it succeeded. *)
Definition succeeded_thread (t : Thread (D := OsFile)) : option bool :=
  match t with
  | Returned (Closed r) => Some (is_ok r)
  | Returned (Written r _ _) => Some (is_ok r)
  | _ => None
  end.

Example example_sharing :
  let s := example_shared [0; 0; 1; 1; 0; 2; 1; 0; 0; 2; 2; 3; 1; 2; 2; 2; 1; 1; 1; 3; 3; 3]%nat in
  map succeeded_thread s.(sh_threads) = [Some true; Some true; Some true; Some false] /\
  s.(sh_source).(v_file) = None.
Proof. vm_compute. auto. Qed.
