(* ===== verification/Stage.v ===== *)
(** * Staging an image ([internal/image/stage.go])

    A bounded download into a partial file of the destination's directory, verified through the
    partial's descriptor and renamed to the destination. *)

From S2P Require Export Image.
Open Scope Z_scope.

(** A directory entry names a file that was there before, with its content, or the file of the
    download, whose content is what was written to its descriptor. *)
Inductive Inode :=
| Old (content : list Z)
| New.

(** The file system around the destination: its files, and the directories created so far; the
    descriptor of the partial once it is created; and the number of times the body of the response
    was closed. *)
Record StageState := {
  sg_names : gmap string Inode;
  sg_directories : list string;
  sg_partial : option OsFile;
  sg_body_closed : nat }.

(** The outcomes of the operations on the directory.  [MkdirAll] creates the parents of its path
    that are missing, some of them even when it fails.  [CreateTemp] replaces the star of its
    pattern by a number it chooses, in decimal, and never opens a file that exists. *)
Record StageEnv := {
  se_mkdir : list string * option error;
  se_temp : outcome (N * FileEnv);
  se_rename : option error;
  se_remove : option error;
  se_dir_open : option error;
  se_dir_sync : option error;
  se_dir_close : option error }.

Record Response := {
  rp_StatusCode : Z;
  rp_ContentLength : Z;
  rp_Body : script }.

(** [http.Client], as the outcome of [NewRequestWithContext] and of [Do]. *)
Record Client := {
  cl_NewRequest : string -> option error;
  cl_Do : string -> outcome Response }.

Definition validateStageInputs (ctx : option Context) (client : option Client)
    (expectedSHA256 : string) (maximumBytes : Z) : res (Client * string) :=
  match ctx with
  | None => Err (errorf_sentinel ErrInvalidArgument [Lit "context is required"])
  | Some ctx =>
      match ctx_Err ctx with
      | (Some err, _) => Err err
      | (None, _) =>
          match client with
          | None => Err (errorf_sentinel ErrInvalidArgument [Lit "HTTP client is required"])
          | Some client =>
              if (maximumBytes <=? 0) || (maximumBytes =? max_int64)
              then Err (errorf_sentinel ErrInvalidArgument
                          [Lit "maximum download size must be positive and bounded"])
              else expected ← validateDigest expectedSHA256; mret (client, expected)
          end
      end
  end.

Definition download (client : Client) (sourceURL : string) : res Response :=
  map_err (wrap_error "create download request: ") (failing (client.(cl_NewRequest) sourceURL));;
  map_err (wrap_error "download image: ") (returned (client.(cl_Do) sourceURL)).

Definition validateResponse (response : Response) (maximumBytes : Z) : res unit :=
  if (response.(rp_StatusCode) <? 200) || (300 <=? response.(rp_StatusCode))
  then Err (errorf_sentinel ErrDownloadRejected [Lit "HTTP status "; Dec response.(rp_StatusCode)])
  else if maximumBytes <? response.(rp_ContentLength)
  then Err (errorf_sentinel ErrSizeMismatch
              [Lit "download exceeds "; Dec maximumBytes; Lit " bytes"])
  else Ok tt.

Section publish.
Context (env : StageEnv).

Definition os_MkdirAll (path : string) : M error StageState unit := fun st =>
  let (created, err) := env.(se_mkdir) in
  (failing err,
   {| sg_names := st.(sg_names); sg_directories := st.(sg_directories) ++ created;
      sg_partial := st.(sg_partial); sg_body_closed := st.(sg_body_closed) |}).

Definition last_byte_is (c : ascii) (s : string) : bool :=
  bool_decide (list.last (String.list_ascii_of_string s) = Some c).

(** The path of the new file: the directory, a separator when there is none, and the name.  A
    pattern with a separator is refused. *)
Definition os_CreateTemp (dir prefix : string) : M error StageState string := fun st =>
  if negb (lacks sep prefix) then (Err (Opaque "pattern contains path separator"), st)
  else
    match env.(se_temp) with
    | inl e => (Err e, st)
    | inr (random, fenv) =>
        let path := (if last_byte_is sep dir then dir else dir +:+ seps)
                      +:+ prefix +:+ format_int (Z.of_N random) in
        match st.(sg_names) !! path with
        | Some _ => (Err (Opaque "file exists"), st)
        | None =>
            (Ok path,
             {| sg_names := <[path := New]> st.(sg_names); sg_directories := st.(sg_directories);
                sg_partial := Some (new_file fenv []); sg_body_closed := st.(sg_body_closed) |})
        end
    end.

(** An operation on the descriptor of the partial. *)
Definition on_partial {A} (m : M error OsFile A) : M error StageState A := fun st =>
  match st.(sg_partial) with
  | None => (Panic, st)
  | Some f =>
      let (r, f) := m f in
      (r, {| sg_names := st.(sg_names); sg_directories := st.(sg_directories);
             sg_partial := Some f; sg_body_closed := st.(sg_body_closed) |})
  end.

Definition os_Rename (from to : string) : M error StageState unit := fun st =>
  match env.(se_rename), st.(sg_names) !! from with
  | None, Some inode =>
      (Ok tt, {| sg_names := <[to := inode]> (delete from st.(sg_names));
                 sg_directories := st.(sg_directories);
                 sg_partial := st.(sg_partial); sg_body_closed := st.(sg_body_closed) |})
  | Some e, _ => (Err e, st)
  | None, None => (Err (not_exist "rename" from), st)
  end.

Definition os_Remove (path : string) : M error StageState unit := fun st =>
  match env.(se_remove), st.(sg_names) !! path with
  | None, Some _ =>
      (Ok tt, {| sg_names := delete path st.(sg_names); sg_directories := st.(sg_directories);
                 sg_partial := st.(sg_partial); sg_body_closed := st.(sg_body_closed) |})
  | Some e, _ => (Err e, st)
  | None, None => (Err (not_exist "remove" path), st)
  end.

Definition syncDirectory (path : string) : M error StageState unit :=
  map_error (wrap_error "open destination directory: ") (lift (failing env.(se_dir_open)));;
  map_error (wrap_error "sync destination directory: ") (lift (failing env.(se_dir_sync)));;
  map_error (wrap_error "close destination directory: ") (lift (failing env.(se_dir_close))).

(** [io.Copy] through the limit into the partial and the hasher. *)
Definition copy_body (body : script) (maximumBytes : Z) : M error OsFile (Z * Hasher) := fun f =>
  let limit := maximumBytes + 1 in
  let '((n, _), (f, h)) :=
    CopyBuffer (Z.min defaultBuffer limit) (LimitReader body limit) (f, [] : Hasher) in
  ((fun n => (n, h)) <$> n, f).

(** The body of [publishResponse] from the creation of the partial to its verification. *)
Definition download_partial (body : script) (contentLength : Z)
    (destination expectedSHA256 : string) (maximumBytes : Z) : M error StageState Verified :=
  map_error (wrap_error "set partial image permissions: ") (on_partial file_Chmod);;
  copied ← map_error (wrap_error "download image: ") (on_partial (copy_body body maximumBytes));
  let written := copied.1 in
  lift (refuse_if (maximumBytes <? written)
          (errorf_sentinel ErrSizeMismatch
             [Lit "download exceeds "; Dec maximumBytes; Lit " bytes"]));;
  lift (refuse_if ((0 <=? contentLength) && negb (written =? contentLength))
          (errorf_sentinel ErrSizeMismatch
             [Lit "download length mismatch: got "; Dec written; Lit ", want "; Dec contentLength]));;
  let actual := hex_digest copied.2 in
  lift (refuse_if (negb (bool_decide (actual = expectedSHA256)))
          (errorf_sentinel ErrDigestMismatch [Lit "got "; Lit actual]));;
  map_error (wrap_error "sync partial image: ") (on_partial file_Sync);;
  on_partial (verifyDescriptor destination expectedSHA256).

(** The rest of [publishResponse]. *)
Definition publish_partial (body : script) (contentLength : Z) (destination directory partialPath
    expectedSHA256 : string) (maximumBytes : Z) : M error StageState Verified :=
  verified ← download_partial body contentLength destination expectedSHA256 maximumBytes;
  map_error (wrap_error "publish staged image: ") (os_Rename partialPath destination);;
  syncDirectory directory;;
  mret verified.

(** The partial is closed unless it is kept, and its name is removed in any case. *)
Definition publishResponse (body : script) (contentLength : Z)
    (destination expectedSHA256 : string) (maximumBytes : Z) : M error StageState Verified :=
  let directory := Dir destination in
  map_error (wrap_error "create destination directory: ") (os_MkdirAll directory);;
  partialPath ← map_error (wrap_error "create partial image: ")
    (os_CreateTemp directory ("." +:+ Base destination +:+ ".partial-"));
  finally
    (on_failure
       (publish_partial body contentLength destination directory partialPath expectedSHA256
          maximumBytes)
       (on_partial file_Close))
    (os_Remove partialPath).

Definition close_body : M error StageState unit :=
  modify (fun st => {| sg_names := st.(sg_names); sg_directories := st.(sg_directories);
                       sg_partial := st.(sg_partial); sg_body_closed := S st.(sg_body_closed) |}).

Definition Stage (ctx : option Context) (client : option Client)
    (sourceURL destination expectedSHA256 : string) (maximumBytes : Z)
    : M error StageState Verified :=
  inputs ← lift (validateStageInputs ctx client expectedSHA256 maximumBytes);
  response ← lift (download inputs.1 sourceURL);
  finally
    (lift (validateResponse response maximumBytes);;
     publishResponse response.(rp_Body) response.(rp_ContentLength) destination inputs.2
       maximumBytes)
    close_body.
End publish.

(** ** Lemmas *)

(** Before the partial is published no name changes, and its descriptor stays open. *)
Definition unpublished : relation StageState := fun st st' =>
  st'.(sg_names) = st.(sg_names) /\ st'.(sg_body_closed) = st.(sg_body_closed) /\
  (of_closed <$> st'.(sg_partial)) = (of_closed <$> st.(sg_partial)).
#[export] Instance unpublished_preorder : PreOrder unpublished.
Proof. split; [done|]. unfold unpublished. intros ???. intuition congruence. Qed.

Lemma on_partial_unpublished {A} (m : M error OsFile A) :
  (forall f, of_closed (m f).2 = of_closed f) -> preserves unpublished (on_partial m).
Proof.
  intros Hm st. unfold on_partial, unpublished. destruct (sg_partial st) as [f|] eqn:E; [|by cbn; rewrite E].
  specialize (Hm f). destruct (m f) as [r f1]. cbn in *. by rewrite Hm.
Qed.

Lemma copy_body_closed body maximumBytes f : of_closed (copy_body body maximumBytes f).2 = of_closed f.
Proof.
  unfold copy_body. cbv zeta.
  pose proof (copy_loop_inv (R:=LimitedReader script) (fun w : OsFile * Hasher => of_closed w.1 = of_closed f)) as H.
  unfold CopyBuffer. specialize (H (S (rsize (LimitReader body (maximumBytes + 1))))
    (Z.min defaultBuffer (maximumBytes + 1)) 0 (LimitReader body (maximumBytes + 1)) (f, [])).
  destruct (copy_loop _ _ _ _ _) as [[n l] [f1 h]]. apply H; [|done].
  clear. intros bytes n e [w h] w' Hw Hc. unfold WriteBytes, multi_writer in Hw. cbn [fst snd] in *.
  destruct (WriteBytes bytes w) as [[m em] w1] eqn:E.
  assert (of_closed w1 = of_closed w) as H1 by (unfold WriteBytes, file_writer in E; by injection E as _ <-).
  destruct em; [simplify_eq/=; congruence|]. destruct (negb _); simplify_eq/=; congruence.
Qed.

Lemma copy_body_ok body maximumBytes f n h f' :
  0 < maximumBytes < max_int64 -> copy_body body maximumBytes f = (Ok (n, h), f') ->
  of_written f' = of_written f ++ h /\ n = Z.of_nat (length h) /\
  h `prefix_of` (stream body).1.
Proof.
  intros Hm. unfold copy_body. cbv zeta. unfold CopyBuffer.
  destruct (copy_loop _ _ _ _ _) as [[[n1|e|] l] [f1 h1]] eqn:E; [|done..]. intros [= <- <- <-].
  apply (copy_loop_act (fun w : OsFile * Hasher => (of_written w.1, w.2))
    (fun a x => (a.1 ++ x, a.2 ++ x))) in E as (bytes & Hd & Hg & Hn).
  - cbn in Hg. injection Hg as Hf ->.
    apply limited_delivers in Hd as [Hle Hd]; [|cbn; lia]. cbn in Hle, Hd. split; [done|].
    assert (Z.of_nat (length bytes) <= max_int64) by lia.
    split.
    + destruct Hn as [[-> ->]| ->]; [done|]. rewrite wrap64_id; [done|].
      unfold int64_range, min_int64. lia.
    + destruct Hd as [Hd|[Hd _]].
      * by apply script_delivers in Hd as ->.
      * apply script_steps in Hd as ->. by eexists.
  - intros [a b]. cbn. by rewrite !app_nil_r.
  - intros a x y. cbn. by rewrite !app_assoc.
  - intros bytes [w h] w' Hw. apply multi_write_ok in Hw as (_ & Hw & Hh).
    apply received_write in Hw. cbn in *. by rewrite Hw, Hh.
  - unfold defaultBuffer. lia.
Qed.

(** The partial holds the download: all of it synchronized, with the expected digest, within the
    bound and of the announced length. *)
Definition complete (body : script) (contentLength : Z) (digest : string) (maximumBytes : Z)
    (f : OsFile) : Prop :=
  of_durable f = of_written f /\ hex_digest (of_written f) = digest /\
  of_written f `prefix_of` (stream body).1 /\
  Z.of_nat (length (of_written f)) <= maximumBytes /\
  (0 <= contentLength -> Z.of_nat (length (of_written f)) = contentLength).

Lemma on_partial_ok {A} (m : M error OsFile A) st a st' :
  on_partial m st = (Ok a, st') ->
  exists f f', st.(sg_partial) = Some f /\ m f = (Ok a, f') /\ st'.(sg_partial) = Some f' /\
    st'.(sg_names) = st.(sg_names) /\ st'.(sg_body_closed) = st.(sg_body_closed).
Proof.
  unfold on_partial. destruct (sg_partial st) as [f|]; [|done].
  destruct (m f) as [r f'] eqn:E. intros [= -> <-]. by exists f, f'.
Qed.

Lemma failing_no_panic e : no_panic (failing e).
Proof. by destruct e. Qed.
#[export] Hint Resolve failing_no_panic : go.

(** There is a partial. *)
Definition has_partial (st : StageState) : Prop := exists f, st.(sg_partial) = Some f.

Lemma safe_on_partial {A} (m : M error OsFile A) :
  (forall f, no_panic (m f).1) -> safe has_partial (on_partial m).
Proof.
  intros Hm st [f Hf]. unfold on_partial. rewrite Hf. specialize (Hm f).
  destruct (m f) as [r f1]. split; [done|by eexists].
Qed.

Lemma safe_Rename env from to : safe has_partial (os_Rename env from to).
Proof.
  intros st Hst. unfold os_Rename. destruct (se_rename env), (sg_names st !! from); (split; [done|]); done.
Qed.

Lemma safe_Remove env path : safe has_partial (os_Remove env path).
Proof.
  intros st Hst. unfold os_Remove. destruct (se_remove env), (sg_names st !! path); (split; [done|]); done.
Qed.

Lemma safe_syncDirectory env path : safe has_partial (syncDirectory env path).
Proof.
  unfold syncDirectory. apply safe_bind; [|intros _; apply safe_bind; [|intros _]];
    apply safe_map_error, safe_lift; auto with go.
Qed.

Lemma copy_body_no_panic body maximumBytes f : 0 < maximumBytes -> no_panic (copy_body body maximumBytes f).1.
Proof.
  intros Hm. unfold copy_body. cbv zeta.
  match goal with |- context [CopyBuffer ?b ?r ?w] =>
    pose proof (CopyBuffer_no_panic b r w) as Hp; destruct (CopyBuffer b r w) as [[n l] [f1 h]] end.
  specialize (Hp ltac:(unfold defaultBuffer; lia)). cbn in *. by destruct n.
Qed.

Lemma download_partial_safe body contentLength destination digest maximumBytes :
  0 < maximumBytes ->
  safe has_partial (download_partial body contentLength destination digest maximumBytes).
Proof.
  intros Hm. unfold download_partial.
  apply safe_bind; [apply safe_map_error, safe_on_partial; intros f; apply failing_no_panic|intros _].
  apply safe_bind; [apply safe_map_error, safe_on_partial; intros f; by apply copy_body_no_panic|intros copied].
  do 3 (apply safe_bind; [apply safe_lift; auto with go|intros _]).
  apply safe_bind; [apply safe_map_error, safe_on_partial; intros f; apply failing_no_panic|intros _].
  apply safe_on_partial; intros f; apply read_only_verifyDescriptor.
Qed.

Lemma publish_partial_safe env body contentLength destination directory partialPath digest maximumBytes :
  0 < maximumBytes ->
  safe has_partial (publish_partial env body contentLength destination directory partialPath digest
    maximumBytes).
Proof.
  intros Hm. apply safe_bind; [by apply download_partial_safe|intros v].
  apply safe_bind; [apply safe_map_error, safe_Rename|intros _].
  apply safe_bind; [apply safe_syncDirectory|done].
Qed.

Lemma download_partial_unpublished body contentLength destination digest maximumBytes :
  preserves unpublished (download_partial body contentLength destination digest maximumBytes).
Proof.
  unfold download_partial.
  apply preserves_bind; [apply _|by apply preserves_map_error, on_partial_unpublished|intros _].
  apply preserves_bind; [apply _|apply preserves_map_error, on_partial_unpublished, copy_body_closed|intros copied].
  do 3 (apply preserves_bind; [apply _|apply preserves_lift, _|intros _]).
  apply preserves_bind; [apply _|by apply preserves_map_error, on_partial_unpublished|intros _].
  apply on_partial_unpublished. intros f. by apply read_only_verifyDescriptor.
Qed.

Lemma download_partial_ok body contentLength destination digest maximumBytes st f0 v st' :
  0 < maximumBytes < max_int64 -> st.(sg_partial) = Some f0 -> of_written f0 = [] ->
  download_partial body contentLength destination digest maximumBytes st = (Ok v, st') ->
  exists f, st'.(sg_partial) = Some f /\ complete body contentLength digest maximumBytes f /\
    v.(v_Path) = destination /\ v.(v_SHA256) = digest /\ v.(v_file) = Some f.
Proof.
  intros Hm Hf0 Hw0. unfold download_partial. intros Hd. inv_M. destruct a0 as [n h]. cbn [fst snd] in *.
  repeat match goal with H : on_partial _ _ = (Ok _, _) |- _ =>
    apply on_partial_ok in H as (? & ? & ? & ? & ? & _ & _) end.
  simplify_eq. bool_hyps. rename select (copy_body _ _ _ = _) into Hc.
  rename select (file_Chmod _ = _) into Hchmod. unfold file_Chmod in Hchmod. simplify_eq.
  apply copy_body_ok in Hc as (Hw & -> & Hp); [|done].
  rename select (file_Sync _ = _) into Hsync. rename select (verifyDescriptor _ _ _ = _) into Hv.
  rewrite Hw0 in Hw. cbn [app] in Hw. unfold file_Sync in Hsync.
  destruct (fe_sync _ _); [done|]. injection Hsync as _ <-.
  match type of Hv with verifyDescriptor _ _ ?f = (_, ?g) =>
    pose proof (read_only_verifyDescriptor destination (hex_digest h) f) as [(_ & Hwr & Hdur & _) _];
    rewrite Hv in Hwr, Hdur; cbn in Hwr, Hdur; rename g into partial end.
  apply verifyDescriptor_ok in Hv as (info & s1 & s2 & content & _ & _ & _ & _ & _ & _ & _ & ->).
  exists partial. rewrite <- Hw. split; [done|]. split; [|done]. unfold complete.
  rewrite Hwr, Hdur, Hw. split_and!; [done..| |].
  - rename select ((maximumBytes <? _) = false) into Hle. apply Z.ltb_ge in Hle. lia.
  - intros Hpos. rename select (_ && _ = false) into Hlen.
    rewrite (proj2 (Z.leb_le _ _)) in Hlen by done. cbn [andb] in Hlen. bool_hyps.
    by apply Z.eqb_eq in Hlen.
Qed.

Lemma safe_not_panic {E S A} (P : S -> Prop) (m : M E S A) s r s' :
  safe P m -> P s -> m s = (r, s') -> no_panic r /\ P s'.
Proof. intros H Hs Hm. specialize (H s Hs). by rewrite Hm in H. Qed.

(** Either nothing is published, or the complete download is, under the destination's name. *)
Lemma publish_partial_cases env body contentLength destination directory partialPath digest
    maximumBytes st f0 r st' :
  0 < maximumBytes < max_int64 -> st.(sg_partial) = Some f0 -> of_written f0 = [] ->
  publish_partial env body contentLength destination directory partialPath digest maximumBytes st
    = (r, st') ->
  (is_ok r = false /\ unpublished st st') \/
  exists f inode,
    st.(sg_names) !! partialPath = Some inode /\
    st'.(sg_names) = <[destination := inode]> (delete partialPath st.(sg_names)) /\
    st'.(sg_partial) = Some f /\ of_closed f = of_closed f0 /\
    st'.(sg_body_closed) = st.(sg_body_closed) /\
    complete body contentLength digest maximumBytes f /\
    (forall v, r = Ok v -> v.(v_Path) = destination /\ v.(v_SHA256) = digest /\ v.(v_file) = Some f).
Proof.
  intros Hm Hf0 Hw0 H. unfold publish_partial in H.
  pose proof (download_partial_unpublished body contentLength destination digest maximumBytes st) as Hun.
  apply M_bind_cases in H as [(v & s1 & H1 & H)|(r0 & H1 & _ & ?)]; [|left; by rewrite H1 in Hun].
  rewrite H1 in Hun. apply (download_partial_ok _ _ _ _ _ _ f0) in H1 as (f & Hf & Hc & Hv); [|done..].
  destruct Hun as (Hn1 & Hb1 & Hcl). cbn in Hn1, Hb1, Hcl. rewrite Hf, Hf0 in Hcl. injection Hcl as Hcl.
  apply M_bind_cases in H as [(u & s2 & H2 & H)|(r0 & H2 & Hr0 & ?)].
  - apply map_error_ok in H2. unfold os_Rename in H2.
    destruct (se_rename env); [done|]. destruct (sg_names s1 !! partialPath) as [inode|] eqn:Ei; [|done].
    injection H2 as _ <-. right. exists f, inode. rewrite Hn1 in Ei.
    assert (sg_names st' = <[destination := inode]> (delete partialPath (sg_names s1)) /\
      sg_partial st' = sg_partial s1 /\ sg_body_closed st' = sg_body_closed s1 /\
      (forall v', r = Ok v' -> v' = v)) as (Hn2 & Hp2 & Hb2 & Hv2).
    { unfold syncDirectory, mbind, M_bind, map_error, lift in H.
      destruct (se_dir_open env), (se_dir_sync env), (se_dir_close env); cbn in H;
        injection H as <- <-; (split_and!; [done..|]); intros v' Hr; by simplify_eq/=. }
    rewrite Hn2, Hp2, Hb2, Hn1. split_and!; try done. intros v' ->. by rewrite (Hv2 v' eq_refl).
  - left. split; [done|]. unfold map_error, os_Rename in H2.
    destruct (se_rename env); [by simplify_eq/=; unfold unpublished; rewrite Hf, Hf0; cbn; rewrite Hcl|].
    destruct (sg_names s1 !! partialPath); [by simplify_eq/=|].
    simplify_eq/=. unfold unpublished. by rewrite Hf, Hf0; cbn; rewrite Hcl.
Qed.

(** ** The claims *)

(** The path of the partial of a destination. *)
Definition partial_path (destination : string) (random : N) : string :=
  (if last_byte_is sep (Dir destination) then Dir destination else Dir destination +:+ seps)
    +:+ ("." +:+ Base destination +:+ ".partial-") +:+ format_int (Z.of_N random).

Lemma last_byte_is_app c s : last_byte_is c s = true -> exists t, s = t +:+ String c EmptyString.
Proof.
  unfold last_byte_is. rewrite bool_decide_eq_true. intros H.
  induction s as [|d s IH]; [done|]. destruct s as [|d' s].
  - cbn in H. exists EmptyString. by simplify_eq.
  - destruct IH as [t Ht]; [exact H|]. exists (String d t). by rewrite str_app_cons, <- Ht.
Qed.

Lemma Base_app d e : e <> EmptyString -> lacks sep e = true -> Base (d +:+ seps +:+ e) = e.
Proof.
  intros Hne He. unfold Base. change (seps +:+ e) with (String sep e).
  rewrite Split_app_any, (Split_lacks_one e) by done.
  rewrite filter_app, filter_cons_True, filter_nil by done. by rewrite last_snoc.
Qed.

(** The partial is never the destination. *)
Lemma partial_path_ne destination random :
  lacks sep ("." +:+ Base destination +:+ ".partial-") = true ->
  partial_path destination random <> destination.
Proof.
  intros Hl. unfold partial_path. set (name := (_ +:+ _) +:+ format_int (Z.of_N random)).
  assert (lacks sep name = true) as Hname.
  { unfold name, lacks. rewrite str_forall_app. unfold lacks in Hl. rewrite Hl. cbn [andb].
    eapply str_forall_impl; [|apply format_int_chars]. intros c Hc.
    destruct (Ascii.eqb_spec c sep) as [->|]; [done|done]. }
  assert (name <> EmptyString) as Hne by done.
  assert (Base ((if last_byte_is sep (Dir destination) then Dir destination
                 else Dir destination +:+ seps) +:+ name) = name) as Hb.
  { destruct (last_byte_is sep (Dir destination)) eqn:E.
    - apply last_byte_is_app in E as [t ->]. rewrite str_app_assoc. by apply Base_app.
    - rewrite str_app_assoc. by apply Base_app. }
  intros He. rewrite He in Hb. apply (f_equal String.length) in Hb. unfold name in Hb.
  rewrite !length_str_app in Hb. cbn [String.length] in Hb. lia.
Qed.

(** The file system before a download. *)
Definition fresh (names : gmap string Inode) : StageState :=
  {| sg_names := names; sg_directories := []; sg_partial := None; sg_body_closed := 0 |}.

(** A download that is not published: the names are as before, or only the partial is left because
    it could not be removed; its descriptor, if any, is closed. *)
Definition abandoned (env : StageEnv) (destination : string) (names : gmap string Inode)
    (st' : StageState) : Prop :=
  (st'.(sg_names) = names \/
   env.(se_remove) <> None /\ exists random,
     st'.(sg_names) = <[partial_path destination random := New]> names /\
     names !! partial_path destination random = None /\
     partial_path destination random <> destination) /\
  (forall f, st'.(sg_partial) = Some f -> f.(of_closed) = 1%nat).

(** A published download: the destination names the complete file, nothing else has changed. *)
Definition published (response : Response) (destination digest : string) (maximumBytes : Z)
    (names : gmap string Inode) (r : res Verified) (st' : StageState) : Prop :=
  exists f,
    st'.(sg_names) = <[destination := New]> names /\ st'.(sg_partial) = Some f /\
    complete response.(rp_Body) response.(rp_ContentLength) digest maximumBytes f /\
    match r with
    | Ok v => v.(v_Path) = destination /\ v.(v_SHA256) = digest /\ v.(v_file) = Some f /\
              f.(of_closed) = 0%nat
    | _ => f.(of_closed) = 1%nat
    end.

Lemma close_partial f st :
  st.(sg_partial) = Some f ->
  (on_partial file_Close st).2 =
  {| sg_names := st.(sg_names); sg_directories := st.(sg_directories);
     sg_partial := Some (file_Close f).2; sg_body_closed := st.(sg_body_closed) |}.
Proof. intros H. unfold on_partial. by rewrite H. Qed.

(** Before the partial file exists a failure changes nothing; then [publish_partial] runs on it. *)
Lemma publishResponse_starts env response destination digest maximumBytes names dirs n r st' :
  publishResponse env response.(rp_Body) response.(rp_ContentLength) destination digest maximumBytes
    {| sg_names := names; sg_directories := dirs; sg_partial := None; sg_body_closed := n |} = (r, st') ->
  (exists e, r = Err e /\ st'.(sg_names) = names /\ st'.(sg_partial) = None) \/
  exists random fenv, let pp := partial_path destination random in
    names !! pp = None /\ pp <> destination /\
    finally
      (on_failure
         (publish_partial env response.(rp_Body) response.(rp_ContentLength) destination
            (Dir destination) pp digest maximumBytes)
         (on_partial file_Close))
      (os_Remove env pp)
      {| sg_names := <[pp := New]> names; sg_directories := dirs ++ env.(se_mkdir).1;
         sg_partial := Some (new_file fenv []); sg_body_closed := n |}
    = (r, st').
Proof.
  intros H. unfold publishResponse in H. cbv zeta in H.
  unfold os_MkdirAll, map_error at 1, lift, mbind at 1, M_bind at 1 in H.
  destruct (se_mkdir env) as [created [e|]]; [left; injection H as <- <-; by eexists|]. cbn [failing map_err] in H.
  unfold os_CreateTemp, map_error at 1, mbind at 1, M_bind at 1 in H.
  destruct (lacks sep ("." +:+ Base destination +:+ ".partial-")) eqn:Hl; cbn [negb] in H;
    [|left; injection H as <- <-; by eexists].
  destruct (se_temp env) as [e|[random fenv]]; [left; injection H as <- <-; by eexists|].
  cbn [sg_names sg_body_closed] in H. fold (partial_path destination random) in H.
  destruct (names !! partial_path destination random) as [|] eqn:Epp;
    [left; injection H as <- <-; by eexists|]. cbn [map_err] in H.
  right. exists random, fenv. cbv zeta. split_and!; [done|by apply partial_path_ne|exact H].
Qed.

(** What the deferred calls leave behind when nothing was published. *)
Lemma publish_abandoned env destination random names st1 st2 f :
  names !! partial_path destination random = None ->
  partial_path destination random <> destination ->
  st1.(sg_names) = <[partial_path destination random := New]> names -> unpublished st1 st2 ->
  st2.(sg_partial) = Some f -> of_closed f = 0%nat ->
  abandoned env destination names
    (os_Remove env (partial_path destination random) (on_partial file_Close st2).2).2.
Proof.
  intros Epp Hne H1 (Hn & _ & _) Ef Hc. rewrite (close_partial f st2 Ef). unfold os_Remove. cbn [sg_names].
  rewrite Hn, H1, lookup_insert_eq. destruct (se_remove env) eqn:Erm; cbn.
  - split; [right; split; [congruence|by exists random]|]. intros f' [= <-]. cbn. by rewrite Hc.
  - split; [left; by rewrite delete_insert_id|]. intros f' [= <-]. cbn. by rewrite Hc.
Qed.

(** After the rename there is no partial left to remove. *)
Lemma os_Remove_published env destination pp names st :
  names !! pp = None -> pp <> destination -> st.(sg_names) = <[destination := New]> names ->
  (os_Remove env pp st).2 = st.
Proof.
  intros Epp Hne H. unfold os_Remove. rewrite H, lookup_insert_ne, Epp by done.
  by destruct (se_remove env).
Qed.

Lemma publishResponse_cases env response destination digest maximumBytes names dirs n r st' :
  0 < maximumBytes < max_int64 ->
  publishResponse env response.(rp_Body) response.(rp_ContentLength) destination digest maximumBytes
    {| sg_names := names; sg_directories := dirs; sg_partial := None; sg_body_closed := n |} = (r, st') ->
  no_panic r /\
  (is_ok r = false /\ abandoned env destination names st' \/
   published response destination digest maximumBytes names r st').
Proof.
  intros Hm H. apply publishResponse_starts in H as [(e & -> & Hn0 & Hp0)|(random & fenv & Epp & Hne & H)].
  { split; [done|]. left. split; [done|]. split; [by left|by rewrite Hp0]. }
  set (st1 := {| sg_names := <[_ := New]> names; sg_directories := _; sg_partial := _; sg_body_closed := n |}) in *.
  set (pp := partial_path destination random) in *. unfold finally, on_failure in H.
  match type of H with context [publish_partial ?a ?b ?c ?d ?e ?f ?g ?h st1] =>
    destruct (publish_partial a b c d e f g h st1) as [r2 st2] eqn:E end.
  pose proof E as Hsafe. eapply safe_not_panic in Hsafe as [Hnp _];
    [|apply publish_partial_safe; lia|by exists (new_file fenv [])].
  apply (publish_partial_cases _ _ _ _ _ _ _ _ _ (new_file fenv [])) in E
    as [[Hr Hun]|(f & inode & Hi & Hn & Hp & Hc & _ & Hcomplete & Hv)]; [..|done|done|done].
  - pose proof Hun as (_ & _ & Hc). destruct (sg_partial st2) as [f|] eqn:Ef; [|done]. injection Hc as Hc.
    assert (r = r2 /\ st' = (os_Remove env pp (on_partial file_Close st2).2).2) as [-> ->]
      by (destruct r2; [done|by simplify_eq|done]).
    split; [done|]. left. split; [done|]. by apply publish_abandoned with st1 f.
  - cbn [sg_names st1] in Hi, Hn. rewrite lookup_insert_eq in Hi. injection Hi as <-.
    rewrite delete_insert_id in Hn by done.
    pose proof (os_Remove_published env destination pp names) as Hrm.
    destruct r2 as [v|e|]; [| |done].
    + rewrite Hrm in H by done. simplify_eq. split; [done|]. right. exists f.
      destruct (Hv v eq_refl) as (? & ? & ?). split_and!; done.
    + rewrite (close_partial f st2 Hp), Hrm in H by done. simplify_eq. split; [done|]. right.
      exists (file_Close f).2. cbn. rewrite Hc. split_and!; done.
Qed.

Lemma Stage_outcome env ctx client sourceURL destination digest maximumBytes names r st'
    (Hmax : maximumBytes <= max_int64)
    (H : Stage env ctx client sourceURL destination digest maximumBytes (fresh names) = (r, st')) :
  r <> Panic /\
  (is_ok r = false /\ abandoned env destination names st' \/
   exists c response, client = Some c /\ c.(cl_Do) sourceURL = inr response /\
     200 <= response.(rp_StatusCode) < 300 /\ lower_hex_text 64 digest /\
     published response destination digest maximumBytes names r st').
Proof.
  assert (forall e b, (Err e, {| sg_names := names; sg_directories := []; sg_partial := None; sg_body_closed := b |}) = (r, st') ->
    r <> Panic /\ (is_ok r = false /\ abandoned env destination names st')) as Hearly.
  { intros e b [= <- <-]. split; [done|]. split; [done|]. split; [by left|done]. }
  assert (forall P : Prop, r <> Panic /\ (is_ok r = false /\ abandoned env destination names st') ->
    r <> Panic /\ (is_ok r = false /\ abandoned env destination names st' \/ P)) as Hl by tauto.
  unfold Stage, validateStageInputs, mbind at 1, M_bind at 1, lift at 1 in H.
  destruct ctx as [ctx|]; [|by apply Hl, (Hearly _ _ H)].
  destruct (ctx_Err ctx) as [[e|] ctx']; [by apply Hl, (Hearly _ _ H)|].
  destruct client as [c|]; [|by apply Hl, (Hearly _ _ H)].
  destruct ((maximumBytes <=? 0) || (maximumBytes =? max_int64)) eqn:Em; [by apply Hl, (Hearly _ _ H)|].
  bool_hyps. rename select ((_ <=? 0) = false) into H0. rename select ((_ =? _) = false) into H1.
  apply Z.leb_gt in H0. apply Z.eqb_neq in H1.
  pose proof (validateDigest_no_panic digest) as Hnp.
  destruct (validateDigest digest) as [d|e|] eqn:Ed; [|by apply Hl, (Hearly _ _ H)|done].
  apply validateDigest_ok in Ed as [-> Hd].
  unfold mbind at 1, result_bind at 1, mret at 1, result_ret at 1 in H. cbn [fst snd] in H.
  unfold mbind at 1, M_bind at 1, lift at 1, download in H.
  destruct (cl_NewRequest c sourceURL) as [e|]; [by apply Hl, (Hearly _ _ H)|].
  destruct (cl_Do c sourceURL) as [e|response] eqn:Edo; [by apply Hl, (Hearly _ _ H)|].
  cbn in H. unfold finally in H. unfold mbind, M_bind, lift in H. unfold validateResponse in H.
  destruct ((rp_StatusCode response <? 200) || (300 <=? rp_StatusCode response)) eqn:Es;
    [by apply Hl, (Hearly _ _ H)|].
  destruct (maximumBytes <? rp_ContentLength response); [by apply Hl, (Hearly _ _ H)|].
  destruct (publishResponse _ _ _ _ _ _ _) as [r2 st2] eqn:E. cbn in H. injection H as <- <-.
  apply publishResponse_cases in E as [Hr E]; [|lia]. split; [done|].
  destruct E as [E|E]; [by left|right]. exists c, response. bool_hyps.
  rename select ((_ <? 200) = false) into H200. rename select ((300 <=? _) = false) into H300.
  apply Z.ltb_ge in H200. apply Z.leb_gt in H300. split_and!; try done; lia.
Qed.

(** C9: Staging is atomic and bounded, whatever fails: it never panics, and afterwards either the
    file names are as they were (or the partial alone is left over, when it could not be removed) and
    the call has failed, or the only change of a name is that the destination names a file that is complete:
    synchronized, with the requested digest, a prefix of the response of an accepted status, no
    longer than the maximum and of the announced length.  A successful call holds that file open;
    after a failure its descriptor is closed once. *)
Theorem Stage_atomic env ctx client sourceURL destination digest maximumBytes names r st'
    (Hmax : maximumBytes <= max_int64)
    (H : Stage env ctx client sourceURL destination digest maximumBytes (fresh names) = (r, st')) :
  r <> Panic /\
  (is_ok r = false /\ abandoned env destination names st' \/
   exists c response, client = Some c /\ c.(cl_Do) sourceURL = inr response /\
     200 <= response.(rp_StatusCode) < 300 /\ lower_hex_text 64 digest /\
     published response destination digest maximumBytes names r st').
Proof. by eapply Stage_outcome. Qed.

(** ** A concrete download *)
Definition example_stage_env : StageEnv := {|
  se_mkdir := ([], None); se_temp := inr (42%N, example_env); se_rename := None; se_remove := None;
  se_dir_open := None; se_dir_sync := None; se_dir_close := None |}.
Definition example_client : Client := {|
  cl_NewRequest _ := None;
  cl_Do _ := inr {| rp_StatusCode := 200; rp_ContentLength := 7;
                    rp_Body := [([0x28; 0xb5], None); ([0x2f; 0xfd; 1; 2; 3], Some EOF)] |} |}.
Definition example_stage env :=
  Stage env (Some background) (Some example_client) "https://example/image.zst" "/run/image.zst"
    (hex_digest example_content) 1024 (fresh (<["/run/image.zst" := Old [1; 2]]> ∅)).

Lemma Stage_atomic_witness :
  exists digest r st', r <> Panic /\
    (is_ok r = false /\
     abandoned example_stage_env "/run/image.zst" (<["/run/image.zst" := Old [1; 2]]> ∅) st' \/
     exists c response, Some example_client = Some c /\
       c.(cl_Do) "https://example/image.zst" = inr response /\
       200 <= response.(rp_StatusCode) < 300 /\ lower_hex_text 64 digest /\
       published response "/run/image.zst" digest 1024
         (<["/run/image.zst" := Old [1; 2]]> ∅) r st').
Proof.
  eexists _, _, _.
  apply (Stage_atomic example_stage_env (Some background) (Some example_client)
    "https://example/image.zst" "/run/image.zst" (hex_digest example_content) 1024
    (<["/run/image.zst" := Old [1; 2]]> ∅)); [discriminate|].
  vm_compute. reflexivity.
Defined.

Example example_stage_ok :
  let (r, st') := example_stage example_stage_env in
  is_ok r = true /\ map_to_list st'.(sg_names) = [("/run/image.zst", New)] /\ sg_body_closed st' = 1%nat.
Proof. vm_compute. auto. Qed.

(** The destination is published before its directory is synchronized: a failure of that last step
    is reported with the new content in place. *)
Definition unsynced_env : StageEnv := {|
  se_mkdir := ([], None); se_temp := inr (42%N, example_env); se_rename := None; se_remove := None;
  se_dir_open := None; se_dir_sync := Some (Opaque "input/output error"); se_dir_close := None |}.
Example Stage_published_with_error :
  let (r, st') := example_stage unsynced_env in
  is_ok r = false /\ sg_names st' !! "/run/image.zst" = Some New.
Proof. vm_compute. auto. Qed.
