(* ===== verification/Execute.v ===== *)
(** * The guarded sequence ([internal/linux/execute.go])

    [Prepare] and [Execute] over an abstract privileged boundary: every gate comes before the
    target is opened, every opened resource is closed. *)

From S2P Require Export Policy Write.
Open Scope Z_scope.

Record Request := {
  rq_Mode : Mode;
  rq_TargetPath : string;
  rq_ImagePath : string;
  rq_SHA256 : string;
  rq_ExpectedBytes : Z;
  rq_Confirmation : string;
  rq_Reboot : bool }.

(** The interface [Boundary] over the state [W] of the system, with [V] for the pointers to
    verified images and [T] for the opened targets.  [verified_fields] reads the fields of a
    verified image that never change; [Verified_close] and [Target_close] are its and the target's
    [Close]. *)
Class Boundary (W V T : Type) := {
  b_Inspect : option Context -> Request -> M error W Inspection;
  b_VerifyImage : string -> string -> M error W (option V);
  b_Confirm : string -> string -> M error W unit;
  b_Mlockall : M error W unit;
  b_Swapoff : M error W unit;
  b_EnableSysRq : M error W unit;
  b_RemountReadOnly : M error W unit;
  b_SysRqSync : M error W unit;
  b_SysRqReboot : M error W unit;
  b_OpenTarget : string -> Mode -> TargetIdentity -> M error W T;
  b_WriteVerified : option Context -> V -> T -> Z -> bool -> M error W Result;
  b_Fdatasync : T -> M error W unit;
  b_FlushBlock : T -> M error W unit;
  verified_fields : V -> Verified;
  Verified_close : V -> M error W unit;
  Target_close : T -> M error W unit }.

Definition sameIdentity (request : Request) (inspection : Inspection) (verified : option Verified)
    : bool :=
  match verified with
  | None => false
  | Some verified =>
      bool_decide (inspection.(ins_Mode) = request.(rq_Mode))
      && bool_decide (inspection.(ins_Target).(tgt_CanonicalPath) = request.(rq_TargetPath))
      && bool_decide (inspection.(ins_Image).(img_Path) = request.(rq_ImagePath))
      && bool_decide (inspection.(ins_Image).(img_SHA256) = request.(rq_SHA256))
      && (inspection.(ins_Image).(img_UncompressedBytes) =? request.(rq_ExpectedBytes))
      && bool_decide (verified.(v_Path) = inspection.(ins_Image).(img_Path))
      && bool_decide (verified.(v_SHA256) = inspection.(ins_Image).(img_SHA256))
      && (verified.(v_CompressedBytes) =? inspection.(ins_Image).(img_CompressedBytes))
  end.

Section execute.
Context {W V T : Type} `{Boundary W V T}.

Definition close_verified (v : option V) : M error W unit :=
  match v with
  | Some v => ignore (Verified_close v)
  | None => mret tt
  end.

Definition Prepare (ctx : option Context) (request : Request) : M error W (Inspection * V) :=
  inspection ← b_Inspect ctx request;
  verified ← b_VerifyImage request.(rq_ImagePath) request.(rq_SHA256);
  let changed : M error W (Inspection * V) :=
    close_verified verified;;
    lift (Err (Gate GateIdentityChanged
      [Lit "target or image identity changed between inspection and verification"])) in
  if negb (sameIdentity request inspection (verified_fields <$> verified)) then changed
  else
    match verified with
    | Some v => mret (inspection, v)
    | None => changed
    end.

(** The loop over the named operations. *)
Definition run_all (operations : list (string * M error W unit)) : M error W unit :=
  foldr (fun (operation : string * M error W unit) rest =>
    map_error (wrap_error (operation.1 +:+ ": ")) operation.2;; rest) (mret tt) operations.

Definition prepareLive (mode : Mode) : M error W unit :=
  if negb (bool_decide (mode = ModeLive)) then mret tt
  else
    run_all
      [("lock process memory", b_Mlockall); ("disable swap", b_Swapoff);
       ("enable SysRq", b_EnableSysRq); ("remount filesystems read-only", b_RemountReadOnly)].

Definition rebootLive (mode : Mode) : M error W unit :=
  if negb (bool_decide (mode = ModeLive)) then mret tt
  else
    map_error (wrap_error "SysRq sync: ") b_SysRqSync;;
    map_error (wrap_error "SysRq reboot: ") b_SysRqReboot.

Definition Execute (ctx : option Context) (request : Request) (progress : bool) : M error W Result :=
  prepared ← Prepare ctx request;
  let (inspection, verified) := prepared : Inspection * V in
  finally
    (b_Confirm request.(rq_Confirmation) inspection.(ins_ConfirmationToken);;
     lift (refuse_if (bool_decide (request.(rq_Mode) = ModeLive) && negb request.(rq_Reboot))
             (Gate GateLiveReboot [Lit "live overwrite requires explicit immediate reboot"]));;
     prepareLive request.(rq_Mode);;
     target ← b_OpenTarget request.(rq_TargetPath) request.(rq_Mode) inspection.(ins_Target);
     finally
       (result ← b_WriteVerified ctx verified target request.(rq_ExpectedBytes) progress;
        b_Fdatasync target;;
        b_FlushBlock target;;
        rebootLive request.(rq_Mode);;
        mret result)
       (Target_close target))
    (Verified_close verified).
End execute.

(** ** Traces

    The same boundary with a log of its calls: the operation with the arguments that matter, and
    whether it succeeded (for [VerifyImage], whether it returned an image). *)
Inductive Event :=
| EInspect (request : Request)
| EVerifyImage (path digest : string)
| EConfirm (provided expected : string)
| EMlockall
| ESwapoff
| EEnableSysRq
| ERemountReadOnly
| EOpenTarget (path : string) (mode : Mode) (expected : TargetIdentity)
| EWriteVerified (expectedBytes : Z)
| EFdatasync
| EFlushBlock
| ESysRqSync
| ESysRqReboot
| ECloseTarget
| ECloseVerified.

#[export] Instance Request_eq_dec : EqDecision Request.
Proof. solve_decision. Defined.
#[export] Instance Event_eq_dec : EqDecision Event.
Proof. solve_decision. Defined.

Abbreviation Log := (list (Event * bool)).

Definition logged {W A} (e : Event) (good : result error A -> bool) (m : M error W A)
    : M error (W * Log) A := fun s =>
  let (r, w) := m s.1 in (r, (w, s.2 ++ [(e, good r)])).

Definition returns_image {V} (r : result error (option V)) : bool :=
  match r with
  | Ok (Some _) => true
  | _ => false
  end.

Definition traced {W V T} (B : Boundary W V T) : Boundary (W * Log) V T := {|
  b_Inspect ctx request := logged (EInspect request) is_ok (b_Inspect ctx request);
  b_VerifyImage path digest := logged (EVerifyImage path digest) returns_image (b_VerifyImage path digest);
  b_Confirm provided expected := logged (EConfirm provided expected) is_ok (b_Confirm provided expected);
  b_Mlockall := logged EMlockall is_ok b_Mlockall;
  b_Swapoff := logged ESwapoff is_ok b_Swapoff;
  b_EnableSysRq := logged EEnableSysRq is_ok b_EnableSysRq;
  b_RemountReadOnly := logged ERemountReadOnly is_ok b_RemountReadOnly;
  b_SysRqSync := logged ESysRqSync is_ok b_SysRqSync;
  b_SysRqReboot := logged ESysRqReboot is_ok b_SysRqReboot;
  b_OpenTarget path mode expected :=
    logged (EOpenTarget path mode expected) is_ok (b_OpenTarget path mode expected);
  b_WriteVerified ctx v t n progress :=
    logged (EWriteVerified n) is_ok (b_WriteVerified ctx v t n progress);
  b_Fdatasync t := logged EFdatasync is_ok (b_Fdatasync t);
  b_FlushBlock t := logged EFlushBlock is_ok (b_FlushBlock t);
  verified_fields := verified_fields;
  Verified_close v := logged ECloseVerified is_ok (Verified_close v);
  Target_close t := logged ECloseTarget is_ok (Target_close t) |}.

(** The operations of a complete execution, in order. *)
Definition live_only (mode : Mode) (es : list Event) : list Event :=
  if bool_decide (mode = ModeLive) then es else [].

Definition gates (request : Request) (inspection : Inspection) : list Event :=
  [EInspect request; EVerifyImage request.(rq_ImagePath) request.(rq_SHA256);
   EConfirm request.(rq_Confirmation) inspection.(ins_ConfirmationToken)]
  ++ live_only request.(rq_Mode) [EMlockall; ESwapoff; EEnableSysRq; ERemountReadOnly].

Definition plan (request : Request) (inspection : Inspection) : list Event :=
  gates request inspection
  ++ [EOpenTarget request.(rq_TargetPath) request.(rq_Mode) inspection.(ins_Target);
      EWriteVerified request.(rq_ExpectedBytes); EFdatasync; EFlushBlock]
  ++ live_only request.(rq_Mode) [ESysRqSync; ESysRqReboot].

Definition succeeded (es : list Event) : Log := map (fun e => (e, true)) es.

(** The deferred calls after [k] operations of the plan have succeeded: the target is closed when it
    was opened, then the image when it was verified. *)
Definition gate_count (request : Request) : nat :=
  if bool_decide (request.(rq_Mode) = ModeLive) then 7 else 3.
Definition closes (request : Request) (k : nat) (target_ok verified_ok : bool) : Log :=
  (if (gate_count request <? k)%nat then [(ECloseTarget, target_ok)] else [])
  ++ (if (1 <? k)%nat then [(ECloseVerified, verified_ok)] else []).

Lemma gate_count_gates request inspection : length (gates request inspection) = gate_count request.
Proof. unfold gates, gate_count, live_only. by case_bool_decide. Qed.

(** What stops an execution after [k] successful operations. *)
Inductive stopped (request : Request) (inspection : Inspection) (k : nat) (failed : Log) : Prop :=
| stop_end : k = length (plan request inspection) -> failed = [] -> stopped request inspection k failed
| stop_failed e :
    plan request inspection !! k = Some e -> failed = [(e, false)] ->
    stopped request inspection k failed
| stop_identity v :
    k = 2%nat -> failed = [] -> sameIdentity request inspection (Some v) = false ->
    stopped request inspection k failed
| stop_no_reboot :
    k = 3%nat -> failed = [] -> request.(rq_Mode) = ModeLive -> request.(rq_Reboot) = false ->
    stopped request inspection k failed.

(** What the identity check of [Prepare] establishes, field by field: the inspection is one of the
    request, and the verified image is the requested and inspected one. *)
Record identities_agree (request : Request) (inspection : Inspection) (verified : Verified) : Prop := {
  ia_mode : inspection.(ins_Mode) = request.(rq_Mode);
  ia_target : inspection.(ins_Target).(tgt_CanonicalPath) = request.(rq_TargetPath);
  ia_path : inspection.(ins_Image).(img_Path) = request.(rq_ImagePath);
  ia_digest : inspection.(ins_Image).(img_SHA256) = request.(rq_SHA256);
  ia_expanded : inspection.(ins_Image).(img_UncompressedBytes) = request.(rq_ExpectedBytes);
  ia_verified_path : verified.(v_Path) = request.(rq_ImagePath);
  ia_verified_digest : verified.(v_SHA256) = request.(rq_SHA256);
  ia_verified_size : verified.(v_CompressedBytes) = inspection.(ins_Image).(img_CompressedBytes) }.

Lemma sameIdentity_agree request inspection verified :
  sameIdentity request inspection (Some verified) = true <->
  identities_agree request inspection verified.
Proof.
  unfold sameIdentity. rewrite !andb_true_iff, !bool_decide_eq_true, !Z.eqb_eq.
  split; [intros [[[[[[[? ?] ?] ?] ?] ?] ?] ?]; split; congruence|].
  intros []. split_and!; congruence.
Qed.

Section trace.
Context {W V T : Type} (B : Boundary W V T).

(** [Prepare]'s two calls, in the states in which they were made. *)
Definition verifies (ctx : option Context) (request : Request) (w : W) (inspection : Inspection)
    (v : V) : Prop :=
  exists w1 w2, b_Inspect ctx request w = (Ok inspection, w1) /\
    b_VerifyImage request.(rq_ImagePath) request.(rq_SHA256) w1 = (Ok (Some v), w2).

(** The image that was verified is the one the request and the inspection are about. *)
Definition identified (ctx : option Context) (request : Request) (w : W) (inspection : Inspection)
    : Prop :=
  exists v, verifies ctx request w inspection v /\
    sameIdentity request inspection (Some (verified_fields v)) = true.

Definition execution (ctx : option Context) (request : Request) (progress : bool) (w : W)
    (r : result error Result) (log : Log) : Prop :=
  exists inspection k failed target_ok verified_ok,
    (0 < k -> exists w1, b_Inspect ctx request w = (Ok inspection, w1))%nat /\
    log = succeeded (take k (plan request inspection)) ++ failed
            ++ closes request k target_ok verified_ok /\
    stopped request inspection k failed /\
    (is_ok r = true <-> k = length (plan request inspection) /\ failed = []) /\
    (2 < k -> identified ctx request w inspection)%nat /\
    (3 < k -> request.(rq_Mode) = ModeLive -> request.(rq_Reboot) = true)%nat.

(** A part of the execution: it logs a prefix of [es] as successful, and it succeeds at the end of
    [es], or fails at the next operation, or stops at one of the positions [G] without calling
    anything. *)
Definition runs {A} (G : nat -> Prop) (es : list Event) (m : M error (W * Log) A) : Prop :=
  forall w l r w' l', m (w, l) = (r, (w', l')) -> exists k fl,
    l' = l ++ succeeded (take k es) ++ fl /\
    ((is_ok r = true /\ k = length es /\ fl = []) \/
     (is_ok r = false /\ exists e, es !! k = Some e /\ fl = [(e, false)]) \/
     (is_ok r = false /\ (k <= length es)%nat /\ G k /\ fl = [])).

Definition nowhere (k : nat) : Prop := False.

Lemma runs_logged {A} e (m : M error W A) : runs nowhere [e] (logged e is_ok m).
Proof.
  intros w l r w' l' H. unfold logged in H. cbn in H. destruct (m w) as [r1 w1].
  injection H as -> -> <-. destruct (is_ok r) eqn:Er.
  - exists 1%nat, []. split; [done|]. by left.
  - exists 0%nat, [(e, false)]. split; [done|]. right. left. split; [done|]. by exists e.
Qed.

Lemma runs_ret {A} (a : A) : runs nowhere [] (mret a).
Proof.
  intros w l r w' l' [= <- <- <-]. exists 0%nat, []. cbn. rewrite app_nil_r. split; [done|]. by left.
Qed.

Lemma runs_map_error {A} G es g (m : M error (W * Log) A) : runs G es m -> runs G es (map_error g m).
Proof.
  intros Hm w l r w' l' H. unfold map_error in H. destruct (m (w, l)) as [r1 [w1 l1]] eqn:E.
  injection H as <- <- <-. apply Hm in E as (k & fl & Hl & Hk). exists k, fl. split; [done|].
  by destruct r1.
Qed.

Lemma succeeded_app es es' : succeeded (es ++ es') = succeeded es ++ succeeded es'.
Proof. apply map_app. Qed.

Lemma runs_bind {A A'} G1 G2 es1 es2 (m : M error (W * Log) A) (f : A -> M error (W * Log) A') :
  runs G1 es1 m -> (forall a, runs G2 es2 (f a)) ->
  runs (fun k => G1 k \/ exists k2, k = length es1 + k2 /\ G2 k2)%nat (es1 ++ es2) (m ≫= f).
Proof.
  intros Hm Hf w l r w' l' H. unfold mbind, M_bind in H. destruct (m (w, l)) as [r1 [w1 l1]] eqn:E.
  apply Hm in E as (k1 & fl1 & -> & Hk1). destruct Hk1 as [(Hok & -> & ->)|Hk1].
  - destruct r1 as [a| |]; [|done..]. apply Hf in H as (k2 & fl2 & -> & Hk2).
    exists (length es1 + k2)%nat, fl2. rewrite take_app_add, succeeded_app, firstn_all.
    split; [by rewrite app_nil_r, !app_assoc|]. rewrite length_app, lookup_app_r by lia.
    replace (length es1 + k2 - length es1)%nat with k2 by lia.
    destruct Hk2 as [(? & -> & ?)|[?|(? & ? & ? & ?)]]; [by left|by right; left|].
    right; right. split_and!; [done|lia|right; by exists k2|done].
  - exists k1, fl1. assert (is_ok r = false /\ l' = l ++ succeeded (take k1 es1) ++ fl1) as [Hr ->].
    { destruct r1; [by destruct Hk1 as [[? _]|[? _]]|by simplify_eq..]. }
    destruct Hk1 as [(_ & e & Hl & ->)|(_ & Hle & Hg & ->)].
    + assert (k1 < length es1)%nat by (by apply lookup_lt_Some in Hl).
      split; [by rewrite take_app_le by lia|]. right; left. split; [done|]. exists e.
      by rewrite lookup_app_l by lia.
    + split; [by rewrite take_app_le by lia|]. right; right. rewrite length_app.
      split_and!; [done|lia|by left|done].
Qed.

Lemma runs_weaken {A} (G G' : nat -> Prop) es es' (m : M error (W * Log) A) :
  es = es' -> (forall k, G k -> G' k) -> runs G es m -> runs G' es' m.
Proof.
  intros <- HG Hm w l r w' l' H. apply Hm in H as (k & fl & ? & Hk). exists k, fl.
  split; [done|]. destruct Hk as [?|[?|(? & ? & ? & ?)]]; auto 10.
Qed.

Lemma runs_guard {A} b e es G (m : M error (W * Log) A) :
  runs G es m -> runs (fun k => k = 0%nat /\ b = true \/ G k) es (lift (refuse_if b e);; m).
Proof.
  intros Hm w l r w' l' H. unfold mbind, M_bind, lift in H. destruct b; cbn in H.
  - injection H as <- <- <-. exists 0%nat, []. cbn. rewrite app_nil_r. split; [done|].
    right; right. split_and!; [done|lia|by left|done].
  - apply Hm in H as (k & fl & ? & Hk). exists k, fl. split; [done|].
    destruct Hk as [?|[?|(? & ? & ? & ?)]]; auto 10.
Qed.

Lemma runs_step {A A'} G es e g (m : M error W A) (f : A -> M error (W * Log) A') :
  (forall a, runs G es (f a)) ->
  runs (fun k => exists k2, k = S k2 /\ G k2) (e :: es) (map_error g (logged e is_ok m) ≫= f).
Proof.
  intros Hf. eapply (runs_weaken _ _ ([e] ++ es)); [done| |apply runs_bind; [|exact Hf]].
  2: { apply runs_map_error, runs_logged. }
  intros k [[]|(k2 & -> & ?)]. by exists k2.
Qed.

Lemma runs_step_plain {A A'} G es e (m : M error W A) (f : A -> M error (W * Log) A') :
  (forall a, runs G es (f a)) ->
  runs (fun k => exists k2, k = S k2 /\ G k2) (e :: es) (logged e is_ok m ≫= f).
Proof.
  intros Hf. eapply (runs_weaken _ _ ([e] ++ es)); [done| |apply runs_bind; [apply runs_logged|exact Hf]].
  intros k [[]|(k2 & -> & ?)]. by exists k2.
Qed.

Lemma shifted_nowhere k : (exists k2, k = S k2 /\ nowhere k2) -> nowhere k.
Proof. by intros (? & _ & []). Qed.

Lemma runs_step_nowhere {A A'} es e g (m : M error W A) (f : A -> M error (W * Log) A') :
  (forall a, runs nowhere es (f a)) ->
  runs nowhere (e :: es) (map_error g (logged e is_ok m) ≫= f).
Proof.
  intros Hf. eapply runs_weaken; [done|apply shifted_nowhere|]. by apply runs_step.
Qed.

Lemma runs_prepareLive mode :
  runs nowhere (live_only mode [EMlockall; ESwapoff; EEnableSysRq; ERemountReadOnly])
    (prepareLive (H := traced B) mode).
Proof.
  unfold prepareLive, live_only. case_bool_decide; [|apply runs_ret].
  do 4 (apply runs_step_nowhere; intros ?). apply runs_ret.
Qed.

Lemma runs_rebootLive mode :
  runs nowhere (live_only mode [ESysRqSync; ESysRqReboot]) (rebootLive (H := traced B) mode).
Proof.
  unfold rebootLive, live_only. case_bool_decide; [|apply runs_ret].
  apply runs_step_nowhere; intros ?. apply runs_map_error, runs_logged.
Qed.

(** From the confirmation to the point where the target may be opened. *)
Definition after_identity (request : Request) (inspection : Inspection) : M error (W * Log) unit :=
  b_Confirm (Boundary := traced B) request.(rq_Confirmation) inspection.(ins_ConfirmationToken);;
  lift (refuse_if (bool_decide (request.(rq_Mode) = ModeLive) && negb request.(rq_Reboot))
          (Gate GateLiveReboot [Lit "live overwrite requires explicit immediate reboot"]));;
  prepareLive (H := traced B) request.(rq_Mode).

Definition no_reboot (request : Request) (k : nat) : Prop :=
  k = 1%nat /\ request.(rq_Mode) = ModeLive /\ request.(rq_Reboot) = false.

Lemma runs_after_identity request inspection :
  runs (no_reboot request) (drop 2 (gates request inspection)) (after_identity request inspection).
Proof.
  eapply runs_weaken; [| |apply runs_step_plain; intros _; apply runs_guard, runs_prepareLive]; [done|].
  intros k (k2 & -> & [[-> Hb]|[]]). bool_hyps. split; [done|]. by destruct (rq_Reboot request).
Qed.

(** A live request without a reboot ends with the confirmation. *)
Lemma after_identity_no_reboot request inspection w l r w' l' :
  after_identity request inspection (w, l) = (r, (w', l')) ->
  request.(rq_Mode) = ModeLive -> request.(rq_Reboot) = false ->
  is_ok r = false /\ length l' = S (length l).
Proof.
  intros H Hm Hr. unfold after_identity in H. rewrite bool_decide_true, Hr in H by done.
  unfold mbind, M_bind in H. cbn [b_Confirm traced] in H. unfold logged in H. cbn [fst snd] in H.
  destruct (b_Confirm _ _ w) as [[u|e|] w1]; cbn in H; injection H as <- <- <-;
    rewrite length_app; cbn; (split; [done|lia]).
Qed.

(** After the target is opened. *)
Definition after_open (ctx : option Context) (request : Request) (progress : bool) (verified : V)
    (target : T) : M error (W * Log) Result :=
  result ← b_WriteVerified (Boundary := traced B) ctx verified target request.(rq_ExpectedBytes) progress;
  b_Fdatasync (Boundary := traced B) target;;
  b_FlushBlock (Boundary := traced B) target;;
  rebootLive (H := traced B) request.(rq_Mode);;
  mret result.

Lemma runs_after_open ctx request progress verified target :
  runs nowhere ([EWriteVerified request.(rq_ExpectedBytes); EFdatasync; EFlushBlock]
    ++ live_only request.(rq_Mode) [ESysRqSync; ESysRqReboot])
    (after_open ctx request progress verified target).
Proof.
  unfold after_open. cbn [app].
  do 3 (eapply runs_weaken; [done|apply shifted_nowhere|apply runs_step_plain; intros ?]).
  eapply runs_weaken; [apply app_nil_r| |apply runs_bind; [apply runs_rebootLive|intros ?; apply runs_ret]].
  by intros k [[]|(? & ? & [])].
Qed.

Lemma plan_split request inspection :
  plan request inspection =
  [EInspect request; EVerifyImage request.(rq_ImagePath) request.(rq_SHA256)]
  ++ drop 2 (gates request inspection)
  ++ [EOpenTarget request.(rq_TargetPath) request.(rq_Mode) inspection.(ins_Target)]
  ++ ([EWriteVerified request.(rq_ExpectedBytes); EFdatasync; EFlushBlock]
      ++ live_only request.(rq_Mode) [ESysRqSync; ESysRqReboot]).
Proof. reflexivity. Qed.

Definition inspected (ctx : option Context) (request : Request) (w : W) (inspection : Inspection) : Prop :=
  exists w1, b_Inspect ctx request w = (Ok inspection, w1).

(** The outcomes of [Prepare]. *)
Inductive prepared (ctx : option Context) (request : Request) (w : W)
    : result error (Inspection * V) -> Log -> Prop :=
| prep_inspect r : is_ok r = false -> prepared ctx request w r [(EInspect request, false)]
| prep_verify r inspection :
    is_ok r = false -> inspected ctx request w inspection ->
    prepared ctx request w r
      [(EInspect request, true); (EVerifyImage request.(rq_ImagePath) request.(rq_SHA256), false)]
| prep_identity r inspection v closed :
    is_ok r = false -> inspected ctx request w inspection ->
    sameIdentity request inspection (Some v) = false ->
    prepared ctx request w r
      [(EInspect request, true); (EVerifyImage request.(rq_ImagePath) request.(rq_SHA256), true);
       (ECloseVerified, closed)]
| prep_ok inspection v :
    inspected ctx request w inspection -> verifies ctx request w inspection v ->
    sameIdentity request inspection (Some (verified_fields v)) = true ->
    prepared ctx request w (Ok (inspection, v))
      [(EInspect request, true); (EVerifyImage request.(rq_ImagePath) request.(rq_SHA256), true)].

Lemma Prepare_prepared ctx request w r w' log :
  Prepare (H := traced B) ctx request (w, []) = (r, (w', log)) -> prepared ctx request w r log.
Proof.
  unfold Prepare, mbind, M_bind. cbn [b_Inspect b_VerifyImage traced]. unfold logged.
  cbn [fst snd app]. intros H.
  destruct (b_Inspect ctx request w) as [r1 w1] eqn:EI.
  destruct r1 as [inspection|e|]; [|injection H as <- _ <-; by constructor..].
  assert (inspected ctx request w inspection) as Hin by (by exists w1). cbn [fst snd is_ok] in H.
  destruct (b_VerifyImage _ _ w1) as [[[v|]|e|] w2] eqn:EV; cbn [fst snd app returns_image fmap
    option_fmap option_map] in H.
  - change (verified_fields (Boundary := traced B) v) with (verified_fields v) in H.
    destruct (sameIdentity request inspection (Some (verified_fields v))) eqn:Es; cbn [negb] in H.
    + injection H as <- <- <-. apply prep_ok; [done| |done]. by exists w1, w2.
    + unfold close_verified, ignore, lift in H. cbn in H. unfold logged in H. cbn in H.
      destruct (Verified_close v w2) as [rc w3]. injection H as <- <- <-.
      by eapply prep_identity.
  - cbn in H. injection H as <- <- <-. by eapply prep_verify.
  - injection H as <- <- <-. by eapply prep_verify.
  - injection H as <- <- <-. by eapply prep_verify.
Qed.

(** [finally] with a logged deferred call. *)
Lemma finally_logged {A} (m : M error (W * Log) A) e (c : M error W unit) s r w' log :
  finally m (logged e is_ok c) s = (r, (w', log)) ->
  exists w1 l1 ok, m s = (r, (w1, l1)) /\ log = l1 ++ [(e, ok)].
Proof.
  unfold finally. destruct (m s) as [r1 [w1 l1]]. unfold logged. cbn.
  destruct (c w1) as [rc w2]. cbn. intros [= <- <- <-]. by eexists _, _, _.
Qed.

(** Any inspection stands for the missing one when inspecting fails. *)
Definition no_inspection : Inspection := {|
  ins_Mode := EmptyString;
  ins_Target := {| tgt_CanonicalPath := EmptyString; tgt_Serial := EmptyString;
    tgt_WWN := EmptyString; tgt_SizeBytes := 0; tgt_KName := EmptyString; tgt_IsPartition := false;
    tgt_Descendants := [] |};
  ins_Image := {| img_Path := EmptyString; img_SHA256 := EmptyString; img_Format := EmptyString;
    img_CompressedBytes := 0; img_UncompressedBytes := 0 |};
  ins_ConfirmationToken := EmptyString |}.

Definition live (request : Request) : bool := bool_decide (request.(rq_Mode) = ModeLive).

Lemma plan_lengths request inspection :
  length (plan request inspection) = (if live request then 13 else 7)%nat /\
  length (drop 2 (gates request inspection)) = (if live request then 5 else 1)%nat /\
  gate_count request = (if live request then 7 else 3)%nat.
Proof. unfold plan, gates, gate_count, live_only, live. by case_bool_decide. Qed.

Lemma closes_late request k tc vc :
  (gate_count request < k)%nat -> closes request k tc vc = [(ECloseTarget, tc); (ECloseVerified, vc)].
Proof.
  intros H. unfold closes. rewrite (proj2 (Nat.ltb_lt _ _) H). unfold gate_count in H.
  rewrite (proj2 (Nat.ltb_lt 1 k)) by (case_bool_decide; lia). done.
Qed.

Lemma closes_middle request k tc vc :
  (1 < k <= gate_count request)%nat -> closes request k tc vc = [(ECloseVerified, vc)].
Proof.
  intros H. unfold closes. rewrite (proj2 (Nat.ltb_ge _ _)) by lia.
  by rewrite (proj2 (Nat.ltb_lt 1 k)) by lia.
Qed.

(** A failed execution of which [k] operations succeeded. *)
Lemma execution_failed ctx request progress w r inspection k failed tc vc log :
  is_ok r = false -> (0 < k -> inspected ctx request w inspection)%nat ->
  log = succeeded (take k (plan request inspection)) ++ failed ++ closes request k tc vc ->
  (k < length (plan request inspection))%nat -> stopped request inspection k failed ->
  (2 < k -> identified ctx request w inspection)%nat ->
  (3 < k -> request.(rq_Mode) = ModeLive -> request.(rq_Reboot) = true)%nat ->
  execution ctx request progress w r log.
Proof.
  intros Hr Hi Hl Hk Hs Hid Hre. exists inspection, k, failed, tc, vc. split_and!; try done.
  rewrite Hr. split; [done|]. intros [-> _]. lia.
Qed.

Lemma Prepare_failed ctx request progress w rp r log :
  prepared ctx request w rp log -> is_ok rp = false -> is_ok r = false ->
  execution ctx request progress w r log.
Proof.
  intros HP Hrp Hr.
  destruct HP as [? _|? inspection _ Hi|? inspection v closed _ Hi Hs|]; [..|done].
  - destruct (plan_lengths request no_inspection) as [Hl _].
    apply (execution_failed _ _ _ _ _ no_inspection 0 [(EInspect request, false)] true true);
      [done|lia|done|rewrite Hl; destruct (live request); lia| |lia|lia].
    by apply (stop_failed _ _ _ _ (EInspect request)).
  - destruct (plan_lengths request inspection) as [Hl _].
    apply (execution_failed _ _ _ _ _ inspection 1
      [(EVerifyImage (rq_ImagePath request) (rq_SHA256 request), false)] true true);
      [done|done| |rewrite Hl; destruct (live request); lia|by eapply stop_failed|lia|lia].
    unfold closes, gate_count. by case_bool_decide.
  - destruct (plan_lengths request inspection) as [Hl _].
    apply (execution_failed _ _ _ _ _ inspection 2 [] true closed);
      [done|done| |rewrite Hl; destruct (live request); lia| |lia|lia].
    + rewrite closes_middle; [done|]. unfold gate_count. case_bool_decide; lia.
    + by apply (stop_identity _ _ _ _ v).
Qed.

Lemma drop_gates_lookup request inspection k e :
  drop 2 (gates request inspection) !! k = Some e ->
  plan request inspection !! (2 + k)%nat = Some e.
Proof.
  intros Hl. rewrite plan_split, lookup_app_r by (cbn; lia). cbn [length].
  replace (2 + k - 2)%nat with k by lia. by apply lookup_app_l_Some.
Qed.

Lemma take_gates request inspection k :
  (k <= length (drop 2 (gates request inspection)))%nat ->
  take (2 + k) (plan request inspection) =
  [EInspect request; EVerifyImage request.(rq_ImagePath) request.(rq_SHA256)]
  ++ take k (drop 2 (gates request inspection)).
Proof. intros Hk. rewrite plan_split. cbn [app Nat.add firstn]. by rewrite take_app_le by lia. Qed.

(** A gate after the identity check fails. *)
Lemma gate_failed ctx request progress w r inspection (r1 : res unit) k1 fl1 l2 vc :
  inspected ctx request w inspection -> identified ctx request w inspection ->
  is_ok r1 = false -> is_ok r = false ->
  l2 = [(EInspect request, true); (EVerifyImage request.(rq_ImagePath) request.(rq_SHA256), true)]
    ++ succeeded (take k1 (drop 2 (gates request inspection))) ++ fl1 ->
  (is_ok r1 = true /\ k1 = length (drop 2 (gates request inspection)) /\ fl1 = []) \/
  (is_ok r1 = false /\ exists e, drop 2 (gates request inspection) !! k1 = Some e /\ fl1 = [(e, false)]) \/
  (is_ok r1 = false /\ (k1 <= length (drop 2 (gates request inspection)))%nat /\
     no_reboot request k1 /\ fl1 = []) ->
  (request.(rq_Mode) = ModeLive -> request.(rq_Reboot) = false -> is_ok r1 = false /\ length l2 = 3%nat) ->
  execution ctx request progress w r (l2 ++ [(ECloseVerified, vc)]).
Proof.
  intros Hi Hid Hr1 Hr -> Hk1 Hreboot. destruct Hk1 as [[? _]|Hk1]; [congruence|].
  destruct (plan_lengths request inspection) as (Lp & Lg & Lc).
  assert (k1 < length (drop 2 (gates request inspection)))%nat as Hk.
  { destruct Hk1 as [(_ & e & Hl & _)|(_ & _ & (-> & Hl & _) & _)]; [by apply lookup_lt_Some in Hl|].
    rewrite Lg. unfold live. rewrite bool_decide_true by done. lia. }
  apply (execution_failed _ _ _ _ _ inspection (2 + k1) fl1 true vc);
    [done|by intros _| |rewrite Lp, Lg in *; destruct (live request); lia|
     |by intros _|].
  - rewrite closes_middle by (rewrite Lc; rewrite Lg in Hk; destruct (live request); lia).
    rewrite take_gates, succeeded_app, <- !app_assoc by lia. done.
  - destruct Hk1 as [(_ & e & Hl & ->)|(_ & _ & (-> & Hl & Hb) & ->)]; [|by apply stop_no_reboot].
    eapply stop_failed; [|done]. by apply drop_gates_lookup.
  - intros Hk3 Hlive. destruct (rq_Reboot request) eqn:Eb; [done|]. exfalso.
    destruct (Hreboot Hlive eq_refl) as [_ Hlen]. rewrite !length_app in Hlen.
    unfold succeeded in Hlen. rewrite length_map, length_take in Hlen. cbn [length] in Hlen.
    destruct Hk1 as [(_ & e & Hl & ->)|(_ & _ & (-> & _) & _)]; [cbn in Hlen|]; lia.
Qed.

(** The target cannot be opened, or it is opened and written. *)
Lemma plan_open request inspection :
  plan request inspection !! gate_count request
    = Some (EOpenTarget request.(rq_TargetPath) request.(rq_Mode) inspection.(ins_Target)) /\
  take (gate_count request) (plan request inspection) = gates request inspection.
Proof. unfold plan, gates, gate_count, live_only. by case_bool_decide. Qed.

Lemma plan_after_open request inspection k :
  let rest := [EWriteVerified request.(rq_ExpectedBytes); EFdatasync; EFlushBlock]
    ++ live_only request.(rq_Mode) [ESysRqSync; ESysRqReboot] in
  plan request inspection !! (gate_count request + S k)%nat = rest !! k /\
  take (gate_count request + S k) (plan request inspection)
    = gates request inspection
      ++ EOpenTarget request.(rq_TargetPath) request.(rq_Mode) inspection.(ins_Target)
      :: take k rest /\
  length (plan request inspection) = (gate_count request + S (length rest))%nat.
Proof. unfold plan, gates, gate_count, live_only. by case_bool_decide. Qed.

(** Every gate has passed. *)
Lemma gates_passed ctx request progress w r inspection v w3 w2 l2 vc :
  inspected ctx request w inspection -> identified ctx request w inspection ->
  (request.(rq_Mode) = ModeLive -> request.(rq_Reboot) = true) ->
  (target ← b_OpenTarget (Boundary := traced B) request.(rq_TargetPath) request.(rq_Mode)
              inspection.(ins_Target);
   finally (after_open ctx request progress v target)
     (logged ECloseTarget is_ok (Target_close target)))
    (w3, succeeded (gates request inspection)) = (r, (w2, l2)) ->
  execution ctx request progress w r (l2 ++ [(ECloseVerified, vc)]).
Proof.
  intros Hi Hid Hreboot H. destruct (plan_lengths request inspection) as (Lp & _ & Lc).
  destruct (plan_open request inspection) as [Hopen Hgates].
  set (open := EOpenTarget _ _ _) in *.
  assert (2 < gate_count request)%nat as Hc by (rewrite Lc; destruct (live request); lia).
  remember (succeeded (gates request inspection)) as l0 eqn:Hl0 in H.
  apply M_bind_cases in H as [(target & [w4 l4] & HO & H)|(ro & HO & Hro & Hr)];
    cbn [b_OpenTarget traced] in HO; unfold logged in HO; cbn [fst snd] in HO;
    destruct (b_OpenTarget _ _ _ w3) as [ro' w5]; injection HO as Hro' <- <-.
  - subst ro'. apply finally_logged in H as (w6 & l6 & tc & H & ->).
    apply runs_after_open in H as (k & fl & -> & Hk).
    destruct (plan_after_open request inspection k) as (Hl & Ht & Hlen). cbv zeta in Hl, Ht, Hlen.
    set (rest := _ ++ live_only _ _) in *.
    exists inspection, (gate_count request + S k)%nat, fl, tc, vc. split_and!.
    + by intros _.
    + rewrite closes_late by lia. rewrite Ht, succeeded_app.
      change (succeeded (EOpenTarget ?a ?b ?c :: ?l)) with ((EOpenTarget a b c, true) :: succeeded l).
      by rewrite Hl0, <- !app_assoc.
    + destruct Hk as [(_ & -> & ->)|[(_ & e & He & ->)|(_ & _ & [] & _)]];
        [by apply stop_end|]. apply (stop_failed _ _ _ _ e); [by rewrite Hl|done].
    + rewrite Hlen. destruct Hk as [(-> & -> & ->)|[(-> & e & He & ->)|(_ & _ & [] & _)]]; [done|].
      split; [done|]. by intros [_ ?].
    + by intros _.
    + by intros _.
  - subst ro'. apply (execution_failed _ _ _ _ _ inspection (gate_count request) [(open, false)] true vc);
      [done|by intros _| |rewrite Lp, Lc; destruct (live request); lia| |by intros _
      |by intros _].
    + rewrite closes_middle by lia. rewrite Hgates, Hro, Hl0. by rewrite <- app_assoc.
    + by apply (stop_failed _ _ _ _ open).
Qed.

Lemma Execute_execution ctx request progress w r w' log :
  Execute (H := traced B) ctx request progress (w, []) = (r, (w', log)) ->
  execution ctx request progress w r log.
Proof.
  intros H. unfold Execute in H.
  apply M_bind_cases in H as [([inspection v] & [w1 l1] & HP & H)|(rp & HP & Hrp & Hr)];
    apply Prepare_prepared in HP; [|by eapply Prepare_failed].
  inversion HP as [? Hf|? ? Hf|? ? ? ? Hf|inspection' v' Hi Hv Hs]; [by simplify_eq..|].
  assert (identified ctx request w inspection) as Hid by (exists v; by simplify_eq).
  subst inspection' v' l1. clear HP.
  destruct (plan_lengths request inspection) as (Lp & Lg & Lc).
  apply finally_logged in H as (w2 & l2 & vc & H & ->).
  match type of H with ?m ?s0 = _ => set (s := s0) in H end.
  assert ((after_identity request inspection;;
    target ← b_OpenTarget (Boundary := traced B) request.(rq_TargetPath) request.(rq_Mode)
               inspection.(ins_Target);
    finally (after_open ctx request progress v target)
      (logged ECloseTarget is_ok (Target_close target))) s = (r, (w2, l2))) as H'.
  { rewrite <- H. unfold after_identity. rewrite !M_bind_assoc. unfold mbind, M_bind.
    destruct (b_Confirm _ _ s) as [[]]; [|done..]. by destruct (lift _ _) as [[]]. }
  clear H. unfold s in H'. clear s.
  apply M_bind_cases in H' as [([] & [w3 l3] & H1 & H')|(r1 & H1 & Hr1 & Hr)];
    pose proof (after_identity_no_reboot _ _ _ _ _ _ _ H1) as Hreboot;
    apply runs_after_identity in H1 as (k1 & fl1 & -> & Hk1).
  2: { by eapply gate_failed. }
  eapply gates_passed; [exact Hi|exact Hid| |].
  - intros Hl. destruct (rq_Reboot request) eqn:Eb; [done|]. by destruct (Hreboot Hl eq_refl).
  - destruct Hk1 as [(_ & -> & ->)|[[? _]|[? _]]]; [|done..].
    rewrite firstn_all, app_nil_r in H'. exact H'.
Qed.
End trace.

(** ** The log changes nothing *)
Create HintDb erase discriminated.
Section erase.
Context {W V T : Type} (B : Boundary W V T).

Definition erases {A} (m : M error W A) (mt : M error (W * Log) A) : Prop :=
  forall s, m s.1 = ((mt s).1, (mt s).2.1).

Lemma erases_logged {A} e g (m : M error W A) : erases m (logged e g m).
Proof. intros [w l]. unfold logged. cbn. by destruct (m w). Qed.

Lemma erases_bind {A A'} (m : M error W A) mt (f : A -> M error W A') ft :
  erases m mt -> (forall a, erases (f a) (ft a)) -> erases (m ≫= f) (mt ≫= ft).
Proof.
  intros Hm Hf s. unfold mbind, M_bind. rewrite Hm. destruct (mt s) as [[a|e|] s1]; [|done..].
  apply Hf.
Qed.

Lemma erases_ret {A} (a : A) : erases (mret a) (mret a).
Proof. done. Qed.
Lemma erases_lift {A} (r : res A) : erases (lift r) (lift r).
Proof. done. Qed.
Lemma erases_map_error {A} g (m : M error W A) mt : erases m mt -> erases (map_error g m) (map_error g mt).
Proof. intros Hm s. unfold map_error. rewrite Hm. by destruct (mt s). Qed.
Lemma erases_finally {A} (m : M error W A) mt c ct :
  erases m mt -> erases c ct -> erases (finally m c) (finally mt ct).
Proof. intros Hm Hc s. unfold finally. rewrite Hm. destruct (mt s) as [r s1]. cbn. by rewrite Hc. Qed.
Lemma erases_ignore {A} (m : M error W A) mt : erases m mt -> erases (ignore m) (ignore mt).
Proof. intros Hm s. unfold ignore. by rewrite Hm. Qed.

#[local] Hint Resolve erases_logged erases_bind erases_ret erases_lift erases_map_error erases_finally
  erases_ignore : erase.

Lemma erases_Prepare ctx request :
  erases (Prepare (H := B) ctx request) (Prepare (H := traced B) ctx request).
Proof.
  unfold Prepare. apply erases_bind; [apply erases_logged|]. intros inspection.
  apply erases_bind; [apply erases_logged|]. intros v.
  assert (erases (close_verified (H := B) v) (close_verified (H := traced B) v)) as Hc.
  { destruct v; [apply erases_ignore, erases_logged|apply erases_ret]. }
  destruct (negb _); [eauto with erase|]. destruct v; eauto with erase.
Qed.

Lemma erases_prepareLive mode : erases (prepareLive (H := B) mode) (prepareLive (H := traced B) mode).
Proof.
  unfold prepareLive. destruct (negb _); [apply erases_ret|].
  do 4 (apply erases_bind; [apply erases_map_error, erases_logged|intros _]). apply erases_ret.
Qed.

Lemma erases_rebootLive mode : erases (rebootLive (H := B) mode) (rebootLive (H := traced B) mode).
Proof.
  unfold rebootLive. destruct (negb _); [apply erases_ret|].
  apply erases_bind; [|intros _]; apply erases_map_error, erases_logged.
Qed.

Lemma erases_Execute ctx request progress :
  erases (Execute (H := B) ctx request progress) (Execute (H := traced B) ctx request progress).
Proof.
  unfold Execute. apply erases_bind; [apply erases_Prepare|]. intros [inspection v].
  apply erases_finally; [|apply erases_logged].
  apply erases_bind; [apply erases_logged|intros _].
  apply erases_bind; [apply erases_lift|intros _].
  apply erases_bind; [apply erases_prepareLive|intros _].
  apply erases_bind; [apply erases_logged|intros target].
  apply erases_finally; [|apply erases_logged].
  do 3 (apply erases_bind; [apply erases_logged|intros ?]).
  apply erases_bind; [apply erases_rebootLive|intros _]. apply erases_ret.
Qed.
End erase.

(** C8: An execution follows its plan, over any system: the operations that succeed are the first
    ones of inspection, image verification, confirmation, (live mode: memory lock, swapoff, SysRq
    and read-only remount), opening the target, writing, fdatasync, flush, (live mode: SysRq sync
    and reboot), in this order; what stops it earlier is one failed operation, an identity that
    does not match, or a live request without reboot; then the target, if it was opened, and the
    image, if it was verified, are closed, in this order, exactly once; and the execution succeeds
    exactly when the whole plan did. *)
Theorem Execute_follows_plan {W V T} (B : Boundary W V T) ctx request progress w :
  let '(r, (w', log)) := Execute (H := traced B) ctx request progress (w, []) in
  Execute (H := B) ctx request progress w = (r, w') /\ execution B ctx request progress w r log.
Proof.
  destruct (Execute (H := traced B) ctx request progress (w, [])) as [r [w' log]] eqn:E.
  split; [|by eapply Execute_execution].
  pose proof (erases_Execute B ctx request progress (w, [])) as He. by rewrite E in He.
Qed.

Section opened.
Context (request : Request) (inspection : Inspection).

(** The only opening of a plan comes right after its gates. *)
Lemma plan_open_unique j p m i :
  plan request inspection !! j = Some (EOpenTarget p m i) ->
  j = gate_count request /\
  EOpenTarget p m i
    = EOpenTarget request.(rq_TargetPath) request.(rq_Mode) inspection.(ins_Target).
Proof.
  intros Hl. unfold plan, gates, gate_count, live_only in *.
  case_bool_decide; cbn in Hl; repeat (destruct j as [|j]; cbn in Hl; try by simplify_eq).
Qed.

Lemma length_succeeded es : length (succeeded es) = length es.
Proof. apply length_map. Qed.

(** A logged opening follows the gates, all of which have succeeded. *)
Lemma open_logged k fl tc vc p m i ok :
  stopped request inspection k fl ->
  (EOpenTarget p m i, ok) ∈
    succeeded (take k (plan request inspection)) ++ fl ++ closes request k tc vc ->
  (gate_count request <= k)%nat /\
  EOpenTarget p m i
    = EOpenTarget request.(rq_TargetPath) request.(rq_Mode) inspection.(ins_Target) /\
  (succeeded (gates request inspection) ++ [(EOpenTarget p m i, ok)]) `prefix_of`
    succeeded (take k (plan request inspection)) ++ fl ++ closes request k tc vc.
Proof.
  intros Hs Hin. destruct (plan_open request inspection) as [Hopen Hgates].
  assert (gate_count request < length (plan request inspection))%nat as Hlen
    by (by apply lookup_lt_Some in Hopen).
  rewrite !elem_of_app in Hin. destruct Hin as [Hin|[Hin|Hin]].
  - unfold succeeded in Hin. apply list_elem_of_fmap in Hin as (e & He & Hin). injection He as <- ->.
    apply list_elem_of_lookup in Hin as [j Hl]. apply lookup_take_Some in Hl as [Hl Hjk].
    apply plan_open_unique in Hl as [-> ->]. split; [lia|]. split; [done|].
    apply prefix_app_r. exists (succeeded (drop (S (gate_count request)) (take k (plan request inspection)))).
    change [(?e, true)] with (succeeded [e]). rewrite <- !succeeded_app. f_equal.
    rewrite <- Hgates, <- (take_S_r _ _ _ Hopen).
    rewrite <- (take_drop (S (gate_count request)) (take k _)) at 1.
    by rewrite take_take, Nat.min_l by lia.
  - destruct Hs as [_ ->|e' Hl ->|? _ -> _|_ -> _ _]; try by apply not_elem_of_nil in Hin.
    apply list_elem_of_singleton in Hin. injection Hin as <- ->.
    apply plan_open_unique in Hl as [-> ->]. split; [lia|]. split; [done|].
    rewrite Hgates, app_assoc. by apply prefix_app_r.
  - unfold closes in Hin. destruct (_ <? _)%nat, (1 <? k)%nat; set_solver.
Qed.
End opened.

(** C3: No target is opened before every gate has passed: when [OpenTarget] is called at all, it is
    called with the requested path and mode and with the inspected identity, every gate operation
    has succeeded before it, the image that [VerifyImage] returned in this execution and the
    inspection agree with the request in every field of the identity check, the confirmation was
    checked against the inspected token, and a live request approved the reboot. *)
Theorem Execute_opens_only_gated {W V T} (B : Boundary W V T) ctx request progress w r w' log
    path mode identity ok
    (Hrun : Execute (H := traced B) ctx request progress (w, []) = (r, (w', log)))
    (Hopened : (EOpenTarget path mode identity, ok) ∈ log) :
  exists inspection v w1 w2,
    b_Inspect ctx request w = (Ok inspection, w1) /\
    b_VerifyImage request.(rq_ImagePath) request.(rq_SHA256) w1 = (Ok (Some v), w2) /\
    identities_agree request inspection (verified_fields v) /\
    path = request.(rq_TargetPath) /\ mode = request.(rq_Mode) /\ identity = inspection.(ins_Target) /\
    (succeeded (gates request inspection) ++ [(EOpenTarget path mode identity, ok)]) `prefix_of` log /\
    (request.(rq_Mode) = ModeLive -> request.(rq_Reboot) = true).
Proof.
  apply Execute_execution in Hrun
    as (inspection & k & fl & tc & vc & _ & -> & Hs & _ & Hid & Hre).
  destruct (open_logged _ _ _ _ _ _ _ _ _ _ Hs Hopened) as (Hk & Heq & Hprefix).
  injection Heq as -> -> ->. unfold gate_count in Hk.
  destruct Hid as (v & (w1 & w2 & Hi & Hv) & Hsame); [case_bool_decide; lia|].
  exists inspection, v, w1, w2. split_and!; [done|done|by apply sameIdentity_agree|done..|].
  intros Hl. apply Hre; [|done]. rewrite bool_decide_true in Hk by done. lia.
Qed.

(** A system on which everything succeeds. *)
Definition nominal_identity : TargetIdentity := {|
  tgt_CanonicalPath := "/dev/vda"; tgt_Serial := "SER"; tgt_WWN := "WWN"; tgt_SizeBytes := 4096;
  tgt_KName := "vda"; tgt_IsPartition := false; tgt_Descendants := ["vda"] |}.
Definition nominal_inspection (request : Request) : Inspection := {|
  ins_Mode := request.(rq_Mode); ins_Target := nominal_identity;
  ins_Image := {| img_Path := request.(rq_ImagePath); img_SHA256 := request.(rq_SHA256);
    img_Format := EmptyString; img_CompressedBytes := 7;
    img_UncompressedBytes := request.(rq_ExpectedBytes) |};
  ins_ConfirmationToken := "token" |}.
Definition nominal_image (request : Request) : Verified := {|
  v_Path := request.(rq_ImagePath); v_SHA256 := request.(rq_SHA256); v_Format := FormatRaw;
  v_CompressedBytes := 7; v_file := None |}.
Definition nominal (request : Request) : Boundary unit unit unit := {|
  b_Inspect _ rq := mret (nominal_inspection rq);
  b_VerifyImage _ _ := mret (Some tt);
  b_Confirm provided expected :=
    lift (refuse_if (negb (bool_decide (provided = expected))) (Gate GateConfirmation []));
  b_Mlockall := mret tt; b_Swapoff := mret tt; b_EnableSysRq := mret tt;
  b_RemountReadOnly := mret tt; b_SysRqSync := mret tt; b_SysRqReboot := mret tt;
  b_OpenTarget _ _ _ := mret tt;
  b_WriteVerified _ _ _ n _ := mret {| rs_WrittenBytes := n |};
  b_Fdatasync _ := mret tt; b_FlushBlock _ := mret tt;
  verified_fields _ := nominal_image request;
  Verified_close _ := mret tt; Target_close _ := mret tt |}.

Definition nominal_request (mode : Mode) (reboot : bool) (confirmation : string) : Request := {|
  rq_Mode := mode; rq_TargetPath := "/dev/vda"; rq_ImagePath := "/run/image"; rq_SHA256 := "d";
  rq_ExpectedBytes := 9; rq_Confirmation := confirmation; rq_Reboot := reboot |}.
Definition nominal_run (request : Request) :=
  Execute (H := traced (nominal request)) (Some background) request false (tt, []).

Example nominal_rescue :
  nominal_run (nominal_request ModeRescue false "token")
  = (Ok {| rs_WrittenBytes := 9 |},
     (tt, succeeded (plan (nominal_request ModeRescue false "token")
                       (nominal_inspection (nominal_request ModeRescue false "token")))
          ++ [(ECloseTarget, true); (ECloseVerified, true)])).
Proof. vm_compute. reflexivity. Qed.

Example nominal_no_reboot :
  map fst (nominal_run (nominal_request ModeLive false "token")).2.2
  = [EInspect (nominal_request ModeLive false "token"); EVerifyImage "/run/image" "d";
     EConfirm "token" "token"; ECloseVerified].
Proof. vm_compute. reflexivity. Qed.

Lemma Execute_opens_only_gated_witness :
  let request := nominal_request ModeLive true "token" in
  exists inspection,
    identities_agree request inspection (nominal_image request) /\
    (succeeded (gates request inspection)
       ++ [(EOpenTarget "/dev/vda" ModeLive nominal_identity, true)])
    `prefix_of` (nominal_run request).2.2.
Proof.
  cbv zeta. set (request := nominal_request ModeLive true "token").
  destruct (Execute_opens_only_gated (nominal request) (Some background) request false tt
    (nominal_run request).1 tt (nominal_run request).2.2 "/dev/vda" ModeLive nominal_identity true)
    as (inspection & v & w1 & w2 & _ & _ & Hagree & _ & _ & _ & H & _).
  - vm_compute. reflexivity.
  - apply (bool_decide_unpack _). vm_compute. exact I.
  - exists inspection. split; [exact Hagree|exact H].
Defined.
