(* ===== verification/System.v ===== *)
(** * The Linux system ([internal/linux/system.go])

    The privileged boundary: inspection of the running host, the live-mode controls, and the
    opening of the target, over an abstract kernel. *)

From S2P Require Export Decisions Execute.
Open Scope Z_scope.

Definition remountPollAttempts : nat := 600.
Definition remountPollInterval : Z := 50.

(** The flags of [unix.Open] that the program uses, and the file type bits of [Stat_t]. *)
Inductive OpenFlag := O_WRONLY | O_CLOEXEC | O_NOFOLLOW | O_EXCL.
#[export] Instance OpenFlag_eq_dec : EqDecision OpenFlag.
Proof. solve_decision. Defined.
Definition S_IFMT : Z := 0xf000.
Definition S_IFBLK : Z := 0x6000.
Record Stat_t := {
  st_Mode : Z;
  st_Rdev : Z }.

(** What the system calls and the standard library give the program, over the state [K] of the
    kernel; [H] are the handles of the control files.  Each observer call reads one snapshot of
    procfs and sysfs, and nothing relates the snapshots of two calls.  [unix_] operations are
    those of [golang.org/x/sys/unix]. *)
Class Kernel (K H : Type) := {
  k_snapshot : M error K FS;
  k_Stat : string -> M error K FileInfo;
  k_Geteuid : M error K Z;
  k_Sleep : Z -> M error K unit;
  k_open_image : K -> string -> outcome (FileEnv * script) * K;
  k_OpenControl : string -> M error K H;
  k_WriteString : H -> string -> M error K unit;
  k_CloseControl : H -> M error K unit;
  k_target_file : Z -> K -> FileEnv;
  unix_GetMemlock : M error K (Z * Z);
  unix_SetMemlock : Z * Z -> M error K unit;
  unix_Mlockall : M error K unit;
  unix_BytePtrFromString : string -> option error;
  unix_Swapoff : string -> M error K unit;
  unix_Open : string -> list OpenFlag -> M error K Z;
  unix_Fstat : Z -> M error K Stat_t;
  unix_Close : Z -> M error K unit;
  unix_Fdatasync : Z -> M error K unit;
  unix_FlushBuffers : Z -> M error K unit;
  unix_Major : Z -> Z;
  unix_Minor : Z -> Z }.

Definition System := Observer.
Definition DefaultSystem : System := {| obs_ProcRoot := "/proc"; obs_SysRoot := "/sys" |}.

(** [subtle.ConstantTimeCompare]: the differences of all bytes are collected before the test. *)
Fixpoint compare_bytes (v : Z) (x y : string) : Z :=
  match x, y with
  | String c x', String d y' =>
      compare_bytes (Z.lor v (Z.lxor (Z.of_N (code c)) (Z.of_N (code d)))) x' y'
  | _, _ => v
  end.
Definition ConstantTimeCompare (x y : string) : Z :=
  if negb (String.length x =? String.length y)%nat then 0
  else if compare_bytes 0 x y =? 0 then 1 else 0.

Definition Confirm (provided expected : string) : res unit :=
  refuse_if (negb (String.length provided =? String.length expected)%nat
             || negb (ConstantTimeCompare provided expected =? 1))
    (Gate GateConfirmation
       [Lit "confirmation token does not match inspected target and image"]).

Definition identityChanged {A} (msg : message) : res A := Err (Gate GateIdentityChanged msg).

Definition sameTarget (current expected : TargetIdentity) : bool :=
  bool_decide (current.(tgt_CanonicalPath) = expected.(tgt_CanonicalPath))
  && bool_decide (current.(tgt_Serial) = expected.(tgt_Serial))
  && bool_decide (current.(tgt_WWN) = expected.(tgt_WWN))
  && (current.(tgt_SizeBytes) =? expected.(tgt_SizeBytes))
  && bool_decide (current.(tgt_KName) = expected.(tgt_KName))
  && Bool.eqb current.(tgt_IsPartition) expected.(tgt_IsPartition)
  && bool_decide (current.(tgt_Descendants) = expected.(tgt_Descendants)).

(** [uint32] values as [Z]. *)
Definition deviceNumber (observer : Observer) (fs : FS) (name : string) : res (Z * Z) :=
  path ← blockPath observer fs name;
  value ← readTrimmed fs (path_Join [path; "dev"]);
  match Cut value ":" with
  | None => Err (errorf_sentinel ErrInvalidProcfs [Lit "device number "; Quoted value])
  | Some (majorText, minorText) =>
      match ParseUint majorText 32 with
      | None => Err (errorf_sentinel ErrInvalidProcfs [Lit "major device number "; Quoted majorText])
      | Some parsedMajor =>
          match ParseUint minorText 32 with
          | None => Err (errorf_sentinel ErrInvalidProcfs [Lit "minor device number "; Quoted minorText])
          | Some parsedMinor => Ok (parsedMajor, parsedMinor)
          end
      end
  end.

Section system.
Context {K H : Type} `{Kernel K H}.
Context (system : System).

(** One call of an observer method: it reads the snapshot of its time. *)
Definition observe {A} (method : FS -> res A) : M error K A :=
  fs ← k_snapshot;
  lift (method fs).

Definition observeLive (host : HostObservation) : M error K HostObservation :=
  rootDisk ← observe (RootDisk system);
  memory ← observe (MemoryAvailableBytes system);
  sysrq ← observe (SysRqTriggerAvailable system);
  mret {| host_EUID := host.(host_EUID); host_RootDisk := rootDisk;
          host_MountedDevices := host.(host_MountedDevices);
          host_SwapDevices := host.(host_SwapDevices);
          host_SourceFilesystem := host.(host_SourceFilesystem);
          host_SourceBackingDevices := host.(host_SourceBackingDevices);
          host_MemoryAvailableBytes := memory; host_SysRqTriggerAvailable := sysrq |}.

Definition Inspect (request : Request) : M error K Inspection :=
  target ← observe (fun fs => Target system fs request.(rq_TargetPath));
  mounted ← observe (MountedDevices system);
  swaps ← observe (SwapDevices system);
  source ← observe (fun fs => Source system fs request.(rq_ImagePath));
  info ← map_error (wrap_error "stat image source: ") (k_Stat request.(rq_ImagePath));
  euid ← k_Geteuid;
  let host := {| host_EUID := euid; host_RootDisk := EmptyString;
                 host_MountedDevices := mounted; host_SwapDevices := swaps;
                 host_SourceFilesystem := source.1; host_SourceBackingDevices := source.2;
                 host_MemoryAvailableBytes := 0; host_SysRqTriggerAvailable := false |} in
  host ← (if bool_decide (request.(rq_Mode) = ModeLive) then observeLive host else mret host);
  lift (Policy.Inspect request.(rq_Mode) target
    {| img_Path := request.(rq_ImagePath); img_SHA256 := request.(rq_SHA256);
       img_Format := EmptyString; img_CompressedBytes := info.(fi_size);
       img_UncompressedBytes := request.(rq_ExpectedBytes) |} host).

Definition Mlockall : M error K unit :=
  limit ← map_error (wrap_error "read memlock limit: ") unix_GetMemlock;
  let (_, max) := limit : Z * Z in
  map_error (wrap_error "raise memlock limit: ") (unix_SetMemlock (max, max));;
  map_error (wrap_error "lock process memory: ") unix_Mlockall.

Definition swapoff (path : string) : M error K unit :=
  map_error (wrap_error "encode swap path: ") (lift (failing (unix_BytePtrFromString path)));;
  unix_Swapoff path.

(** The loop over the records. *)
Fixpoint swapoff_all (records : list swapRecord) : M error K unit :=
  match records with
  | [] => mret tt
  | record :: rest =>
      map_error (fun e => Wrapped [Lit "swapoff "; Lit record.(sr_source); Lit ": "] e [])
        (swapoff record.(sr_source));;
      swapoff_all rest
  end.

Definition Swapoff : M error K unit :=
  records ← observe (fun fs => readSwapRecords fs system.(obs_ProcRoot));
  swapoff_all records.

Definition control_error (what path : string) (e : error) : error :=
  Wrapped [Lit what; Lit " kernel control "; Quoted path; Lit ": "] e [].

Definition writeControl (path value : string) : M error K unit :=
  file ← map_error (control_error "open" path) (k_OpenControl path);
  on_failure (map_error (control_error "write" path) (k_WriteString file value)) (k_CloseControl file);;
  map_error (control_error "close" path) (k_CloseControl file).

Definition EnableSysRq : M error K unit :=
  writeControl (path_Join [system.(obs_ProcRoot); "sys"; "kernel"; "sysrq"]) ("1" +:+ nl).

(** The polling loop: at most [attempts] polls, each followed by a pause. *)
Fixpoint poll_read_only (attempts : nat) : M error K unit :=
  match attempts with
  | O => lift (Err (Sentinel ErrRemountIncomplete))
  | S attempts' =>
      readOnly ← observe (BlockMountsReadOnly system);
      if readOnly : bool then mret tt
      else k_Sleep remountPollInterval;; poll_read_only attempts'
  end.

Definition RemountReadOnly : M error K unit :=
  map_error (wrap_error "SysRq remount read-only: ")
    (writeControl (path_Join [system.(obs_ProcRoot); "sysrq-trigger"]) "u");;
  poll_read_only remountPollAttempts.

Definition SysRqSync : M error K unit :=
  writeControl (path_Join [system.(obs_ProcRoot); "sysrq-trigger"]) "s".
Definition SysRqReboot : M error K unit :=
  writeControl (path_Join [system.(obs_ProcRoot); "sysrq-trigger"]) "b".

Definition validateOpenedTarget (descriptor : Z) (expected : TargetIdentity) : M error K unit :=
  current ← map_error (fun e => Gate GateIdentityChanged (Lit "observe opened target: " :: error_text e))
              (observe (fun fs => Target system fs expected.(tgt_CanonicalPath)));
  lift (if negb (sameTarget current expected)
        then identityChanged [Lit "sysfs target identity no longer matches confirmation"]
        else Ok tt);;
  number ← map_error
    (fun e => Gate GateIdentityChanged (Lit "read opened target device number: " :: error_text e))
    (observe (fun fs => deviceNumber system fs expected.(tgt_KName)));
  stat ← map_error (wrap_error "stat opened target: ") (unix_Fstat descriptor);
  lift (if negb (unix_Major stat.(st_Rdev) =? number.1) || negb (unix_Minor stat.(st_Rdev) =? number.2)
        then identityChanged [Lit "opened descriptor does not match confirmed sysfs device"]
        else Ok tt).

Definition open_flags (mode : Mode) : list OpenFlag :=
  [O_WRONLY; O_CLOEXEC; O_NOFOLLOW] ++ if bool_decide (mode = ModeRescue) then [O_EXCL] else [].

(** The descriptor, before [os.NewFile] wraps it. *)
Definition OpenTarget (path : string) (mode : Mode) (expected : TargetIdentity) : M error K Z :=
  descriptor ← map_error (wrap_error "open block target: ") (unix_Open path (open_flags mode));
  on_failure
    (stat ← map_error (wrap_error "stat block target: ") (unix_Fstat descriptor);
     lift (refuse_if (negb (Z.land stat.(st_Mode) S_IFMT =? S_IFBLK))
             (errorf_sentinel ErrInvalidBlockDevice
                [Lit "target descriptor is not a block device"]));;
     validateOpenedTarget descriptor expected)
    (unix_Close descriptor);;
  mret descriptor.
End system.

(** ** The boundary

    The state of a run: the kernel, and the objects that the program holds by pointer, the verified
    images and the opened targets, each at its position in a list.  [wo_released] are the image
    descriptors that were closed, and [wo_calls] the calls of the progress callback. *)
Record World (K : Type) := {
  wo_kernel : K;
  wo_images : list Verified;
  wo_targets : list OsFile;
  wo_released : list OsFile;
  wo_calls : list Progress }.
Arguments wo_kernel {K} _.
Arguments wo_images {K} _.
Arguments wo_targets {K} _.
Arguments wo_released {K} _.
Arguments wo_calls {K} _.

(** A [*image.Verified]: where the object is, and its fields, of which only the descriptor ever
    changes.  A [Target]: where the file is, and its descriptor. *)
Record ImagePointer := {
  ip_at : nat;
  ip_fields : Verified }.
Record TargetFile := {
  tf_at : nat;
  tf_Fd : Z }.

Section boundary.
Context {K H : Type} `{Kernel K H}.
Context (zstd_NewReader : contextReader OsFile -> outcome script).
Context (system : System).

Definition set_kernel (w : World K) (k : K) : World K :=
  {| wo_kernel := k; wo_images := w.(wo_images); wo_targets := w.(wo_targets);
     wo_released := w.(wo_released); wo_calls := w.(wo_calls) |}.

Definition on_kernel {A} (m : M error K A) : M error (World K) A := fun w =>
  let (r, k) := m w.(wo_kernel) in (r, set_kernel w k).

(** [os.Open] in a state of the kernel, and the state after [image.Verify], which calls it once the
    digest has the right form. *)
Definition open_at (k : K) (path : string) : outcome (FileEnv * script) := (k_open_image k path).1.
Definition after_open (k : K) (path digest : string) : K :=
  if is_ok (validateDigest digest) then (k_open_image k path).2 else k.

(** A descriptor that a failed verification has opened and closed again is kept among the released
    ones. *)
Definition VerifyImage (path digest : string) : M error (World K) (option ImagePointer) := fun w =>
  let k := after_open w.(wo_kernel) path digest in
  match Verify (open_at w.(wo_kernel)) path digest with
  | (Ok v, _) =>
      (Ok (Some {| ip_at := length w.(wo_images); ip_fields := v |}),
       {| wo_kernel := k; wo_images := w.(wo_images) ++ [v]; wo_targets := w.(wo_targets);
          wo_released := w.(wo_released); wo_calls := w.(wo_calls) |})
  | (r, file) =>
      ((fun _ => None) <$> r,
       {| wo_kernel := k; wo_images := w.(wo_images); wo_targets := w.(wo_targets);
          wo_released := w.(wo_released) ++ from_option (fun f => [f]) [] file; wo_calls := w.(wo_calls) |})
  end.

(** [os.NewFile] of a descriptor. *)
Definition os_NewFile (descriptor : Z) : M error (World K) TargetFile := fun w =>
  (Ok {| tf_at := length w.(wo_targets); tf_Fd := descriptor |},
   {| wo_kernel := w.(wo_kernel); wo_images := w.(wo_images);
      wo_targets := w.(wo_targets) ++ [new_file (k_target_file descriptor w.(wo_kernel)) []];
      wo_released := w.(wo_released); wo_calls := w.(wo_calls) |}).

Definition NewTarget (path : string) (mode : Mode) (expected : TargetIdentity)
    : M error (World K) TargetFile :=
  on_kernel (OpenTarget system path mode expected) ≫= os_NewFile.

(** Store an object that may have changed. *)
Definition store {A} (l : list A) (i : nat) (x : option A) : list A :=
  match x with
  | Some x => <[i := x]> l
  | None => l
  end.

Definition WriteVerified (ctx : option Context) (source : ImagePointer) (target : TargetFile)
    (expectedBytes : Z) (progress : bool) : M error (World K) Result := fun w =>
  let '(r, v, d, calls) := Write zstd_NewReader ctx (w.(wo_images) !! source.(ip_at))
                             (w.(wo_targets) !! target.(tf_at)) expectedBytes progress in
  (map_err snd r,
   {| wo_kernel := w.(wo_kernel); wo_images := store w.(wo_images) source.(ip_at) v;
      wo_targets := store w.(wo_targets) target.(tf_at) d; wo_released := w.(wo_released);
      wo_calls := w.(wo_calls) ++ calls |}).

Definition Fdatasync (target : TargetFile) : M error (World K) unit :=
  map_error (wrap_error "fdatasync target: ") (on_kernel (unix_Fdatasync target.(tf_Fd))).

Definition FlushBlock (target : TargetFile) : M error (World K) unit :=
  map_error (wrap_error "flush block buffers: ") (on_kernel (unix_FlushBuffers target.(tf_Fd))).

Definition close_image (source : ImagePointer) : M error (World K) unit := fun w =>
  let '(r, v, file) := Verified_Close (w.(wo_images) !! source.(ip_at)) in
  (r, {| wo_kernel := w.(wo_kernel); wo_images := store w.(wo_images) source.(ip_at) v;
         wo_targets := w.(wo_targets);
         wo_released := w.(wo_released) ++ from_option (fun f => [f]) [] file; wo_calls := w.(wo_calls) |}).

Definition close_target (target : TargetFile) : M error (World K) unit := fun w =>
  match w.(wo_targets) !! target.(tf_at) with
  | Some f =>
      let (r, f) := file_Close f in
      (r, {| wo_kernel := w.(wo_kernel); wo_images := w.(wo_images);
             wo_targets := <[target.(tf_at) := f]> w.(wo_targets); wo_released := w.(wo_released);
             wo_calls := w.(wo_calls) |})
  | None => (Err (Sentinel OsErrClosed), w)
  end.

Definition system_boundary : Boundary (World K) ImagePointer TargetFile := {|
  b_Inspect _ request := on_kernel (Inspect system request);
  b_VerifyImage := VerifyImage;
  b_Confirm provided expected := lift (Confirm provided expected);
  b_Mlockall := on_kernel Mlockall;
  b_Swapoff := on_kernel (Swapoff system);
  b_EnableSysRq := on_kernel (EnableSysRq system);
  b_RemountReadOnly := on_kernel (RemountReadOnly system);
  b_SysRqSync := on_kernel (SysRqSync system);
  b_SysRqReboot := on_kernel (SysRqReboot system);
  b_OpenTarget := NewTarget;
  b_WriteVerified := WriteVerified;
  b_Fdatasync := Fdatasync;
  b_FlushBlock := FlushBlock;
  verified_fields := ip_fields;
  Verified_close := close_image;
  Target_close := close_target |}.
End boundary.

(** ** Lemmas *)
Lemma code_xor_zero c d : Z.lxor (Z.of_N (code c)) (Z.of_N (code d)) = 0 <-> c = d.
Proof.
  rewrite Z.lxor_eq_0_iff. unfold code. split; [|by intros ->]. intros E%N2Z.inj.
  by rewrite <- (ascii_N_embedding c), <- (ascii_N_embedding d), E.
Qed.

Lemma compare_bytes_zero v x y :
  String.length x = String.length y -> compare_bytes v x y = 0 <-> v = 0 /\ x = y.
Proof.
  revert v y. induction x as [|c x IH]; intros v [|d y] Hl; try done; cbn [compare_bytes];
    [intuition|]. rewrite IH by (by injection Hl). rewrite Z.lor_eq_0_iff, code_xor_zero.
  split; [by intros ([-> ->] & ->)|by intros [-> [= -> ->]]].
Qed.

Lemma ConstantTimeCompare_one x y : ConstantTimeCompare x y = 1 <-> x = y.
Proof.
  unfold ConstantTimeCompare. destruct (Nat.eqb_spec (String.length x) (String.length y)) as [E|E];
    cbn [negb]; [|split; [done|by intros ->]].
  destruct (Z.eqb_spec (compare_bytes 0 x y) 0) as [Hc|Hc]; rewrite compare_bytes_zero in Hc by done.
  - by destruct Hc as [_ ->].
  - split; [done|]. intros ->. by destruct Hc.
Qed.

Lemma sameTarget_eq current expected : sameTarget current expected = true <-> current = expected.
Proof.
  unfold sameTarget. rewrite !andb_true_iff, !bool_decide_eq_true, Z.eqb_eq, eqb_true_iff.
  destruct current, expected; cbn. split; [|by intros [=]]. by intros [[[[[[-> ->] ->] ->] ->] ->] ->].
Qed.

(** [finally] keeps the result. *)
Lemma finally_ok {E S A} (m : M E S A) c s a s' :
  finally m c s = (Ok a, s') -> exists s1, m s = (Ok a, s1) /\ s' = (c s1).2.
Proof. unfold finally. destruct (m s) as [r s1]. intros [= -> <-]. by exists s1. Qed.

Lemma on_failure_ok {E S A} (m : M E S A) c s a s' :
  on_failure m c s = (Ok a, s') <-> m s = (Ok a, s').
Proof. unfold on_failure. destruct (m s) as [[]]; simpl; split; congruence. Qed.

Lemma on_failure_failed {E S A} (m : M E S A) c s r s' :
  on_failure m c s = (r, s') -> is_ok r = false ->
  exists s1, m s = (r, s1) /\ s' = (c s1).2.
Proof. unfold on_failure. destruct (m s) as [[]]; intros [= <- <-]; [done|..]; eauto. Qed.

Section kernel.
Context {K H : Type} `{Kernel K H}.
Context (system : System).

(** A snapshot that one observer call has read. *)
Definition reads (k : K) (fs : FS) (k' : K) : Prop := k_snapshot k = (Ok fs, k').

Lemma observe_ok {A} (method : FS -> res A) k a k' :
  observe method k = (Ok a, k') <-> exists fs, reads k fs k' /\ method fs = Ok a.
Proof.
  unfold observe, reads. rewrite M_bind_ok. split.
  - intros (fs & k1 & Hk & [Ha ->]%lift_ok). by exists fs.
  - intros (fs & Hk & Ha). exists fs, k'. by rewrite Ha.
Qed.


End kernel.

(** ** The claims *)

(** C30: The constant-time comparison decides equality: [Confirm] accepts exactly the expected token,
    and refuses every other string with the confirmation code, although the loop collects the
    differences of all the bytes before it decides. *)
Theorem Confirm_exact provided expected :
  match Confirm provided expected with
  | Ok _ => provided = expected
  | Err (Gate code _) => provided <> expected /\ code = GateConfirmation
  | _ => False
  end.
Proof.
  unfold Confirm, refuse_if. pose proof (ConstantTimeCompare_one provided expected) as Hc.
  destruct (Nat.eqb_spec (String.length provided) (String.length expected)) as [E|E];
    cbn [negb orb]; [|split; [by intros ->|done]].
  destruct (Z.eqb_spec (ConstantTimeCompare provided expected) 1) as [E1|E1]; cbn [negb].
  - by apply Hc.
  - by rewrite Hc in E1.
Qed.

Section claims.
Context {K H : Type} `{Kernel K H}.
Context (system : System).

(** The opening of a target that has passed every check on the descriptor. *)
Definition opened_and_validated (path : string) (mode : Mode) (expected : TargetIdentity)
    (k : K) (descriptor : Z) (k' : K) : Prop :=
  exists k1 stat k2 fs1 k3 fs2 k4 stat2,
    unix_Open path (open_flags mode) k = (Ok descriptor, k1) /\
    unix_Fstat descriptor k1 = (Ok stat, k2) /\ Z.land stat.(st_Mode) S_IFMT = S_IFBLK /\
    reads k2 fs1 k3 /\ Target system fs1 expected.(tgt_CanonicalPath) = Ok expected /\
    reads k3 fs2 k4 /\
    deviceNumber system fs2 expected.(tgt_KName)
      = Ok (unix_Major stat2.(st_Rdev), unix_Minor stat2.(st_Rdev)) /\
    unix_Fstat descriptor k4 = (Ok stat2, k').

Lemma validateOpenedTarget_ok descriptor expected k u k' :
  validateOpenedTarget system descriptor expected k = (Ok u, k') ->
  exists fs1 k3 fs2 k4 stat2,
    reads k fs1 k3 /\ Target system fs1 expected.(tgt_CanonicalPath) = Ok expected /\
    reads k3 fs2 k4 /\
    deviceNumber system fs2 expected.(tgt_KName)
      = Ok (unix_Major stat2.(st_Rdev), unix_Minor stat2.(st_Rdev)) /\
    unix_Fstat descriptor k4 = (Ok stat2, k').
Proof.
  unfold validateOpenedTarget. intros E. inv_M.
  repeat match goal with H : observe _ _ = _ |- _ => apply observe_ok in H as (? & ? & ?) end.
  repeat match goal with
  | H : (if negb (sameTarget ?c ?e) then _ else _) = _ |- _ =>
      destruct (sameTarget c e) eqn:Es; [|done]; apply sameTarget_eq in Es as ->; clear H
  | H : (if _ || _ then _ else _) = _ |- _ => destruct (_ || _) eqn:Ed; [done|]; clear H
  end.
  bool_hyps. rewrite !Z.eqb_eq in *. match goal with n : (Z * Z)%type |- _ => destruct n end.
  cbn [fst snd] in *. subst. do 5 eexists. by split_and!.
Qed.

Lemma OpenTarget_ok path mode expected k descriptor k' :
  OpenTarget system path mode expected k = (Ok descriptor, k') ->
  opened_and_validated path mode expected k descriptor k'.
Proof.
  unfold OpenTarget. intros E. inv_M. rename select (on_failure _ _ _ = _) into Ev.
  apply on_failure_ok in Ev. inv_M. rename select (validateOpenedTarget _ _ _ _ = _) into Ev.
  apply validateOpenedTarget_ok in Ev as (fs1 & k3 & fs2 & k4 & stat2 & ? & ? & ? & ? & ?).
  bool_hyps. rewrite Z.eqb_eq in *. by do 8 eexists.
Qed.

(** C7: A descriptor is handed out only for the confirmed device, and never leaks: the path is opened
    once, with [O_NOFOLLOW] in both modes and [O_EXCL] exactly in rescue mode; on success the
    descriptor is a block device, a fresh observation of the target equals the expected identity in
    every field, and the device number of that kernel name is the one of the descriptor; on any
    failure after the opening the descriptor has been closed. *)
Theorem OpenTarget_validated path mode expected k :
  O_NOFOLLOW ∈ open_flags mode /\ (O_EXCL ∈ open_flags mode <-> mode = ModeRescue) /\
  match OpenTarget system path mode expected k with
  | (Ok descriptor, k') => opened_and_validated path mode expected k descriptor k'
  | (_, k') =>
      (exists r, unix_Open path (open_flags mode) k = (r, k') /\ is_ok r = false) \/
      exists descriptor k1 k2, unix_Open path (open_flags mode) k = (Ok descriptor, k1) /\
        k' = (unix_Close descriptor k2).2
  end.
Proof.
  split; [set_solver|]. split.
  { unfold open_flags. case_bool_decide; set_solver. }
  destruct (OpenTarget system path mode expected k) as [r k'] eqn:E.
  destruct (is_ok r) eqn:Er; [destruct r; [by apply OpenTarget_ok|done..]|].
  assert ((exists r, unix_Open path (open_flags mode) k = (r, k') /\ is_ok r = false) \/
      exists descriptor k1 k2, unix_Open path (open_flags mode) k = (Ok descriptor, k1) /\
        k' = (unix_Close descriptor k2).2) as Hf; [|by destruct r].
  unfold OpenTarget in E.
  apply M_bind_cases in E as [(descriptor & k1 & Ho & E)|(r0 & Ho & Hr0 & _)].
  - right. apply map_error_ok in Ho. exists descriptor, k1.
    apply M_bind_cases in E as [([] & k2 & _ & [= <- <-])|(r1 & Ev & Hr1 & _)]; [done|].
    apply on_failure_failed in Ev as (k2 & _ & ->); [|done]. by exists k2.
  - left. unfold map_error in Ho. destruct (unix_Open _ _ k) as [r1 k1]. injection Ho as <- <-.
    exists r1. split; [done|]. by destruct r1.
Qed.

(** [n] polls that found a writable block mount, each followed by the pause. *)
Inductive polled : nat -> K -> K -> Prop :=
| polled_none k : polled 0 k k
| polled_more n k fs k1 u k2 k' :
    reads k fs k1 -> BlockMountsReadOnly system fs = Ok false ->
    k_Sleep remountPollInterval k1 = (Ok u, k2) -> polled n k2 k' -> polled (S n) k k'.

(** The mounts of a snapshot that are backed by a block device are all read-only. *)
Definition proven_read_only (fs : FS) : Prop :=
  exists records, mounts system fs = Ok records /\ names_resolved system fs records /\
    (exists r n, r ∈ records /\ backed_by system fs r n) /\
    (forall r n, r ∈ records -> backed_by system fs r n -> r.(mr_readOnly) = true).

Lemma BlockMountsReadOnly_true fs : BlockMountsReadOnly system fs = Ok true <-> proven_read_only fs.
Proof.
  unfold BlockMountsReadOnly, proven_read_only. rewrite bind_ok_inv. apply exist_proper.
  intros records. rewrite readonly_loop_true. intuition discriminate.
Qed.

Lemma poll_read_only_ok attempts k k' :
  poll_read_only system attempts k = (Ok tt, k') <->
  exists n k1 fs, (n < attempts)%nat /\ polled n k k1 /\ reads k1 fs k' /\ proven_read_only fs.
Proof.
  setoid_rewrite <- BlockMountsReadOnly_true. split.
  - revert k. induction attempts as [|attempts IH]; intros k E; [done|].
    cbn [poll_read_only] in E. apply M_bind_ok in E as (b & s & Ho & E).
    apply observe_ok in Ho as (fs & Hr & Hb). destruct b.
    + injection E as ->. exists 0%nat, k, fs. split_and!; [lia|constructor|done..].
    + inv_M. apply IH in E as (n & k1 & fs' & Hn & Hp & Hf). exists (S n), k1, fs'.
      split; [lia|]. split; [by econstructor|done].
  - intros (n & k1 & fs & Hn & Hp & Hr & Hb). revert attempts Hn.
    induction Hp as [k|n k fs1 k2 u k3 k1 Hr1 Hb1 Hs Hp IH]; intros [|attempts] Hn; try lia;
      cbn [poll_read_only].
    + by rewrite (M_bind_run _ _ _ true k') by (apply observe_ok; eauto).
    + rewrite (M_bind_run _ _ _ false k2) by (apply observe_ok; eauto).
      rewrite (M_bind_run _ _ _ u k3) by done. apply IH; [done|lia].
Qed.

Lemma poll_read_only_incomplete attempts k k' :
  polled attempts k k' ->
  poll_read_only system attempts k = (Err (Sentinel ErrRemountIncomplete), k').
Proof.
  induction 1 as [k|n k fs1 k2 u k3 k1 Hr1 Hb1 Hs Hp IH]; [done|]. cbn [poll_read_only].
  rewrite (M_bind_run _ _ _ false k2) by (apply observe_ok; eauto).
  by rewrite (M_bind_run _ _ _ u k3).
Qed.

(** C23: The read-only remount is proven within bounded time: [RemountReadOnly] succeeds exactly when
    the trigger was written and then, after fewer than 600 polls that saw a writable block mount,
    each followed by the pause of 50 ms, one snapshot showed every mount that is backed by a block
    device read-only, at least one of them, and nothing unresolved; after 600 such polls it
    fails. *)
Theorem RemountReadOnly_proof k k' :
  (RemountReadOnly system k = (Ok tt, k') <->
   exists k0 n k1 fs,
     writeControl (path_Join [system.(obs_ProcRoot); "sysrq-trigger"]) "u" k = (Ok tt, k0) /\
     (n < 600)%nat /\ polled n k0 k1 /\ reads k1 fs k' /\ proven_read_only fs) /\
  (forall k0,
     writeControl (path_Join [system.(obs_ProcRoot); "sysrq-trigger"]) "u" k = (Ok tt, k0) ->
     polled 600 k0 k' -> RemountReadOnly system k = (Err (Sentinel ErrRemountIncomplete), k')).
Proof.
  unfold RemountReadOnly. split.
  - rewrite M_bind_ok. setoid_rewrite map_error_ok. setoid_rewrite poll_read_only_ok. split.
    + intros ([] & k0 & Hw & n & k1 & fs & Hp). by exists k0, n, k1, fs.
    + intros (k0 & n & k1 & fs & Hw & Hp). exists tt, k0. split; [done|]. by exists n, k1, fs.
  - intros k0 Hw Hp. rewrite (M_bind_run _ _ _ tt k0) by by apply map_error_run.
    by apply poll_read_only_incomplete.
Qed.

End claims.

(** ** A complete execution on the system *)
Section execution.
Context {K H : Type} `{Kernel K H}.
Context (zstd_NewReader : contextReader OsFile -> outcome script).
Context (system : System).

#[local] Instance boundary : Boundary (World K) ImagePointer TargetFile :=
  system_boundary zstd_NewReader system.

(** The objects of the program, without the kernel. *)
Definition same_objects (w w' : World K) : Prop :=
  w'.(wo_images) = w.(wo_images) /\ w'.(wo_targets) = w.(wo_targets) /\ w'.(wo_calls) = w.(wo_calls).

#[local] Instance same_objects_preorder : PreOrder same_objects.
Proof. split; [done|]. unfold same_objects. intros x y z. intuition congruence. Qed.

Lemma on_kernel_ok {A} (m : M error K A) (w : World K) a w' :
  on_kernel m w = (Ok a, w') <->
  exists k, m w.(wo_kernel) = (Ok a, k) /\ w' = set_kernel w k.
Proof.
  unfold on_kernel. destruct (m (wo_kernel w)) as [r k]. split.
  - intros [= -> <-]. eauto.
  - by intros (k' & [= -> ->] & ->).
Qed.

Lemma on_kernel_objects {A} (m : M error K A) : preserves same_objects (on_kernel m).
Proof. intros w. unfold on_kernel. by destruct (m (wo_kernel w)). Qed.

Lemma prepareLive_objects mode : preserves same_objects (prepareLive mode).
Proof.
  unfold prepareLive. destruct (negb _); [by apply preserves_ret, _|].
  do 4 (apply preserves_bind; [apply _|apply preserves_map_error, on_kernel_objects|intros _]).
  by apply preserves_ret, _.
Qed.

Lemma rebootLive_objects mode : preserves same_objects (rebootLive mode).
Proof.
  unfold rebootLive. destruct (negb _); [by apply preserves_ret, _|].
  apply preserves_bind; [apply _|apply preserves_map_error, on_kernel_objects|intros _].
  apply preserves_map_error, on_kernel_objects.
Qed.

Lemma preserves_ok {A} R (m : M error (World K) A) w a w' :
  preserves R m -> m w = (Ok a, w') -> R w w'.
Proof. intros Hp Hm. specialize (Hp w). by rewrite Hm in Hp. Qed.

Lemma Verify_held open path digest v :
  (Verify open path digest).1 = Ok v ->
  v.(v_Path) = path /\ v.(v_SHA256) = digest /\ exists f, v.(v_file) = Some f.
Proof.
  unfold Verify. intros Hv. destruct (validateDigest digest) as [d|e|] eqn:Ed; [|done..].
  apply validateDigest_ok in Ed as [-> _]. destruct (open path) as [e|[env s0]]; [done|].
  unfold on_failure in Hv.
  destruct (verifyDescriptor path digest (new_file env s0)) as [[v1|e|] f] eqn:E; [|done..].
  injection Hv as ->. apply verifyDescriptor_ok in E as (info & s1 & s2 & content & Hx).
  destruct_and!. subst v. cbn. eauto.
Qed.

Lemma Prepare_system_ok ctx request w inspection p w1 :
  Prepare ctx request w = (Ok (inspection, p), w1) ->
  exists k1 v, Inspect system request w.(wo_kernel) = (Ok inspection, k1) /\
    (Verify (open_at k1) request.(rq_ImagePath) request.(rq_SHA256)).1 = Ok v /\
    p = {| ip_at := length w.(wo_images); ip_fields := v |} /\
    w1 = {| wo_kernel := after_open k1 request.(rq_ImagePath) request.(rq_SHA256);
            wo_images := w.(wo_images) ++ [v]; wo_targets := w.(wo_targets);
            wo_released := w.(wo_released); wo_calls := w.(wo_calls) |}.
Proof.
  unfold Prepare. intros Hp. apply M_bind_ok in Hp as (i & w2 & Hi & Hp).
  apply on_kernel_ok in Hi as (k1 & Hi & ->).
  apply M_bind_ok in Hp as (q & w3 & Hv & Hp). cbv zeta in Hp.
  destruct (negb _); [by inv_M|]. destruct q as [q|]; [|by inv_M]. injection Hp as -> -> ->.
  cbn in Hv. unfold VerifyImage in Hv. cbn [set_kernel wo_kernel wo_images wo_targets wo_released wo_calls] in Hv.
  destruct (Verify _ _ _) as [[v|e|] f] eqn:Ev; [|done..]. injection Hv as <- <-.
  exists k1, v. by rewrite Ev.
Qed.

(** The last target and image of the lists. *)
Lemma store_last {A} (l : list A) x y : store (l ++ [x]) (length l) (Some y) = l ++ [y].
Proof. cbn. by rewrite insert_app_r_alt, Nat.sub_diag by done. Qed.
Lemma lookup_last {A} (l : list A) x : (l ++ [x]) !! length l = Some x.
Proof. by rewrite lookup_app_r, Nat.sub_diag by done. Qed.

Definition pointer (i : nat) (v : Verified) : ImagePointer := {| ip_at := i; ip_fields := v |}.

(** [WriteVerified] from a freshly opened target. *)
Lemma WriteVerified_ok ctx v v0 images targets env fd expected progress (k : K) released calls
    result w' :
  (exists f, v.(v_file) = Some f) -> expected <= max_int64 ->
  WriteVerified zstd_NewReader ctx (pointer (length images) v0)
    {| tf_at := length targets; tf_Fd := fd |} expected progress
    {| wo_kernel := k; wo_images := images ++ [v]; wo_targets := targets ++ [new_file env []];
       wo_released := released; wo_calls := calls |} = (Ok result, w') ->
  result = {| rs_WrittenBytes := expected |} /\
  exists file held reader image target,
    v.(v_file) = Some file /\ reverified v file held.(cr_reader) /\
    expanded_by zstd_NewReader v held reader /\
    whole_image reader image /\ Z.of_nat (length image) = expected /\
    w'.(wo_targets) = targets ++ [target] /\ of_written target = image /\ of_durable target = image.
Proof.
  intros [file Hf] He. unfold WriteVerified. cbn [wo_images wo_targets ip_at tf_at pointer].
  rewrite !lookup_last. destruct (Write _ _ _ _ _ _) as [[[r v'] d'] cs] eqn:Ew. intros [= Hr <-].
  destruct r as [rs|[? ?]|]; [|done..]. injection Hr as ->. cbn [wo_targets].
  destruct ctx as [ctx|]; [|done].
  assert (exists d, d' = Some d) as [d ->].
  { unfold Write, validateWriteInputs in Ew. destruct (ctx_Err ctx) as [[]]; [done|].
    destruct (expected <=? 0); [done|]. rewrite Hf in Ew. destruct (transfer _ _ _ _ _).
    injection Ew as _ _ <- _. by eexists. }
  apply (Write_ok _ _ _ _ _ _ _ _ _ _ _ Hf He) in Ew
    as (-> & held & reader & image & ? & ? & ? & ? & Hw & Hd).
  split; [done|]. exists file, held, reader, image, d. rewrite store_last. cbn in Hw, Hd.
  split_and!; try done. by rewrite Hd.
Qed.

(** The deferred calls keep what the last target has received. *)
Lemma closed_target (w : World K) targets target p fd :
  w.(wo_targets) = targets ++ [target] ->
  exists target', (close_image p (close_target {| tf_at := length targets; tf_Fd := fd |} w).2).2.(wo_targets)
      = targets ++ [target'] /\
    of_written target' = of_written target /\ of_durable target' = of_durable target.
Proof.
  intros Ht. unfold close_target. cbn [tf_at]. rewrite Ht, lookup_last. cbn.
  unfold close_image. destruct (Verified_Close _) as [[r v] f]. cbn.
  eexists. rewrite insert_app_r_alt, Nat.sub_diag by done. by split_and!.
Qed.

(** The part between the opening of the target and its closing. *)
Definition write_part ctx request progress (p : ImagePointer) (target : TargetFile) :=
  result ← b_WriteVerified ctx p target request.(rq_ExpectedBytes) progress;
  b_Fdatasync target;;
  b_FlushBlock target;;
  rebootLive request.(rq_Mode);;
  mret result.

Lemma write_part_ok ctx request progress p target w result w' :
  write_part ctx request progress p target w = (Ok result, w') ->
  exists w1, WriteVerified zstd_NewReader ctx p target request.(rq_ExpectedBytes) progress w
      = (Ok result, w1) /\ same_objects w1 w'.
Proof.
  unfold write_part. intros Hw. apply M_bind_ok in Hw as (rs & w1 & Hw1 & Hw).
  apply M_bind_ok in Hw as (u2 & w2 & H2 & Hw). apply M_bind_ok in Hw as (u3 & w3 & H3 & Hw).
  apply M_bind_ok in Hw as (u4 & w4 & H4 & Hw). injection Hw as -> ->. exists w1. split; [done|].
  apply (preserves_ok _ _ _ _ _ (preserves_map_error _ _ _ (on_kernel_objects _))) in H2.
  apply (preserves_ok _ _ _ _ _ (preserves_map_error _ _ _ (on_kernel_objects _))) in H3.
  apply (preserves_ok _ _ _ _ _ (rebootLive_objects _)) in H4.
  by transitivity w2; [|transitivity w3].
Qed.

Lemma Execute_writes ctx request progress w result w'
    (Hexpected : request.(rq_ExpectedBytes) <= max_int64)
    (Hrun : Execute ctx request progress w = (Ok result, w')) :
  result = {| rs_WrittenBytes := request.(rq_ExpectedBytes) |} /\
  exists inspection k1 v file k2 fd k3 held reader image target,
    Inspect system request w.(wo_kernel) = (Ok inspection, k1) /\
    request.(rq_Confirmation) = inspection.(ins_ConfirmationToken) /\
    (Verify (open_at k1) request.(rq_ImagePath) request.(rq_SHA256)).1 = Ok v /\
    v.(v_SHA256) = request.(rq_SHA256) /\ v.(v_file) = Some file /\
    opened_and_validated system request.(rq_TargetPath) request.(rq_Mode)
      inspection.(ins_Target) k2 fd k3 /\
    reverified v file held.(cr_reader) /\ expanded_by zstd_NewReader v held reader /\
    whole_image reader image /\ Z.of_nat (length image) = request.(rq_ExpectedBytes) /\
    w'.(wo_targets) = w.(wo_targets) ++ [target] /\
    of_written target = image /\ of_durable target = image.
Proof.
  unfold Execute in Hrun. apply M_bind_ok in Hrun as ([inspection p] & w1 & Hp & Hrun).
  apply Prepare_system_ok in Hp as (k1 & v & Hi & Hv & -> & ->).
  apply finally_ok in Hrun as (w2 & Hrun & ->).
  apply M_bind_ok in Hrun as (u1 & w3 & Hc & Hrun). apply lift_ok in Hc as [Hc ->].
  apply M_bind_ok in Hrun as (u2 & w4 & [_ ->]%lift_ok & Hrun).
  apply M_bind_ok in Hrun as (u3 & w5 & Hl & Hrun).
  apply (preserves_ok _ _ _ _ _ (prepareLive_objects _)) in Hl as (Himg & Htgt & _).
  apply M_bind_ok in Hrun as (t & w6 & Ho & Hrun).
  apply M_bind_ok in Ho as (fd & w7 & Ho & Hn). apply on_kernel_ok in Ho as (k3 & Ho & ->).
  apply OpenTarget_ok in Ho. cbn in Hn. injection Hn as <- <-.
  apply finally_ok in Hrun as (w8 & Hrun & ->). apply write_part_ok in Hrun as (w9 & Hw & _ & Ho9 & _).
  cbn in Himg, Htgt. rewrite Himg, Htgt in Hw.
  destruct (Verify_held _ _ _ _ Hv) as (_ & Hsha & Hf).
  apply WriteVerified_ok in Hw as (-> & file & held & reader & image & target & Hfile & Hre & Hex &
    Hwhole & Hlen & Ht & Hwr & Hdu); [|done..].
  split; [done|]. rewrite Ht in Ho9. rewrite Htgt.
  destruct (closed_target w8 _ target (pointer (length (wo_images w)) v) fd Ho9)
    as (target' & Ht' & Hw' & Hd').
  exists inspection, k1, v, file, (wo_kernel w5), fd, k3, held, reader, image, target'.
  rewrite Hw', Hd'. split_and!; try done.
  unfold Confirm in Hc. apply refuse_if_ok in Hc. bool_hyps. rewrite Z.eqb_eq in *.
  by apply ConstantTimeCompare_one.
Qed.

(** C2: The whole program, end to end: when a request runs to success on the system, the inspection
    accepted it and its token was the confirmation; the source was opened and hashed to the
    requested digest; the target was opened for the inspected identity, with every check of
    [OpenTarget]; just before the transfer the held descriptor was hashed again in full and had
    the verified size and digest; and the opened target has received, durably, the whole expanded
    image, of exactly the requested length, and nothing else. *)
Theorem Execute_writes_image ctx request progress w result w'
    (Hexpected : request.(rq_ExpectedBytes) <= max_int64)
    (Hrun : Execute ctx request progress w = (Ok result, w')) :
  result = {| rs_WrittenBytes := request.(rq_ExpectedBytes) |} /\
  exists inspection k1 v file k2 fd k3 held reader image target,
    Inspect system request w.(wo_kernel) = (Ok inspection, k1) /\
    request.(rq_Confirmation) = inspection.(ins_ConfirmationToken) /\
    (Verify (open_at k1) request.(rq_ImagePath) request.(rq_SHA256)).1 = Ok v /\
    v.(v_SHA256) = request.(rq_SHA256) /\ v.(v_file) = Some file /\
    opened_and_validated system request.(rq_TargetPath) request.(rq_Mode)
      inspection.(ins_Target) k2 fd k3 /\
    reverified v file held.(cr_reader) /\ expanded_by zstd_NewReader v held reader /\
    whole_image reader image /\ Z.of_nat (length image) = request.(rq_ExpectedBytes) /\
    w'.(wo_targets) = w.(wo_targets) ++ [target] /\
    of_written target = image /\ of_durable target = image.
Proof. by eapply Execute_writes. Qed.
End execution.

(** ** A concrete machine

    The fixture host of the observer, with a second disk [sda]; its state is the list of the writes
    to control files, and the remount request makes the mounts read-only. *)
Abbreviation Machine := (list (string * string)).

Definition read_only_mountinfo : list string :=
  ["29 23 253:0 / / ro,relatime - xfs /dev/mapper/ol-root rw";
   "30 29 0:25 / /dev/shm rw,nosuid,nodev - tmpfs tmpfs rw";
   "31 29 252:2 / /boot rw,relatime - xfs /dev/vda2 ro"].

Definition machine_snapshot (m : Machine) : FS :=
  fixture_with (if bool_decide (("/proc/sysrq-trigger", "u") ∈ m) then read_only_mountinfo
                else fixture_mountinfo) fixture_swaps.

Definition machine : Kernel Machine string := {|
  k_snapshot m := (Ok (machine_snapshot m), m);
  k_Stat _ := mret {| fi_regular := true; fi_perm := 384; fi_size := 7 |};
  k_Geteuid := mret 0;
  k_Sleep _ := mret tt;
  k_open_image m _ := (inr (example_env, []), m);
  k_OpenControl path := mret path;
  k_WriteString path value m := (Ok tt, m ++ [(path, value)]);
  k_CloseControl _ := mret tt;
  k_target_file _ _ := example_env;
  unix_GetMemlock := mret (65536, 65536);
  unix_SetMemlock _ := mret tt;
  unix_Mlockall := mret tt;
  unix_BytePtrFromString _ := None;
  unix_Swapoff _ := mret tt;
  unix_Open path _ := mret (if bool_decide (path = "/dev/sda") then 3 else 4);
  unix_Fstat fd := mret {| st_Mode := 0x61b0; st_Rdev := if fd =? 3 then 0x800 else 0xfc00 |};
  unix_Close _ := mret tt;
  unix_Fdatasync _ := mret tt;
  unix_FlushBuffers _ := mret tt;
  unix_Major rdev := Z.shiftr rdev 8;
  unix_Minor rdev := Z.land rdev 0xff |}.

Definition machine_request (mode : Mode) (target image : string) : Request := {|
  rq_Mode := mode; rq_TargetPath := target; rq_ImagePath := image;
  rq_SHA256 := hex_digest example_content; rq_ExpectedBytes := 9; rq_Confirmation := EmptyString;
  rq_Reboot := bool_decide (mode = ModeLive) |}.

(** The operator repeats the token of an inspection. *)
Definition machine_confirmed (request : Request) : Request :=
  match Inspect (H0 := machine) DefaultSystem request [] with
  | (Ok inspection, _) =>
      {| rq_Mode := request.(rq_Mode); rq_TargetPath := request.(rq_TargetPath);
         rq_ImagePath := request.(rq_ImagePath); rq_SHA256 := request.(rq_SHA256);
         rq_ExpectedBytes := request.(rq_ExpectedBytes);
         rq_Confirmation := inspection.(ins_ConfirmationToken);
         rq_Reboot := request.(rq_Reboot) |}
  | _ => request
  end.

Definition machine_world : World Machine :=
  {| wo_kernel := []; wo_images := []; wo_targets := []; wo_released := []; wo_calls := [] |}.
Abbreviation machine_run request :=
  (Execute (H := boundary (H0 := machine) example_decoder DefaultSystem) (Some background)
    request true machine_world).

Definition rescue_request := machine_confirmed (machine_request ModeRescue "/dev/sda" "/boot/image.zst").
Definition live_request := machine_confirmed (machine_request ModeLive "/dev/vda" "/dev/shm/image.zst").

Example machine_rescue :
  (machine_run rescue_request).1 = Ok {| rs_WrittenBytes := 9 |} /\
  map of_durable (machine_run rescue_request).2.(wo_targets) = [[10; 11; 12; 13; 14; 15; 16; 17; 18]].
Proof. vm_compute. split; reflexivity. Qed.

Example machine_live :
  (machine_run live_request).1 = Ok {| rs_WrittenBytes := 9 |} /\
  (machine_run live_request).2.(wo_kernel)
  = [("/proc/sys/kernel/sysrq", "1" +:+ nl); ("/proc/sysrq-trigger", "u");
     ("/proc/sysrq-trigger", "s"); ("/proc/sysrq-trigger", "b")].
Proof. vm_compute. split; reflexivity. Qed.

(** In rescue mode the root disk is refused. *)
Example machine_root_refused :
  match (machine_run (machine_request ModeRescue "/dev/vda" "/dev/shm/image.zst")).1 with
  | Err (Gate code _) => code = GateTargetMounted
  | _ => False
  end.
Proof. vm_compute. reflexivity. Qed.

(** Results of a run, from the outcome that the virtual machine computes. *)
Lemma is_ok_inv {E S A} (p : result E A * S) : is_ok p.1 = true -> exists a s, p = (Ok a, s).
Proof. destruct p as [[a|e|] s]; [by eexists _, _|done..]. Qed.

Lemma machine_live_ends : exists result w', machine_run live_request = (Ok result, w').
Proof. apply is_ok_inv. vm_compute. reflexivity. Qed.


Lemma live_request_bound : live_request.(rq_ExpectedBytes) <= max_int64.
Proof. vm_compute. discriminate. Qed.

Lemma Execute_writes_image_witness :
  exists result w', machine_run live_request = (Ok result, w') /\
    result = {| rs_WrittenBytes := live_request.(rq_ExpectedBytes) |} /\
    exists target, w'.(wo_targets) = machine_world.(wo_targets) ++ [target] /\
      Z.of_nat (length (of_durable target)) = live_request.(rq_ExpectedBytes).
Proof.
  destruct machine_live_ends as (result & w' & E). exists result, w'. split; [exact E|].
  destruct (Execute_writes_image (H0 := machine) example_decoder DefaultSystem (Some background)
    live_request true machine_world result w' live_request_bound E)
    as (H1 & inspection & k1 & v & file & k2 & fd & k3 & held & reader & image & target & _ & _ & _ &
        _ & _ & _ & _ & _ & _ & Hlen & Ht & _ & Hd).
  split; [exact H1|]. exists target. split; [exact Ht|]. rewrite Hd. exact Hlen.
Defined.
