(* ===== verification/Flags.v ===== *)
(** * Command-line flags ([flag] and the parts of [strconv] it uses)

    The parsing of a flag set as the standard library does it, for the three kinds of flags the
    command line has, with the base prefixes, underscores and range of its integers. *)

From S2P Require Export Errors.
From stdpp Require Import gmap pretty.
Open Scope Z_scope.

(** ** [strconv.ParseInt(s, 0, 64)] and [strconv.ParseBool] *)
Inductive num_error := ErrSyntax | ErrRange.

(** [lower(c)] is [c | ('x' - 'X')]. *)
Definition lower (c : ascii) : ascii := ascii_of_N (N.lor (code c) 32).

(** The value of one digit of any base up to 36. *)
Definition digit_of (c : ascii) : option Z :=
  if is_digit c then Some (Z.of_N (code c - 48))
  else if in_range "a" "z" (lower c) then Some (Z.of_N (code (lower c) - 97 + 10)%N)
  else None.

Definition max_uint64 : Z := 18446744073709551615.

(** The loop of [ParseUint]: the value, and whether an underscore was seen. *)
Fixpoint uint_loop (base n : Z) (underscores : bool) (s : string) : result num_error (Z * bool) :=
  match s with
  | EmptyString => Ok (n, underscores)
  | String c s' =>
      if Ascii.eqb c "_" then uint_loop base n true s'
      else
        match digit_of c with
        | None => Err ErrSyntax
        | Some d =>
            if base <=? d then Err ErrSyntax
            else if max_uint64 <? n * base + d then Err ErrRange
            else uint_loop base (n * base + d) underscores s'
        end
  end.

(** The base prefix of a number whose base is not given. *)
Definition base_prefix (s : string) : Z * string :=
  match s with
  | String "0" s1 =>
      match s1 with
      | String c ((String _ _) as s2) =>
          if Ascii.eqb (lower c) "b" then (2, s2)
          else if Ascii.eqb (lower c) "o" then (8, s2)
          else if Ascii.eqb (lower c) "x" then (16, s2)
          else (8, s1)
      | _ => (8, s1)
      end
  | _ => (10, s)
  end.

(** [underscoreOK]: [saw] is what the previous byte was. *)
Inductive seen := SawStart | SawDigit | SawUnderscore | SawOther.
Fixpoint underscore_loop (hex : bool) (saw : seen) (s : string) : bool :=
  match s with
  | EmptyString => match saw with SawUnderscore => false | _ => true end
  | String c s' =>
      if is_digit c || (hex && in_range "a" "f" (lower c)) then underscore_loop hex SawDigit s'
      else if Ascii.eqb c "_" then
        match saw with SawDigit => underscore_loop hex SawUnderscore s' | _ => false end
      else match saw with SawUnderscore => false | _ => underscore_loop hex SawOther s' end
  end.
Definition drop_sign (s : string) : string :=
  match s with
  | String c s' => if Ascii.eqb c "-" || Ascii.eqb c "+" then s' else s
  | EmptyString => EmptyString
  end.
Definition underscoreOK (s : string) : bool :=
  let s := drop_sign s in
  match s with
  | String "0" (String c s2) =>
      if Ascii.eqb (lower c) "b" || Ascii.eqb (lower c) "o" || Ascii.eqb (lower c) "x"
      then underscore_loop (Ascii.eqb (lower c) "x") SawDigit s2
      else underscore_loop false SawStart s
  | _ => underscore_loop false SawStart s
  end.

Definition ParseUint0 (s : string) : result num_error Z :=
  match s with
  | EmptyString => Err ErrSyntax
  | _ =>
      let (base, digits) := base_prefix s in
      n ← uint_loop base 0 false digits;
      if n.2 && negb (underscoreOK s) then Err ErrSyntax else Ok n.1
  end.

Definition ParseInt0 (s : string) : result num_error Z :=
  match s with
  | EmptyString => Err ErrSyntax
  | String c _ =>
      let neg := Ascii.eqb c "-" in
      un ← ParseUint0 (drop_sign s);
      if negb neg && (2 ^ 63 <=? un) then Err ErrRange
      else if neg && (2 ^ 63 <? un) then Err ErrRange
      else Ok (if neg then - un else un)
  end.

Definition ParseBool (s : string) : option bool :=
  if bool_decide (s ∈ ["1"; "t"; "T"; "true"; "TRUE"; "True"]) then Some true
  else if bool_decide (s ∈ ["0"; "f"; "F"; "false"; "FALSE"; "False"]) then Some false
  else None.

(** ** Flag sets: the defined flags with their values *)
Inductive FlagValue :=
| StringValue (s : string)
| Int64Value (z : Z)
| BoolValue (b : bool).
Abbreviation FlagSet := (gmap string FlagValue).

Definition num_error_text (e : num_error) : string :=
  match e with
  | ErrSyntax => "parse error"
  | ErrRange => "value out of range"
  end.

(** [Value.Set]: the new value, or the text of its error. *)
Definition Value_Set (v : FlagValue) (text : string) : result string FlagValue :=
  match v with
  | StringValue _ => Ok (StringValue text)
  | Int64Value _ => map_err num_error_text (Int64Value <$> ParseInt0 text)
  | BoolValue _ =>
      match ParseBool text with
      | Some b => Ok (BoolValue b)
      | None => Err "parse error"
      end
  end.
Definition IsBoolFlag (v : FlagValue) : bool :=
  match v with BoolValue _ => true | _ => false end.

(** The name and the value of [name=value]; an equals sign at the start is refused before. *)
Definition split_flag (name : string) : string * option string :=
  match Cut name "=" with
  | Some (name, value) => (name, Some value)
  | None => (name, None)
  end.

(** [parseOne]'s reading of one argument: a flag text after its hyphens, the terminator, an
    argument that is no flag, or a malformed flag. *)
Inductive arg :=
| AFlag (name : string)
| ATerminator
| APositional
| AMalformed.
Definition read_arg (s : string) : arg :=
  match s with
  | String "-" (String "-" EmptyString) => ATerminator
  | String "-" (String c rest) =>
      let name := if Ascii.eqb c "-" then rest else String c rest in
      match name with
      | EmptyString => AMalformed
      | String c _ => if Ascii.eqb c "-" || Ascii.eqb c "=" then AMalformed else AFlag name
      end
  | _ => APositional
  end.

(** [FlagSet.Parse] under [ContinueOnError]: the values and the remaining arguments, or the text of
    the error. *)
Fixpoint Parse (flags : FlagSet) (args : list string) : result message (FlagSet * list string) :=
  match args with
  | [] => Ok (flags, [])
  | s :: rest =>
      match read_arg s with
      | APositional => Ok (flags, args)
      | ATerminator => Ok (flags, rest)
      | AMalformed => Err [Lit "bad flag syntax: "; Lit s]
      | AFlag text =>
          let (name, value) := split_flag text in
          match flags !! name with
          | None =>
              if bool_decide (name = "help") || bool_decide (name = "h")
              then Err [Lit "flag: help requested"]
              else Err [Lit "flag provided but not defined: -"; Lit name]
          | Some v =>
              if IsBoolFlag v then
                match Value_Set v (default "true" value) with
                | Ok v => Parse (<[name := v]> flags) rest
                | Err e =>
                    Err [Lit "invalid boolean value "; Quoted (default "true" value); Lit " for -";
                         Lit name; Lit ": "; Lit e]
                | Panic => Panic
                end
              else
                let set := fun value rest' (k : FlagSet -> result message (FlagSet * list string)) =>
                  match Value_Set v value with
                  | Ok v => k (<[name := v]> flags)
                  | Err e =>
                      Err [Lit "invalid value "; Quoted value; Lit " for flag -"; Lit name; Lit ": ";
                           Lit e]
                  | Panic => Panic
                  end in
                match value, rest with
                | Some value, _ => set value rest (fun flags => Parse flags rest)
                | None, value :: rest' => set value rest' (fun flags => Parse flags rest')
                | None, [] => Err [Lit "flag needs an argument: -"; Lit name]
                end
          end
      end
  end.

(** The pointers that the definition of a flag returns, dereferenced after [Parse]. *)
Definition string_value (flags : FlagSet) (name : string) : string :=
  match flags !! name with
  | Some (StringValue s) => s
  | _ => EmptyString
  end.
Definition int64_value (flags : FlagSet) (name : string) : Z :=
  match flags !! name with
  | Some (Int64Value z) => z
  | _ => 0
  end.
Definition bool_value (flags : FlagSet) (name : string) : bool :=
  match flags !! name with
  | Some (BoolValue b) => b
  | _ => false
  end.

(** ** Numbers are read back *)
Example ParseInt0_examples :
  map ParseInt0 ["0"; "42"; "-9223372036854775808"; "0x1F"; "0b101"; "017"; "0o17"; "1_000"; "+7"]
  = map Ok [0; 42; -9223372036854775808; 31; 5; 15; 15; 1000; 7] /\
  map ParseInt0 [EmptyString; "-"; "08"; "1__0"; "_1"; "0x"; "9223372036854775808"; "12a"]
  = map Err [ErrSyntax; ErrSyntax; ErrSyntax; ErrSyntax; ErrSyntax; ErrSyntax; ErrRange; ErrSyntax].
Proof. split; reflexivity. Qed.

Lemma digit_of_digit c : is_digit c = true -> digit_of c = Some (Z.of_N (code c - 48)) /\ Ascii.eqb c "_" = false.
Proof.
  intros H. unfold digit_of. rewrite H. split; [done|].
  destruct (Ascii.eqb_spec c "_") as [->|]; done.
Qed.

Lemma digit_bound c : is_digit c = true -> 0 <= Z.of_N (code c - 48) < 10.
Proof.
  unfold is_digit, in_range. intros H. bool_hyps. rewrite !N.leb_le in *.
  change (code "0") with 48%N in *. change (code "9") with 57%N in *. lia.
Qed.

Lemma digits_value_ge s acc v : 0 <= acc -> digits_value acc s = Some v -> acc <= v.
Proof.
  revert acc. induction s as [|c s IH]; intros acc Ha H; cbn [digits_value] in H; [by simplify_eq|].
  destruct (is_digit c) eqn:Ec; [|done]. apply IH in H; [|pose proof (digit_bound c Ec); lia].
  pose proof (digit_bound c Ec). lia.
Qed.

(** On decimal digits the loop computes the decimal value. *)
Lemma uint_loop_decimal s acc v :
  0 <= acc -> digits_value acc s = Some v -> v <= max_uint64 ->
  uint_loop 10 acc false s = Ok (v, false).
Proof.
  revert acc. induction s as [|c s IH]; intros acc Ha H Hv; cbn [digits_value uint_loop] in *;
    [by simplify_eq|].
  destruct (is_digit c) eqn:Ec; [|done]. destruct (digit_of_digit c Ec) as [-> ->].
  pose proof (digit_bound c Ec). assert (10 * acc + Z.of_N (code c - 48) <= v) by (eapply digits_value_ge; [|exact H]; lia).
  rewrite (proj2 (Z.leb_gt _ _)) by lia. rewrite (proj2 (Z.ltb_ge _ _)) by lia.
  replace (acc * 10 + _) with (10 * acc + Z.of_N (code c - 48)) by lia. apply IH; [lia|done..].
Qed.

(** A positive number does not start with a zero. *)
Lemma pretty_N_go_first x s : (0 < x)%N -> exists c t, pretty_N_go x s = String c t /\ c <> "0"%char.
Proof.
  revert s. induction (N.lt_wf_0 x) as [x _ IH]; intros s Hx.
  rewrite pretty_N_go_step by done.
  destruct (decide (x / 10 = 0)%N) as [Hz|Hz].
  - rewrite Hz, pretty_N_go_0. exists (pretty_N_char (x mod 10)), s. split; [done|].
    apply N.div_small_iff in Hz; [|done]. rewrite N.mod_small by done.
    intros Hc. pose proof (pretty_N_char_value x Hz) as Hv. rewrite Hc in Hv.
    change (code "0" - 48)%N with 0%N in Hv. lia.
  - apply IH; [by apply N.div_lt|by apply N.neq_0_lt_0].
Qed.

(** A sign and a nonzero first digit select base 10. *)
Lemma ParseUint0_decimal p :
  Zpos p <= max_uint64 -> ParseUint0 (pretty_N_go (Npos p) EmptyString) = Ok (Zpos p).
Proof.
  intros Hp. destruct (pretty_N_go_first (Npos p) EmptyString) as (c & t & E & Hc); [lia|].
  pose proof (digits_value_go (Npos p) EmptyString) as Hv. rewrite E in *.
  assert (base_prefix (String c t) = (10, String c t)) as Hb.
  { unfold base_prefix. by repeat (case_match; try done). }
  unfold ParseUint0. rewrite Hb, (uint_loop_decimal _ 0 (Zpos p)); done.
Qed.

Lemma ParseInt0_format z : int64_range z -> ParseInt0 (format_int z) = Ok z.
Proof.
  unfold int64_range, min_int64, max_int64. intros Hz. destruct z as [|p|p]; [done|..].
  - assert (format_int (Zpos p) = pretty_N_go (Npos p) EmptyString) as -> by done.
    pose proof (ParseUint0_decimal p) as Hu. unfold max_uint64 in Hu. specialize (Hu ltac:(lia)).
    assert (str_forall is_digit (pretty_N_go (Npos p) EmptyString) = true) as Hd
      by (apply pretty_N_go_forall; [apply pretty_N_char_digit|done]).
    destruct (pretty_N_go (Npos p) EmptyString) as [|c t]; [done|]. cbn [str_forall] in Hd. bool_hyps.
    assert (Ascii.eqb c "-" = false /\ Ascii.eqb c "+" = false) as [Hm Hq].
    { split; [destruct (Ascii.eqb_spec c "-") as [->|]|destruct (Ascii.eqb_spec c "+") as [->|]]; done. }
    unfold ParseInt0, drop_sign. rewrite Hm, Hq. cbn [orb]. rewrite Hu. cbn.
    by rewrite (proj2 (Z.leb_gt _ _)) by lia.
  - assert (format_int (Zneg p) = String "-" (pretty_N_go (Npos p) EmptyString)) as -> by done.
    pose proof (ParseUint0_decimal p) as Hu. unfold max_uint64 in Hu. specialize (Hu ltac:(lia)).
    unfold ParseInt0. change (drop_sign (String "-" ?s)) with s. rewrite Hu. cbn.
    by rewrite (proj2 (Z.ltb_ge _ _)) by lia.
Qed.

Lemma ParseInt0_range s z : ParseInt0 s = Ok z -> int64_range z.
Proof.
  unfold ParseInt0, int64_range, min_int64, max_int64. destruct s as [|c s]; [done|]. intros H. inv_ok.
  assert (0 <= v) as Hv0.
  { unfold ParseUint0 in Hv. destruct (drop_sign (String c s)) as [|d t]; [done|].
    destruct (base_prefix _) as [base digits] eqn:Eb. inv_ok. destruct v0 as [n u]. cbn in *.
    assert (0 <= base) as Hb.
    { unfold base_prefix in Eb. by repeat (case_match; simplify_eq; try done). }
    assert (forall s acc u r, 0 <= acc -> uint_loop base acc u s = Ok r -> 0 <= r.1) as Hl.
    { clear -Hb. induction s as [|x s IH]; intros acc u r Ha Hr; cbn [uint_loop] in Hr;
        [by simplify_eq/=|]. destruct (Ascii.eqb x "_"); [by eapply IH|].
      destruct (digit_of x) as [e|] eqn:Ed; [|done].
      destruct (base <=? e); [done|]. destruct (max_uint64 <? _); [done|].
      eapply IH, Hr. assert (0 <= e).
      { unfold digit_of in Ed. repeat case_match; simplify_eq; lia. } nia. }
    match goal with H : uint_loop _ _ _ _ = _ |- _ => apply Hl in H; [|done]; cbn in H end.
    by destruct (u && _); simplify_eq. }
  destruct (Ascii.eqb c "-"); cbn [negb andb] in H.
  - destruct (2 ^ 63 <? v) eqn:E; [done|]. apply Z.ltb_ge in E. injection H as <-. lia.
  - destruct (2 ^ 63 <=? v) eqn:E; [done|]. apply Z.leb_gt in E. injection H as <-. lia.
Qed.

(** ** Arguments that are read back: [--name value] and [--name=value]. *)
Definition plain_flag (name : string) : Prop :=
  name <> EmptyString /\ lacks "=" name = true /\
  match name with String c _ => c <> "-"%char | EmptyString => True end.

Lemma read_arg_flag name : plain_flag name -> forall rest,
  read_arg ("--" +:+ name +:+ rest) = AFlag (name +:+ rest).
Proof.
  intros (Hne & He & Hc) rest. destruct name as [|c name]; [done|].
  assert (forall t, read_arg ("--" +:+ String c t) =
    if Ascii.eqb c "-" || Ascii.eqb c "=" then AMalformed else AFlag (String c t)) as E by done.
  change (String c name +:+ rest) with (String c (name +:+ rest)). rewrite E.
  cbn [lacks str_forall] in He. bool_hyps.
  destruct (Ascii.eqb_spec c "-"), (Ascii.eqb_spec c "="); by simplify_eq.
Qed.

Lemma Cut_app name sep rest : lacks sep name = true -> Cut (name +:+ String sep rest) sep = Some (name, rest).
Proof.
  induction name as [|c name IH]; intros H.
  - rewrite str_app_nil_l. cbn [Cut]. by rewrite Ascii.eqb_refl.
  - cbn [lacks str_forall] in H. bool_hyps. rewrite str_app_cons. cbn [Cut].
    match goal with H : Ascii.eqb c sep = false |- _ => rewrite H end. by rewrite IH.
Qed.

Lemma Cut_lacks name sep : lacks sep name = true -> Cut name sep = None.
Proof.
  induction name as [|c name IH]; intros H; [done|].
  cbn [lacks str_forall] in H. bool_hyps. cbn [Cut].
  match goal with H : Ascii.eqb c sep = false |- _ => rewrite H end. by rewrite IH.
Qed.

Lemma Parse_value flags name v value v' rest :
  plain_flag name -> flags !! name = Some v -> IsBoolFlag v = false -> Value_Set v value = Ok v' ->
  Parse flags (("--" +:+ name) :: value :: rest) = Parse (<[name := v']> flags) rest.
Proof.
  intros Hn Hv Hb Hs. cbn [Parse]. pose proof (read_arg_flag name Hn EmptyString) as Hr.
  rewrite str_app_nil_r in Hr. rewrite Hr. unfold split_flag.
  rewrite (Cut_lacks name) by apply Hn. by rewrite Hv, Hb, Hs.
Qed.

Definition bool_suffix (b : bool) : string := if b then "=true" else "=false".

Lemma Parse_bool (flags : FlagSet) name b0 b rest :
  plain_flag name -> flags !! name = Some (BoolValue b0) ->
  Parse flags (("--" +:+ name +:+ bool_suffix b) :: rest)
  = Parse (<[name := BoolValue b]> flags) rest.
Proof.
  intros Hn Hv. cbn [Parse]. rewrite (read_arg_flag name Hn).
  assert (bool_suffix b = String "=" (if b then "true" else "false")) as -> by (by destruct b).
  unfold split_flag. rewrite Cut_app by apply Hn. rewrite Hv. by destruct b.
Qed.
