(* ===== verification/Engine.v ===== *)
(** * The public API ([diskforge.go], [types.go])

    The engine that validates requests, calls the guarded Linux sequence and the staging, and
    translates their results and errors for its callers. *)

From S2P Require Export Stage System.
Open Scope Z_scope.

(** ** The public types.  The modes, and the identities inside an [Inspection], have the shape of
    the internal ones, and are types of their own as in the source. *)
Module Public.
Definition ModeRescue : string := "rescue".
Definition ModeLive : string := "live".

Record TargetIdentity := {
  CanonicalPath : string;
  Serial : string;
  WWN : string;
  SizeBytes : Z;
  KName : string;
  IsPartition : bool;
  Descendants : list string }.

Record ImageIdentity := {
  Path : string;
  SHA256 : string;
  Format : string;
  CompressedBytes : Z;
  UncompressedBytes : Z }.

Record Inspection := {
  Mode : string;
  Target : TargetIdentity;
  Image : ImageIdentity;
  Token : string }.

Record Progress := {
  WrittenBytes : Z;
  ExpectedBytes : Z }.
End Public.

Record InspectRequest := {
  ir_Mode : string;
  ir_TargetPath : string;
  ir_ImagePath : string;
  ir_SHA256 : string;
  ir_ExpectedBytes : Z }.

Record StageRequest := {
  sr_URL : string;
  sr_Destination : string;
  sr_SHA256 : string;
  sr_MaximumBytes : Z }.

Record WriteRequest := {
  wr_Mode : string;
  wr_TargetPath : string;
  wr_ImagePath : string;
  wr_SHA256 : string;
  wr_ExpectedBytes : Z;
  wr_Confirmation : string;
  wr_Reboot : bool;
  wr_DryRun : bool }.

(** [close] is the method value [verified.Close], and holds the source it closes. *)
Record StagedImage := {
  si_Path : string;
  si_SHA256 : string;
  si_Format : string;
  si_CompressedBytes : Z;
  si_close : option Verified }.

(** The zero [Inspection], which a write that is no dry run leaves in its result, is [None]. *)
Record WriteResult := {
  wr_WrittenBytes : Z;
  wr_IsDryRun : bool;
  wr_Inspection : option Public.Inspection }.

(** ** Conversions.  [append([]string(nil), l...)] copies a slice; values have no identity here. *)
Definition toPolicyTarget (target : Public.TargetIdentity) : TargetIdentity := {|
  tgt_CanonicalPath := target.(Public.CanonicalPath);
  tgt_Serial := target.(Public.Serial);
  tgt_WWN := target.(Public.WWN);
  tgt_SizeBytes := target.(Public.SizeBytes);
  tgt_KName := target.(Public.KName);
  tgt_IsPartition := target.(Public.IsPartition);
  tgt_Descendants := target.(Public.Descendants) |}.

Definition toPolicyImage (source : Public.ImageIdentity) : ImageIdentity := {|
  img_Path := source.(Public.Path);
  img_SHA256 := source.(Public.SHA256);
  img_Format := source.(Public.Format);
  img_CompressedBytes := source.(Public.CompressedBytes);
  img_UncompressedBytes := source.(Public.UncompressedBytes) |}.

Definition fromPolicyTarget (target : TargetIdentity) : Public.TargetIdentity := {|
  Public.CanonicalPath := target.(tgt_CanonicalPath);
  Public.Serial := target.(tgt_Serial);
  Public.WWN := target.(tgt_WWN);
  Public.SizeBytes := target.(tgt_SizeBytes);
  Public.KName := target.(tgt_KName);
  Public.IsPartition := target.(tgt_IsPartition);
  Public.Descendants := target.(tgt_Descendants) |}.

Definition fromPolicyImage (source : ImageIdentity) : Public.ImageIdentity := {|
  Public.Path := source.(img_Path);
  Public.SHA256 := source.(img_SHA256);
  Public.Format := source.(img_Format);
  Public.CompressedBytes := source.(img_CompressedBytes);
  Public.UncompressedBytes := source.(img_UncompressedBytes) |}.

Definition fromPolicyInspection (inspection : Inspection) : Public.Inspection := {|
  Public.Mode := inspection.(ins_Mode);
  Public.Target := fromPolicyTarget inspection.(ins_Target);
  Public.Image := fromPolicyImage inspection.(ins_Image);
  Public.Token := inspection.(ins_ConfirmationToken) |}.

Definition linuxRequest (request : InspectRequest) : Request := {|
  rq_Mode := request.(ir_Mode);
  rq_TargetPath := request.(ir_TargetPath);
  rq_ImagePath := request.(ir_ImagePath);
  rq_SHA256 := request.(ir_SHA256);
  rq_ExpectedBytes := request.(ir_ExpectedBytes);
  rq_Confirmation := EmptyString;
  rq_Reboot := false |}.

(** The [InspectRequest] that a [WriteRequest] contains. *)
Definition inspect_part (request : WriteRequest) : InspectRequest := {|
  ir_Mode := request.(wr_Mode);
  ir_TargetPath := request.(wr_TargetPath);
  ir_ImagePath := request.(wr_ImagePath);
  ir_SHA256 := request.(wr_SHA256);
  ir_ExpectedBytes := request.(wr_ExpectedBytes) |}.

Definition linuxWriteRequest (request : WriteRequest) : Request :=
  let internal := linuxRequest (inspect_part request) in
  {| rq_Mode := internal.(rq_Mode);
     rq_TargetPath := internal.(rq_TargetPath);
     rq_ImagePath := internal.(rq_ImagePath);
     rq_SHA256 := internal.(rq_SHA256);
     rq_ExpectedBytes := internal.(rq_ExpectedBytes);
     rq_Confirmation := request.(wr_Confirmation);
     rq_Reboot := request.(wr_Reboot) |}.

(** The translation of an error that is not nil. *)
Definition publicError (err : error) : error :=
  match as_policy_gate err with
  | Some (code, msg) => PublicGate code msg (Some err)
  | None =>
      if errors_Is err ErrInvalidDigest || errors_Is err ErrDigestMismatch then
        PublicGate Errors.Api.GateInvalidDigest (error_text err) (Some err)
      else if errors_Is err ErrSizeMismatch then
        PublicGate Errors.Api.GateInvalidImageSize (error_text err) (Some err)
      else err
  end.

Definition ConfirmationToken (target : Public.TargetIdentity) (source : Public.ImageIdentity)
    : res string :=
  map_err publicError (Policy.ConfirmationToken (toPolicyTarget target) (toPolicyImage source)).

(** ** Validation *)
Definition public_gate (code : GateCode) (msg : message) : error := PublicGate code msg None.

Definition validateContext (ctx : option Context) : res Context :=
  match ctx with
  | None => Err (errorf_sentinel ErrInvalidRequest [Lit "context is nil"])
  | Some ctx =>
      match ctx_Err ctx with
      | (Some err, _) => Err err
      | (None, ctx) => Ok ctx
      end
  end.

Definition validateMode (mode : string) : res unit :=
  refuse_if (negb (bool_decide (mode = Public.ModeRescue)) && negb (bool_decide (mode = Public.ModeLive)))
    (public_gate Errors.Api.GateInvalidMode [Lit "unsupported write mode "; Quoted mode]).

Definition validateTargetPath (path : string) : res unit :=
  let cleaned := Clean path in
  refuse_if (negb (bool_decide (cleaned = path)) || negb (IsAbs path)
             || negb (bool_decide (Dir path = "/dev")) || bool_decide (Base path = "."))
    (public_gate Errors.Api.GateInvalidTarget [Lit "target must be a canonical /dev/<name> path"]).

Definition validateImagePath (path : string) : res unit :=
  refuse_if (bool_decide (path = EmptyString) || negb (IsAbs path) || negb (bool_decide (Clean path = path)))
    (errorf_sentinel ErrInvalidRequest [Lit "image path must be canonical and absolute"]).

Definition validateDigest (value : string) : res unit :=
  refuse_if
    match DecodeString value with
    | None => true
    | Some decoded =>
        negb (length decoded =? 32)%nat || negb (String.length value =? 32 * 2)%nat
        || negb (bool_decide (value = ToLower value))
    end
    (public_gate Errors.Api.GateInvalidDigest
       [Lit "SHA-256 digest must contain exactly 64 lowercase hexadecimal characters"]).

Definition validateInspectRequest (request : InspectRequest) : res unit :=
  validateMode request.(ir_Mode);;
  validateTargetPath request.(ir_TargetPath);;
  validateImagePath request.(ir_ImagePath);;
  validateDigest request.(ir_SHA256);;
  refuse_if (request.(ir_ExpectedBytes) <=? 0)
    (public_gate Errors.Api.GateInvalidImageSize [Lit "expected image size must be positive"]).

Definition validateWriteRequest (request : WriteRequest) : res unit :=
  validateInspectRequest (inspect_part request);;
  refuse_if (negb request.(wr_DryRun) && bool_decide (request.(wr_Confirmation) = EmptyString))
    (public_gate Errors.Api.GateConfirmation [Lit "confirmation token is required"]);;
  refuse_if (bool_decide (request.(wr_Mode) = Public.ModeRescue) && request.(wr_Reboot))
    (errorf_sentinel ErrInvalidRequest [Lit "reboot is valid only in live mode"]).

(** [url.ParseRequestURI] is a parameter: the fields of its result that the code reads. *)
Record URL := {
  url_Scheme : string;
  url_Host : string;
  url_User : bool }.

Definition validateStageRequest (url_ParseRequestURI : string -> outcome URL) (request : StageRequest)
    : res unit :=
  refuse_if
    match url_ParseRequestURI request.(sr_URL) with
    | inl _ => true
    | inr parsed =>
        bool_decide (parsed.(url_Host) = EmptyString) || parsed.(url_User)
        || (negb (bool_decide (parsed.(url_Scheme) = "http"))
            && negb (bool_decide (parsed.(url_Scheme) = "https")))
    end
    (errorf_sentinel ErrInvalidRequest
       [Lit "stage URL must be an absolute HTTP(S) URL without userinfo"]);;
  validateImagePath request.(sr_Destination);;
  validateDigest request.(sr_SHA256);;
  refuse_if ((request.(sr_MaximumBytes) <=? 0) || (request.(sr_MaximumBytes) =? max_int64))
    (errorf_sentinel ErrInvalidRequest [Lit "maximum stage size must be positive and bounded"]).

(** ** The engine.  [hc_Timeout] is in nanoseconds; [en_progress] tells whether a callback is set. *)
Record http_Client := {
  hc_Timeout : Z;
  hc_client : Client }.

Definition defaultHTTPTimeout : Z := 6 * 3600 * 1000000000.

Record Engine (W V T : Type) := {
  en_client : http_Client;
  en_system : Boundary W V T;
  en_progress : bool }.
Arguments en_client {W V T} _.
Arguments en_system {W V T} _.
Arguments en_progress {W V T} _.

Section options.
Context {W V T : Type}.

(** An [Option] changes the engine under construction; a nil option or pointer is [None]. *)
Definition EngineOption : Type := Engine W V T -> res (Engine W V T).

Definition WithHTTPClient (client : option http_Client) : EngineOption := fun engine =>
  match client with
  | None => Err (errorf_sentinel ErrInvalidRequest [Lit "HTTP client is nil"])
  | Some client =>
      refuse_if (client.(hc_Timeout) <=? 0)
        (errorf_sentinel ErrInvalidRequest [Lit "HTTP client timeout must be positive"]);;
      mret {| en_client := client; en_system := engine.(en_system);
              en_progress := engine.(en_progress) |}
  end.

Definition WithProgress (callback : bool) : EngineOption := fun engine =>
  mret {| en_client := engine.(en_client); en_system := engine.(en_system); en_progress := callback |}.

Definition withBoundary (boundary : option (Boundary W V T)) : EngineOption := fun engine =>
  match boundary with
  | None => Err (errorf_sentinel ErrInvalidRequest [Lit "Linux boundary is nil"])
  | Some boundary =>
      mret {| en_client := engine.(en_client); en_system := boundary;
              en_progress := engine.(en_progress) |}
  end.

(** The loop of [New]. *)
Fixpoint apply_options (index : Z) (options : list (option EngineOption)) (engine : Engine W V T)
    : res (Engine W V T) :=
  match options with
  | [] => Ok engine
  | None :: _ =>
      Err (errorf_sentinel ErrInvalidRequest [Lit "option "; Dec index; Lit " is nil"])
  | Some option :: rest =>
      engine ← map_err (fun e => Wrapped [Lit "apply option "; Dec index; Lit ": "] e []) (option engine);
      apply_options (index + 1) rest engine
  end.
End options.

(** [default_client] is the behaviour of a fresh [http.Client]. *)
Definition New {K H : Type} `{Kernel K H} (zstd_NewReader : contextReader OsFile -> outcome script)
    (default_client : Client)
    (options : list (option (EngineOption (W:=World K) (V:=ImagePointer) (T:=TargetFile))))
    : res (Engine (World K) ImagePointer TargetFile) :=
  apply_options 0 options
    {| en_client := {| hc_Timeout := defaultHTTPTimeout; hc_client := default_client |};
       en_system := system_boundary zstd_NewReader DefaultSystem;
       en_progress := false |}.

Definition StagedImage_Close (staged : option StagedImage) : res unit * option StagedImage :=
  match staged with
  | None => (Ok tt, None)
  | Some staged =>
      match staged.(si_close) with
      | None => (Ok tt, Some staged)
      | Some verified =>
          let '(r, v, _) := Verified_Close (Some verified) in
          (r, Some {| si_Path := staged.(si_Path); si_SHA256 := staged.(si_SHA256);
                      si_Format := staged.(si_Format);
                      si_CompressedBytes := staged.(si_CompressedBytes); si_close := v |})
      end
  end.

Section engine.
Context {W V T : Type}.
Context (engine : Engine W V T).

Definition Inspect (ctx : option Context) (request : InspectRequest) : M error W Public.Inspection :=
  ctx ← lift (validateContext ctx);
  lift (validateInspectRequest request);;
  inspection ← map_error publicError
    (b_Inspect (Boundary := en_system engine) (Some ctx) (linuxRequest request));
  mret (fromPolicyInspection inspection).

Definition Stage (url_ParseRequestURI : string -> outcome URL) (env : StageEnv)
    (ctx : option Context) (request : StageRequest) : M error StageState StagedImage :=
  ctx ← lift (validateContext ctx);
  lift (validateStageRequest url_ParseRequestURI request);;
  verified ← map_error publicError
    (Stage.Stage env (Some ctx) (Some engine.(en_client).(hc_client)) request.(sr_URL)
       request.(sr_Destination) request.(sr_SHA256) request.(sr_MaximumBytes));
  mret {| si_Path := verified.(v_Path); si_SHA256 := verified.(v_SHA256);
          si_Format := verified.(v_Format); si_CompressedBytes := verified.(v_CompressedBytes);
          si_close := Some verified |}.

Definition dry_run (ctx : Context) (internalRequest : Request) : M error W WriteResult :=
  prepared ← map_error publicError (Prepare (H := en_system engine) (Some ctx) internalRequest);
  let (inspection, verified) := prepared : Policy.Inspection * V in
  map_error (wrap_error "close verified dry-run source: ")
    (Verified_close (Boundary := en_system engine) verified);;
  mret {| wr_WrittenBytes := 0; wr_IsDryRun := true;
          wr_Inspection := Some (fromPolicyInspection inspection) |}.

Definition Write (ctx : option Context) (request : WriteRequest) : M error W WriteResult :=
  ctx ← lift (validateContext ctx);
  lift (validateWriteRequest request);;
  let internalRequest := linuxWriteRequest request in
  if request.(wr_DryRun) then dry_run ctx internalRequest
  else
    result ← map_error publicError
      (Execute (H := en_system engine) (Some ctx) internalRequest engine.(en_progress));
    mret {| wr_WrittenBytes := result.(rs_WrittenBytes); wr_IsDryRun := false; wr_Inspection := None |}.
End engine.

(** [progressCallback]: what the public callback is called with, for the calls of the internal one. *)
Definition progressCallback (calls : list Progress) : list Public.Progress :=
  map (fun update => {| Public.WrittenBytes := update.(pr_WrittenBytes);
                        Public.ExpectedBytes := update.(pr_ExpectedBytes) |}) calls.

(** ** Lemmas *)
Lemma validateContext_ok ctx c : validateContext ctx = Ok c -> exists c0, ctx = Some c0.
Proof. destruct ctx as [c0|]; [by exists c0|done]. Qed.

Lemma validateMode_ok mode u :
  validateMode mode = Ok u <-> mode = "rescue" \/ mode = "live".
Proof.
  unfold validateMode. rewrite refuse_if_ok, andb_false_iff, !negb_false_iff, !bool_decide_eq_true.
  done.
Qed.

Lemma validateTargetPath_ok path u :
  validateTargetPath path = Ok u <-> exists name, plain_elem name /\ path = dev_path name.
Proof.
  unfold validateTargetPath. cbv zeta. rewrite refuse_if_ok. split.
  - intros H. bool_hyps. by apply dev_path_spec.
  - intros (name & Hn & ->). rewrite Clean_dev, Dir_dev, Base_dev, IsAbs_dev by done.
    rewrite !bool_decide_eq_true_2 by done. rewrite bool_decide_eq_false_2; [done|].
    by destruct Hn as (_ & ? & _).
Qed.

Lemma validateImagePath_ok path u :
  validateImagePath path = Ok u <-> exists es, Forall plain_elem es /\ path = abs_path es.
Proof.
  unfold validateImagePath. rewrite refuse_if_ok. split.
  - intros H. bool_hyps. by apply canonical_abs.
  - intros (es & Hes & ->). rewrite abs_path_IsAbs, Clean_abs_path by done.
    rewrite (bool_decide_eq_true_2 (_ = abs_path es)) by done.
    rewrite bool_decide_eq_false_2; [done|]. unfold abs_path. by destruct (JoinStr es seps).
Qed.

Lemma validateDigest_lower value u :
  validateDigest value = Ok u <-> lower_hex_text 64 value.
Proof.
  unfold validateDigest. rewrite refuse_if_ok. rewrite <- bad_digest_spec. unfold bad_digest.
  by destruct (DecodeString value).
Qed.

Lemma unit_ok {E} (r : result E unit) : (exists u, r = Ok u) <-> r = Ok tt.
Proof. split; [by intros [[] ->]|by eexists]. Qed.

(** What an acceptable request is. *)
Record inspect_request_ok (request : InspectRequest) : Prop := {
  iro_mode : request.(ir_Mode) = "rescue" \/ request.(ir_Mode) = "live";
  iro_target : exists name, plain_elem name /\ request.(ir_TargetPath) = dev_path name;
  iro_image : exists es, Forall plain_elem es /\ request.(ir_ImagePath) = abs_path es;
  iro_digest : lower_hex_text 64 request.(ir_SHA256);
  iro_bytes : 0 < request.(ir_ExpectedBytes) }.

Lemma seq_ok {E B} (m : result E unit) (k : result E B) b :
  (m;; k) = Ok b <-> m = Ok tt /\ k = Ok b.
Proof.
  rewrite bind_ok_inv. split; [by intros ([] & -> & ->)|by intros [-> ->]; exists tt].
Qed.

Lemma validateInspectRequest_ok request :
  validateInspectRequest request = Ok tt <-> inspect_request_ok request.
Proof.
  unfold validateInspectRequest.
  rewrite !seq_ok, validateMode_ok, validateTargetPath_ok, validateImagePath_ok, validateDigest_lower.
  rewrite refuse_if_ok, Z.leb_gt. split; [by intros (? & ? & ? & ? & ?)|by intros []].
Qed.

Record write_request_ok (request : WriteRequest) : Prop := {
  wro_inspect : inspect_request_ok (inspect_part request);
  wro_confirmation : request.(wr_DryRun) = true \/ request.(wr_Confirmation) <> EmptyString;
  wro_reboot : ~ (request.(wr_Mode) = "rescue" /\ request.(wr_Reboot) = true) }.

Lemma validateWriteRequest_ok request :
  validateWriteRequest request = Ok tt <-> write_request_ok request.
Proof.
  unfold validateWriteRequest. rewrite !seq_ok, validateInspectRequest_ok, !refuse_if_ok.
  rewrite !andb_false_iff, negb_false_iff, !bool_decide_eq_false.
  assert (forall A B C D : Prop, (A <-> B) -> (C <-> D) -> (A /\ C <-> B /\ D)) as Hand by tauto.
  split.
  - intros (Hi & Hc & Hr). split; [done|done|]. intros [Hm Hb]. destruct Hr as [Hr|Hr]; [done|].
    congruence.
  - intros [Hi Hc Hr]. split_and!; [done|done|].
    destruct (decide (wr_Mode request = Public.ModeRescue)) as [Hm|Hm]; [right|by left].
    apply not_true_iff_false. intros Hb. by apply Hr.
Qed.

Lemma errors_Is_publicError err s : errors_Is (publicError err) s = errors_Is err s.
Proof.
  unfold publicError. destruct (as_policy_gate err) as [[code msg]|]; [done|].
  destruct (_ || _); [done|]. by destruct (errors_Is err ErrSizeMismatch).
Qed.

Section engine_lemmas.
Context {W V T : Type}.
Context (engine : Engine W V T).

Lemma Write_executes ctx request w result w' :
  Write engine ctx request w = (Ok result, w') -> request.(wr_DryRun) = false ->
  validateWriteRequest request = Ok tt /\
  exists c rs, Execute (H := en_system engine) (Some c) (linuxWriteRequest request)
      engine.(en_progress) w = (Ok rs, w') /\
    result = {| wr_WrittenBytes := rs.(rs_WrittenBytes); wr_IsDryRun := false; wr_Inspection := None |}.
Proof.
  intros H Hdry. unfold Write in H. rewrite Hdry in H.
  apply M_bind_ok in H as (c & w1 & [_ ->]%lift_ok & H).
  apply M_bind_ok in H as ([] & w2 & [Hv ->]%lift_ok & H).
  apply M_bind_ok in H as (rs & w3 & He & H). apply map_error_ok in He.
  injection H as <- <-. split; [done|]. by exists c, rs.
Qed.
End engine_lemmas.

(** ** The claims *)

(** C14: The API accepts exactly the well-formed write requests: a known mode, a target that is a plain
    name directly under [/dev], a canonical absolute image path, a digest of 64 lower-case
    hexadecimal digits, a positive size, a confirmation unless it is a dry run, and no reboot in
    rescue mode. *)
Theorem validateWriteRequest_accepts request :
  validateWriteRequest request = Ok tt <-> write_request_ok request.
Proof. apply validateWriteRequest_ok. Qed.

(** The three calls of a dry run. *)
Definition dry_run_plan (request : WriteRequest) : list Event :=
  [EInspect (linuxWriteRequest request); EVerifyImage request.(wr_ImagePath) request.(wr_SHA256);
   ECloseVerified].

(** The calls of [dry_run], which closes what [Prepare] verified. *)
Lemma dry_run_log {W V T} (B : Boundary W V T) client progress ctx request w r w' log :
  dry_run {| en_client := client; en_system := traced B; en_progress := progress |} ctx
    (linuxWriteRequest request) (w, []) = (r, (w', log)) ->
  map fst log `prefix_of` dry_run_plan request /\
  (is_ok r = true -> log = succeeded (dry_run_plan request)) /\
  ((EVerifyImage request.(wr_ImagePath) request.(wr_SHA256), true) ∈ log ->
   exists closed, (ECloseVerified, closed) ∈ log).
Proof.
  intros H. unfold dry_run in H. cbn [en_system] in H.
  apply M_bind_cases in H as [([inspection v] & [w1 l1] & HP & H)|(rp & HP & Hrp & Hr)];
    unfold map_error in HP;
    destruct (Prepare (H := traced B) (Some ctx) (linuxWriteRequest request) (w, [])) as [rp1 [w2 l2]] eqn:E;
    injection HP as HP1 <- <-; apply Prepare_prepared in E.
  - destruct rp1 as [a|e|]; [|done..]. injection HP1 as ->. inversion E; subst; [done..|].
    apply M_bind_cases in H as [([] & [w3 l3] & HC & H)|(rc & HC & Hrc & Hr)];
      unfold map_error, logged in HC; cbn in HC; unfold logged in HC; cbn in HC;
      destruct (Verified_close v w2) as [rv w4]; injection HC as Hv <- <-.
    + injection H as <- <- <-. destruct rv; [|done..]. cbn. split; [done|]. split; [done|].
      intros _. exists true. set_solver.
    + destruct rv; [by subst rc|..]; cbn; (split; [done|split; [by rewrite Hr|]]);
        intros _; exists false; set_solver.
  - rewrite Hr. assert (is_ok rp1 = false) as Hp1 by (by destruct rp1; subst rp).
    inversion E; subst; cbn; (split; [|split; [done|]]).
    + by exists (drop 1 (dry_run_plan request)).
    + intros Hin. set_solver.
    + by exists (drop 2 (dry_run_plan request)).
    + intros Hin. set_solver.
    + done.
    + intros _. eexists. do 2 right. by left.
    + by inversion H.
    + by inversion H.
Qed.

(** C13: A dry run touches nothing: over any system, its calls are at most the inspection, the
    verification of the image and its closing, in this order; the target is never opened and no
    live-mode control is used; a verified image is closed; and it succeeds only after all three
    have succeeded. *)
Theorem dry_run_touches_nothing {W V T} (B : Boundary W V T) client progress ctx request w
    (Hdry : request.(wr_DryRun) = true) :
  let '(r, (_, log)) :=
    Write {| en_client := client; en_system := traced B; en_progress := progress |} ctx request (w, []) in
  map fst log `prefix_of` dry_run_plan request /\
  (is_ok r = true -> log = succeeded (dry_run_plan request)) /\
  ((EVerifyImage request.(wr_ImagePath) request.(wr_SHA256), true) ∈ log ->
   exists closed, (ECloseVerified, closed) ∈ log).
Proof.
  destruct (Write _ _ _ _) as [r [w' log]] eqn:E. unfold Write in E.
  apply M_bind_cases in E as [(c & [w1 l1] & [_ [= -> ->]]%lift_ok & E)|(r0 & E & _ & Hr)].
  2: { injection E as _ -> <-. rewrite Hr. split; [by eexists|]. split; [done|set_solver]. }
  apply M_bind_cases in E as [([] & [w1 l1] & [_ [= -> ->]]%lift_ok & E)|(r0 & E & _ & Hr)].
  2: { injection E as _ -> <-. rewrite Hr. split; [by eexists|]. split; [done|set_solver]. }
  rewrite Hdry in E. by apply dry_run_log in E.
Qed.

(** The gate that callers see for an error of the internal packages. *)
Definition public_gate_of (err : error) : option (GateCode * message) :=
  match as_policy_gate err with
  | Some gate => Some gate
  | None =>
      if errors_Is err ErrInvalidDigest || errors_Is err ErrDigestMismatch
      then Some ("invalid_digest", error_text err)
      else if errors_Is err ErrSizeMismatch then Some ("invalid_image_size", error_text err)
      else as_public_gate err
  end.

(** C17: The translation of errors loses nothing: every error variable that the internal error matches
    is still matched, a policy refusal anywhere in its chain becomes a public gate error with the
    same code and message, digest and size mismatches become gates with their text, any other
    error is passed through; and the gate codes of the two packages are the same strings, without
    duplicates. *)
Theorem publicError_spec err :
  (forall s, errors_Is (publicError err) s = errors_Is err s) /\
  as_public_gate (publicError err) = public_gate_of err /\
  (as_public_gate (publicError err) = None -> publicError err = err) /\
  Policy.codes = Errors.Api.codes /\ NoDup Errors.Api.codes.
Proof.
  split; [apply errors_Is_publicError|]. split_and!.
  - unfold publicError, public_gate_of. destruct (as_policy_gate err) as [[code msg]|]; [done|].
    destruct (_ || _); [done|]. by destruct (errors_Is err ErrSizeMismatch).
  - unfold publicError. destruct (as_policy_gate err) as [[code msg]|]; [done|].
    destruct (_ || _); [done|]. by destruct (errors_Is err ErrSizeMismatch).
  - reflexivity.
  - apply (bool_decide_unpack _). vm_compute. exact I.
Qed.

(** The options that the package exports. *)
Inductive exported {W V T} : EngineOption (W:=W) (V:=V) (T:=T) -> Prop :=
| exported_client c : exported (WithHTTPClient c)
| exported_progress b : exported (WithProgress b).

Lemma apply_options_invariant {W V T} (P : Engine W V T -> Prop) index options engine engine' :
  (forall o e e', Some o ∈ options -> P e -> o e = Ok e' -> P e') -> P engine ->
  apply_options index options engine = Ok engine' -> P engine' /\ None ∉ options.
Proof.
  revert index engine. induction options as [|[o|] options IH]; intros index engine Ho Hp H;
    cbn [apply_options] in H; inv_ok; [split; [done|set_solver]|].
  apply IH in H as [? ?].
  - split; [done|set_solver].
  - intros o' e e' Hin. apply Ho. by right.
  - eapply Ho; [by left|exact Hp|done].
Qed.

(** C18: Every engine that can be constructed has a bounded HTTP client and the real system: whatever
    exported options [New] is given, on success no option was nil, the total timeout of the
    client is positive, and the boundary is the default system. *)
Theorem New_invariant {K H : Type} `{Kernel K H} zstd default_client options engine
    (Hoptions : forall o, Some o ∈ options -> exported o)
    (Hnew : New zstd default_client options = Ok engine) :
  (None ∉ options) /\ 0 < engine.(en_client).(hc_Timeout) /\
  engine.(en_system) = system_boundary zstd DefaultSystem.
Proof.
  unfold New in Hnew. eapply (apply_options_invariant (fun e => 0 < hc_Timeout (en_client e) /\
    en_system e = system_boundary zstd DefaultSystem)) in Hnew; [tauto| |done].
  intros o e e' Hin [Ht Hs] He. destruct (Hoptions o Hin) as [[c|]|b]; cbn in He; [|done|].
  - inv_ok. rename select ((_ <=? 0) = false) into Hc. by apply Z.leb_gt in Hc.
  - by injection He as <-.
Qed.

(** ** Concrete inputs *)
Definition example_http_client (timeout : Z) : http_Client :=
  {| hc_Timeout := timeout; hc_client := example_client |}.

Lemma New_invariant_witness :
  exists engine, New (H0 := machine) example_decoder example_client
      [Some (WithHTTPClient (Some (example_http_client 5))); Some (WithProgress true)] = Ok engine /\
    0 < engine.(en_client).(hc_Timeout).
Proof.
  eexists. split; [reflexivity|].
  apply (New_invariant (H0 := machine) example_decoder example_client
    [Some (WithHTTPClient (Some (example_http_client 5))); Some (WithProgress true)]);
    [|reflexivity].
  intros o Ho. rewrite !elem_of_cons in Ho.
  destruct Ho as [[= ->]|[[= ->]|Ho]]; [constructor|constructor|by apply not_elem_of_nil in Ho].
Defined.

Example New_refuses :
  is_ok (New (H0 := machine) example_decoder example_client [Some (WithHTTPClient None)]) = false /\
  is_ok (New (H0 := machine) example_decoder example_client
    [Some (WithHTTPClient (Some (example_http_client 0)))]) = false /\
  is_ok (New (H0 := machine) example_decoder example_client [None]) = false.
Proof. done. Qed.

Definition example_write_request (dry : bool) : WriteRequest := {|
  wr_Mode := "rescue"; wr_TargetPath := "/dev/vda"; wr_ImagePath := "/run/image";
  wr_SHA256 := "0123456789abcdef0123456789abcdef0123456789abcdef0123456789abcdef";
  wr_ExpectedBytes := 9; wr_Confirmation := EmptyString; wr_Reboot := false; wr_DryRun := dry |}.

Lemma dry_run_touches_nothing_witness :
  let request := example_write_request true in
  let '(r, (_, log)) :=
    Write {| en_client := example_http_client 5;
             en_system := traced (nominal (linuxWriteRequest request)); en_progress := false |}
      (Some background) request (tt, []) in
  map fst log `prefix_of` dry_run_plan request /\
  (is_ok r = true -> log = succeeded (dry_run_plan request)) /\
  ((EVerifyImage request.(wr_ImagePath) request.(wr_SHA256), true) ∈ log ->
   exists closed, (ECloseVerified, closed) ∈ log).
Proof.
  cbv zeta. apply (dry_run_touches_nothing (nominal (linuxWriteRequest (example_write_request true)))).
  reflexivity.
Defined.

Example example_dry_run :
  is_ok (Write {| en_client := example_http_client 5;
             en_system := traced (nominal (linuxWriteRequest (example_write_request true)));
             en_progress := false |}
    (Some background) (example_write_request true) (tt, [])).1 = true.
Proof. vm_compute. reflexivity. Qed.
