(* ===== verification/Version.v ===== *)
(** * Build metadata ([internal/version/version.go]) *)

From S2P Require Export GoStrings.

(** The package variables, which the linker may have replaced, and what [runtime] reports. *)
Record Linked := {
  version : string;
  commit : string;
  buildDate : string }.
Definition defaults : Linked := {| version := "dev"; commit := "none"; buildDate := "unknown" |}.

Record Runtime := {
  rt_Version : string;
  rt_GOOS : string;
  rt_GOARCH : string }.

Record Info := {
  in_Version : string;
  in_Commit : string;
  in_BuildDate : string;
  in_GoVersion : string;
  in_OS : string;
  in_Arch : string }.

Definition Current (linked : Linked) (runtime : Runtime) : Info := {|
  in_Version := linked.(version);
  in_Commit := linked.(commit);
  in_BuildDate := linked.(buildDate);
  in_GoVersion := runtime.(rt_Version);
  in_OS := runtime.(rt_GOOS);
  in_Arch := runtime.(rt_GOARCH) |}.
