(* ===== verification/Cli.v ===== *)
(** * The command line ([cmd/diskforge/main.go])

    Dispatch, flags, exit codes and reports, over any engine; and the whole program, from the
    command line to the bytes on the target. *)

From S2P Require Export Flags Version Engine.
Open Scope Z_scope.

Definition exitSuccess : Z := 0.
Definition exitOperational : Z := 1.
Definition exitUsage : Z := 2.
Definition exitGate : Z := 3.
Definition exitCanceled : Z := 4.
Definition commandInspect : string := "inspect".
Definition commandStage : string := "stage".
Definition commandWrite : string := "write".
Definition commandVersion : string := "version".

(** The interface [engineAPI], over a state [S]; an engine is made for a callback that is nil or
    not. *)
Record engineAPI (S : Type) := {
  api_Inspect : option Context -> InspectRequest -> M error S Public.Inspection;
  api_Stage : option Context -> StageRequest -> M error S StagedImage;
  api_Write : option Context -> WriteRequest -> M error S WriteResult }.
Arguments api_Inspect {S} _.
Arguments api_Stage {S} _.
Arguments api_Write {S} _.
Definition engineFactory (S : Type) : Type := bool -> res (engineAPI S).

Record commonFlags := {
  cf_mode : string;
  cf_targetPath : string;
  cf_imagePath : string;
  cf_digest : string;
  cf_expectedBytes : Z }.

Record errorDetail := {
  ed_Kind : string;
  ed_Code : option GateCode;
  ed_Message : message }.

(** A value that is written: one JSON object, or the text of [version]. *)
Inductive Output :=
| OInspection (r : Public.Inspection)
| OStaged (r : StagedImage)
| OWrite (r : WriteResult)
| OVersion (r : Info)
| OVersionText (r : Info)
| OProgress (p : Public.Progress)
| OError (d : errorDetail).

(** What the program has tried to write.  A failed write to stderr is ignored by the code. *)
Record Console := {
  co_stdout : list Output;
  co_stderr : list Output }.
Definition print_out (o : Output) (c : Console) : Console :=
  {| co_stdout := c.(co_stdout) ++ [o]; co_stderr := c.(co_stderr) |}.
Definition print_err (os : list Output) (c : Console) : Console :=
  {| co_stdout := c.(co_stdout); co_stderr := c.(co_stderr) ++ os |}.

(** [newCommonFlagSet] and the other flag sets, with the defaults. *)
Definition newCommonFlagSet : FlagSet :=
  <["mode" := StringValue EmptyString]> (<["target" := StringValue EmptyString]>
    (<["image" := StringValue EmptyString]> (<["sha256" := StringValue EmptyString]>
      (<["expected-bytes" := Int64Value 0]> ∅)))).
Definition writeFlagSet : FlagSet :=
  <["confirmation" := StringValue EmptyString]> (<["reboot" := BoolValue false]>
    (<["dry-run" := BoolValue false]> newCommonFlagSet)).
Definition stageFlagSet : FlagSet :=
  <["url" := StringValue EmptyString]> (<["destination" := StringValue EmptyString]>
    (<["sha256" := StringValue EmptyString]> (<["maximum-bytes" := Int64Value 0]> ∅))).
Definition versionFlagSet : FlagSet := <["json" := BoolValue false]> ∅.

Definition common_values (flags : FlagSet) : commonFlags := {|
  cf_mode := string_value flags "mode";
  cf_targetPath := string_value flags "target";
  cf_imagePath := string_value flags "image";
  cf_digest := string_value flags "sha256";
  cf_expectedBytes := int64_value flags "expected-bytes" |}.

Definition inspectRequest (values : commonFlags) : InspectRequest := {|
  ir_Mode := values.(cf_mode);
  ir_TargetPath := values.(cf_targetPath);
  ir_ImagePath := values.(cf_imagePath);
  ir_SHA256 := values.(cf_digest);
  ir_ExpectedBytes := values.(cf_expectedBytes) |}.

Definition writeRequest (values : commonFlags) : WriteRequest := {|
  wr_Mode := values.(cf_mode);
  wr_TargetPath := values.(cf_targetPath);
  wr_ImagePath := values.(cf_imagePath);
  wr_SHA256 := values.(cf_digest);
  wr_ExpectedBytes := values.(cf_expectedBytes);
  wr_Confirmation := EmptyString;
  wr_Reboot := false;
  wr_DryRun := false |}.

(** The request that [runWrite] builds from its flags. *)
Definition flags_writeRequest (flags : FlagSet) : WriteRequest :=
  let request := writeRequest (common_values flags) in
  {| wr_Mode := request.(wr_Mode); wr_TargetPath := request.(wr_TargetPath);
     wr_ImagePath := request.(wr_ImagePath); wr_SHA256 := request.(wr_SHA256);
     wr_ExpectedBytes := request.(wr_ExpectedBytes);
     wr_Confirmation := string_value flags "confirmation";
     wr_Reboot := bool_value flags "reboot";
     wr_DryRun := bool_value flags "dry-run" |}.

Definition flags_stageRequest (flags : FlagSet) : StageRequest := {|
  sr_URL := string_value flags "url";
  sr_Destination := string_value flags "destination";
  sr_SHA256 := string_value flags "sha256";
  sr_MaximumBytes := int64_value flags "maximum-bytes" |}.

(** [calls] is what the installed callback has been called with, oldest first, and [stdout_error]
    the outcome of the n-th write to stdout.  A command gives its exit code, or [None] when the
    engine panics. *)
Section run.
Context {S : Type}.
Context (calls : S -> list Public.Progress).
Context (stdout_error : nat -> option error).
Context (info : Info).

Definition Command : Type := S * Console -> option Z * (S * Console).

Definition writeError (detail : errorDetail) (c : Console) : Console := print_err [OError detail] c.

Definition usageError (msg : message) : Command := fun st =>
  (Some exitUsage,
   (st.1, writeError {| ed_Kind := "usage"; ed_Code := None; ed_Message := msg |} st.2)).

Definition operationError (err : error) : Command := fun st =>
  (Some exitOperational,
   (st.1, writeError {| ed_Kind := "operational"; ed_Code := None; ed_Message := error_text err |} st.2)).

Definition apiError (err : error) : Command := fun st =>
  match as_public_gate err with
  | Some (code, msg) =>
      (Some exitGate,
       (st.1, writeError {| ed_Kind := "gate"; ed_Code := Some code; ed_Message := gate_text code msg |} st.2))
  | None =>
      if errors_Is err ContextCanceled || errors_Is err ContextDeadlineExceeded then
        (Some exitCanceled,
         (st.1, writeError {| ed_Kind := "canceled"; ed_Code := None; ed_Message := error_text err |} st.2))
      else operationError err st
  end.

(** A write to stdout whose failure is reported as an operational error. *)
Definition write_stdout (what : string) (o : Output) : Command := fun st =>
  let st' := (st.1, print_out o st.2) in
  match stdout_error (length st.2.(co_stdout)) with
  | None => (Some exitSuccess, st')
  | Some err => operationError (wrap_error what err) st'
  end.
Definition encodeResult (value : Output) : Command := write_stdout "encode result: " value.

(** A call of the engine; [report] is what the callback has written meanwhile. *)
Definition call {A} (method : M error S A) (k : A -> Command) : Command := fun st =>
  let (r, s) := method st.1 in
  let progress := drop (length (calls st.1)) (calls s) in
  let st := (s, print_err (map OProgress progress) st.2) in
  match r with
  | Ok a => k a st
  | Err err => apiError err st
  | Panic => (None, st)
  end.

(** The common start of the commands: flags, no positional arguments. *)
Definition parsed (flags : FlagSet) (args : list string) (name : string) (k : FlagSet -> Command)
    : Command :=
  match Parse flags args with
  | Err msg => usageError msg
  | Panic => fun st => (None, st)
  | Ok (flags, rest) =>
      if negb (length rest =? 0)%nat
      then usageError [Lit name; Lit " does not accept positional arguments"]
      else k flags
  end.

Definition with_engine (engine : res (engineAPI S)) (k : engineAPI S -> Command) : Command :=
  match engine with
  | Ok engine => k engine
  | Err err => operationError err
  | Panic => fun st => (None, st)
  end.

Definition runInspect (ctx : Context) (args : list string) (newEngine : engineFactory S) : Command :=
  parsed newCommonFlagSet args commandInspect (fun flags =>
    with_engine (newEngine false) (fun engine =>
      call (engine.(api_Inspect) (Some ctx) (inspectRequest (common_values flags)))
        (fun result => encodeResult (OInspection result)))).

Definition runStage (ctx : Context) (args : list string) (newEngine : engineFactory S) : Command :=
  parsed stageFlagSet args commandStage (fun flags =>
    with_engine (newEngine false) (fun engine =>
      call (engine.(api_Stage) (Some ctx) (flags_stageRequest flags)) (fun staged =>
        let (closed, after) := StagedImage_Close (Some staged) in
        match closed with
        | Ok _ => encodeResult (OStaged (default staged after))
        | Err err => operationError (wrap_error "close staged image: " err)
        | Panic => fun st => (None, st)
        end))).

Definition runWrite (ctx : Context) (args : list string) (newEngine : engineFactory S) : Command :=
  parsed writeFlagSet args commandWrite (fun flags =>
    with_engine (newEngine true) (fun engine =>
      call (engine.(api_Write) (Some ctx) (flags_writeRequest flags))
        (fun result => encodeResult (OWrite result)))).

Definition runVersion (args : list string) : Command :=
  parsed versionFlagSet args commandVersion (fun flags =>
    if bool_value flags "json" then encodeResult (OVersion info)
    else write_stdout "write version: " (OVersionText info)).

Definition run (ctx : Context) (args : list string) (newEngine : engineFactory S) : Command :=
  match args with
  | [] => usageError [Lit "a command is required: inspect, stage, write, or version"]
  | command :: rest =>
      if bool_decide (command = commandInspect) then runInspect ctx rest newEngine
      else if bool_decide (command = commandStage) then runStage ctx rest newEngine
      else if bool_decide (command = commandWrite) then runWrite ctx rest newEngine
      else if bool_decide (command = commandVersion) then runVersion rest
      else usageError [Lit "unknown command "; Quoted command]
  end.
End run.

(** ** The production engine: the state is that of the system and that of the staging. *)
Section production.
Context {K H : Type} `{Kernel K H}.
Context (zstd_NewReader : contextReader OsFile -> outcome script).
Context (default_client : Client) (url_ParseRequestURI : string -> outcome URL) (env : StageEnv).

Abbreviation State := (World K * StageState)%type.

Definition on_world {A} (m : M error (World K) A) : M error State A := fun s =>
  let (r, w) := m s.1 in (r, (w, s.2)).
Definition on_stage {A} (m : M error StageState A) : M error State A := fun s =>
  let (r, t) := m s.2 in (r, (s.1, t)).

Definition engine_api (engine : Engine (World K) ImagePointer TargetFile) : engineAPI State := {|
  api_Inspect ctx request := on_world (Engine.Inspect engine ctx request);
  api_Stage ctx request := on_stage (Engine.Stage engine url_ParseRequestURI env ctx request);
  api_Write ctx request := on_world (Engine.Write engine ctx request) |}.

Definition productionFactory : engineFactory State := fun progress =>
  engine_api <$> New zstd_NewReader default_client [Some (WithProgress progress)].

Definition production_calls (s : State) : list Public.Progress := progressCallback s.1.(wo_calls).

(** [main], with the context of the process: the exit status and the final state. *)
Definition main (stdout_error : nat -> option error) (info : Info) (args : list string)
    : Command (S := State) :=
  run production_calls stdout_error info background args productionFactory.
End production.

(** ** Reports and exit codes *)
Definition kind_of (code : Z) : string :=
  if code =? 2 then "usage" else if code =? 3 then "gate" else if code =? 4 then "canceled"
  else "operational".

Section reports.
Context {S : Type}.
Context (calls : S -> list Public.Progress).
Context (stdout_error : nat -> option error).
Context (info : Info).

(** How a command ends: the exit code, and exactly one report, after any progress. *)
Definition reported (st : S * Console) (code : Z) (st' : S * Console) : Prop :=
  exists progress,
    (code = 0 /\ stdout_error (length st.2.(co_stdout)) = None /\
     exists o, st'.2.(co_stdout) = st.2.(co_stdout) ++ [o] /\
       st'.2.(co_stderr) = st.2.(co_stderr) ++ map OProgress progress) \/
    (1 <= code <= 4 /\
     (exists detail, st'.2.(co_stderr) = st.2.(co_stderr) ++ map OProgress progress ++ [OError detail] /\
        detail.(ed_Kind) = kind_of code /\ (is_Some detail.(ed_Code) <-> code = 3)) /\
     (code = 2 -> st'.1 = st.1 /\ st'.2.(co_stdout) = st.2.(co_stdout) /\ progress = [])).

Definition reports (c : Command (S := S)) : Prop :=
  forall st, exists code st', c st = (Some code, st') /\ reported st code st'.

(** A command that runs after the engine was called does not end with a usage error. *)
Definition reports_late (c : Command (S := S)) : Prop :=
  forall st, exists code st', c st = (Some code, st') /\ reported st code st' /\ code <> 2.

Lemma reports_late_reports c : reports_late c -> reports c.
Proof. intros H st. destruct (H st) as (code & st' & ? & ? & _). by exists code, st'. Qed.

(** The report of an error that the engine did not cause. *)
Lemma report_error st code d :
  1 <= code <= 4 -> d.(ed_Kind) = kind_of code -> (is_Some d.(ed_Code) <-> code = 3) ->
  reported st code (st.1, writeError d st.2).
Proof. intros Hc Hk Hs. exists []. right. split; [done|]. split; [|done]. by exists d. Qed.

Lemma no_code_error st code kind msg :
  1 <= code <= 4 -> kind = kind_of code -> code <> 3 ->
  reported st code (st.1, writeError {| ed_Kind := kind; ed_Code := None; ed_Message := msg |} st.2).
Proof. intros Hc -> Hs. apply report_error; [done|done|]. split; [by intros [? ?]|done]. Qed.

Lemma reports_usageError msg : reports (usageError msg).
Proof. intros st. eexists _, _. split; [done|]. by apply no_code_error. Qed.

Lemma reports_operationError err : reports_late (operationError err).
Proof. intros st. eexists _, _. split; [done|]. split; [by apply no_code_error|done]. Qed.

Lemma reports_apiError err : reports_late (apiError err).
Proof.
  intros st. unfold apiError. destruct (as_public_gate err) as [[code msg]|].
  - eexists _, _. split; [done|]. split; [|done]. apply report_error; [done|done|].
    split; [done|]. by eexists.
  - destruct (_ || _); [|apply reports_operationError].
    eexists _, _. split; [done|]. split; [by apply no_code_error|done].
Qed.

Lemma reports_write_stdout what o : reports_late (write_stdout stdout_error what o).
Proof.
  intros st. unfold write_stdout. destruct (stdout_error _) as [err|] eqn:E.
  - destruct (reports_operationError (wrap_error what err) (st.1, print_out o st.2))
      as (code & st' & Ho & (ps & Hr) & Hc).
    exists code, st'. split; [done|]. split; [|done]. exists ps. right.
    destruct Hr as [(-> & _)|(H1 & H2 & _)]; [done|]. split; [done|]. split; [exact H2|done].
  - eexists _, _. split; [done|]. split; [|done]. exists []. left. split; [done|]. split; [done|].
    exists o. cbn. by rewrite app_nil_r.
Qed.

(** Progress that was written before a late command belongs to its report. *)
Lemma reported_progress st s progress code st' :
  reported (s, print_err (map OProgress progress) st.2) code st' -> code <> 2 -> reported st code st'.
Proof.
  intros (ps & H) Hc. exists (progress ++ ps). rewrite map_app. cbn in H.
  destruct H as [(-> & He & o & Ho & Hs)|(Hr & (d & Hd & Hk) & _)]; [left|right].
  - split; [done|]. split; [done|]. exists o. by rewrite Ho, Hs, <- app_assoc.
  - split; [done|]. split; [|by intros ->]. exists d. by rewrite Hd, <- !app_assoc.
Qed.

Lemma reports_call {A} (method : M error S A) (k : A -> Command) :
  (forall s, (method s).1 <> Panic) -> (forall a, reports_late (k a)) ->
  reports_late (call calls method k).
Proof.
  intros Hm Hk st. unfold call. specialize (Hm st.1). destruct (method st.1) as [r s].
  set (progress := drop _ _). cbv zeta. cbn in Hm.
  assert (forall c, reports_late c -> exists code st',
    c (s, print_err (map OProgress progress) st.2) = (Some code, st') /\ reported st code st' /\ code <> 2)
    as Hl.
  { intros c Hc. destruct (Hc (s, print_err (map OProgress progress) st.2)) as (code & st' & E & Hr & ?).
    exists code, st'. split; [done|]. split; [|done]. by eapply reported_progress. }
  destruct r as [a|err|]; [by apply Hl|by apply Hl, reports_apiError|done].
Qed.

Lemma Parse_no_panic flags args : Parse flags args <> Panic.
Proof.
  assert (forall v t, Value_Set v t <> Panic) as Hset.
  { intros [s|z|b] t; cbn; [done| |by destruct (ParseBool t)].
    assert (forall base s acc u, uint_loop base acc u s <> Panic) as Hu.
    { intros base s. induction s as [|c s IH]; intros acc u; cbn [uint_loop]; [done|].
      repeat (case_match; try done; auto). }
    unfold ParseInt0. destruct t as [|c t]; [done|]. intros E.
    destruct (ParseUint0 _) as [un|e|] eqn:Eu; cbn in E.
    - by repeat (case_match; try done).
    - done.
    - unfold ParseUint0 in Eu. destruct (drop_sign _); [done|]. destruct (base_prefix _) as [base ds].
      destruct (uint_loop base 0 false ds) as [n|e|] eqn:El; cbn in Eu; [|done|by apply Hu in El].
      by destruct (_ && _). }
  assert (forall n args, (length args <= n)%nat -> forall flags, Parse flags args <> Panic) as H;
    [|by eapply H].
  clear flags args. induction n as [|n IH]; intros [|s rest] Hn flags; cbn in Hn; try done; [lia|].
  cbn [Parse]. destruct (read_arg s) as [text| | |]; try done.
  destruct (split_flag text) as [name value]. destruct (flags !! name) as [v|].
  - destruct (IsBoolFlag v).
    + destruct (Value_Set v _) eqn:Es; [apply IH; lia|done|by apply Hset in Es].
    + cbv zeta. destruct value as [value|]; [|destruct rest as [|value rest]; [done|]];
        (destruct (Value_Set v value) eqn:Es; [apply IH; cbn in *; lia|done|by apply Hset in Es]).
  - by destruct (_ || _).
Qed.

Lemma reports_parsed flags args name k :
  (forall flags, reports (k flags)) -> reports (parsed flags args name k).
Proof.
  intros Hk. unfold parsed. pose proof (Parse_no_panic flags args) as Hp.
  destruct (Parse flags args) as [[flags' rest]|msg|]; [|apply reports_usageError|done].
  destruct (negb _); [apply reports_usageError|apply Hk].
Qed.

Lemma reports_with_engine engine (k : engineAPI S -> Command) :
  engine <> Panic -> (forall e, engine = Ok e -> reports_late (k e)) ->
  reports_late (with_engine engine k).
Proof.
  intros Hp Hk. unfold with_engine. destruct engine as [e|err|]; [by apply Hk|apply reports_operationError|done].
Qed.

(** An engine whose methods do not panic. *)
Record calm (newEngine : engineFactory S) : Prop := {
  calm_new progress : newEngine progress <> Panic;
  calm_inspect progress e ctx rq s : newEngine progress = Ok e -> (api_Inspect e ctx rq s).1 <> Panic;
  calm_stage progress e ctx rq s : newEngine progress = Ok e -> (api_Stage e ctx rq s).1 <> Panic;
  calm_write progress e ctx rq s : newEngine progress = Ok e -> (api_Write e ctx rq s).1 <> Panic }.

Lemma StagedImage_Close_no_panic staged : (StagedImage_Close staged).1 <> Panic.
Proof.
  destruct staged as [[? ? ? ? [[? ? ? ? [f|]]|]]|]; try done. cbn.
  unfold file_Close. cbn. by destruct (fe_close _).
Qed.

(** C15: Every run of the command line ends with exactly one report, for any arguments and any engine
    that does not panic: the exit code is between 0 and 4; with 0 the result is written to stdout
    and no error to stderr; with any other code the last thing on stderr is one error object,
    whose kind is the one of the code and which names a gate exactly when the code is 3, after
    nothing but progress; and a usage error (2) leaves the engine and stdout untouched. *)
Theorem run_reports ctx args newEngine st (Hcalm : calm newEngine) :
  exists code st', run calls stdout_error info ctx args newEngine st = (Some code, st') /\
    reported st code st'.
Proof.
  revert st. change (reports (run calls stdout_error info ctx args newEngine)).
  destruct Hcalm as [Hn Hi Hs Hw]. unfold run. destruct args as [|command rest]; [apply reports_usageError|].
  repeat case_bool_decide; [..|apply reports_usageError]; apply reports_parsed; intros flags.
  - apply reports_late_reports, reports_with_engine; [apply Hn|]. intros e He.
    apply reports_call; [intros s; by eapply Hi|]. intros a. apply reports_write_stdout.
  - apply reports_late_reports, reports_with_engine; [apply Hn|]. intros e He.
    apply reports_call; [intros s; by eapply Hs|]. intros a.
    pose proof (StagedImage_Close_no_panic (Some a)) as Hc.
    destruct (StagedImage_Close (Some a)) as [[u|err|] after]; [|apply reports_operationError|done].
    apply reports_write_stdout.
  - apply reports_late_reports, reports_with_engine; [apply Hn|]. intros e He.
    apply reports_call; [intros s; by eapply Hw|]. intros a. apply reports_write_stdout.
  - apply reports_late_reports. destruct (bool_value flags "json"); apply reports_write_stdout.
Qed.
End reports.

(** ** Arguments that give back a request *)
Definition write_args (r : WriteRequest) : list string :=
  ["--" +:+ "mode"; r.(wr_Mode); "--" +:+ "target"; r.(wr_TargetPath); "--" +:+ "image"; r.(wr_ImagePath);
   "--" +:+ "sha256"; r.(wr_SHA256); "--" +:+ "expected-bytes"; format_int r.(wr_ExpectedBytes);
   "--" +:+ "confirmation"; r.(wr_Confirmation); "--" +:+ "reboot" +:+ bool_suffix r.(wr_Reboot);
   "--" +:+ "dry-run" +:+ bool_suffix r.(wr_DryRun)].

(** C16: Every write request can be given on the command line: the arguments that spell it out, with any
    strings at all as values, leading hyphens and equals signs included, are parsed back to the
    same request, without positional arguments. *)
Theorem write_args_roundtrip r (Hbytes : int64_range r.(wr_ExpectedBytes)) :
  exists flags, Parse writeFlagSet (write_args r) = Ok (flags, []) /\ flags_writeRequest flags = r.
Proof.
  unfold write_args.
  erewrite (Parse_value _ "mode" _ _ (StringValue r.(wr_Mode))) by done.
  erewrite (Parse_value _ "target" _ _ (StringValue r.(wr_TargetPath))) by done.
  erewrite (Parse_value _ "image" _ _ (StringValue r.(wr_ImagePath))) by done.
  erewrite (Parse_value _ "sha256" _ _ (StringValue r.(wr_SHA256))) by done.
  erewrite (Parse_value _ "expected-bytes" _ _ (Int64Value r.(wr_ExpectedBytes)));
    [|done|done|done|cbn; by rewrite ParseInt0_format].
  erewrite (Parse_value _ "confirmation" _ _ (StringValue r.(wr_Confirmation))) by done.
  erewrite (Parse_bool _ "reboot" _ r.(wr_Reboot)) by done.
  erewrite (Parse_bool _ "dry-run" _ r.(wr_DryRun)) by done.
  eexists. split; [done|]. by destruct r.
Qed.

(** The integers of a parsed flag set are in range. *)
Definition in_range_value (v : FlagValue) : Prop :=
  match v with Int64Value z => int64_range z | _ => True end.

Lemma Value_Set_range v text v' : Value_Set v text = Ok v' -> in_range_value v'.
Proof.
  destruct v; cbn; [by intros [= <-]| |].
  - destruct (ParseInt0 text) as [z'|e|] eqn:E; [|done..]. intros [= <-]. by eapply ParseInt0_range.
  - destruct (ParseBool text); [by intros [= <-]|done].
Qed.

Lemma Parse_range args flags flags' rest :
  map_Forall (fun _ => in_range_value) flags -> Parse flags args = Ok (flags', rest) ->
  map_Forall (fun _ => in_range_value) flags'.
Proof.
  assert (forall n args, (length args <= n)%nat -> forall flags,
    map_Forall (fun _ => in_range_value) flags -> Parse flags args = Ok (flags', rest) ->
    map_Forall (fun _ => in_range_value) flags') as H; [|by eapply H].
  clear args flags. induction n as [|n IH]; intros [|s more] Hn flags Hf; cbn in Hn; try lia;
    [by intros [= <- _]|by intros [= <- _]|].
  cbn [Parse]. destruct (read_arg s) as [text| | |]; [|by intros [= <- _]|by intros [= <- _]|done].
  destruct (split_flag text) as [name value]. destruct (flags !! name) as [v|]; [|by destruct (_ || _)].
  assert (forall t v', Value_Set v t = Ok v' ->
    map_Forall (fun _ => in_range_value) (<[name := v']> flags)) as Hi.
  { intros t v' Hv. apply map_Forall_insert_2; [by eapply Value_Set_range|done]. }
  destruct (IsBoolFlag v).
  - destruct (Value_Set v _) eqn:Es; [apply IH; [lia|by eapply Hi]|done..].
  - cbv zeta. destruct value as [value|]; [|destruct more as [|value more]; [done|]];
      (destruct (Value_Set v value) eqn:Es; [apply IH; [cbn in *; lia|by eapply Hi]|done..]).
Qed.

Lemma writeFlagSet_range : map_Forall (fun _ => in_range_value) writeFlagSet.
Proof. unfold writeFlagSet, newCommonFlagSet. repeat apply map_Forall_insert_2; done. Qed.

Lemma int64_value_range flags name :
  map_Forall (fun _ => in_range_value) flags -> int64_range (int64_value flags name).
Proof.
  intros H. unfold int64_value. destruct (flags !! name) as [[s|z|b]|] eqn:E; try done.
  exact (H _ _ E).
Qed.

(** ** The whole program *)
Section whole.
Context {K H : Type} `{Kernel K H}.
Context (zstd_NewReader : contextReader OsFile -> outcome script).
Context (default_client : Client) (url_ParseRequestURI : string -> outcome URL) (env : StageEnv).
Context (stdout_error : nat -> option error) (info : Info).

Abbreviation program := (main zstd_NewReader default_client url_ParseRequestURI env stdout_error info).

Lemma call_success {S A} (calls : S -> list Public.Progress) (method : M error S A) k st st' :
  call calls method k st = (Some exitSuccess, st') ->
  exists a s con, method st.1 = (Ok a, s) /\ k a (s, con) = (Some exitSuccess, st').
Proof.
  unfold call. destruct (method st.1) as [[a|err|] s]; cbv zeta; [by eauto 10| |done].
  unfold apiError. destruct (as_public_gate err) as [[? ?]|]; [done|]. by destruct (_ || _).
Qed.

Lemma write_stdout_state {S} out (what : string) o (st : S * Console) code st' :
  write_stdout out what o st = (code, st') -> st'.1 = st.1.
Proof. unfold write_stdout. destruct (out _); by intros [= _ <-]. Qed.

Lemma parsed_success {S} flags args name (k : FlagSet -> Command (S := S)) st st' :
  parsed flags args name k st = (Some exitSuccess, st') ->
  exists flags', Parse flags args = Ok (flags', []) /\ k flags' st = (Some exitSuccess, st').
Proof.
  unfold parsed. destruct (Parse flags args) as [[flags' rest]|msg|]; [|done..].
  destruct rest; [|done]. by eexists.
Qed.

Lemma New_production progress :
  exists engine, New zstd_NewReader default_client [Some (WithProgress progress)] = Ok engine /\
    engine.(en_system) = system_boundary zstd_NewReader DefaultSystem.
Proof. eexists. by split. Qed.

(** C1: The whole program, from the command line to the disk: when [diskforge write] ends with exit code
    0, its arguments gave a well-formed request; and unless that was a dry run, the program opened
    exactly one target, which it had inspected and validated under the confirmed identity, and
    which now durably holds the whole expanded image, of exactly the requested length, of a source
    that had the requested digest in full just before the transfer. *)
Theorem write_command_end_to_end args st st'
    (Hrun : program (commandWrite :: args) st = (Some exitSuccess, st')) :
  exists flags, Parse writeFlagSet args = Ok (flags, []) /\
    let request := flags_writeRequest flags in
    write_request_ok request /\
    (request.(wr_DryRun) = false ->
     exists inspection k1 v file k2 fd k3 held reader image target,
       System.Inspect DefaultSystem (linuxWriteRequest request) st.1.1.(wo_kernel) = (Ok inspection, k1) /\
       request.(wr_Confirmation) = inspection.(ins_ConfirmationToken) /\
       v.(v_SHA256) = request.(wr_SHA256) /\ v.(v_file) = Some file /\
       opened_and_validated DefaultSystem request.(wr_TargetPath) request.(wr_Mode)
         inspection.(ins_Target) k2 fd k3 /\
       reverified v file held.(cr_reader) /\ expanded_by zstd_NewReader v held reader /\
       whole_image reader image /\ Z.of_nat (length image) = request.(wr_ExpectedBytes) /\
       st'.1.1.(wo_targets) = st.1.1.(wo_targets) ++ [target] /\
       of_written target = image /\ of_durable target = image).
Proof.
  unfold main, run in Hrun. rewrite !bool_decide_eq_false_2, bool_decide_eq_true_2 in Hrun by done.
  apply parsed_success in Hrun as (flags & Hp & Hrun). exists flags. split; [done|].
  cbv zeta. destruct (New_production true) as (engine & Hn & Hsys).
  unfold with_engine, productionFactory in Hrun. rewrite Hn in Hrun. cbn [fmap] in Hrun.
  apply call_success in Hrun as (result & s & con & Hw & Ho).
  apply write_stdout_state in Ho. cbn [fst] in Ho. subst s.
  cbn [engine_api api_Write] in Hw. unfold on_world in Hw.
  destruct (Engine.Write engine _ _ _) as [r w1] eqn:E. injection Hw as -> Hs.
  assert (validateWriteRequest (flags_writeRequest flags) = Ok tt) as Hv.
  { unfold Engine.Write in E. apply M_bind_ok in E as (c & w2 & _ & E).
    apply M_bind_ok in E as ([] & w3 & [Hv _]%lift_ok & _). done. }
  split; [by apply validateWriteRequest_ok|]. intros Hdry.
  apply (Write_executes engine) in E as (_ & c & rs & He & _); [|done].
  rewrite Hsys in He. apply (Execute_writes zstd_NewReader DefaultSystem) in He
    as (_ & inspection & k1 & v & file & k2 & fd & k3 & held & reader & image & target & H1 & H2 & _ &
        H3 & H4 & H5 & H6 & H7 & H8 & H9 & H10 & H11 & H12).
  2: { apply (int64_value_range flags "expected-bytes"). eapply Parse_range, Hp.
       apply writeFlagSet_range. }
  exists inspection, k1, v, file, k2, fd, k3, held, reader, image, target. rewrite <- Hs.
  by split_and!.
Qed.
End whole.

(** ** Concrete inputs: the program on the small machine of [System.v] *)
Definition example_ParseRequestURI (s : string) : outcome URL :=
  inr {| url_Scheme := "https"; url_Host := "example"; url_User := false |}.
Definition example_info : Info :=
  Current defaults {| rt_Version := "go1.25"; rt_GOOS := "linux"; rt_GOARCH := "amd64" |}.
Definition example_state : World Machine * StageState * Console :=
  (machine_world, Stage.fresh (<["/run/image.zst" := Old [1; 2]]> ∅),
   {| co_stdout := []; co_stderr := [] |}).

Abbreviation machine_main stdout_error args :=
  (main (H0 := machine) example_decoder example_client example_ParseRequestURI example_stage_env
    stdout_error example_info args example_state).

Definition rescue_write : WriteRequest := {|
  wr_Mode := "rescue"; wr_TargetPath := rescue_request.(rq_TargetPath);
  wr_ImagePath := rescue_request.(rq_ImagePath); wr_SHA256 := rescue_request.(rq_SHA256);
  wr_ExpectedBytes := 9; wr_Confirmation := rescue_request.(rq_Confirmation);
  wr_Reboot := false; wr_DryRun := false |}.

Example main_examples :
  (machine_main (fun _ => None) []).1 = Some exitUsage /\
  (machine_main (fun _ => None) ["erase"]).1 = Some exitUsage /\
  (machine_main (fun _ => None) [commandWrite; "--bytes"; "9"]).1 = Some exitUsage /\
  (machine_main (fun _ => None) [commandVersion; "--json"]).1 = Some exitSuccess /\
  (machine_main (fun _ => Some (Opaque "broken pipe")) [commandVersion]).1 = Some exitOperational /\
  (machine_main (fun _ => None) (commandWrite :: write_args rescue_write)).1 = Some exitSuccess.
Proof. vm_compute. auto 10. Qed.

(** A wrong confirmation is a gate, exit code 3, and nothing is opened. *)
Example main_refused :
  let request := {|
    wr_Mode := rescue_write.(wr_Mode); wr_TargetPath := rescue_write.(wr_TargetPath);
    wr_ImagePath := rescue_write.(wr_ImagePath); wr_SHA256 := rescue_write.(wr_SHA256);
    wr_ExpectedBytes := 9; wr_Confirmation := "yes"; wr_Reboot := false; wr_DryRun := false |} in
  let (code, st) := machine_main (fun _ => None) (commandWrite :: write_args request) in
  code = Some exitGate /\ st.1.1.(wo_targets) = [].
Proof. vm_compute. auto. Qed.

Lemma machine_main_writes :
  exists st', machine_main (fun _ => None) (commandWrite :: write_args rescue_write)
              = (Some exitSuccess, st').
Proof.
  assert ((machine_main (fun _ => None) (commandWrite :: write_args rescue_write)).1 = Some exitSuccess)
    as E by (vm_compute; reflexivity).
  destruct (machine_main _ _) as [code st']. exists st'. cbn in E. by rewrite E.
Qed.

Lemma rescue_write_real : forall flags,
  Parse writeFlagSet (write_args rescue_write) = Ok (flags, []) ->
  wr_DryRun (flags_writeRequest flags) = false /\ wr_ExpectedBytes (flags_writeRequest flags) = 9.
Proof.
  assert (match Parse writeFlagSet (write_args rescue_write) with
          | Ok (flags, _) => wr_DryRun (flags_writeRequest flags) = false /\
                             wr_ExpectedBytes (flags_writeRequest flags) = 9
          | _ => False
          end) as Hp by (vm_compute; auto).
  intros flags E. by rewrite E in Hp.
Qed.

Lemma write_command_end_to_end_witness :
  exists st' target,
    machine_main (fun _ => None) (commandWrite :: write_args rescue_write) = (Some exitSuccess, st') /\
    st'.1.1.(wo_targets) = [target] /\ length (of_durable target) = 9%nat.
Proof.
  destruct machine_main_writes as (st' & E).
  destruct (write_command_end_to_end (H0 := machine) example_decoder example_client
    example_ParseRequestURI example_stage_env (fun _ => None) example_info (write_args rescue_write)
    example_state st' E) as (flags & Hp & _ & Hw).
  destruct (rescue_write_real flags Hp) as [Hd H9].
  destruct (Hw Hd) as (inspection & k1 & v & file & k2 & fd & k3 & held & reader & image & target &
    _ & _ & _ & _ & _ & _ & _ & _ & Hlen & Ht & _ & Hdur).
  exists st', target. split; [exact E|]. split; [exact Ht|]. rewrite Hdur. lia.
Defined.

Lemma write_args_roundtrip_witness :
  int64_range 9 /\ exists flags,
    Parse writeFlagSet (write_args (example_write_request true)) = Ok (flags, []) /\
    flags_writeRequest flags = example_write_request true.
Proof.
  assert (int64_range 9) as H by (split; discriminate).
  split; [exact H|]. exact (write_args_roundtrip (example_write_request true) H).
Defined.

(** An engine that always answers, and one that cannot be made. *)
Definition fixed_engine (answer : result error WriteResult) : engineAPI unit := {|
  api_Inspect _ _ s := (Err (Opaque "not found"), s);
  api_Stage _ _ s := (Err (Sentinel ContextCanceled), s);
  api_Write _ _ s := (answer, s) |}.

Lemma fixed_calm answer : answer <> Panic -> calm (fun _ => Ok (fixed_engine answer)).
Proof. intros Ha. split; try done; intros progress e ctx rq s [= <-]; done. Qed.

Lemma run_reports_witness :
  let newEngine : engineFactory unit := fun _ => Ok (fixed_engine (Err (Opaque "busy"))) in
  exists code st', run (fun _ => []) (fun _ => None) example_info background
      (commandWrite :: write_args (example_write_request true)) newEngine
      (tt, {| co_stdout := []; co_stderr := [] |}) = (Some code, st') /\
    reported (fun _ => None) (tt, {| co_stdout := []; co_stderr := [] |}) code st'.
Proof.
  cbv zeta. apply run_reports. apply fixed_calm. discriminate.
Defined.

Example run_codes :
  let newEngine : engineFactory unit := fun _ => Ok (fixed_engine (Err (Opaque "busy"))) in
  let code args := (run (fun _ => []) (fun _ => None) example_info background args newEngine
    (tt, {| co_stdout := []; co_stderr := [] |})).1 in
  code (commandWrite :: write_args (example_write_request true)) = Some exitOperational /\
  code [commandStage] = Some exitCanceled /\ code [commandInspect; "stray"] = Some exitUsage.
Proof. vm_compute. auto. Qed.
